(* ===== verification/_CoqProject ===== *)
-Q . S2P
Prelude.v
GoErrors.v
Types.v
SortedSet.v
Externals.v
EthClient.v
Batch.v
BlockTracker.v
PollUtils.v
PollPolicy.v
Poller.v
PollerSpec.v
PollRun.v
PollHonest.v
DemoChain.v
PollerProps.v
PollerMemory.v
PollerFailures.v
PollerExamples.v
DataGateway.v
FileGateway.v
EmitterBlocks.v
Emitter.v
EmitterProps.v
EngineStates.v
MetadataTracker.v
Engine.v
EngineSpec.v
EngineProps.v
EngineRuns.v
EngineArtifacts.v
EmitterClient.v
Watcher.v
EmitterExamples.v
EngineExamples.v
EngineLoop.v
System.v
SystemLemmas.v
SystemProps.v
SystemRuns.v
SystemLive.v
SystemExamples.v
Components.v
ComponentsProps.v
ComponentsExamples.v
ReorgBlocks.v
ReorgChains.v
ReorgMoves.v
ReorgForks.v
ReorgProps.v
ReorgSim.v
ReorgSimStates.v
ReorgSimProps.v
ReorgSimExit.v
ReorgSimPoll.v
ReorgUtils.v
ReorgFiles.v
TestUtils.v
TestCases.v
MockPoller.v
ReorgExamples.v
ServiceTest.v
ServiceTestExamples.v
DemoData.v
PoolGateway.v
RedisGateway.v
PoolFactory.v
DemoArtifacts.v
PoolFactoryProps.v
Router.v
RouterProps.v
EnsGateway.v
EnsEngine.v
EnsProps.v
DemoMain.v
DemoMainProps.v
DemoService.v
DemoWatcher.v
DemoExamples.v
EasyWatcher.v
