(* ===== verification/Prelude.v ===== *)
(** * superwatcher in Rocq

    superwatcher (Go) watches an Ethereum chain for a service: it polls event logs, finds
    out when blocks were reorganised away, and calls the service so that every block is
    done once and a reorganised block is undone once.  The repository also has a simulator
    of reorganised chains (pkg/reorgsim), with which services are tested.  This development
    models the program's own logic and proves what makes it correct.

    ** The program and the files that model it

    Data and outside.
    - [Prelude]: uint64 and int64 arithmetic with wrap-around, the [outcome] monad (a
      value, a panic, or no return), loops with fuel, list lemmas, hints and tactics.
    - [GoErrors]: errors.go, datagateway.go, internal/*/errors.go.  An error is a value of
      an inductive type; [error_is] is errors.Is, which follows errors.Wrap.
    - [Types]: block.go, poll_result.go, emitter_poller.go, config.go.  A slice that the code
      compares with nil is a [goslice].
    - [SortedSet], [Externals]: type classes for code that is not in the repository: the
      sorted set of github.com/wangjia184/sortedset, gsl (Min, Max, Contains,
      WaitAndCollectErrors), hash texts and go-ethereum's hexadecimal numbers.  Their laws
      are the documented behaviour; each class has an instance, which the witnesses use.
    - [EthClient], [Batch]: ethclient.go, pkg/batch/batch.go and
      internal/poller/header_by_number_batch.go.  The client is any type with the class
      [EthClient]; its calls get a state and give the next one with their answer.
      big.Int.Uint64 is the low 64 bits of the absolute value.

    The poller (internal/poller).
    - [BlockTracker]: tracker.go.  [PollUtils]: utils.go (collectLogs, collectHeaders).
      [PollPolicy]: poll_policy.go and poll.  [Poller]: poller.go and poll.go; [Poll] composes
      pollMissing, findReorg and processResult as the source does.
    - [PollerSpec], [PollRun], [PollHonest]: what each stage of Poll does entry by entry; how
      every run of Poll with a result looks; the reference poll on a client that has one
      view of the chain ([honest], or [honest_on] some of the queries).
    - [PollerProps], [PollerMemory], [PollerFailures]: the properties.  [DemoChain],
      [PollerExamples]: a concrete chain with a fork, and witnesses.

    The emitter (internal/emitter).
    - [EmitterBlocks]: blocknum_utils.go and the function computeFromBlockToBlock.
    - [Emitter]: loop_emit.go, emit.go, emitter.go.  One turn of loopEmit is the function
      [loop_turn]; Loop is the step relation [emitter_step], whose steps may be separated by
      any change of the world, and [emitter_reach] is reachability.  What the emitter sends is
      a list of events.  The variable status of loopEmit and the status of Loop alias until
      updateStatus replaces the pointer: [statusVar].
    - [EmitterProps]: the plan of a turn ([next_plan]) and the properties.  The class
      [EmitterEnv] is what the emitter needs of gateway, client and poller; [Watcher]
      implements it with the real poller, and has the properties of both together.  [EmitterExamples]: witnesses.

    The engine (internal/engine) and its ends.
    - [DataGateway]: datagateway.go and the in-memory gateway of pkg/components/mock.
      [FileGateway]: the gateway of pkg/components/mock that keeps its value in a file, whose
      path names a decimal text or nothing.
    - [EngineStates]: block_metadata_states.go.  [MetadataTracker]: block_metadata.go and
      block_metadata_tracker.go; metadata are references into a heap, since the engine
      writes through the pointers that the tracker holds.
    - [Engine]: handle_results.go; [handle_result] is one turn, [handleResults] the loop over
      the results the emitter sends.  The service is any type with the class
      [ServiceEngine].
    - [EngineSpec], [EngineProps], [EngineRuns]: what each pass of a turn does to the known
      blocks, the contract of a turn, and runs.  [EngineArtifacts]: what becomes of the
      artifacts that the service returns.  [EngineExamples]: witnesses.
    - [EmitterClient]: internal/emitterclient, and handle_results.go of internal/thinengine.

    The whole watcher.
    - [System]: one turn of emitter, poller and engine together, and histories of turns, in
      between which the chain may change ([history]).  [SystemLemmas], [SystemProps],
      [SystemRuns], [SystemLive]: the invariant of histories, one turn, whole histories, and
      a chain at rest.  [SystemExamples]: witnesses.
    - [EngineLoop]: engine.go's Loop and superwatcher_impl.go's Run: the goroutines of emitter
      and engine as an interleaving step relation ([loop_step]) over unbuffered channels, for
      any engine of the class [EngineSide].
    - [Components]: pkg/components: the options, the constructors and the methods of
      superWatcher that act on the poller.  [ComponentsProps], [ComponentsExamples]: what
      the constructors wire, and witnesses, also those of [EngineLoop].

    The simulator (pkg/reorgsim).
    - [ReorgBlocks]: block.go, hash.go, chain.go and the validation of events.  Chains are maps
      to references into a heap of blocks, because chains share blocks and moving logs
      writes to them.
    - [ReorgChains], [ReorgMoves], [ReorgForks]: the reference (forking and moving on plain
      maps without sharing), and what forking, moving and the loop over the events do to
      the blocks of the heap.  [ReorgProps]: the equivalence, and that chains are well formed.
    - [ReorgSim]: reorgsim.go and reorgsim_ethclient_impl.go; the simulator is an instance of
      the class [EthClient] ([Sim_EthClient]).  [ReorgSimStates]: what its states are;
      [ReorgSimProps], [ReorgSimExit]: its answers and its end; [ReorgSimPoll]: the poller on
      it.
    - [ReorgUtils]: utils.go (MapLogsToNumber, LogsReorgPaths).  [ReorgFiles]: simulators made
      from files of logs.  [TestCases]: the test cases of testlogs/cases*.go, with the places of
      the logs of their files.  [TestUtils]: pkg/testutils.  [MockPoller]:
      pkg/components/mock/mock_poller.go.  [ReorgExamples]: witnesses.
    - [ServiceTest]: pkg/servicetest: the components of a test, the whole watcher on the
      simulator, RunService as a step relation ([test_step]) around that of [EngineLoop], and
      the debugging service.  The goroutine that turns off the headers is taken to run at
      once; no poll reads that flag ([Poll_ignores_doHeader]).  [ServiceTestExamples]:
      witnesses.

    The example service (examples/demoservice).
    - [DemoData]: the entities, artifacts (a Go map in an artifact is a reference into a heap),
      write logs, and classes for go-ethereum's texts and ABI decoding.  [DemoEngine] is the
      class of service engines of the example: a value and the world that its methods change.
    - [PoolGateway], [EnsGateway]: the repositories of pools and names, on Redis and in the
      memory of tests, with the laws of a repository as classes; [RedisGateway]: the state data
      gateway on Redis.  The order of a range over a map is the class [MapOrder].
    - [PoolFactory]: the sub-engine of the Uniswap factory; [PoolFactoryProps]: its properties.
      [EnsEngine], [EnsProps]: the sub-engine of the ENS contracts.  [DemoArtifacts]: how both
      group artifacts by block hash and get them back.
    - [Router]: routerengine; [demo_ServiceEngine_of] makes a demo engine a service of
      superwatcher.  [RouterProps]: the reference, and that the router refines it.
    - [DemoMain]: hardcode, the test suites, NewMockRouter, cmd/main.go up to Run and
      cmd/demofunc.go; [DemoMainProps]: routes, services and watcher.  [DemoService]: the
      router with both sub-engines.  [DemoWatcher]: the engine with all of this behind it.
      [DemoExamples]: witnesses.
    - [EasyWatcher]: the thin engine as an instance of [EngineSide], and examples/easywatcher,
      with their witnesses.

    ** What the theorems show

    The whole watcher.  [service_follows_chain]: after any history, a turn leaves every
    polled block with logs done and every remembered block that was replaced undone.
    [system_turn_handled]: a turn never panics on an honest client and makes the reference
    calls.  [watcher_catches_up]: on a chain at rest the head is reached in a known number of
    turns.  [loops_refine_turns]: interleaving the goroutines makes no difference to that.
    [NewSuperWatcherDefault_starts]: the constructor makes a watcher to which all this
    applies.

    Poller.  [Poll_refines_reference]: on an honest client Poll always returns, with the
    result, error and memory of the reference poll.  Whatever the client answers, a result
    has the right blocks in order ([Poll_blocks_in_order]), with their logs and only them
    ([Poll_good_logs]), its reorged blocks are exactly the remembered ones that differ
    ([Poll_reorged_iff]), LastGoodBlock is in bounds ([Poll_LastGood]), a failed poll is
    atomic ([Poll_error_atomic]), and the poller stays well formed ([Poll_keeps_poller],
    [Poll_fast_remembers_logs]).  A reorg is reported once ([Poll_reports_once]).

    Emitter.  Every branch of a turn ([turn_good] and the others), the invariant of all
    reachable states ([emitter_invariant]), coverage of normal polling
    ([normal_polling_covers]) and the bound of going back ([reorg_go_backs_bounded]).  With
    the poller: [watcher_turn_emits_reference].

    Engine.  A turn makes the reference calls in order ([engine_handles_result]); over any
    run a block is done at most once and undone only after that ([engine_serves_once]); the
    states of a block go one way ([block_life_goes_one_way]); and what the service returned
    for a block comes back when the block is reorged ([engine_gives_artifacts_back]).

    Simulator.  The heap of shared blocks says what forking plain maps says, and NewBlockChain
    returns exactly when the moves find their blocks and logs there
    ([NewBlockChain_matches_reference]), as those of the repository's test cases do
    ([test_cases_simulate]); every chain is well formed
    ([NewBlockChain_chains_ok]), the answers are those of the current chain
    ([simulator_serves_reference]), calls come to an end ([simulator_exits]), and a poller on it
    reports the simulated reorg ([Poll_on_simulator]).  A service on the simulator follows the
    simulated reorgs ([service_follows_simulation]), and its test ends ([service_test_ends]).

    Example service.  Every log reaches the one engine whose contract it is an event of
    ([router_partitions], [demo_services_routed]), and the router's handlers refine calling the
    engines one after the other ([router_serves]).  With both sub-engines
    behind the router and the router behind the engine, a reorg leaves the repositories with
    what the new chain brings, up to the pools that stay ([demo_service_follows_reorg]; for the
    router alone [demo_router_round_trip], for the ENS engine [ens_names_come_and_go], for the
    pool engine [pool_good_blocks]), and the Redis gateway keeps the contract that the emitter
    needs ([redis_gateway_refines]).  The easy watcher records what the
    poller found ([easywatcher_records]).

    Behaviour that the source's comments do not promise, or that is a defect, is proved as
    the code has it: panics ([Poll_no_reorg_panics], [watcher_panics_on_split_logs],
    [engine_panics_on_unknown_reorg]), a loop without end ([Poll_from_zero_diverges]), a
    watcher, an engine and a test that hang ([engine_failure_hangs],
    [thin_engine_outlives_emitter], [RunService_only_exits]), reorgs that are not found
    ([deep_reorg_missed], [options_without_range_never_report], [demo_main_blind]), pools that stay
    ([only_last_pool_reverted]) and unused data
    ([engine_good_artifacts_nil], [Poll_ignores_doHeader]).

    ** Fuel, bounds and concurrency

    A loop over block numbers gets [range_fuel], one more than the numbers of the range, and
    a loop that empties a sorted set its node count; the theorems show that this is enough
    (Poll returns), except for the countdown to 0 of pollMissing, where no fuel is.  An
    [outcome] of [Diverge] is a loop that does not end or a receive that nothing answers.
    Ranges are required to end below 2^63 ([range_ok], [numbers_ok]) where the source
    converts to int64.
    The mutexes of poller, gateway and simulator make their methods atomic.  The two
    goroutines of pollExpensive may call the client in either order: every theorem about Poll
    holds for both ([logsFirst]).  In [EngineLoop] a handler runs from its receive to its next
    channel operation without interruption, which is sound because the goroutines share
    nothing but channels and the gateway between them.
    The texts of panics and of wrapped errors are abbreviated; nothing reads them.

    ** Not modelled

    Log output (pkg/logger) and the methods that make JSON texts for it; dialling a node
    (NewEthClient) and Redis, reading the configuration and signals in the commands; the
    contents of the test logs other than their places.  The generated contract bindings and the
    tests are left out, and so is .bak, a directory of replaced sources that nothing builds. *)

From Stdlib Require Export ZArith Lia Sorted.
From stdpp Require Export base gmap strings list pretty numbers sorting.
Export list_basics.list list_relations.list list_misc.list.

(** * Machine integers *)

(** A [uint64] is a [Z]; the operations below wrap as the Go operators do. *)
Abbreviation two63 := 9223372036854775808%Z (only parsing).
Abbreviation two64 := 18446744073709551616%Z (only parsing).

Definition is_u64 (z : Z) : Prop := (0 ≤ z < two64)%Z.
Definition wrap64 (z : Z) : Z := (z mod two64)%Z.
Definition u64_add (a b : Z) : Z := wrap64 (a + b).
Definition u64_sub (a b : Z) : Z := wrap64 (a - b).
Definition u64_mul (a b : Z) : Z := wrap64 (a * b).

(** The low 64 bits of the absolute value: big.Int's Uint64. *)
Definition big_Uint64 (z : Z) : Z := wrap64 (Z.abs z).

(** The conversion [int64(x)] of a [uint64]. *)
Definition to_int64 (z : Z) : Z := (if z <? two63 then z else z - two64)%Z.

Declare Scope go_scope.
Delimit Scope go_scope with go.
Notation "a +₆₄ b" := (u64_add a b) (at level 50, left associativity) : go_scope.
Notation "a -₆₄ b" := (u64_sub a b) (at level 50, left associativity) : go_scope.
Notation "a *₆₄ b" := (u64_mul a b) (at level 40, left associativity) : go_scope.
Open Scope go_scope.

(** [u64_lia] proves linear facts about wrapping arithmetic. *)
Ltac u64_unfold := unfold u64_add, u64_sub, u64_mul, wrap64, to_int64, is_u64 in *.
Ltac u64_lia := u64_unfold; Z.to_euclidean_division_equations; lia.

Section u64.
Local Open Scope Z_scope.

Lemma wrap64_small z : is_u64 z → wrap64 z = z.
Proof. intros ?. apply Z.mod_small. done. Qed.

Lemma wrap64_u64 z : is_u64 (wrap64 z).
Proof. apply Z.mod_pos_bound. lia. Qed.

Lemma u64_add_small a b : is_u64 (a + b) → a +₆₄ b = a + b.
Proof. apply wrap64_small. Qed.

Lemma u64_sub_small a b : is_u64 (a - b) → a -₆₄ b = a - b.
Proof. apply wrap64_small. Qed.

Lemma u64_mul_small a b : is_u64 (a * b) → a *₆₄ b = a * b.
Proof. apply wrap64_small. Qed.

Lemma u64_sub_under a b : 0 ≤ a → a < b → b < two64 → a -₆₄ b = a - b + two64.
Proof. u64_lia. Qed.

Lemma to_int64_small z : 0 ≤ z < two63 → to_int64 z = z.
Proof. unfold to_int64. intros. destruct (Z.ltb_spec z two63); lia. Qed.

Lemma to_int64_inj a b : is_u64 a → is_u64 b → to_int64 a = to_int64 b → a = b.
Proof.
  unfold to_int64, is_u64. intros.
  destruct (Z.ltb_spec a two63), (Z.ltb_spec b two63); lia.
Qed.
End u64.

(** * Running Go code *)

(** [Panic] is a Go panic (the process dies); [Diverge] is a loop that the
    fuel of its definition does not reach the end of. *)
Inductive outcome (A : Type) : Type :=
  | Ret (a : A)
  | Panic (msg : string)
  | Diverge.
Arguments Ret {A} a.
Arguments Panic {A} msg.
Arguments Diverge {A}.

#[export] Instance outcome_ret : MRet outcome := @Ret.
#[export] Instance outcome_bind : MBind outcome := λ A B f m,
  match m with Ret a => f a | Panic s => Panic s | Diverge => Diverge end.
#[export] Instance outcome_fmap : FMap outcome := λ A B f m,
  match m with Ret a => Ret (f a) | Panic s => Panic s | Diverge => Diverge end.

Definition returns {A} (m : outcome A) : Prop := ∃ a, m = Ret a.

(** l[i] for an int i. *)
Definition index_at {A} (l : list A) (i : Z) : outcome A :=
  if (i <? 0)%Z then Panic "index out of range"
  else match l !! Z.to_nat i with Some x => Ret x | None => Panic "index out of range" end.

Lemma index_at_nat {A} (l : list A) (i : nat) x : l !! i = Some x → index_at l (Z.of_nat i) = Ret x.
Proof.
  intros Hi. unfold index_at. destruct (Z.ltb_spec (Z.of_nat i) 0); [lia|].
  by rewrite Nat2Z.id, Hi.
Qed.

Lemma bind_Ret {A B} (f : A → outcome B) a : Ret a ≫= f = f a.
Proof. done. Qed.

Lemma bind_Ret_inv {A B} (f : A → outcome B) m b :
  m ≫= f = Ret b ↔ ∃ a, m = Ret a ∧ f a = Ret b.
Proof. destruct m; naive_solver. Qed.

(** ** Counting loops *)

(** [for n := n; n <= to; n++ { body }] on [uint64].  The body goes on with a
    new state ([inl]) or returns early from the function ([inr]). *)
Fixpoint for_up {S R} (fuel : nat) (n to : Z) (body : Z → S → outcome (S + R))
    (s : S) : outcome (S + R) :=
  if (n <=? to)%Z then
    match fuel with
    | O => Diverge
    | Datatypes.S fuel' =>
        r ← body n s;
        match r with
        | inl s' => for_up fuel' (n +₆₄ 1) to body s'
        | inr v => Ret (inr v)
        end
    end
  else Ret (inl s).

(** [for n := n; n >= from; n-- { body }] on [uint64]. *)
Fixpoint for_down {S R} (fuel : nat) (n from : Z) (body : Z → S → outcome (S + R))
    (s : S) : outcome (S + R) :=
  if (from <=? n)%Z then
    match fuel with
    | O => Diverge
    | Datatypes.S fuel' =>
        r ← body n s;
        match r with
        | inl s' => for_down fuel' (n -₆₄ 1) from body s'
        | inr v => Ret (inr v)
        end
    end
  else Ret (inl s).

(** The [for _, x := range l] loop with early return. *)
Fixpoint for_each {A S R} (l : list A) (body : A → S → outcome (S + R)) (s : S) :
    outcome (S + R) :=
  match l with
  | [] => Ret (inl s)
  | x :: l' =>
      r ← body x s;
      match r with
      | inl s' => for_each l' body s'
      | inr v => Ret (inr v)
      end
  end.

(** The same loop without early return. *)
Fixpoint foldM {A S} (body : A → S → outcome S) (l : list A) (s : S) : outcome S :=
  match l with
  | [] => Ret s
  | x :: l' => s' ← body x s; foldM body l' s'
  end.

(** One unit of fuel per value of the range, and one to spare. *)
Definition range_fuel (from to : Z) : nat := S (Z.to_nat (to - from + 1)).
Definition block_range (from to : Z) : list Z := seqZ from (to - from + 1).

Section loops.
Local Open Scope Z_scope.
Context {S R : Type}.
Implicit Types (body : Z → S → outcome (S + R)).

Lemma block_range_nil from to : to < from → block_range from to = [].
Proof. intros. apply seqZ_nil. lia. Qed.

Lemma block_range_cons from to :
  from ≤ to → block_range from to = from :: block_range (from + 1) to.
Proof.
  intros. unfold block_range. rewrite seqZ_cons by lia.
  f_equal. f_equal; lia.
Qed.

Lemma block_range_snoc from to :
  from ≤ to → block_range from to = block_range from (to - 1) ++ [to].
Proof.
  intros. unfold block_range.
  replace (to - from + 1) with ((to - 1 - from + 1) + 1) by lia.
  rewrite seqZ_app by lia. f_equal.
  replace (from + (to - 1 - from + 1)) with to by lia. done.
Qed.

Lemma elem_of_block_range n from to : n ∈ block_range from to ↔ from ≤ n ≤ to.
Proof. unfold block_range. rewrite elem_of_seqZ. lia. Qed.

Lemma NoDup_block_range from to : NoDup (block_range from to).
Proof. apply NoDup_seqZ. Qed.

Lemma for_up_fuel (fuel : nat) n to body s :
  0 ≤ n → to < two64 - 1 → to - n + 1 < Z.of_nat fuel →
  for_up fuel n to body s = for_each (block_range n to) body s.
Proof.
  revert n s. induction fuel as [|fuel IH]; intros n s Hn Hto Hf; simpl.
  - destruct (Z.leb_spec n to); [lia|]. by rewrite block_range_nil by lia.
  - destruct (Z.leb_spec n to); [|by rewrite block_range_nil by lia].
    rewrite block_range_cons by lia. simpl.
    destruct (body n s) as [[s'|v]| |]; simpl; try done.
    rewrite u64_add_small by (unfold is_u64; lia). apply IH; lia.
Qed.

(** A loop that stays below the top of [uint64] visits the range in order. *)
Lemma for_up_range from to body s :
  0 ≤ from → to < two64 - 1 →
  for_up (range_fuel from to) from to body s = for_each (block_range from to) body s.
Proof. intros. apply for_up_fuel; unfold range_fuel; lia. Qed.

Lemma for_down_fuel (fuel : nat) n from body s :
  1 ≤ from → n < two64 → n - from + 1 < Z.of_nat fuel →
  for_down fuel n from body s = for_each (reverse (block_range from n)) body s.
Proof.
  revert n s. induction fuel as [|fuel IH]; intros n s Hn Hto Hf; simpl.
  - destruct (Z.leb_spec from n); [lia|]. by rewrite block_range_nil by lia.
  - destruct (Z.leb_spec from n); [|by rewrite block_range_nil by lia].
    rewrite block_range_snoc, reverse_app by lia. simpl.
    destruct (body n s) as [[s'|v]| |]; simpl; try done.
    rewrite u64_sub_small by (unfold is_u64; lia). apply IH; lia.
Qed.

(** A countdown whose bound is positive visits the range from its top. *)
Lemma for_down_range from to body s :
  1 ≤ from → to < two64 →
  for_down (range_fuel from to) to from body s =
    for_each (reverse (block_range from to)) body s.
Proof. intros. apply for_down_fuel; unfold range_fuel; lia. Qed.

(** A countdown to zero never ends: [n >= 0] holds for every [uint64]. *)
Lemma for_down_zero (fuel : nat) n body s :
  is_u64 n → (∀ n s, ∃ s', body n s = Ret (inl s')) →
  for_down fuel n 0 body s = Diverge.
Proof.
  intros Hn Hb. revert n s Hn. induction fuel as [|fuel IH]; intros n s Hn; simpl;
    (destruct (Z.leb_spec 0 n); [|unfold is_u64 in *; lia]); [done|].
  destruct (Hb n s) as [s' ->]. simpl. apply IH, wrap64_u64.
Qed.
End loops.

(** A loop whose body never returns early and never panics is a fold. *)
Lemma for_each_pure {A S R} (l : list A) (f : A → S → S) (s : S) :
  for_each (R:=R) l (λ x s, Ret (inl (f x s))) s = Ret (inl (foldl (flip f) s l)).
Proof. revert s. induction l as [|x l IH]; intros s; simpl; auto. Qed.

Lemma for_each_ext {A S R} (l : list A) (f g : A → S → outcome (S + R)) s :
  (∀ x s, x ∈ l → f x s = g x s) → for_each l f s = for_each l g s.
Proof.
  revert s. induction l as [|x l IH]; intros s H; simpl; [done|].
  rewrite H by left. destruct (g x s) as [[]| |]; simpl; auto.
  apply IH. intros. apply H. by right.
Qed.

Lemma for_each_app {A S R} (l1 l2 : list A) (f : A → S → outcome (S + R)) s :
  for_each (l1 ++ l2) f s =
    r ← for_each l1 f s;
    match r with inl s' => for_each l2 f s' | inr v => Ret (inr v) end.
Proof.
  revert s. induction l1 as [|x l1 IH]; intros s; simpl; [done|].
  destruct (f x s) as [[]| |]; simpl; auto.
Qed.

(** Loop invariant rule: [I k s] after the prefix [k] of the list. *)
Lemma for_each_ind {A S R} (I : list A → S → Prop) (Q : R → Prop)
    (l : list A) (f : A → S → outcome (S + R)) s :
  I [] s →
  (∀ pre x post s, l = pre ++ x :: post → I pre s →
     ∃ r, f x s = Ret r ∧
       match r with inl s' => I (pre ++ [x]) s' | inr v => Q v end) →
  ∃ r, for_each l f s = Ret r ∧ match r with inl s' => I l s' | inr v => Q v end.
Proof.
  intros H0 Hstep.
  enough (∀ post pre s, l = pre ++ post → I pre s →
    ∃ r, for_each post f s = Ret r ∧ match r with inl s' => I l s' | inr v => Q v end)
    as Hgen by (by apply (Hgen l [])).
  clear s H0. induction post as [|x post IH]; intros pre s -> Hpre; simpl.
  - exists (inl s). by rewrite app_nil_r.
  - destruct (Hstep pre x post s) as ([s'|v] & -> & Hr); [done..| |]; simpl.
    + apply (IH (pre ++ [x])); [by rewrite <-app_assoc|done].
    + by exists (inr v).
Qed.

(** The same rule for the result of a loop that is known to return. *)
Lemma for_each_inv {A S R} (I : list A → S → Prop) (Q : R → Prop)
    (l : list A) (f : A → S → outcome (S + R)) s r :
  for_each l f s = Ret r → I [] s →
  (∀ pre x post s r, l = pre ++ x :: post → I pre s → f x s = Ret r →
     match r with inl s' => I (pre ++ [x]) s' | inr v => Q v end) →
  match r with inl s' => I l s' | inr v => Q v end.
Proof.
  intros Hl H0 Hstep.
  enough (∀ post pre s, l = pre ++ post → I pre s → for_each post f s = Ret r →
    match r with inl s' => I l s' | inr v => Q v end) as Hgen by (by apply (Hgen l [] s)).
  clear s H0 Hl. induction post as [|x post IH]; intros pre s -> Hpre Hl; simpl in Hl.
  - simplify_eq. by rewrite app_nil_r.
  - apply bind_Ret_inv in Hl as (r' & Hf & Hl).
    specialize (Hstep pre x post s r' eq_refl Hpre Hf). destruct r' as [s'|v]; simplify_eq.
    + apply (IH (pre ++ [x]) s'); [by rewrite <-app_assoc|done..].
    + done.
Qed.

(** Both rules for [for i, x := range l]. *)
(** What every turn of a loop keeps holds after it, when each turn goes on. *)
Lemma foldM_ind {A S} (P : list A → S → Prop) (body : A → S → outcome S) l s :
  P [] s →
  (∀ pre x post s, l = pre ++ x :: post → P pre s → ∃ s', body x s = Ret s' ∧ P (pre ++ [x]) s') →
  ∃ s', foldM body l s = Ret s' ∧ P l s'.
Proof.
  intros H0 Hstep. enough (∀ pre post s, l = pre ++ post → P pre s →
    ∃ s', foldM body post s = Ret s' ∧ P l s') as Hgen by by apply (Hgen [] l).
  intros pre post. revert pre. induction post as [|x post IH]; intros pre s0 -> HP.
  { rewrite app_nil_r. by exists s0. }
  destruct (Hstep pre x post s0) as (s1 & Hb & HP1); [done..|]. simpl. rewrite Hb. simpl.
  apply (IH (pre ++ [x])); [by rewrite <-app_assoc|done].
Qed.

(** The same, for a loop that returned. *)
Lemma foldM_inv {A S} (P : list A → S → Prop) (body : A → S → outcome S) l s s' :
  foldM body l s = Ret s' → P [] s →
  (∀ pre x post s1 s2, l = pre ++ x :: post → P pre s1 → body x s1 = Ret s2 → P (pre ++ [x]) s2) →
  P l s'.
Proof.
  intros Hf H0 Hstep. enough (∀ pre post s0, l = pre ++ post → P pre s0 →
    foldM body post s0 = Ret s' → P l s') as Hgen by by apply (Hgen [] l s).
  intros pre post. revert pre. induction post as [|x post IH]; intros pre s0 -> HP Hr.
  { rewrite app_nil_r. simpl in Hr. by simplify_eq. }
  simpl in Hr. apply bind_Ret_inv in Hr as (s1 & Hb & Hr).
  apply (IH (pre ++ [x]) s1); [by rewrite <-app_assoc| |done]. by eapply Hstep.
Qed.

Lemma imap_pair_split {A} (l : list A) pre i x post :
  imap pair l = pre ++ (i, x) :: post → i = length pre ∧ l !! i = Some x.
Proof.
  intros Heq. assert (imap pair l !! length pre = Some (i, x)) as Hl.
  { rewrite Heq. by rewrite lookup_app_r, Nat.sub_diag by lia. }
  rewrite list_lookup_imap in Hl. destruct (l !! length pre) eqn:E; naive_solver.
Qed.

Lemma for_index_ind {A S R} (I : nat → S → Prop) (Q : R → Prop)
    (l : list A) (f : nat * A → S → outcome (S + R)) s :
  I 0%nat s →
  (∀ i x s, l !! i = Some x → I i s →
     ∃ r, f (i, x) s = Ret r ∧ match r with inl s' => I (Datatypes.S i) s' | inr v => Q v end) →
  ∃ r, for_each (imap pair l) f s = Ret r ∧
    match r with inl s' => I (length l) s' | inr v => Q v end.
Proof.
  intros H0 Hstep. rewrite <-(length_imap pair l).
  apply (for_each_ind (λ pre, I (length pre)) Q); [done|].
  intros pre [i x] post s' [-> Hx]%imap_pair_split HI.
  destruct (Hstep _ _ _ Hx HI) as (r & ? & Hr). exists r. split; [done|].
  destruct r; [|done]. by rewrite length_app, Nat.add_1_r.
Qed.

Lemma for_index_inv {A S R} (I : nat → S → Prop) (Q : R → Prop)
    (l : list A) (f : nat * A → S → outcome (S + R)) s r :
  for_each (imap pair l) f s = Ret r → I 0%nat s →
  (∀ i x s r, l !! i = Some x → I i s → f (i, x) s = Ret r →
     match r with inl s' => I (Datatypes.S i) s' | inr v => Q v end) →
  match r with inl s' => I (length l) s' | inr v => Q v end.
Proof.
  intros Hl H0 Hstep. rewrite <-(length_imap pair l).
  apply (for_each_inv (λ pre, I (length pre)) Q _ _ _ _ Hl H0).
  intros pre [i x] post s' r' [-> Hx]%imap_pair_split HI Hf.
  specialize (Hstep _ _ _ _ Hx HI Hf).
  destruct r'; [|done]. by rewrite length_app, Nat.add_1_r.
Qed.

Lemma elem_of_snoc {A} (x y : A) l : x ∈ l ++ [y] ↔ x ∈ l ∨ x = y.
Proof. by rewrite elem_of_app, list_elem_of_singleton. Qed.

(** The number a range loop is at lies in the range and was not visited before. *)
Lemma block_range_split from to pre n post :
  block_range from to = pre ++ n :: post → (from ≤ n ≤ to)%Z ∧ (n ∉ pre) ∧
    (∀ n', n' ∈ pre ++ [n] → (from ≤ n' ≤ to)%Z).
Proof.
  intros Heq. assert (∀ n', n' ∈ pre ++ [n] → (from ≤ n' ≤ to)%Z) as Hin.
  { intros n' Hn'. apply elem_of_block_range. rewrite Heq. set_solver. }
  split; [apply Hin; set_solver|]. split; [|done].
  pose proof (NoDup_block_range from to) as Hnd. rewrite Heq in Hnd.
  apply NoDup_app in Hnd as (_ & Hd & _). intros Hx. apply (Hd _ Hx). by left.
Qed.

(** Extending the visited prefix of a pointwise description of the loop state. *)
Lemma decide_snoc_step {A} (f g : Z → A) (s s' : Z → A) pre n :
  (∀ n', s n' = if decide (n' ∈ pre) then f n' else g n') →
  s' n = f n → (∀ n', n ≠ n' → s' n' = s n') →
  ∀ n', s' n' = if decide (n' ∈ pre ++ [n]) then f n' else g n'.
Proof.
  intros Hs Hn Hne n'. destruct (decide (n = n')) as [<-|?].
  - by rewrite decide_True by set_solver.
  - rewrite Hne, Hs by done. apply decide_ext. rewrite elem_of_snoc. naive_solver.
Qed.

(** ** Ascending lists *)

Abbreviation ascending := (StronglySorted Z.lt) (only parsing).

Lemma ascending_sublist (l1 l2 : list Z) : l1 `sublist_of` l2 → ascending l2 → ascending l1.
Proof.
  intros Hsub Hs. induction Hsub as [|x l1 l2 Hsub IH|x l1 l2 Hsub IH]; [done|..];
    apply StronglySorted_inv in Hs as [Hs Hx]; [|by apply IH].
  constructor; [by apply IH|]. rewrite Forall_forall in Hx |- *.
  intros y Hy. apply Hx. by eapply elem_of_sublist.
Qed.

Lemma ascending_block_range from to : ascending (block_range from to).
Proof.
  unfold block_range, seqZ. generalize (Z.to_nat (to - from + 1)) as k. intros k.
  generalize 0%nat as i. induction k as [|k IH]; intros i; simpl; constructor; [apply IH|].
  apply Forall_forall. intros y (z & -> & Hz)%list_elem_of_fmap. apply elem_of_seq in Hz. lia.
Qed.

Lemma ascending_head x l y : ascending (x :: l) → y ∈ x :: l → (x ≤ y)%Z.
Proof.
  intros [_ Hx]%StronglySorted_inv [->|Hy]%elem_of_cons; [done|].
  rewrite Forall_forall in Hx. apply Hx in Hy. lia.
Qed.

Lemma ascending_last l z y : ascending l → last l = Some z → y ∈ l → (y ≤ z)%Z.
Proof.
  intros Hs Hl Hy. induction l as [|x l IH]; [done|].
  pose proof (ascending_head x l) as Hh. apply StronglySorted_inv in Hs as [Hs Hx].
  apply elem_of_cons in Hy as [->|Hy].
  - apply last_Some_elem_of in Hl. apply Hh; [by constructor|done].
  - destruct l as [|x' l]; [by apply not_elem_of_nil in Hy|]. by apply IH.
Qed.

(** * Automation *)

Create HintDb superwatcher.
Create Rewrite HintDb superwatcher_rw.
#[export] Hint Resolve wrap64_u64 block_range_nil NoDup_block_range : superwatcher.
#[export] Hint Rewrite elem_of_block_range : superwatcher_rw.

(** Case analysis on the [match]es of a Go function under a hypothesis. *)
Ltac go_cases := repeat (case_match; simplify_eq/=; try done).
Ltac go_inv H :=
  repeat match type of H with
    | mbind _ _ = Ret _ => apply bind_Ret_inv in H as (? & ? & H)
    end.
