(* ===== verification/GoErrors.v ===== *)
(** Error values of the repository: the sentinels of errors.go, datagateway.go
    and of the packages' errors.go files, wrapping as github.com/pkg/errors
    documents it, and errors.Is. *)

From S2P Require Import Prelude.

(** * Definitions *)

(** The package-level error variables, with redis.Nil of the Redis client.  Each is one value,
    compared by identity. *)
Inductive sentinel : Set :=
  | ErrFetchError | ErrChainIsReorging | ErrFromBlockReorged
  | ErrSuperwatcherBug | ErrProcessReorg
  | ErrUserError | ErrBadPolicy
  | ErrRecordNotFound
  | errHashesDiffer | errDowngradeLevel
  | ErrEmitterShutdown | ErrMaxRetriesReached | errNoNewBlock
  | ErrChanClosed
  | ErrExitBlockReached | errInvalidReorgEvents
  | ErrNoNeedHandle | errNoService | ErrLogLen | ErrMapENS
  | redis_Nil.

#[export] Instance sentinel_eq_dec : EqDecision sentinel.
Proof. solve_decision. Defined.

(** The sentinel that a sentinel built with errors.Wrap wraps. *)
Definition sentinel_wraps (s : sentinel) : option sentinel :=
  match s with
  | ErrFromBlockReorged => Some ErrChainIsReorging
  | ErrProcessReorg => Some ErrSuperwatcherBug
  | ErrBadPolicy => Some ErrUserError
  | errHashesDiffer => Some ErrChainIsReorging
  | errDowngradeLevel => Some ErrUserError
  | _ => None
  end.

Definition sentinel_text (s : sentinel) : string :=
  match s with
  | ErrFetchError => "fetch from ethclient failed"
  | ErrChainIsReorging => "chain is reorging and data is not usable for now"
  | ErrFromBlockReorged => "fromBlock reorged"
  | ErrSuperwatcherBug => "superwatcher bug"
  | ErrProcessReorg => "error in emitter reorg detection logic"
  | ErrUserError => "user error"
  | ErrBadPolicy => "invalid policy"
  | ErrRecordNotFound => "record not found"
  | errHashesDiffer => "blockHashes differ"
  | errDowngradeLevel => "policy cannot be downgraded"
  | ErrEmitterShutdown => "emitter was told to shutdown - Loop context done"
  | ErrMaxRetriesReached => "emitter has reached max goBackRetries"
  | errNoNewBlock => "no new block"
  | ErrChanClosed => "emitterClient channel closed"
  | ErrExitBlockReached => "exitBlock reached for reorgsim"
  | errInvalidReorgEvents => "invalid reorg events"
  | ErrNoNeedHandle => "no need to handle this topic"
  | errNoService => "failed to get service for subengine"
  | ErrLogLen => "invalid log topics length"
  | ErrMapENS => "error mapping event log to entity.ENS"
  | redis_Nil => "redis: nil"
  end.

(** A non-nil error: a sentinel, a value made by errors.New or fmt.Errorf inside
    a function, or an error wrapped with a message.  nil is [None]. *)
Inductive error : Set :=
  | ESentinel (s : sentinel)
  | ENew (msg : string)
  | EWrap (e : error) (msg : string).

#[export] Instance error_eq_dec : EqDecision error.
Proof. solve_decision. Defined.

(** errors.Wrap(nil, ...) is nil. *)
Definition errors_Wrap (e : option error) (msg : string) : option error :=
  (λ e, EWrap e msg) <$> e.

Definition sentinel_is (s target : sentinel) : bool :=
  bool_decide (s = target) ||
  match sentinel_wraps s with Some s' => bool_decide (s' = target) | None => false end.

(** errors.Is(err, target) for a sentinel target: the chain of wrapped errors
    reaches the target. *)
Fixpoint error_is (e : error) (target : sentinel) : bool :=
  match e with
  | ESentinel s => sentinel_is s target
  | ENew _ => false
  | EWrap e' _ => error_is e' target
  end.

Definition errors_Is (e : option error) (target : sentinel) : bool :=
  match e with Some e => error_is e target | None => false end.

(** err.Error(). *)
Fixpoint error_Error (e : error) : string :=
  match e with
  | ESentinel s =>
      match sentinel_wraps s with
      | Some s' => sentinel_text s +:+ ": " +:+ sentinel_text s'
      | None => sentinel_text s
      end
  | ENew msg => msg
  | EWrap e' msg => msg +:+ ": " +:+ error_Error e'
  end.

(** errors.Wrap(Sentinel, msg) and errors.New(msg), as returned errors. *)
Definition wrap_sentinel (s : sentinel) (msg : string) : option error :=
  Some (EWrap (ESentinel s) msg).
Definition new_error (msg : string) : option error := Some (ENew msg).

(** superwatcher.WrapErrRecordNotFound: the original error survives as text only. *)
Definition WrapErrRecordNotFound (err : error) (keyNotFound : string) : option error :=
  errors_Wrap (wrap_sentinel ErrRecordNotFound (error_Error err))
    ("key " +:+ keyNotFound +:+ " not found").

(** * Lemmas *)

Lemma errors_Is_Wrap e msg t : errors_Is (errors_Wrap e msg) t = errors_Is e t.
Proof. by destruct e. Qed.

Lemma errors_Is_wrap_sentinel s msg t :
  errors_Is (wrap_sentinel s msg) t = sentinel_is s t.
Proof. done. Qed.

Lemma errors_Wrap_None e msg : errors_Wrap e msg = None ↔ e = None.
Proof. destruct e; naive_solver. Qed.

(** Both reorg sentinels of the poller answer to ErrChainIsReorging. *)
Lemma reorg_sentinels s :
  sentinel_is s ErrChainIsReorging = true ↔
  s = ErrChainIsReorging ∨ s = ErrFromBlockReorged ∨ s = errHashesDiffer.
Proof. destruct s; vm_compute; naive_solver. Qed.

#[export] Hint Rewrite errors_Is_Wrap errors_Is_wrap_sentinel : superwatcher_rw.
