(* ===== verification/Types.v ===== *)
(** The data of package superwatcher: event logs, block headers, Block,
    PollerResult with LastGoodBlock, Policy and Config. *)

From S2P Require Import Prelude.

(** * Definitions *)

(** common.Hash and common.Address are fixed-size byte arrays, compared as
    values; they are kept as the number their bytes spell, big endian. *)
Abbreviation Hash := Z (only parsing).
Abbreviation Address := Z (only parsing).

(** A Go slice that the code tests against nil. *)
Definition goslice (A : Type) : Type := option (list A).
Definition slice_elems {A} (s : goslice A) : list A := default [] s.

(** The fields of go-ethereum's types.Log that the source reads or writes. *)
Record Log : Set := mkLog {
  log_Address : Address;
  log_Topics : list Hash;
  log_Data : list Z;
  log_BlockNumber : Z;
  log_TxHash : Hash;
  log_BlockHash : Hash;
}.

(** superwatcher.BlockHeader: an interface of six getters. *)
Record BlockHeader : Set := mkHeader {
  header_Number : Z;
  header_Hash : Hash;
  header_Nonce : Z;
  header_Time : Z;
  header_GasLimit : Z;
  header_GasUsed : Z;
}.

(** superwatcher.Block.  A nil Header is [None]. *)
Record Block : Set := mkBlock {
  LogsMigrated : bool;
  Number : Z;
  BHash : Hash;
  Header : option BlockHeader;
  Logs : list Log;
}.

#[export] Instance Log_eq_dec : EqDecision Log.
Proof. solve_decision. Defined.
#[export] Instance BlockHeader_eq_dec : EqDecision BlockHeader.
Proof. solve_decision. Defined.
#[export] Instance Block_eq_dec : EqDecision Block.
Proof. solve_decision. Defined.

Record PollerResult : Set := mkResult {
  FromBlock : Z;
  ToBlock : Z;
  LastGood : Z;
  GoodBlocks : list Block;
  ReorgedBlocks : list Block;
}.

#[export] Instance PollerResult_eq_dec : EqDecision PollerResult.
Proof. solve_decision. Defined.

(** new(superwatcher.PollerResult). *)
Definition new_PollerResult : PollerResult := mkResult 0 0 0 [] [].

(** LastGoodBlock computes PollerResult.LastGoodBlock from the other fields. *)
Definition LastGoodBlock (result : PollerResult) : Z :=
  match ReorgedBlocks result with
  | firstReorged :: _ =>
      match last (GoodBlocks result) with
      | Some lastGoodBlock =>
          let lastGood := Number lastGoodBlock in
          let firstReorg := Number firstReorged in
          if (firstReorg <? lastGood)%Z then firstReorg -₆₄ 1 else lastGood
      | None => FromBlock result -₆₄ 1
      end
  | [] => ToBlock result
  end.

(** superwatcher.Policy is a uint8. *)
Definition PolicyFast : Z := 0.
Definition PolicyNormal : Z := 1.
Definition PolicyExpensive : Z := 2.
Definition PolicyExpensiveBlock : Z := 3.

Definition Policy_String (level : Z) : string :=
  if (level =? PolicyFast)%Z then "FAST"
  else if (level =? PolicyNormal)%Z then "NORMAL"
  else if (level =? PolicyExpensive)%Z then "EXPENSIVE"
  else if (level =? PolicyExpensiveBlock)%Z then "EXPENSIVE_BLOCK"
  else "UNKNOWN LEVEL " +:+ pretty level.

(** superwatcher.Config. *)
Record Config : Set := mkConfig {
  NodeURL : string;
  StartBlock : Z;
  FilterRange : Z;
  cfg_DoReorg : bool;
  cfg_DoHeader : bool;
  MaxGoBackRetries : Z;
  LoopInterval : Z;
  LogLevel : Z;
  cfg_Policy : Z;
}.

(** ethereum.FilterQuery, as the poller fills it. *)
Record FilterQuery : Type := mkQuery {
  q_FromBlock : option Z;
  q_ToBlock : option Z;
  q_Addresses : goslice Address;
  q_Topics : goslice (list Hash);
}.

(** * Properties of LastGoodBlock *)

Section last_good.
Local Open Scope Z_scope.
Context (result : PollerResult).

Lemma LastGoodBlock_no_reorg : ReorgedBlocks result = [] → LastGoodBlock result = ToBlock result.
Proof. unfold LastGoodBlock. by intros ->. Qed.

Lemma LastGoodBlock_no_good r rs :
  ReorgedBlocks result = r :: rs → GoodBlocks result = [] →
  LastGoodBlock result = FromBlock result -₆₄ 1.
Proof. unfold LastGoodBlock. by intros -> ->. Qed.

Lemma LastGoodBlock_reorg r rs gs g :
  ReorgedBlocks result = r :: rs → GoodBlocks result = gs ++ [g] →
  1 ≤ Number r < two64 →
  LastGoodBlock result =
    if (Number r <? Number g) then Number r - 1 else Number g.
Proof.
  unfold LastGoodBlock. intros -> -> ?. rewrite last_snoc. simpl.
  destruct (Z.ltb_spec (Number r) (Number g)); [|done].
  apply u64_sub_small. unfold is_u64 in *. lia.
Qed.
End last_good.
