(* ===== verification/SortedSet.v ===== *)
(** The interface of github.com/wangjia184/sortedset that both trackers use, with
    the behaviour its documentation states, and an instance on finite maps. *)

From S2P Require Import Prelude.

(** * Definitions *)

(** A node carries its key, its SCORE (an int64) and its value.  [ss_view] is the
    abstract content; the laws say what each method does to it.  PeekMin gives a
    node of least score and PopMin removes that node. *)
Class SortedSet (SS : Type → Type) : Type := {
  ss_New : ∀ {V}, SS V;
  ss_AddOrUpdate : ∀ {V}, SS V → string → Z → V → SS V;
  ss_GetByKey : ∀ {V}, SS V → string → option (Z * V);
  ss_Remove : ∀ {V}, SS V → string → SS V * option (Z * V);
  ss_PeekMin : ∀ {V}, SS V → option (string * Z * V);
  ss_PopMin : ∀ {V}, SS V → SS V;
  ss_GetCount : ∀ {V}, SS V → nat;

  ss_view : ∀ {V}, SS V → gmap string (Z * V);
  ss_New_spec : ∀ V, ss_view (ss_New (V:=V)) = ∅;
  ss_AddOrUpdate_spec : ∀ V (s : SS V) k sc v,
    ss_view (ss_AddOrUpdate s k sc v) = <[k := (sc, v)]> (ss_view s);
  ss_GetByKey_spec : ∀ V (s : SS V) k, ss_GetByKey s k = ss_view s !! k;
  ss_Remove_spec : ∀ V (s : SS V) k,
    ss_view (ss_Remove s k).1 = delete k (ss_view s) ∧
    (ss_Remove s k).2 = ss_view s !! k;
  ss_PeekMin_None : ∀ V (s : SS V), ss_PeekMin s = None ↔ ss_view s = ∅;
  ss_PeekMin_Some : ∀ V (s : SS V) k sc v, ss_PeekMin s = Some (k, sc, v) →
    ss_view s !! k = Some (sc, v) ∧
    ∀ k' sc' v', ss_view s !! k' = Some (sc', v') → (sc ≤ sc')%Z;
  ss_PopMin_spec : ∀ V (s : SS V) k sc v, ss_PeekMin s = Some (k, sc, v) →
    ss_view (ss_PopMin s) = delete k (ss_view s);
  ss_GetCount_spec : ∀ V (s : SS V), ss_GetCount s = size (ss_view s);
}.

#[export] Hint Rewrite @ss_New_spec @ss_AddOrUpdate_spec @ss_GetByKey_spec
  @ss_GetCount_spec : superwatcher_rw.

(** [for { oldest := PeekMin(); if oldest == nil || oldest.Score() > u { break };
    PopMin() }], the loop that both trackers use to forget old blocks. *)
Fixpoint pop_until `{SortedSet SS} {V} (fuel : nat) (u : Z) (s : SS V) : outcome (SS V) :=
  match ss_PeekMin s with
  | None => Ret s
  | Some (_, score, _) =>
      if (u <? score)%Z then Ret s
      else match fuel with O => Diverge | S fuel' => pop_until fuel' u (ss_PopMin s) end
  end.

(** A concrete sorted set: a finite map searched for its least score. *)
Definition MapSet (V : Type) : Type := gmap string (Z * V).

Definition least {V} (l : list (string * (Z * V))) : option (string * Z * V) :=
  foldr (λ '(k, (sc, v)) acc,
    match acc with
    | Some (_, sc', _) => if (sc' <? sc)%Z then acc else Some (k, sc, v)
    | None => Some (k, sc, v)
    end) None l.

Definition mapset_peek {V} (s : MapSet V) : option (string * Z * V) := least (map_to_list s).

Definition mapset_pop {V} (s : MapSet V) : MapSet V :=
  match mapset_peek s with
  | Some (k, _, _) => delete k (s : gmap string (Z * V))
  | None => s
  end.

(** * Lemmas *)

Lemma least_None {V} (l : list (string * (Z * V))) : least l = None ↔ l = [].
Proof. destruct l as [|[k [sc v]] l]; simpl; [done|]. repeat case_match; naive_solver. Qed.

Lemma least_Some {V} (l : list (string * (Z * V))) k sc v :
  least l = Some (k, sc, v) →
  (k, (sc, v)) ∈ l ∧ ∀ k' sc' v', (k', (sc', v')) ∈ l → (sc ≤ sc')%Z.
Proof.
  revert k sc v. induction l as [|[k1 [sc1 v1]] l IH]; intros k sc v Hl; simpl in Hl; [done|].
  destruct (least l) as [[[k2 sc2] v2]|] eqn:E.
  - destruct (IH _ _ _ eq_refl) as [Hin Hmin].
    destruct (Z.ltb_spec sc2 sc1); simplify_eq.
    + split; [by right|]. intros ? ? ? [?|?]%elem_of_cons; simplify_eq; [lia|eauto].
    + split; [by left|]. intros ? ? ? [?|Hx]%elem_of_cons; simplify_eq; [lia|].
      apply Hmin in Hx. lia.
  - apply least_None in E as ->. simplify_eq.
    split; [by left|]. intros ? ? ? [?|Hx]%elem_of_cons; simplify_eq; [lia|].
    by apply not_elem_of_nil in Hx.
Qed.

#[export, refine] Instance MapSet_SortedSet : SortedSet MapSet := {|
  ss_New V := (∅ : gmap string (Z * V));
  ss_AddOrUpdate V s k sc v := <[k := (sc, v)]> (s : gmap string (Z * V));
  ss_GetByKey V s k := (s : gmap string (Z * V)) !! k;
  ss_Remove V s k :=
    (delete k (s : gmap string (Z * V)), (s : gmap string (Z * V)) !! k);
  ss_PeekMin V s := mapset_peek s;
  ss_PopMin V s := mapset_pop s;
  ss_GetCount V s := size (s : gmap string (Z * V));
  ss_view V s := s;
|}.
Proof.
  - done.
  - done.
  - done.
  - done.
  - intros V s. unfold mapset_peek. rewrite least_None.
    apply (map_to_list_empty_iff (M:=gmap string) (A:=Z * V)).
  - intros V s k sc v [Hin Hmin]%least_Some. split.
    + by apply (elem_of_map_to_list (M:=gmap string) (A:=Z * V)).
    + intros k' sc' v' Hk. eapply Hmin. by apply (elem_of_map_to_list (M:=gmap string) (A:=Z * V)).
  - intros V s k sc v Hp. unfold mapset_pop. by rewrite Hp.
  - done.
Defined.

Section pop_until.
Context `{SortedSet SS} {V : Type}.
Implicit Types s : SS V.

(** Enough fuel is the number of nodes: the loop ends and keeps exactly the nodes
    whose score is above the bound. *)
Lemma pop_until_spec (fuel : nat) u s :
  (ss_GetCount s ≤ fuel)%nat →
  ∃ s', pop_until fuel u s = Ret s' ∧
    ss_view s' = filter (λ kv, u < kv.2.1)%Z (ss_view s).
Proof.
  revert s. induction fuel as [|fuel IH]; intros s Hf; simpl;
    (destruct (ss_PeekMin s) as [[[k sc] v]|] eqn:E;
      [|apply ss_PeekMin_None in E; exists s; by rewrite E, map_filter_empty]);
    pose proof (ss_PeekMin_Some _ _ _ _ _ E) as [Hk Hmin];
    (destruct (Z.ltb_spec u sc) as [Hu|Hu];
      [exists s; split; [done|]; symmetry; apply map_filter_id;
        intros k' [sc' v'] Hk'; simpl; apply Hmin in Hk'; lia|]).
  - rewrite ss_GetCount_spec in Hf.
    assert (ss_view s = ∅) as He by (apply map_size_empty_iff; lia). by rewrite He in Hk.
  - destruct (IH (ss_PopMin s)) as (s' & -> & Hs').
    { rewrite ss_GetCount_spec in Hf |- *. rewrite (ss_PopMin_spec _ _ _ _ _ E).
      rewrite map_size_delete_Some by eauto. lia. }
    exists s'. split; [done|]. rewrite Hs', (ss_PopMin_spec _ _ _ _ _ E).
    apply map_filter_delete_not. intros [sc' v'] Hk'. simplify_eq/=. lia.
Qed.
End pop_until.
