(* ===== verification/Externals.v ===== *)
(** What the source calls outside this repository, as interfaces: the generic
    helpers of github.com/soyart/gsl and go-ethereum's hash, hex and header
    types.  Each class packs the operations with the documented behaviour that
    the source relies on; the instances at the end are used by examples only. *)

From Stdlib Require Import Ascii.
From S2P Require Import Prelude GoErrors Types.

(** * Definitions *)

(** gsl.Min, gsl.Max, gsl.Contains on slices, and
    concurrent.WaitAndCollectErrors, whose result is nil when no task sent an
    error. *)
Class Gsl : Type := {
  gsl_Min : Z → Z → Z;
  gsl_Max : Z → Z → Z;
  gsl_Contains : ∀ {A} `{EqDecision A}, list A → A → bool;
  WaitAndCollectErrors : list error → option error;
  gsl_Min_spec : ∀ a b, gsl_Min a b = Z.min a b;
  gsl_Max_spec : ∀ a b, gsl_Max a b = Z.max a b;
  gsl_Contains_spec : ∀ {A} `{EqDecision A} (l : list A) x,
    gsl_Contains l x = true ↔ x ∈ l;
  WaitAndCollectErrors_spec : ∀ l, WaitAndCollectErrors l = None ↔ l = [];
}.

(** Hash texts: gsl.StringerToLowerString(hash) and common.HexToHash, which reads
    the text back. *)
Class HashText : Type := {
  StringerToLowerString : Hash → string;
  HexToHash : string → Hash;
  HexToHash_String : ∀ h, HexToHash (StringerToLowerString h) = h;
}.

(** hexutil.EncodeBig and DecodeBig (which refuses negative numbers), and the
    BlockHeaderWrapper reading of the empty header &types.Header{}. *)
Class EthUtil : Type := {
  EncodeBig : Z → string;
  DecodeBig : string → option Z;
  emptyHeader : BlockHeader;
  DecodeBig_EncodeBig : ∀ z, (0 ≤ z)%Z → DecodeBig (EncodeBig z) = Some z;
}.

(** Block.String. *)
Definition Block_String `{HashText} (b : Block) : string := StringerToLowerString (BHash b).

(** * Instances for examples *)

#[export, refine] Instance demo_Gsl : Gsl := {|
  gsl_Min := Z.min;
  gsl_Max := Z.max;
  gsl_Contains A _ l x := bool_decide (x ∈ l);
  WaitAndCollectErrors l := head l;
|}.
Proof.
  - done.
  - done.
  - intros A ? l x. apply bool_decide_eq_true.
  - intros [|? ?]; simpl; naive_solver.
Defined.

(** Binary texts, least significant digit first, stand for the hexadecimal ones. *)
Fixpoint pos_text (p : positive) : string :=
  match p with
  | xH => EmptyString
  | xO p' => String "0"%char (pos_text p')
  | xI p' => String "1"%char (pos_text p')
  end.

Fixpoint text_pos (s : string) : positive :=
  match s with
  | EmptyString => xH
  | String c s' => if Ascii.eqb c "0"%char then xO (text_pos s') else xI (text_pos s')
  end.

Definition Z_text (z : Z) : string :=
  match z with
  | Z0 => EmptyString
  | Zpos p => String "+"%char (pos_text p)
  | Zneg p => String "-"%char (pos_text p)
  end.

Definition text_Z (s : string) : Z :=
  match s with
  | EmptyString => Z0
  | String c s' => if Ascii.eqb c "+"%char then Zpos (text_pos s') else Zneg (text_pos s')
  end.

Lemma text_pos_text p : text_pos (pos_text p) = p.
Proof. induction p as [p IH|p IH|]; simpl; by rewrite ?IH. Qed.

Lemma text_Z_text z : text_Z (Z_text z) = z.
Proof. destruct z; simpl; by rewrite ?text_pos_text. Qed.

#[export] Instance demo_HashText : HashText := {|
  StringerToLowerString := Z_text;
  HexToHash := text_Z;
  HexToHash_String := text_Z_text;
|}.

Lemma demo_DecodeBig_EncodeBig z :
  (0 ≤ z)%Z →
  (if (text_Z (Z_text z) <? 0)%Z then None else Some (text_Z (Z_text z))) = Some z.
Proof. intros. rewrite text_Z_text. by destruct (Z.ltb_spec z 0); [lia|]. Qed.

#[export] Instance demo_EthUtil : EthUtil := {|
  EncodeBig := Z_text;
  DecodeBig s := if (text_Z s <? 0)%Z then None else Some (text_Z s);
  emptyHeader := mkHeader 0 0 0 0 0 0;
  DecodeBig_EncodeBig := demo_DecodeBig_EncodeBig;
|}.

(** * Lemmas *)

(** Hash texts are keys: distinct hashes have distinct texts. *)
#[export] Instance StringerToLowerString_inj `{HashText} : Inj (=) (=) StringerToLowerString.
Proof. intros h h' Heq. by rewrite <-(HexToHash_String h), Heq, HexToHash_String. Qed.

Lemma gsl_Contains_false `{Gsl} {A} `{EqDecision A} (l : list A) x :
  gsl_Contains l x = false ↔ x ∉ l.
Proof. rewrite <-gsl_Contains_spec. destruct (gsl_Contains l x); naive_solver. Qed.

#[export] Hint Rewrite @gsl_Min_spec @gsl_Max_spec : superwatcher_rw.
