(* ===== verification/EthClient.v ===== *)
(** ethclient.go: the EthClient interface, as operations on a client state, and
    ethClientWrapper, which gives a real client that interface. *)

From S2P Require Import Prelude GoErrors Types.

(** * Definitions *)

Inductive RpcArg : Set := ArgString (s : string) | ArgBool (b : bool).

(** The dynamic type of BatchElem.Result, as headerByNumberBatch.Unmarshal tells
    them apart: *types.Header, another BlockHeader, or something else. *)
Inductive RpcResult : Set :=
  | ResHeader (h : BlockHeader)
  | ResBlockHeader (h : BlockHeader)
  | ResOther (typeName : string).

Record BatchElem : Set := mkElem {
  Method : string;
  Args : list RpcArg;
  Result : RpcResult;
  ElemError : option error;
}.

(** superwatcher.EthClient.  A call gets the client's state and gives the next
    one with the Go results; [client_TypeOf] is reflect.TypeOf(client).String(). *)
Class EthClient (C : Type) : Type := {
  BlockNumber : C → outcome (C * (Z * option error));
  FilterLogs : C → FilterQuery → outcome (C * (list Log * option error));
  HeaderByNumber : C → Z → outcome (C * (option BlockHeader * option error));
  BatchCallContext : C → list BatchElem → outcome (C * (list BatchElem * option error));
  client_TypeOf : string;
}.

(** The interfaces that ethClientWrapper wraps: ethClient, whose HeaderByNumber
    gives a *types.Header, and EthClientRPC. *)
Class InnerClient (C : Type) : Type := {
  inner_BlockNumber : C → outcome (C * (Z * option error));
  inner_FilterLogs : C → FilterQuery → outcome (C * (list Log * option error));
  inner_HeaderByNumber : C → Z → outcome (C * (BlockHeader * option error));
}.
Class EthClientRPC (R : Type) : Type := {
  rpc_BatchCallContext : R → list BatchElem → outcome (R * (list BatchElem * option error));
}.

Record ethClientWrapper (C R : Type) : Type := mkWrapper { client : C; rpcClient : R }.
Arguments mkWrapper {C R}.
Arguments client {C R}.
Arguments rpcClient {C R}.

Section wrapper.
Context {C R : Type} `{InnerClient C} `{EthClientRPC R}.
Implicit Types w : ethClientWrapper C R.

Definition wrapper_BlockNumber w : outcome (ethClientWrapper C R * (Z * option error)) :=
  '(c, r) ← inner_BlockNumber (client w); Ret (mkWrapper c (rpcClient w), r).

Definition wrapper_FilterLogs w (q : FilterQuery) :
    outcome (ethClientWrapper C R * (list Log * option error)) :=
  '(c, r) ← inner_FilterLogs (client w) q; Ret (mkWrapper c (rpcClient w), r).

Definition wrapper_HeaderByNumber w (number : Z) :
    outcome (ethClientWrapper C R * (option BlockHeader * option error)) :=
  '(c, (h, err)) ← inner_HeaderByNumber (client w) number;
  match err with
  | Some _ => Ret (mkWrapper c (rpcClient w), (None, err))
  | None => Ret (mkWrapper c (rpcClient w), (Some h, None))
  end.

Definition wrapper_BatchCallContext w (b : list BatchElem) :
    outcome (ethClientWrapper C R * (list BatchElem * option error)) :=
  '(r, res) ← rpc_BatchCallContext (rpcClient w) b; Ret (mkWrapper (client w) r, res).
End wrapper.

#[export] Instance wrapper_EthClient `{InnerClient C} `{EthClientRPC R} :
    EthClient (ethClientWrapper C R) := {|
  BlockNumber := wrapper_BlockNumber;
  FilterLogs := wrapper_FilterLogs;
  HeaderByNumber := wrapper_HeaderByNumber;
  BatchCallContext := wrapper_BatchCallContext;
  client_TypeOf := "*superwatcher.ethClientWrapper";
|}.

(** * Lemmas *)

(** A batch call keeps the number of elements: Go passes the slice header by
    value, so the callee fills the elements in place. *)
Class BatchInPlace (C : Type) `{EthClient C} : Prop :=
  batch_in_place c b c' b' err :
    BatchCallContext c b = Ret (c', (b', err)) → length b' = length b.
