(* ===== verification/Batch.v ===== *)
(** pkg/batch/batch.go and internal/poller/header_by_number_batch.go: batched
    calls and the headers that the poller fetches with them. *)

From S2P Require Import Prelude GoErrors Types Externals EthClient.

(** * Definitions *)

Definition MethodGetBlockByNumber : string := "eth_getBlockByNumber".

(** batch.Interface: Unmarshal changes its receiver. *)
Class BatchInterface (T : Type) : Type := {
  Marshal : T → BatchElem * option error;
  Unmarshal : T → BatchElem → T * option error;
}.

(** CallBatch: marshal every call, make the batch call, unmarshal every element
    back into its call. *)
Definition CallBatch `{EthClient C} `{BatchInterface T} (c : C) (batchCalls : list T) :
    outcome (C * (list T * option error)) :=
  marshalled ← for_each (imap pair batchCalls) (λ '(i, call) batchElems,
    let '(elem, err) := Marshal call in
    match err with
    | Some _ => Ret (inr (errors_Wrap err ("failed to marshal calls[" +:+ pretty i +:+ "]")))
    | None => Ret (inl (batchElems ++ [elem]))
    end) [];
  match marshalled with
  | inr err => Ret (c, (batchCalls, err))
  | inl batchElems =>
      '(c', (batchElems', err)) ← BatchCallContext c batchElems;
      match err with
      | Some _ => Ret (c', (batchCalls, errors_Wrap err "BatchCallContext failed"))
      | None =>
          unmarshalled ← for_each (imap pair batchCalls) (λ '(i, call) calls,
            match batchElems' !! i with
            | None => Panic "index out of range"
            | Some elem =>
                let '(call', err) := Unmarshal call elem in
                let calls' := <[i := call']> calls in
                match err with
                | Some _ =>
                    Ret (inr (calls', errors_Wrap err
                      ("failed to marshal calls[" +:+ pretty i +:+ "]")))
                | None => Ret (inl calls')
                end
            end) batchCalls;
          match unmarshalled with
          | inr (calls', err) => Ret (c', (calls', err))
          | inl calls' => Ret (c', (calls', None))
          end
      end
  end.

Record headerByNumberBatch : Set := mkHeaderBatch {
  hb_client : string;
  hb_number : Z;
  hb_header : option BlockHeader;
}.

Section header_batch.
Context `{EthUtil}.

(** The method and its arguments are the same for both clients; the Result is a
    fresh reorgsim.Block for the simulator and a fresh types.Header otherwise. *)
Definition header_Marshal (h : headerByNumberBatch) : BatchElem * option error :=
  let args := [ArgString (EncodeBig (to_int64 (hb_number h))); ArgBool false] in
  if bool_decide (hb_client h = "*reorgsim.ReorgSim") then
    (mkElem MethodGetBlockByNumber args (ResBlockHeader (mkHeader 0 0 0 0 0 0)) None, None)
  else
    (mkElem MethodGetBlockByNumber args (ResHeader emptyHeader) None, None).

Definition header_Unmarshal (h : headerByNumberBatch) (elem : BatchElem) :
    headerByNumberBatch * option error :=
  match Result elem with
  | ResHeader header | ResBlockHeader header =>
      (mkHeaderBatch (hb_client h) (hb_number h) (Some header), None)
  | ResOther typeName =>
      (h, new_error ("unexpected result type for HeaderByNumberBatch: " +:+ typeName))
  end.

#[export] Instance headerByNumberBatch_Interface : BatchInterface headerByNumberBatch := {|
  Marshal := header_Marshal;
  Unmarshal := header_Unmarshal;
|}.

(** The header map has interface values, nil for a call that was not filled. *)
Definition getHeadersByNumbers `{EthClient C} (c : C) (numbers : list Z) :
    outcome (C * (gmap Z (option BlockHeader) * option error)) :=
  let elems := (λ n, mkHeaderBatch client_TypeOf n None) <$> numbers in
  '(c', (elems', err)) ← CallBatch c elems;
  match err with
  | Some _ => Ret (c', (∅, errors_Wrap err "failed to batch get block headers"))
  | None =>
      Ret (c', (foldl (λ results elem, <[hb_number elem := hb_header elem]> results)
        ∅ elems', None))
  end.
End header_batch.

(** * Lemmas *)

(** The element that Marshal makes for a block number. *)
Definition header_elem `{EthUtil} (typeOf : string) (n : Z) : BatchElem :=
  (header_Marshal (mkHeaderBatch typeOf n None)).1.

(** The header that an element's Result holds. *)
Definition elem_header (elem : BatchElem) : option BlockHeader :=
  match Result elem with ResHeader h | ResBlockHeader h => Some h | ResOther _ => None end.

Lemma foldl_insert_lookup {A} (l : list A) (k : A → Z) (v : A → option BlockHeader)
    (m : gmap Z (option BlockHeader)) n :
  foldl (λ m x, <[k x := v x]> m) m l !! n =
    match last (filter (λ x, k x = n) l) with
    | Some x => Some (v x)
    | None => m !! n
    end.
Proof.
  revert m. induction l as [|x l IH]; intros m; simpl; [done|].
  rewrite IH, filter_cons. case_decide as Hk.
  - destruct (filter (λ x, k x = n) l) as [|y l'] eqn:E; simpl.
    + by rewrite Hk, lookup_insert_eq.
    + destruct (last (y :: l')) eqn:E'; [done|]. by apply last_None in E'.
  - case_match; [done|]. by rewrite lookup_insert_ne.
Qed.

Section header_batch_lemmas.
Context `{EthUtil} `{EthClient C}.

(** Marshalling header calls never fails. *)
Lemma header_Marshal_ok h : (header_Marshal h).2 = None.
Proof. unfold header_Marshal. by case_match. Qed.

(** Unmarshalling succeeds exactly when the element has a header, which it keeps. *)
Lemma header_Unmarshal_inv call elem call' :
  header_Unmarshal call elem = (call', None) →
  ∃ h, elem_header elem = Some h ∧ call' = mkHeaderBatch (hb_client call) (hb_number call) (Some h).
Proof.
  unfold header_Unmarshal, elem_header. destruct (Result elem); intros; simplify_eq/=; eauto.
Qed.

Abbreviation header_calls t := (fmap (M := list) (λ n, mkHeaderBatch t n None)).

(** The first loop of CallBatch makes the element of every call. *)
Lemma marshal_headers t numbers (r : list BatchElem + option error) :
  for_each (imap pair (header_calls t numbers)) (λ '(i, call) batchElems,
    let '(elem, err) := Marshal call in
    match err with
    | Some _ => Ret (inr (errors_Wrap err ("failed to marshal calls[" +:+ pretty i +:+ "]")))
    | None => Ret (inl (batchElems ++ [elem]))
    end) [] = Ret r → r = inl (header_elem t <$> numbers).
Proof.
  intros Hm.
  eapply (for_index_inv (λ i s, s = header_elem t <$> take i numbers) (λ _, False)) in Hm; [|done|].
  { destruct r as [elems|]; [|done]. by rewrite Hm, length_fmap, firstn_all. }
  intros i x s r' Hx -> Hf. rewrite list_lookup_fmap in Hx.
  destruct (numbers !! i) as [n|] eqn:E; simplify_eq/=.
  destruct (header_Marshal _) as [elem err] eqn:Em.
  pose proof (header_Marshal_ok (mkHeaderBatch t n None)) as Hok. rewrite Em in Hok. simplify_eq/=.
  rewrite (take_S_r _ _ n E), fmap_app. simpl. do 2 f_equal. unfold header_elem. by rewrite Em.
Qed.

(** Its last loop fills every call, unless it returns an error. *)
Lemma unmarshal_headers t numbers (elems : list BatchElem) r :
  for_each (imap pair (header_calls t numbers)) (λ '(i, call) calls,
    match elems !! i with
    | None => Panic "index out of range"
    | Some elem =>
        let '(call', err) := Unmarshal call elem in
        let calls' := <[i := call']> calls in
        match err with
        | Some _ =>
            Ret (inr (calls', errors_Wrap err ("failed to marshal calls[" +:+ pretty i +:+ "]")))
        | None => Ret (inl calls')
        end
    end) (header_calls t numbers) = Ret r →
  match r with
  | inl calls => length calls = length numbers ∧ ∀ i n, numbers !! i = Some n → ∃ elem h,
      elems !! i = Some elem ∧ elem_header elem = Some h ∧
      calls !! i = Some (mkHeaderBatch t n (Some h))
  | inr (_, err) => err ≠ None
  end.
Proof.
  intros Hu.
  eapply (for_index_inv (λ i s, length s = length numbers ∧ ∀ j n, (j < i)%nat →
      numbers !! j = Some n → ∃ elem h, elems !! j = Some elem ∧
      elem_header elem = Some h ∧ s !! j = Some (mkHeaderBatch t n (Some h)))
    (λ v : _ * option error, v.2 ≠ None)) in Hu.
  - destruct r as [calls|[? ?]]; [|done]. destruct Hu as [Hlen Hu]. split; [done|].
    intros i n Hn. apply Hu; [|done]. rewrite length_fmap. by eapply lookup_lt_Some.
  - rewrite length_fmap. split; [done|lia].
  - intros i x s r' Hx [Hlen Hs] Hf. rewrite list_lookup_fmap in Hx.
    destruct (numbers !! i) as [n|] eqn:E; simplify_eq/=.
    destruct (elems !! i) as [elem|] eqn:E'; [|done].
    destruct (header_Unmarshal _ elem) as [call' [err|]] eqn:Eu; simplify_eq/=; [done|].
    apply header_Unmarshal_inv in Eu as (h & Hh & ->). simpl. split; [by rewrite length_insert|].
    intros j m Hj Hm. destruct (decide (i = j)) as [<-|Hne]; simplify_eq.
    + exists elem, h. split; [done|]. split; [done|]. apply list_lookup_insert_eq.
      rewrite Hlen. by eapply lookup_lt_Some.
    + rewrite list_lookup_insert_ne by done. apply Hs; [lia|done].
Qed.

(** A successful batch of header calls has filled every call with the header that
    came back at its index. *)
Lemma CallBatch_headers (c c' : C) t numbers calls' :
  CallBatch c (header_calls t numbers) = Ret (c', (calls', None)) →
  ∃ elems',
    BatchCallContext c (header_elem t <$> numbers) = Ret (c', (elems', None)) ∧
    length calls' = length numbers ∧
    ∀ i n, numbers !! i = Some n → ∃ elem h,
      elems' !! i = Some elem ∧ elem_header elem = Some h ∧
      calls' !! i = Some (mkHeaderBatch t n (Some h)).
Proof.
  intros Hcall. unfold CallBatch in Hcall.
  apply bind_Ret_inv in Hcall as (r & ->%marshal_headers & Hcall).
  apply bind_Ret_inv in Hcall as ([c1 [elems' err]] & Hb & Hcall).
  destruct err; [done|].
  apply bind_Ret_inv in Hcall as (r & Hu%unmarshal_headers & Hcall).
  destruct r as [calls1|[? ?]]; simplify_eq/=.
  exists elems'. by split.
Qed.

(** On success the header map holds a header for exactly the requested numbers. *)
Lemma getHeadersByNumbers_spec (c c' : C) numbers headers :
  getHeadersByNumbers c numbers = Ret (c', (headers, None)) →
  ∃ elems',
    BatchCallContext c (header_elem client_TypeOf <$> numbers) = Ret (c', (elems', None)) ∧
    (∀ n, n ∉ numbers → headers !! n = None) ∧
    (∀ n, n ∈ numbers → ∃ i elem h, numbers !! i = Some n ∧
      elems' !! i = Some elem ∧ elem_header elem = Some h ∧ headers !! n = Some (Some h)).
Proof.
  unfold getHeadersByNumbers. intros Hg.
  apply bind_Ret_inv in Hg as ([c1 [calls err]] & Hc & Hg).
  destruct err; simplify_eq/=.
  apply CallBatch_headers in Hc as (elems' & Hb & Hlen & Hcalls).
  exists elems'. split; [done|].
  assert (hb_number <$> calls = numbers) as Hnum.
  { apply list_eq. intros i. rewrite list_lookup_fmap.
    destruct (numbers !! i) as [n|] eqn:E.
    - by destruct (Hcalls _ _ E) as (? & ? & _ & _ & ->).
    - apply lookup_ge_None in E. rewrite lookup_ge_None_2 by lia. done. }
  assert (∀ n, n ∈ numbers ↔ filter (λ x, hb_number x = n) calls ≠ []) as Hin.
  { intros n. rewrite <-Hnum. rewrite list_elem_of_fmap. split.
    - intros (x & -> & Hx) Hnil.
      assert (x ∈ filter (λ y, hb_number y = hb_number x) calls) as Hf
        by (by apply list_elem_of_filter).
      rewrite Hnil in Hf. by apply not_elem_of_nil in Hf.
    - intros Hne. destruct (filter _ calls) as [|x l] eqn:E; [done|].
      assert (x ∈ filter (λ x, hb_number x = n) calls) as [??]%list_elem_of_filter
        by (rewrite E; by left). eauto. }
  split; intros n Hn; rewrite foldl_insert_lookup.
  - destruct (filter (λ x, hb_number x = n) calls) eqn:E; [done|].
    exfalso. apply Hn, Hin. by rewrite E.
  - destruct (last (filter (λ x, hb_number x = n) calls)) as [x|] eqn:E.
    + apply last_Some_elem_of, list_elem_of_filter in E as [Hx E].
      apply list_elem_of_lookup in E as [i Hi].
      assert (numbers !! i = Some n) as Hni
        by (by rewrite <-Hnum, list_lookup_fmap, Hi, <-Hx).
      destruct (Hcalls _ _ Hni) as (elem & h & ? & ? & Hc). rewrite Hi in Hc.
      injection Hc as ->. by exists i, elem, h.
    + apply last_None in E. by apply Hin in Hn.
Qed.

Lemma getHeadersByNumbers_dom (c c' : C) numbers headers n :
  getHeadersByNumbers c numbers = Ret (c', (headers, None)) →
  is_Some (headers !! n) ↔ n ∈ numbers.
Proof.
  intros (? & _ & Hnone & Hsome)%getHeadersByNumbers_spec. split.
  - intros [h Hh]. destruct (decide (n ∈ numbers)) as [|Hn]; [done|].
    apply Hnone in Hn. congruence.
  - intros (? & ? & ? & _ & _ & _ & ->)%Hsome. eauto.
Qed.
End header_batch_lemmas.
