(* ===== verification/BlockTracker.v ===== *)
(** internal/poller/tracker.go: the sorted set of the blocks that the poller
    compares fresh hashes with, refined to a partial map from block numbers. *)

From S2P Require Import Prelude GoErrors Types SortedSet.

(** * Definitions *)

(** strconv.FormatUint(n, 10). *)
Definition FormatUint (n : Z) : string := pretty (Z.to_N n).

(** sortedset.SCORE(n): SCORE is an int64. *)
Definition SCORE (n : Z) : Z := to_int64 n.

Section tracker.
Context `{SortedSet SS}.

(** The debugger and the user's name only serve logging. *)
Record blockTracker : Type := mkTracker { sortedSet : SS Block }.

Definition newTracker : blockTracker := mkTracker ss_New.

Definition addTrackerBlock (t : blockTracker) (b : Block) : blockTracker :=
  let k := FormatUint (Number b) in
  mkTracker (ss_AddOrUpdate (sortedSet t) k (SCORE (Number b)) b).

Definition getTrackerBlock (t : blockTracker) (blockNumber : Z) : option Block :=
  let k := FormatUint blockNumber in
  match ss_GetByKey (sortedSet t) k with
  | None => None
  | Some node => Some node.2
  end.

Definition removeBlock (t : blockTracker) (blockNumber : Z) : blockTracker * option error :=
  let k := FormatUint blockNumber in
  let '(s, del) := ss_Remove (sortedSet t) k in
  match del with
  | None => (mkTracker s, new_error ("node key " +:+ k +:+ " was not in set"))
  | Some _ => (mkTracker s, None)
  end.

(** The node count bounds the number of PopMin calls. *)
Definition clearUntil (t : blockTracker) (blockNumber : Z) : outcome blockTracker :=
  mkTracker <$> pop_until (ss_GetCount (sortedSet t)) (SCORE blockNumber) (sortedSet t).

Definition Len (t : blockTracker) : nat := ss_GetCount (sortedSet t).

(** A write through the *Block pointer that a node holds: the node stays where it
    is and its block changes. *)
Definition mutateTrackerBlock (t : blockTracker) (blockNumber : Z) (f : Block → Block) :
    blockTracker :=
  let k := FormatUint blockNumber in
  match ss_GetByKey (sortedSet t) k with
  | None => t
  | Some (score, b) => mkTracker (ss_AddOrUpdate (sortedSet t) k score (f b))
  end.

(** Every node is filed under its block's number, with that number as score. *)
Definition tracker_wf (t : blockTracker) : Prop :=
  ∀ k sc b, ss_view (sortedSet t) !! k = Some (sc, b) →
    is_u64 (Number b) ∧ k = FormatUint (Number b) ∧ sc = SCORE (Number b).
End tracker.
Arguments blockTracker SS : clear implicits.

(** * Lemmas *)

Lemma FormatUint_inj m n : is_u64 m → is_u64 n → FormatUint m = FormatUint n → m = n.
Proof.
  unfold FormatUint, is_u64. intros ? ? Heq%(inj pretty). lia.
Qed.

Section tracker_lemmas.
Context `{SortedSet SS}.
Implicit Types (t : blockTracker SS) (b : Block).

Lemma newTracker_wf : tracker_wf newTracker.
Proof. intros k sc b. simpl. by rewrite ss_New_spec. Qed.

Lemma getTrackerBlock_new n : getTrackerBlock newTracker n = None.
Proof. unfold getTrackerBlock. simpl. by rewrite ss_GetByKey_spec, ss_New_spec. Qed.

Lemma getTrackerBlock_view t n :
  getTrackerBlock t n = snd <$> ss_view (sortedSet t) !! FormatUint n.
Proof. unfold getTrackerBlock. rewrite ss_GetByKey_spec. by case_match. Qed.

Lemma getTrackerBlock_Number t n b :
  tracker_wf t → is_u64 n → getTrackerBlock t n = Some b → Number b = n.
Proof.
  rewrite getTrackerBlock_view. intros Hwf Hn Hg.
  apply fmap_Some in Hg as ([sc b'] & Hv & ->). simpl in *.
  destruct (Hwf _ _ _ Hv) as (? & ? & _). symmetry. by apply FormatUint_inj.
Qed.

Lemma addTrackerBlock_wf t b :
  is_u64 (Number b) → tracker_wf t → tracker_wf (addTrackerBlock t b).
Proof.
  intros Hb Hwf k sc b'. simpl. rewrite ss_AddOrUpdate_spec, lookup_insert.
  case_decide; [intros [= <- <-]; subst; done|apply Hwf].
Qed.

Lemma getTrackerBlock_add t b n :
  is_u64 (Number b) → is_u64 n →
  getTrackerBlock (addTrackerBlock t b) n =
    if decide (Number b = n) then Some b else getTrackerBlock t n.
Proof.
  intros Hb Hn. rewrite !getTrackerBlock_view. simpl.
  rewrite ss_AddOrUpdate_spec, lookup_insert.
  destruct (decide (Number b = n)) as [<-|Hne]; [by rewrite decide_True|].
  rewrite decide_False; [done|]. intros ?. by apply Hne, FormatUint_inj.
Qed.

Lemma removeBlock_view t n :
  ss_view (sortedSet (removeBlock t n).1) = delete (FormatUint n) (ss_view (sortedSet t)).
Proof.
  unfold removeBlock. destruct (ss_Remove_spec _ (sortedSet t) (FormatUint n)) as [Hv _].
  destruct (ss_Remove _ _) as [s [del|]]; done.
Qed.

Lemma removeBlock_wf t n : tracker_wf t → tracker_wf (removeBlock t n).1.
Proof.
  intros Hwf k sc b. rewrite removeBlock_view.
  intros [_ ?]%lookup_delete_Some. by apply Hwf.
Qed.

Lemma getTrackerBlock_remove t n m :
  is_u64 n → is_u64 m →
  getTrackerBlock (removeBlock t n).1 m =
    if decide (n = m) then None else getTrackerBlock t m.
Proof.
  intros Hn Hm. rewrite !getTrackerBlock_view, removeBlock_view, lookup_delete.
  destruct (decide (n = m)) as [->|Hne]; [by rewrite decide_True|].
  rewrite decide_False; [done|]. intros ?. by apply Hne, FormatUint_inj.
Qed.

Lemma removeBlock_tracked t n :
  (removeBlock t n).2 = None ↔ is_Some (getTrackerBlock t n).
Proof.
  rewrite getTrackerBlock_view, fmap_is_Some. unfold removeBlock.
  destruct (ss_Remove_spec _ (sortedSet t) (FormatUint n)) as [_ Hd].
  destruct (ss_Remove _ _) as [s del]; simpl in *. rewrite <-Hd.
  destruct del; simpl; [by split; eauto|]. split; [done|by intros [??]].
Qed.

Lemma mutateTrackerBlock_wf t n f :
  (∀ b, Number (f b) = Number b) → tracker_wf t → tracker_wf (mutateTrackerBlock t n f).
Proof.
  intros Hf Hwf. unfold mutateTrackerBlock. rewrite ss_GetByKey_spec.
  destruct (ss_view _ !! _) as [[sc b]|] eqn:E; [|done].
  intros k sc' b'. simpl. rewrite ss_AddOrUpdate_spec, lookup_insert.
  case_decide; [intros [= <- <-]; subst; rewrite Hf; by apply Hwf in E|apply Hwf].
Qed.

Lemma getTrackerBlock_mutate t n f m :
  is_u64 n → is_u64 m →
  getTrackerBlock (mutateTrackerBlock t n f) m =
    if decide (n = m) then f <$> getTrackerBlock t m else getTrackerBlock t m.
Proof.
  intros Hn Hm. rewrite !getTrackerBlock_view. unfold mutateTrackerBlock.
  rewrite ss_GetByKey_spec. destruct (decide (n = m)) as [<-|Hne].
  - destruct (ss_view (sortedSet t) !! FormatUint n) as [[sc b]|] eqn:E; simpl;
      [|by rewrite E].
    by rewrite ss_AddOrUpdate_spec, lookup_insert_eq.
  - destruct (ss_view _ !! FormatUint n) as [[sc b]|] eqn:E; simpl; [|done].
    rewrite ss_AddOrUpdate_spec, lookup_insert_ne; [done|].
    intros ?. by apply Hne, FormatUint_inj.
Qed.

(** clearUntil ends, keeps the tracker well formed and forgets exactly the blocks
    whose number, read as an int64, is at most the bound read as an int64. *)
Lemma clearUntil_content t u :
  tracker_wf t →
  ∃ t', clearUntil t u = Ret t' ∧ tracker_wf t' ∧
    ∀ n, is_u64 n → getTrackerBlock t' n =
      if decide (to_int64 u < to_int64 n)%Z then getTrackerBlock t n else None.
Proof.
  intros Hwf. unfold clearUntil.
  destruct (pop_until_spec (ss_GetCount (sortedSet t)) (SCORE u) (sortedSet t))
    as (s & -> & Hs); [done|].
  exists (mkTracker s). split; [done|]. split.
  - intros k sc b. simpl. rewrite Hs. intros [? _]%map_lookup_filter_Some. by apply Hwf.
  - intros n Hn. rewrite !getTrackerBlock_view. simpl. rewrite Hs.
    destruct (ss_view (sortedSet t) !! FormatUint n) as [[sc b]|] eqn:E.
    + destruct (Hwf _ _ _ E) as (Hb & Hk & ->).
      apply FormatUint_inj in Hk; [|done..]. subst n.
      case_decide as Hd.
      * by rewrite (map_lookup_filter_Some_2 _ _ _ _ E Hd).
      * rewrite map_lookup_filter_None_2; [done|]. right. intros x ?. simplify_eq. by simpl.
    + rewrite map_lookup_filter_None_2 by (by left). by case_decide.
Qed.

(** A bound that underflowed below zero is a negative int64: nothing is cleared,
    for block numbers that fit an int64. *)
Lemma clearUntil_underflow t a r :
  tracker_wf t → (0 ≤ a < r)%Z → (r ≤ two63)%Z →
  ∃ t', clearUntil t (a -₆₄ r) = Ret t' ∧
    ∀ n, (0 ≤ n < two63)%Z → getTrackerBlock t' n = getTrackerBlock t n.
Proof.
  intros Hwf Ha Hr. destruct (clearUntil_content t (a -₆₄ r) Hwf) as (t' & -> & _ & Hc).
  exists t'. split; [done|]. intros n Hn.
  rewrite Hc by (unfold is_u64; lia). rewrite decide_True; [done|].
  rewrite u64_sub_under by lia. unfold to_int64.
  destruct (Z.ltb_spec (a - r + two64) two63), (Z.ltb_spec n two63); lia.
Qed.
End tracker_lemmas.
