(* ===== verification/PollUtils.v ===== *)
(** internal/poller/utils.go: collecting event logs and block headers into the
    map of fresh blocks that one poll builds. *)

From S2P Require Import Prelude GoErrors Types Externals.

(** * Definitions *)

(** mapLogsResult: fresh information on a block, not from the tracker. *)
Record mapLogsResult : Set := mkMapLogs {
  forked : bool;
  mBlock : Block;
}.

Abbreviation pollMap := (gmap Z mapLogsResult) (only parsing).

Definition append_log (result : mapLogsResult) (log : Log) : mapLogsResult :=
  let b := mBlock result in
  mkMapLogs (forked result)
    (mkBlock (LogsMigrated b) (Number b) (BHash b) (Header b) (Logs b ++ [log])).

(** The literal &mapLogsResult{Block: superwatcher.Block{...}} of each collector. *)
Definition result_of_log (log : Log) : mapLogsResult :=
  mkMapLogs false (mkBlock false (log_BlockNumber log) (log_BlockHash log) None [log]).
Definition result_of_header (n : Z) (h : BlockHeader) : mapLogsResult :=
  mkMapLogs false (mkBlock false n (header_Hash h) (Some h) []).

Section utils.
Context `{HashText}.

Definition hashStr (h : Hash) : string := StringerToLowerString h.

Definition collectLogs (m : pollMap) (logs : list Log) :
    outcome (pollMap * (Z * option error)) :=
  r ← for_each logs (λ log m,
    let number := log_BlockNumber log in
    let hash := log_BlockHash log in
    match m !! number with
    | None => Ret (inl (<[number := result_of_log log]> m))
    | Some result =>
        if decide (BHash (mBlock result) ≠ hash) then
          Ret (inr (m, (number, wrap_sentinel errHashesDiffer
            ("logs in block " +:+ pretty number +:+ " has different hashes: "
              +:+ hashStr (BHash (mBlock result)) +:+ " vs " +:+ hashStr hash))))
        else Ret (inl (<[number := append_log result log]> m))
    end) m;
  match r with
  | inl m' => Ret (m', (0%Z, None))
  | inr v => Ret v
  end.

Definition collectHeaders (m : pollMap) (fromBlock toBlock : Z)
    (headers : gmap Z (option BlockHeader)) : outcome (pollMap * (Z * option error)) :=
  r ← for_up (range_fuel fromBlock toBlock) fromBlock toBlock (λ n '(m, last),
    match headers !! n with
    | None => Ret (inl (m, last))
    | Some None => Panic "nil pointer dereference: header.Hash()"
    | Some (Some header) =>
        match m !! n with
        | Some result =>
            let rHash := BHash (mBlock result) in
            let hHash := header_Hash header in
            if decide (rHash ≠ hHash) then
              Ret (inr (m, (n, wrap_sentinel errHashesDiffer
                ("block " +:+ pretty n +:+ " resultHash differs from headerHash: "
                  +:+ hashStr rHash +:+ " vs " +:+ hashStr hHash))))
            else Ret (inl (m, n))
        | None => Ret (inl (<[n := result_of_header n header]> m, n))
        end
    end) (m, fromBlock);
  match r with
  | inl (m', last) => Ret (m', (last, None))
  | inr v => Ret v
  end.
End utils.

(** Reference descriptions: the logs of a block in their order, the entry that
    they make, and whether the logs agree on every block's hash. *)
Definition logs_at (n : Z) (logs : list Log) : list Log :=
  filter (λ l, log_BlockNumber l = n) logs.

Definition fresh_entry (logs : list Log) (n : Z) : option mapLogsResult :=
  match logs_at n logs with
  | [] => None
  | l :: _ => Some (mkMapLogs false (mkBlock false n (log_BlockHash l) None (logs_at n logs)))
  end.

Definition logs_consistent (logs : list Log) : Prop :=
  ∀ l l', l ∈ logs → l' ∈ logs → log_BlockNumber l = log_BlockNumber l' →
    log_BlockHash l = log_BlockHash l'.

(** The map after the headers of a range went in. *)
Definition with_headers (m : pollMap) (headers : gmap Z (option BlockHeader))
    (from to n : Z) : option mapLogsResult :=
  match m !! n with
  | Some r => Some r
  | None =>
      if decide (from ≤ n ≤ to)%Z then
        match headers !! n with
        | Some (Some h) => Some (result_of_header n h)
        | _ => None
        end
      else None
  end.

Definition headers_agree (m : pollMap) (headers : gmap Z (option BlockHeader))
    (from to : Z) : Prop :=
  ∀ n r h, (from ≤ n ≤ to)%Z → m !! n = Some r → headers !! n = Some (Some h) →
    BHash (mBlock r) = header_Hash h.

(** * Lemmas *)

Section utils_lemmas.
Context `{HashText}.

Lemma logs_at_app n l1 l2 : logs_at n (l1 ++ l2) = logs_at n l1 ++ logs_at n l2.
Proof. apply filter_app. Qed.

Lemma elem_of_logs_at n l logs : l ∈ logs_at n logs ↔ log_BlockNumber l = n ∧ l ∈ logs.
Proof. unfold logs_at. by rewrite list_elem_of_filter. Qed.

Lemma fresh_entry_snoc_ne logs log n :
  log_BlockNumber log ≠ n → fresh_entry (logs ++ [log]) n = fresh_entry logs n.
Proof.
  intros Hne. unfold fresh_entry. rewrite logs_at_app.
  replace (logs_at n [log]) with (@nil Log)
    by (unfold logs_at; rewrite filter_cons_False; done).
  by rewrite app_nil_r.
Qed.

Lemma fresh_entry_snoc_eq logs log :
  fresh_entry (logs ++ [log]) (log_BlockNumber log) =
    match fresh_entry logs (log_BlockNumber log) with
    | None => Some (result_of_log log)
    | Some r => Some (append_log r log)
    end.
Proof.
  unfold fresh_entry. rewrite logs_at_app.
  assert (logs_at (log_BlockNumber log) [log] = [log]) as ->
    by (unfold logs_at; rewrite filter_cons_True; done).
  by destruct (logs_at _ logs).
Qed.

Lemma fresh_entry_hash logs n r :
  fresh_entry logs n = Some r →
  ∃ l, l ∈ logs ∧ log_BlockNumber l = n ∧ BHash (mBlock r) = log_BlockHash l.
Proof.
  unfold fresh_entry. destruct (logs_at n logs) as [|l ls] eqn:E; [done|].
  intros [= <-]. exists l. assert (l ∈ logs_at n logs) as [??]%elem_of_logs_at
    by (rewrite E; by left). done.
Qed.

Lemma fresh_entry_none logs n l :
  fresh_entry logs n = None → l ∈ logs → log_BlockNumber l ≠ n.
Proof.
  intros E Hl Heq. unfold fresh_entry in E. destruct (logs_at _ logs) eqn:El; [|done].
  assert (l ∈ logs_at n logs) as Hin by by apply elem_of_logs_at.
  rewrite El in Hin. by apply not_elem_of_nil in Hin.
Qed.

(** A log that has the hash of its block, or is the first of its block, keeps the logs
    consistent. *)
Lemma logs_consistent_snoc logs log :
  logs_consistent logs →
  (∀ r, fresh_entry logs (log_BlockNumber log) = Some r → BHash (mBlock r) = log_BlockHash log) →
  logs_consistent (logs ++ [log]).
Proof.
  intros Hc Hh.
  assert (∀ l, l ∈ logs → log_BlockNumber l = log_BlockNumber log →
    log_BlockHash l = log_BlockHash log) as Hsame.
  { intros l Hl Hn. destruct (fresh_entry logs (log_BlockNumber log)) as [r|] eqn:E.
    - destruct (fresh_entry_hash _ _ _ E) as (l' & Hl' & Hn' & Hr).
      rewrite <-(Hh r), Hr by done. apply Hc; [done..|congruence].
    - by destruct (fresh_entry_none _ _ _ E Hl). }
  intros l1 l2 [?| ->]%elem_of_snoc [?| ->]%elem_of_snoc Heq;
    [by apply Hc|by apply Hsame|symmetry; by apply Hsame|done].
Qed.

(** Adding a log to the map adds it to the entry of its block. *)
Lemma fresh_entry_add (m : pollMap) logs log n :
  (∀ n, m !! n = fresh_entry logs n) →
  <[log_BlockNumber log := match fresh_entry logs (log_BlockNumber log) with
      | None => result_of_log log | Some r => append_log r log end]> m !! n =
  fresh_entry (logs ++ [log]) n.
Proof.
  intros Hm. destruct (decide (log_BlockNumber log = n)) as [<-|Hne].
  - rewrite lookup_insert_eq, fresh_entry_snoc_eq. by destruct (fresh_entry logs _).
  - by rewrite lookup_insert_ne, fresh_entry_snoc_ne.
Qed.

(** collectLogs groups consistent logs by block, in order; it stops with
    errHashesDiffer exactly when two logs of a block disagree on its hash. *)
Lemma collectLogs_spec logs :
  ∃ m r, collectLogs ∅ logs = Ret (m, r) ∧
    ((logs_consistent logs ∧ r = (0%Z, None) ∧ ∀ n, m !! n = fresh_entry logs n) ∨
     (¬ logs_consistent logs ∧ ∃ n msg, r = (n, wrap_sentinel errHashesDiffer msg))).
Proof.
  unfold collectLogs.
  match goal with |- context [for_each logs ?f ∅] => set (body := f) end.
  destruct (for_each_ind
    (λ pre (m : pollMap), logs_consistent pre ∧ ∀ n, m !! n = fresh_entry pre n)
    (λ v : pollMap * (Z * option error), ¬ logs_consistent logs ∧
       ∃ n msg, v.2 = (n, wrap_sentinel errHashesDiffer msg))
    logs body (∅ : pollMap)) as (r & -> & Hr).
  - split; [|done]. by intros ? ? ?%not_elem_of_nil.
  - intros pre log post m -> [Hc Hm]. subst body; simpl. rewrite Hm.
    pose proof (λ n, fresh_entry_add m pre log n Hm) as Hadd.
    destruct (fresh_entry pre (log_BlockNumber log)) as [r|] eqn:E.
    + case_decide as Hd; eexists; (split; [done|]); simpl.
      * destruct (fresh_entry_hash _ _ _ E) as (l & Hl & Hn & Hh).
        split; [|by eexists _, _]. intros Hc'. apply Hd. rewrite Hh. apply Hc'; set_solver.
      * split; [|done]. apply logs_consistent_snoc; [done|]. naive_solver.
    + eexists. split; [done|]. split; [|done]. apply logs_consistent_snoc; [done|]. naive_solver.
  - destruct r as [m|[m r]]; simpl in *.
    + destruct Hr. eexists _, _. split; [done|]. left. done.
    + destruct Hr as [? (? & ? & ->)]. eexists _, _. split; [done|]. right. eauto.
Qed.

(** What collectHeaders has done when it has passed the numbers [pre]. *)
Definition headers_passed (m : pollMap) (headers : gmap Z (option BlockHeader)) (pre : list Z)
    (m' : pollMap) : Prop :=
  (∀ n r h, n ∈ pre → m !! n = Some r → headers !! n = Some (Some h) →
     BHash (mBlock r) = header_Hash h) ∧
  ∀ n, m' !! n = match m !! n with
    | Some r => Some r
    | None => if decide (n ∈ pre) then
        match headers !! n with
        | Some (Some h) => Some (result_of_header n h)
        | _ => None
        end
      else None
    end.

Lemma headers_passed_nil m headers : headers_passed m headers [] m.
Proof.
  split; [by intros ? ? ? ?%not_elem_of_nil|]. intros n. destruct (m !! n); [done|].
  rewrite decide_False; [done|apply not_elem_of_nil].
Qed.

(** The next number leaves the map as it is, unless it has a header and no entry. *)
Lemma headers_passed_snoc m headers pre n m1 m2 :
  headers_passed m headers pre m1 →
  (∀ r h, m !! n = Some r → headers !! n = Some (Some h) → BHash (mBlock r) = header_Hash h) →
  m2 = match m !! n, headers !! n with
       | None, Some (Some h) => <[n := result_of_header n h]> m1
       | _, _ => m1
       end →
  headers_passed m headers (pre ++ [n]) m2.
Proof.
  intros [Hag Hm1] Hn ->. split.
  - intros n' r h [?| ->]%elem_of_snoc ? ?; [by eapply Hag|by apply Hn].
  - intros n'. destruct (decide (n = n')) as [<-|Hne].
    + rewrite (decide_True (P := n ∈ pre ++ [n])) by (apply elem_of_snoc; by right).
      destruct (m !! n) eqn:Em; [by rewrite Hm1, Em|].
      destruct (headers !! n) as [[h|]|] eqn:Eh; [by rewrite lookup_insert_eq|..];
        rewrite Hm1, Em, Eh; by case_decide.
    + replace (match m !! n, headers !! n with
        | None, Some (Some h) => <[n := result_of_header n h]> m1 | _, _ => m1 end !! n')
        with (m1 !! n') by (repeat case_match; by rewrite ?lookup_insert_ne).
      rewrite Hm1. destruct (m !! n'); [done|]. apply decide_ext. rewrite elem_of_snoc. naive_solver.
Qed.

(** collectHeaders adds an entry for every header of a block without one, and stops
    with errHashesDiffer exactly when a header contradicts an entry. *)
Lemma collectHeaders_spec m from to headers :
  (0 ≤ from)%Z → (to < two64 - 1)%Z → (∀ n h, headers !! n = Some h → is_Some h) →
  ∃ m' r, collectHeaders m from to headers = Ret (m', r) ∧
    ((headers_agree m headers from to ∧ r.2 = None ∧
       ∀ n, m' !! n = with_headers m headers from to n) ∨
     (¬ headers_agree m headers from to ∧
       ∃ msg, r.2 = wrap_sentinel errHashesDiffer msg)).
Proof.
  intros Hf Ht Hh. unfold collectHeaders. rewrite for_up_range by done.
  match goal with |- context [for_each _ ?f _] => set (body := f) end.
  destruct (for_each_ind (λ pre (s : pollMap * Z), headers_passed m headers pre s.1)
    (λ v : pollMap * (Z * option error), ¬ headers_agree m headers from to ∧
       ∃ msg, v.2.2 = wrap_sentinel errHashesDiffer msg)
    (block_range from to) body (m, from)) as (r & -> & Hr).
  - apply headers_passed_nil.
  - intros pre n post [m1 last] Heq Hp. subst body; simpl in *.
    destruct (block_range_split _ _ _ _ _ Heq) as (Hn & Hnin & _).
    pose proof (λ m2, headers_passed_snoc m headers pre n m1 m2 Hp) as Hnext.
    pose proof (proj2 Hp n) as Hmn. rewrite (decide_False (P := n ∈ pre)) in Hmn by done.
    destruct (headers !! n) as [[h|]|] eqn:Eh; [|by destruct (Hh _ _ Eh)|].
    + destruct (m !! n) as [r|] eqn:Em; rewrite Hmn.
      * case_decide as Hd; eexists; (split; [done|]); simpl.
        -- split; [|by eexists]. intros Hagree. by apply Hd, (Hagree n).
        -- apply Hnext; [|done]. intros. by simplify_eq.
      * eexists. split; [done|]. by apply Hnext.
    + eexists. split; [done|]. apply Hnext; [done|]. by destruct (m !! n).
  - destruct r as [[m' last]|[m' r]]; simpl in *.
    + destruct Hr as [Hag Hm']. eexists _, _. split; [done|]. left. split; [|split; [done|]].
      * intros n r h Hn. by apply Hag, elem_of_block_range.
      * intros n. rewrite Hm'. unfold with_headers. destruct (m !! n); [done|].
        apply decide_ext, elem_of_block_range.
    + destruct Hr as [? ?]. eexists _, _. split; [done|]. by right.
Qed.
End utils_lemmas.
