(* ===== verification/PollPolicy.v ===== *)
(** internal/poller/poll_policy.go and [poll] of poll.go: fetching the fresh logs
    and headers of a block range, cheaply or expensively. *)

From S2P Require Import Prelude GoErrors Types Externals EthClient Batch PollUtils.

(** * Definitions *)

(** The parameters of one poll. *)
Record param : Set := mkParam {
  p_fromBlock : Z;
  p_toBlock : Z;
  p_policy : Z;
}.

Section policy.
Context `{HashText} `{EthUtil} `{Gsl} `{EthClient C}.

Definition filter_query (fromBlock toBlock : Z) (addresses : goslice Address)
    (topics : goslice (list Hash)) : FilterQuery :=
  mkQuery (Some (to_int64 fromBlock)) (Some (to_int64 toBlock)) addresses topics.

(** What both policies do with the result of a collector: hashes that differ in
    this round give the map with the error, other errors give no map. *)
Definition collector_error (pollResults : pollMap) (err : error) (msg : string) :
    option pollMap * option error :=
  if error_is err errHashesDiffer then (Some pollResults, Some err)
  else (None, errors_Wrap (Some err) msg).

(** The block numbers of the range, written into a slice made beforehand. *)
Definition number_range (fromBlock toBlock : Z) : outcome (list Z) :=
  let numBlocks := (toBlock -₆₄ fromBlock) +₆₄ 1 in
  if (two63 <=? numBlocks)%Z then Panic "makeslice: len out of range"
  else
    r ← for_up (R := list Z) (range_fuel fromBlock toBlock) fromBlock toBlock
      (λ n '(blockNumbers, c),
        if decide (c < length blockNumbers)%nat then Ret (inl (<[c := n]> blockNumbers, S c))
        else Panic "index out of range")
      (replicate (Z.to_nat numBlocks) 0%Z, 0%nat);
    match r with
    | inl (blockNumbers, _) => Ret blockNumbers
    | inr v => Ret v
    end.

(** The two goroutines of pollExpensive call the client in either order. *)
Definition fetch_both (logsFirst : bool) (c : C) (q : FilterQuery) (blockNumbers : list Z) :
    outcome (C * ((list Log * option error) *
                  (gmap Z (option BlockHeader) * option error))) :=
  if logsFirst then
    '(c1, logs) ← FilterLogs c q;
    '(c2, headers) ← getHeadersByNumbers c1 blockNumbers;
    Ret (c2, (logs, headers))
  else
    '(c1, headers) ← getHeadersByNumbers c blockNumbers;
    '(c2, logs) ← FilterLogs c1 q;
    Ret (c2, (logs, headers)).

(** The errors that the goroutines sent, in the order they ran. *)
Definition fetch_errors (logsFirst : bool) (logsErr headersErr : option error) : list error :=
  let l := match logsErr with
           | Some _ => option_list (wrap_sentinel ErrFetchError "filterLogs returned error")
           | None => [] end in
  let h := option_list (errors_Wrap headersErr "getHeadersByNumbers returned error") in
  if logsFirst then l ++ h else h ++ l.

Definition pollExpensive (logsFirst : bool) (c : C) (fromBlock toBlock : Z)
    (addresses : goslice Address) (topics : goslice (list Hash)) (pollResults : pollMap) :
    outcome (C * (option pollMap * option error)) :=
  blockNumbers ← number_range fromBlock toBlock;
  let q := filter_query fromBlock toBlock addresses topics in
  '(c, ((logs, logsErr), (headers, headersErr))) ← fetch_both logsFirst c q blockNumbers;
  match WaitAndCollectErrors (fetch_errors logsFirst logsErr headersErr) with
  | Some err => Ret (c, (None, errors_Wrap (Some err) "concurrent fetch error"))
  | None =>
      if decide (length blockNumbers ≠ size headers) then
        Ret (c, (None, wrap_sentinel ErrFetchError
          "headers and blockNumbers length not matched"))
      else
        '(pollResults, (_, err)) ← collectLogs pollResults logs;
        match err with
        | Some err => Ret (c, collector_error pollResults err "collectLogs found error")
        | None =>
            '(pollResults, (_, err)) ← collectHeaders pollResults fromBlock toBlock headers;
            match err with
            | Some err => Ret (c, collector_error pollResults err "collectHeaders found error")
            | None => Ret (c, (Some pollResults, None))
            end
        end
  end.

(** The blocks of the range that are in pollResults. *)
Definition target_blocks (fromBlock toBlock : Z) (pollResults : pollMap) : outcome (list Z) :=
  r ← for_up (R := list Z) (range_fuel fromBlock toBlock) fromBlock toBlock
    (λ n targetBlocks,
      match pollResults !! n with
      | None => Ret (inl targetBlocks)
      | Some _ => Ret (inl (targetBlocks ++ [n]))
      end) [];
  match r with inl l => Ret l | inr v => Ret v end.

Definition pollCheap (c : C) (fromBlock toBlock : Z)
    (addresses : goslice Address) (topics : goslice (list Hash)) (pollResults : pollMap) :
    outcome (C * (option pollMap * option error)) :=
  let q := filter_query fromBlock toBlock addresses topics in
  '(c, (logs, err)) ← FilterLogs c q;
  match err with
  | Some e => Ret (c, (None, wrap_sentinel ErrFetchError (error_Error e)))
  | None =>
      '(pollResults, (_, err)) ← collectLogs pollResults logs;
      match err with
      | Some err => Ret (c, collector_error pollResults err "collectLogs error")
      | None =>
          targetBlocks ← target_blocks fromBlock toBlock pollResults;
          '(c, (headers, err)) ← getHeadersByNumbers c targetBlocks;
          match err with
          | Some _ => Ret (c, (None,
              wrap_sentinel ErrFetchError "failed to get headers for resultBlocks"))
          | None =>
              '(pollResults, (_, err)) ← collectHeaders pollResults fromBlock toBlock headers;
              match err with
              | Some err => Ret (c, collector_error pollResults err "collectHeaders error")
              | None => Ret (c, (Some pollResults, None))
              end
          end
      end
  end.

Definition poll (logsFirst : bool) (c : C) (p : param)
    (addresses : goslice Address) (topics : goslice (list Hash)) :
    outcome (C * (option pollMap * option error)) :=
  let pollResults : pollMap := ∅ in
  if (PolicyExpensiveBlock <=? p_policy p)%Z then
    Ret (c, (None, new_error "PolicyExpensiveBlock not implemented"))
  else if (p_policy p =? PolicyExpensive)%Z then
    pollExpensive logsFirst c (p_fromBlock p) (p_toBlock p) addresses topics pollResults
  else if (p_policy p <=? PolicyNormal)%Z then
    pollCheap c (p_fromBlock p) (p_toBlock p) addresses topics pollResults
  else Panic (error_Error (ESentinel ErrBadPolicy) +:+ " " +:+ Policy_String (p_policy p)).
End policy.

(** The fresh map of a successful poll, entry by entry: the logs of a block, or its
    header alone, which only the expensive policy asks for. *)
Definition fresh_ok (expensive : bool) (from to : Z) (logs : list Log) (m : pollMap) : Prop :=
  logs_consistent logs ∧
  ∀ n, match fresh_entry logs n with
       | Some r => m !! n = Some r
       | None =>
           if expensive && bool_decide (from ≤ n ≤ to)%Z
           then ∃ h, m !! n = Some (result_of_header n h)
           else m !! n = None
       end.

(** What the rest of Poll relies on. *)
Definition fresh_map (m : pollMap) : Prop :=
  ∀ n r, m !! n = Some r →
    Number (mBlock r) = n ∧ forked r = false ∧ LogsMigrated (mBlock r) = false.

(** * Lemmas *)

Lemma fresh_ok_map expensive from to logs m : fresh_ok expensive from to logs m → fresh_map m.
Proof.
  intros [_ Hm] n r Hr. specialize (Hm n).
  destruct (fresh_entry logs n) as [r'|] eqn:E.
  - unfold fresh_entry in E. destruct (logs_at n logs); [done|]. simplify_eq. done.
  - case_match; [destruct Hm as [h Hm]|]; simplify_eq. done.
Qed.

Section policy_lemmas.
Context `{HashText} `{EthUtil} `{Gsl} `{EthClient C}.

Lemma number_range_spec from to :
  (0 ≤ from)%Z → (to < two64 - 1)%Z → (from ≤ to + 1)%Z → (to - from + 1 < two63)%Z →
  number_range from to = Ret (block_range from to).
Proof.
  intros Hf Ht Hle Hsz. unfold number_range.
  assert ((to -₆₄ from) +₆₄ 1 = to - from + 1)%Z as -> by u64_lia.
  destruct (Z.leb_spec two63 (to - from + 1)); [lia|].
  rewrite for_up_range by done. set (sz := Z.to_nat (to - from + 1)).
  match goal with |- context [for_each _ ?f _] => set (body := f) end.
  destruct (for_each_ind (λ pre (s : list Z * nat), s.2 = length pre ∧
    s.1 = pre ++ replicate (sz - length pre) 0%Z) (λ _, False)
    (block_range from to) body (replicate sz 0%Z, 0%nat)) as ([[bn c]|] & -> & Hr).
  - simpl. by rewrite Nat.sub_0_r.
  - intros pre n post [bn c] Heq [Hc Hbn]; subst body; simpl in *. subst c bn.
    assert (length pre < sz)%nat as Hlt.
    { assert (length (block_range from to) = sz) as <- by apply length_seqZ.
      rewrite Heq, length_app. simpl. lia. }
    rewrite decide_True by (rewrite length_app, length_replicate; lia).
    eexists; split; [done|]; simpl. split; [rewrite length_app; simpl; lia|].
    rewrite insert_app_r_alt, Nat.sub_diag by lia.
    replace (sz - length pre)%nat with (S (sz - length (pre ++ [n])))%nat
      by (rewrite length_app; simpl; lia). simpl. by rewrite <-app_assoc.
  - destruct Hr as [_ Hbn]. simpl in *. subst bn.
    assert (length (block_range from to) = sz) as -> by apply length_seqZ.
    by rewrite Nat.sub_diag, app_nil_r.
  - done.
Qed.

Lemma target_blocks_spec from to (m : pollMap) :
  (0 ≤ from)%Z → (to < two64 - 1)%Z →
  target_blocks from to m = Ret (filter (λ n, is_Some (m !! n)) (block_range from to)).
Proof.
  intros Hf Ht. unfold target_blocks. rewrite for_up_range by done.
  match goal with |- context [for_each _ ?f _] => set (body := f) end.
  destruct (for_each_ind (λ pre s, s = filter (λ n, is_Some (m !! n)) pre) (λ _ : list Z, False)
    (block_range from to) body []) as ([s|] & -> & Hr); [done| |by subst s|done].
  intros pre n post s Heq ->. subst body; simpl. rewrite filter_app.
  destruct (m !! n) eqn:E; (eexists; split; [done|]; simpl).
  - by rewrite filter_cons_True by eauto.
  - rewrite filter_cons_False by (rewrite E; by intros [? ?]). by rewrite app_nil_r.
Qed.

(** A successful batch of headers has a header for every number. *)
Lemma getHeaders_some (c c' : C) numbers headers :
  getHeadersByNumbers c numbers = Ret (c', (headers, None)) →
  ∀ n h, headers !! n = Some h → is_Some h.
Proof.
  intros (? & _ & Hno & Hyes)%getHeadersByNumbers_spec n h Hn.
  destruct (decide (n ∈ numbers)) as [Hin|Hin].
  - apply Hyes in Hin as (? & ? & ? & _ & _ & _ & Hh). simplify_eq. by eexists.
  - apply Hno in Hin. congruence.
Qed.

Lemma collector_error_not_ok m e msg om : collector_error m e msg ≠ (om, None).
Proof. unfold collector_error. by destruct (error_is e errHashesDiffer). Qed.

(** The collected logs and headers make a fresh map, under both policies. *)
Lemma fresh_ok_cheap (c c' : C) from to logs (m m' : pollMap) headers :
  logs_consistent logs → (∀ n, m !! n = fresh_entry logs n) →
  getHeadersByNumbers c (filter (λ n, is_Some (m !! n)) (block_range from to)) =
    Ret (c', (headers, None)) →
  (∀ n, m' !! n = with_headers m headers from to n) → fresh_ok false from to logs m'.
Proof.
  intros Hc Hm Hgh Hm'. split; [done|]. intros n. rewrite Hm'. unfold with_headers.
  rewrite Hm. destruct (fresh_entry logs n) eqn:E; [done|]. simpl. case_decide; [|done].
  destruct (headers !! n) as [h|] eqn:Eh; [|done]. exfalso.
  assert (is_Some (headers !! n)) as Hin by (by rewrite Eh).
  apply (getHeadersByNumbers_dom _ _ _ _ _ Hgh), list_elem_of_filter in Hin as [Hin _].
  rewrite Hm, E in Hin. by destruct Hin.
Qed.

Lemma fresh_ok_expensive (c c' : C) from to logs (m m' : pollMap) headers :
  logs_consistent logs → (∀ n, m !! n = fresh_entry logs n) →
  getHeadersByNumbers c (block_range from to) = Ret (c', (headers, None)) →
  (∀ n, m' !! n = with_headers m headers from to n) → fresh_ok true from to logs m'.
Proof.
  intros Hc Hm Hgh Hm'. split; [done|]. intros n. rewrite Hm'. unfold with_headers.
  rewrite Hm. destruct (fresh_entry logs n) eqn:E; [done|]. simpl.
  destruct (decide (from ≤ n ≤ to)%Z) as [Hin|Hin].
  - rewrite bool_decide_true by done.
    assert (is_Some (headers !! n)) as [h Hh].
    { apply (getHeadersByNumbers_dom _ _ _ _ _ Hgh), elem_of_block_range. done. }
    destruct (getHeaders_some _ _ _ _ Hgh _ _ Hh) as [h' ->]. rewrite Hh. by exists h'.
  - by rewrite bool_decide_false by done.
Qed.

Lemma pollCheap_ok c c' from to addresses topics om :
  (0 ≤ from)%Z → (to < two64 - 1)%Z →
  pollCheap c from to addresses topics ∅ = Ret (c', (om, None)) →
  ∃ m logs c1, om = Some m ∧
    FilterLogs c (filter_query from to addresses topics) = Ret (c1, (logs, None)) ∧
    fresh_ok false from to logs m.
Proof.
  intros Hf Ht. unfold pollCheap. intros Hp.
  apply bind_Ret_inv in Hp as ([c1 [logs [e|]]] & Hfl & Hp); [done|].
  destruct (collectLogs_spec logs) as (m & r & Hcl & [(Hc & -> & Hm)|(_ & ? & ? & ->)]);
    rewrite Hcl in Hp; simpl in Hp; [|simplify_eq].
  rewrite target_blocks_spec in Hp by done. simpl in Hp.
  apply bind_Ret_inv in Hp as ([c2 [headers [e|]]] & Hgh & Hp); [done|].
  pose proof (getHeaders_some _ _ _ _ Hgh) as Hs.
  destruct (collectHeaders_spec m from to headers) as (m' & [n err] & Hch & Hr); [done..|].
  rewrite Hch in Hp. destruct Hr as [(Hag & He & Hm')|(_ & ? & He)]; simplify_eq/=.
  exists m', logs, c1. split_and!; [done..|]. by eapply fresh_ok_cheap.
Qed.

(** The goroutines' schedule does not matter to what they fetched. *)
Lemma fetch_both_ok lf c c' q numbers logs logsErr headers headersErr :
  fetch_both lf c q numbers = Ret (c', ((logs, logsErr), (headers, headersErr))) →
  (∃ c1 c2, FilterLogs c1 q = Ret (c2, (logs, logsErr))) ∧
  (∃ c1 c2, getHeadersByNumbers c1 numbers = Ret (c2, (headers, headersErr))).
Proof.
  unfold fetch_both. destruct lf; intros Hf;
    apply bind_Ret_inv in Hf as ([c1 ?] & Ha & Hf);
    apply bind_Ret_inv in Hf as ([c2 ?] & Hb & Hf); simplify_eq; eauto 10.
Qed.

Lemma fetch_errors_nil lf e1 e2 :
  WaitAndCollectErrors (fetch_errors lf e1 e2) = None ↔ e1 = None ∧ e2 = None.
Proof.
  rewrite WaitAndCollectErrors_spec. unfold fetch_errors.
  destruct lf, e1, e2; simpl; naive_solver.
Qed.

Lemma pollExpensive_ok lf c c' from to addresses topics om :
  (0 ≤ from)%Z → (to < two64 - 1)%Z → (from ≤ to + 1)%Z → (to - from + 1 < two63)%Z →
  pollExpensive lf c from to addresses topics ∅ = Ret (c', (om, None)) →
  ∃ m logs c1 c2, om = Some m ∧
    FilterLogs c1 (filter_query from to addresses topics) = Ret (c2, (logs, None)) ∧
    fresh_ok true from to logs m.
Proof.
  intros Hf Ht Hle Hsz. unfold pollExpensive. rewrite number_range_spec by done. simpl.
  intros Hp. apply bind_Ret_inv in Hp as ([c1 [[logs le] [headers he]]] & Hfb & Hp).
  destruct (WaitAndCollectErrors _) eqn:Ew; [done|].
  apply fetch_errors_nil in Ew as [-> ->].
  apply fetch_both_ok in Hfb as [(c2 & c3 & Hfl) (c4 & c5 & Hgh)].
  case_decide; [done|].
  destruct (collectLogs_spec logs) as (m & r & Hcl & [(Hc & -> & Hm)|(_ & ? & ? & ->)]);
    rewrite Hcl in Hp; simpl in Hp; [|simplify_eq].
  pose proof (getHeaders_some _ _ _ _ Hgh) as Hs.
  destruct (collectHeaders_spec m from to headers) as (m' & [n err] & Hch & Hr); [done..|].
  rewrite Hch in Hp. destruct Hr as [(Hag & He & Hm')|(_ & ? & He)]; simplify_eq/=.
  exists m', logs, c2, c3. split_and!; [done..|]. by eapply fresh_ok_expensive.
Qed.

(** A successful poll gives a fresh map of the logs the client returned. *)
Lemma poll_ok lf c c' p addresses topics om :
  (0 ≤ p_fromBlock p)%Z → (p_toBlock p < two64 - 1)%Z → (p_fromBlock p ≤ p_toBlock p + 1)%Z →
  (p_toBlock p - p_fromBlock p + 1 < two63)%Z →
  poll lf c p addresses topics = Ret (c', (om, None)) →
  ∃ m logs c1 c2, om = Some m ∧
    FilterLogs c1 (filter_query (p_fromBlock p) (p_toBlock p) addresses topics) =
      Ret (c2, (logs, None)) ∧
    fresh_ok (p_policy p =? PolicyExpensive)%Z (p_fromBlock p) (p_toBlock p) logs m.
Proof.
  intros Hf Ht Hle Hsz. unfold poll.
  destruct (PolicyExpensiveBlock <=? p_policy p)%Z; [done|].
  destruct (p_policy p =? PolicyExpensive)%Z.
  - by apply pollExpensive_ok.
  - destruct (p_policy p <=? PolicyNormal)%Z; [|done].
    intros (m & logs & c1 & ? & ? & ?)%pollCheap_ok; [|done..]. by exists m, logs, c, c1.
Qed.
End policy_lemmas.
