(* ===== verification/Poller.v ===== *)
(** internal/poller/poller.go and poll.go: the poller's configuration methods and
    Poll, which fetches fresh blocks, compares them with the tracker and reports
    good and reorged blocks. *)

From S2P Require Import Prelude GoErrors Types Externals SortedSet EthClient Batch BlockTracker PollUtils.
From S2P Require Import PollPolicy.

(** * Definitions *)

Section poller.
Context `{SortedSet SS} `{HashText} `{EthUtil} `{Gsl}.

(** The client is passed separately, because the emitter shares it; the mutex makes
    each method atomic.  A nil tracker is [None]. *)
Record poller : Type := mkPoller {
  addresses : goslice Address;
  topics : goslice (list Hash);
  lastRecordedBlock : Z;
  filterRange : Z;
  doReorg : bool;
  doHeader : bool;
  policy : Z;
  tracker : option (blockTracker SS);
}.

Definition New (addresses : goslice Address) (topics : goslice (list Hash))
    (doReorg doHeader : bool) (filterRange policy : Z) : poller :=
  mkPoller addresses topics 0 filterRange doReorg doHeader policy
    (if doReorg then Some newTracker else None).

Definition set_tracker (p : poller) (t : option (blockTracker SS)) : poller :=
  mkPoller (addresses p) (topics p) (lastRecordedBlock p) (filterRange p) (doReorg p)
    (doHeader p) (policy p) t.

(** ** Configuration (Controller) *)

Definition SetDoReorg (p : poller) (doReorg' : bool) : outcome poller :=
  let with_flag t := mkPoller (addresses p) (topics p) (lastRecordedBlock p) (filterRange p)
    doReorg' (doHeader p) (policy p) t in
  match doReorg p with
  | true =>
      if doReorg' then Ret p
      else
        match tracker p with
        | None => Panic "nil pointer dereference: tracker.clearUntil"
        | Some t => _ ← clearUntil t (lastRecordedBlock p); Ret (with_flag None)
        end
  | false =>
      if negb doReorg' then Ret p
      else
        match tracker p with
        | None => Ret (with_flag (Some newTracker))
        | Some t => Ret (with_flag (Some t))
        end
  end.

Definition SetDoHeader (p : poller) (doHeader' : bool) : poller :=
  mkPoller (addresses p) (topics p) (lastRecordedBlock p) (filterRange p) (doReorg p)
    doHeader' (policy p) (tracker p).

Definition SetAddresses (p : poller) (addresses' : goslice Address) : poller :=
  mkPoller addresses' (topics p) (lastRecordedBlock p) (filterRange p) (doReorg p)
    (doHeader p) (policy p) (tracker p).

Definition SetTopics (p : poller) (topics' : goslice (list Hash)) : poller :=
  mkPoller (addresses p) topics' (lastRecordedBlock p) (filterRange p) (doReorg p)
    (doHeader p) (policy p) (tracker p).

(** A variadic argument list is nil when it is empty. *)
Definition variadic {A} (l : list A) : goslice A := match l with [] => None | _ => Some l end.

Definition AddAddresses (p : poller) (addresses' : list Address) : poller :=
  if decide (length (slice_elems (addresses p)) = 0)%nat
  then SetAddresses p (variadic addresses')
  else SetAddresses p (Some (slice_elems (addresses p) ++ addresses')).

Definition AddTopics (p : poller) (topics' : list (list Hash)) : poller :=
  if decide (length (slice_elems (topics p)) = 0)%nat
  then SetTopics p (variadic topics')
  else SetTopics p (Some (slice_elems (topics p) ++ topics')).

Definition SetPolicy (p : poller) (level : Z) : poller * option error :=
  (p, new_error "poller.SetPolicy not implemented").

(** ** Poll *)

Section poll.
Context `{EthClient C}.

(** The tracker's blocks in range that are not in pollResults, highest first. *)
Definition find_missing (fromBlock toBlock : Z) (t : blockTracker SS) (pollResults : pollMap) :
    outcome (list Z) :=
  r ← for_down (R := list Z) (range_fuel fromBlock toBlock) toBlock fromBlock
    (λ n blocksMissing,
      match getTrackerBlock t n with
      | None => Ret (inl blocksMissing)
      | Some _ =>
          match pollResults !! n with
          | Some _ => Ret (inl blocksMissing)
          | None => Ret (inl (blocksMissing ++ [n]))
          end
      end) [];
  match r with inl l => Ret l | inr v => Ret v end.

Definition pollMissing (c : C) (p : param) (tracker : option (blockTracker SS))
    (pollResults : pollMap) : outcome (C * (option pollMap * list Z * option error)) :=
  match tracker with
  | None => Ret (c, (Some pollResults, [], None))
  | Some t =>
      blocksMissing ← find_missing (p_fromBlock p) (p_toBlock p) t pollResults;
      let lenBlocks := length blocksMissing in
      if decide (lenBlocks = 0)%nat then Ret (c, (Some pollResults, blocksMissing, None))
      else
        '(c, (headers, err)) ← getHeadersByNumbers c blocksMissing;
        match err with
        | Some _ => Ret (c, (None, blocksMissing,
            wrap_sentinel ErrFetchError "failed to get block headers in mapLogsNg"))
        | None =>
            let lenHeads := size headers in
            if decide (lenHeads ≠ lenBlocks) then
              Ret (c, (None, blocksMissing, wrap_sentinel ErrFetchError
                ("expecting " +:+ pretty lenBlocks +:+ " headers, got " +:+ pretty lenHeads)))
            else
              '(pollResults, (_, err)) ←
                collectHeaders pollResults (p_fromBlock p) (p_toBlock p) headers;
              match err with
              | Some e =>
                  if error_is e errHashesDiffer
                  then Ret (c, (Some pollResults, blocksMissing, Some e))
                  else Ret (c, (None, [], errors_Wrap err "collectHeaders error"))
              | None => Ret (c, (Some pollResults, blocksMissing, None))
              end
        end
  end.

(** Marks on a poll result: forked, and LogsMigrated when its logs went missing. *)
Definition mark_forked (migrated : bool) (r : mapLogsResult) : mapLogsResult :=
  let b := mBlock r in
  mkMapLogs true
    (mkBlock (if migrated then true else LogsMigrated b) (Number b) (BHash b) (Header b) (Logs b)).

(** A tracked block that the fresh information does not contradict. *)
Definition unchanged (trackerBlock : Block) (pollResult : mapLogsResult) : bool :=
  bool_decide (BHash trackerBlock = BHash (mBlock pollResult)) &&
  bool_decide (length (Logs trackerBlock) = length (Logs (mBlock pollResult))).

Definition findReorg (p : param) (blocksMissing : list Z)
    (tracker : option (blockTracker SS)) (pollResults : pollMap) :
    outcome (option pollMap * option error) :=
  match tracker with
  | None => Ret (Some pollResults, None)
  | Some t =>
      r ← for_up (range_fuel (p_fromBlock p) (p_toBlock p)) (p_fromBlock p) (p_toBlock p)
        (λ n (pollResults : pollMap),
          match getTrackerBlock t n with
          | None => Ret (inl pollResults)
          | Some trackerBlock =>
              match pollResults !! n with
              | None => Ret (inr (wrap_sentinel ErrProcessReorg
                  ("pollResult missing for trackerBlock " +:+ pretty n)))
              | Some pollResult =>
                  if unchanged trackerBlock pollResult then Ret (inl pollResults)
                  else Ret (inl (<[n :=
                    mark_forked (gsl_Contains blocksMissing n) pollResult]> pollResults))
              end
          end) pollResults;
      match r with
      | inl pollResults => Ret (Some pollResults, None)
      | inr err => Ret (None, err)
      end
  end.

(** handleBlocksMissingPolicy: drop the block from the tracker, or overwrite the
    tracker's own block with the new hash and no logs. *)
Definition handleBlocksMissingPolicy (number : Z) (t : blockTracker SS)
    (freshHash : Hash) (policy : Z) : blockTracker SS * option error :=
  if (policy =? PolicyFast)%Z then
    let '(t', err) := removeBlock t number in
    match err with
    | Some e => (t', wrap_sentinel ErrProcessReorg (error_Error e))
    | None => (t', None)
    end
  else
    (mutateTrackerBlock t number
       (λ b, mkBlock (LogsMigrated b) (Number b) freshHash (Header b) []), None).

Definition addTrackerBlockPolicy (tracker : option (blockTracker SS)) (block : Block)
    (policy : Z) : option (blockTracker SS) :=
  match tracker with
  | None => None
  | Some t =>
      if (policy =? PolicyFast)%Z && bool_decide (length (Logs block) = 0)%nat
      then Some t
      else Some (addTrackerBlock t block)
  end.

(** One turn of processResult's loop for a number that is in pollResults.  The
    ReorgedBlocks entry is a copy of the tracker's block made before the tracker's
    block is dropped or overwritten. *)
Definition process_block (policy : Z) (number : Z) (pollResult : mapLogsResult)
    (s : option (blockTracker SS) * PollerResult) :
    outcome (option (blockTracker SS) * PollerResult +
             option (blockTracker SS) * option error) :=
  let '(tracker, result) := s in
  let add_good tracker result :=
    let freshBlock := mBlock pollResult in
    Ret (inl (addTrackerBlockPolicy tracker freshBlock policy,
      mkResult (FromBlock result) (ToBlock result) (LastGood result)
        (GoodBlocks result ++ [freshBlock]) (ReorgedBlocks result))) in
  match tracker with
  | Some t =>
      if forked pollResult then
        match getTrackerBlock t number with
        | None => Panic "nil pointer dereference: trackerBlock.String()"
        | Some trackerBlock =>
            let freshHash := BHash (mBlock pollResult) in
            let result := mkResult (FromBlock result) (ToBlock result) (LastGood result)
              (GoodBlocks result) (ReorgedBlocks result ++ [trackerBlock]) in
            if LogsMigrated (mBlock pollResult) then
              let '(t', err) := handleBlocksMissingPolicy number t freshHash policy in
              match err with
              | Some e => Ret (inr (Some t', wrap_sentinel ErrProcessReorg (error_Error e)))
              | None => add_good (Some t') result
              end
            else add_good (Some t) result
        end
      else add_good (Some t) result
  | None => add_good None result
  end.

Definition processResult (p : param) (tracker : option (blockTracker SS))
    (pollResults : pollMap) :
    outcome (option (blockTracker SS) * (option PollerResult * option error)) :=
  r ← for_up (range_fuel (p_fromBlock p) (p_toBlock p)) (p_fromBlock p) (p_toBlock p)
    (λ number s,
      match pollResults !! number with
      | None => Ret (inl s)
      | Some pollResult => process_block (p_policy p) number pollResult s
      end) (tracker, new_PollerResult);
  match r with
  | inl (tracker, result) => Ret (tracker, (Some result, None))
  | inr (tracker, err) => Ret (tracker, (None, err))
  end.

(** The clearing of old tracker blocks that opens Poll. *)
Definition clear_tracker (p : poller) : outcome poller :=
  if bool_decide (is_Some (tracker p)) || negb (lastRecordedBlock p =? 0)%Z then
    let until := lastRecordedBlock p -₆₄ filterRange p in
    match tracker p with
    | None => Panic "nil pointer dereference: tracker.clearUntil"
    | Some t => t' ← clearUntil t until; Ret (set_tracker p (Some t'))
    end
  else Ret p.

(** result.FromBlock, result.ToBlock = fromBlock, toBlock and LastGoodBlock. *)
Definition finish_result (result : PollerResult) (fromBlock toBlock : Z) : PollerResult :=
  let result := mkResult fromBlock toBlock (LastGood result)
    (GoodBlocks result) (ReorgedBlocks result) in
  mkResult fromBlock toBlock (LastGoodBlock result) (GoodBlocks result) (ReorgedBlocks result).

Definition Poll (logsFirst : bool) (p : poller) (c : C) (fromBlock toBlock : Z) :
    outcome (poller * C * (option PollerResult * option error)) :=
  p ← clear_tracker p;
  let param := mkParam fromBlock toBlock (policy p) in
  '(c, (pollResults, err)) ← poll logsFirst c param (addresses p) (topics p);
  match err with
  | Some _ => Ret (p, c, (None, err))
  | None =>
      '(c, (pollResults, blocksMissing, err)) ←
        pollMissing c param (tracker p) (default ∅ pollResults);
      match err with
      | Some _ => Ret (p, c, (None, err))
      | None =>
          '(pollResults, err) ←
            findReorg param blocksMissing (tracker p) (default ∅ pollResults);
          match err with
          | Some _ => Ret (p, c, (None, err))
          | None =>
              let pollResults := default ∅ pollResults in
              '(tracker', (result, err)) ← processResult param (tracker p) pollResults;
              match result, err with
              | Some result, None =>
                  let result := finish_result result fromBlock toBlock in
                  let p := mkPoller (addresses p) (topics p) (LastGood result) (filterRange p)
                    (doReorg p) (doHeader p) (policy p) tracker' in
                  match pollResults !! fromBlock with
                  | Some fromBlockResult =>
                      if forked fromBlockResult && doReorg p then
                        Ret (p, c, (Some result, wrap_sentinel ErrFromBlockReorged
                          ("fromBlock " +:+ pretty fromBlock +:+ " was removed/reorged")))
                      else Ret (p, c, (Some result, None))
                  | None => Ret (p, c, (Some result, None))
                  end
              | _, _ => Ret (set_tracker p tracker', c, (result, err))
              end
          end
      end
  end.
End poll.
End poller.
Arguments poller SS : clear implicits.
