(* ===== verification/PollerSpec.v ===== *)
(** What each stage of Poll computes: the reference description of the missing
    blocks, of the marks findReorg sets, of the result and of the tracker after. *)

From S2P Require Import Prelude GoErrors Types Externals SortedSet EthClient Batch BlockTracker PollUtils.
From S2P Require Import PollPolicy Poller.

(** * Definitions *)

(** Ranges that the emitter asks for: not below block 1, and far from the top. *)
Definition range_ok (from to : Z) : Prop := (1 ≤ from ∧ from ≤ to + 1 ∧ to < two63 - 1)%Z.

Section spec.
Context `{SortedSet SS} `{Gsl}.
Implicit Types (t : blockTracker SS) (m : pollMap).

Definition missing_blocks t m (from to : Z) : list Z :=
  filter (λ n, is_Some (getTrackerBlock t n) ∧ m !! n = None) (reverse (block_range from to)).

(** The map after pollMissing: the missing blocks have entries of their headers. *)
Definition filled m (missing : list Z) (m' : pollMap) : Prop :=
  ∀ n, match m !! n with
       | Some r => m' !! n = Some r
       | None =>
           if decide (n ∈ missing) then ∃ h, m' !! n = Some (result_of_header n h)
           else m' !! n = None
       end.

(** The entry of block [n] after findReorg. *)
Definition marked_entry t (missing : list Z) m (from to n : Z) : option mapLogsResult :=
  match m !! n with
  | None => None
  | Some r =>
      if decide (from ≤ n ≤ to)%Z then
        match getTrackerBlock t n with
        | Some b =>
            if unchanged b r then Some r
            else Some (mark_forked (gsl_Contains missing n) r)
        | None => Some r
        end
      else Some r
  end.

(** The blocks that processResult publishes, in ascending order of number. *)
Definition good_blocks m (l : list Z) : list Block := omap (λ n, mBlock <$> m !! n) l.

Definition reorged_entry t m (n : Z) : option Block :=
  r ← m !! n; if forked r then getTrackerBlock t n else None.
Definition reorged_blocks t m (l : list Z) : list Block := omap (reorged_entry t m) l.

(** What the tracker knows of block [n] once its entry has been processed. *)
Definition tracked_entry (policy : Z) t m (n : Z) : option Block :=
  match m !! n with
  | None => getTrackerBlock t n
  | Some r =>
      if (policy =? PolicyFast)%Z && bool_decide (length (Logs (mBlock r)) = 0)%nat then
        if forked r && LogsMigrated (mBlock r) then None else getTrackerBlock t n
      else Some (mBlock r)
  end.
(** The tracker's knowledge of [n] after its entry [r] was processed. *)
Definition entry_after (policy : Z) (r : mapLogsResult) (before : option Block) : option Block :=
  if (policy =? PolicyFast)%Z && bool_decide (length (Logs (mBlock r)) = 0)%nat then
    if forked r && LogsMigrated (mBlock r) then None else before
  else Some (mBlock r).
End spec.

(** * Lemmas *)

Section spec_lemmas.
Context `{SortedSet SS} `{HashText} `{EthUtil} `{Gsl}.
Implicit Types (t : blockTracker SS) (m : pollMap).

Lemma elem_of_missing_blocks t m from to n :
  n ∈ missing_blocks t m from to ↔
  (from ≤ n ≤ to)%Z ∧ is_Some (getTrackerBlock t n) ∧ m !! n = None.
Proof.
  unfold missing_blocks. rewrite list_elem_of_filter, elem_of_reverse, elem_of_block_range.
  tauto.
Qed.

Lemma find_missing_spec t m from to :
  (1 ≤ from)%Z → (to < two64)%Z →
  find_missing from to t m = Ret (missing_blocks t m from to).
Proof.
  intros Hf Ht. unfold find_missing. rewrite for_down_range by done.
  match goal with |- context [for_each _ ?f _] => set (body := f) end.
  set (P := λ n, is_Some (getTrackerBlock t n) ∧ m !! n = None).
  destruct (for_each_ind (λ pre s, s = filter P pre) (λ _ : list Z, False)
    (reverse (block_range from to)) body []) as ([s|] & -> & Hr); [done| |by subst s|done].
  intros pre n post s Heq ->. subst body; simpl. rewrite filter_app.
  destruct (getTrackerBlock t n) eqn:Et, (m !! n) eqn:Em; (eexists; split; [done|]; simpl);
    [rewrite filter_cons_False|rewrite filter_cons_True|rewrite filter_cons_False..];
    subst P; simpl; rewrite ?app_nil_r; try done; rewrite ?Et, ?Em; try naive_solver.
  all: by intros [[? ?] ?].
Qed.

(** The countdown never ends when the range starts at block 0. *)
Lemma find_missing_zero t m to : is_u64 to → find_missing 0 to t m = Diverge.
Proof.
  intros Ht. unfold find_missing. rewrite for_down_zero; [done..|].
  intros n s. destruct (getTrackerBlock t n), (m !! n); eauto.
Qed.

Section client.
Context `{EthClient C}.

Lemma pollMissing_ok (c c' : C) p tr m om missing :
  range_ok (p_fromBlock p) (p_toBlock p) →
  pollMissing c p tr m = Ret (c', (om, missing, None)) →
  ∃ m', om = Some m' ∧ filled m missing m' ∧
    missing = match tr with
      | None => [] | Some t => missing_blocks t m (p_fromBlock p) (p_toBlock p) end.
Proof.
  intros Hok. unfold range_ok in Hok. unfold pollMissing.
  destruct tr as [t|]; [|intros [= <- <- <-]; exists m; split_and!; [done| |done]].
  2:{ intros n. by destruct (m !! n). }
  rewrite find_missing_spec by lia. simpl. set (ms := missing_blocks _ _ _ _).
  case_decide as Hl.
  { intros [= <- <- <-]. exists m. split_and!; [done| |done]. intros n.
    apply nil_length_inv in Hl. rewrite Hl. by destruct (m !! n). }
  intros Hp. apply bind_Ret_inv in Hp as ([c1 [headers [e|]]] & Hgh & Hp); [done|].
  case_decide; [done|].
  destruct (collectHeaders_spec m (p_fromBlock p) (p_toBlock p) headers)
    as (m' & [k err] & Hch & Hr); [lia..| |].
  { by eapply getHeaders_some. }
  rewrite Hch in Hp. simpl in Hp. destruct Hr as [(_ & He & Hm')|(_ & msg & He)]; simpl in He;
    subst err; [|simpl in Hp; simplify_eq].
  injection Hp as <- <- <-. exists m'. split_and!; [done| |done]. intros n. rewrite Hm'.
  unfold with_headers. destruct (m !! n) as [r|] eqn:Em; [done|].
  assert (n ∈ ms → (p_fromBlock p ≤ n ≤ p_toBlock p)%Z) as Hr by
    by intros [? _]%elem_of_missing_blocks.
  assert (is_Some (headers !! n) ↔ n ∈ ms) as Hin by by eapply getHeadersByNumbers_dom.
  destruct (decide (n ∈ ms)) as [Hn|Hn].
  - rewrite decide_True by auto. apply Hin in Hn as [h Hh].
    destruct (getHeaders_some _ _ _ _ Hgh _ _ Hh) as [h' ->]. rewrite Hh. by exists h'.
  - case_decide; [|done]. destruct (headers !! n) eqn:Eh; [|done].
    destruct Hn. by apply Hin.
Qed.

Lemma findReorg_ok p missing t m :
  range_ok (p_fromBlock p) (p_toBlock p) →
  (∀ n, (p_fromBlock p ≤ n ≤ p_toBlock p)%Z →
     is_Some (getTrackerBlock t n) → is_Some (m !! n)) →
  ∃ m', findReorg p missing (Some t) m = Ret (Some m', None) ∧
    ∀ n, m' !! n = marked_entry t missing m (p_fromBlock p) (p_toBlock p) n.
Proof.
  unfold range_ok. intros Hok Hin. unfold findReorg. rewrite for_up_range by lia.
  match goal with |- context [for_each _ ?f _] => set (body := f) end.
  set (l := block_range _ _) in *.
  destruct (for_each_ind (λ pre (s : pollMap), ∀ n, s !! n =
      if decide (n ∈ pre) then marked_entry t missing m (p_fromBlock p) (p_toBlock p) n
      else m !! n) (λ _ : option error, False) l body m) as ([m'|] & -> & Hr); [| | |done].
  - intros n. rewrite decide_False; [done|apply not_elem_of_nil].
  - intros pre n post s Heq Hs. subst body; simpl.
    destruct (block_range_split _ _ _ _ _ Heq) as (Hn & Hnin & _).
    assert (∀ s' : pollMap,
      s' !! n = marked_entry t missing m (p_fromBlock p) (p_toBlock p) n →
      (∀ n', n ≠ n' → s' !! n' = s !! n') → ∀ n', s' !! n' = if decide (n' ∈ pre ++ [n])
        then marked_entry t missing m (p_fromBlock p) (p_toBlock p) n' else m !! n') as Hstep
      by (intros s'; apply (decide_snoc_step _ _ (λ n, s !! n) (λ n, s' !! n)), Hs).
    pose proof (Hs n) as Hsn. rewrite decide_False in Hsn by done.
    destruct (getTrackerBlock t n) as [b|] eqn:Eb.
    + destruct (Hin n Hn) as [r Er]; [by eexists|]. rewrite Hsn, Er.
      destruct (unchanged b r) eqn:Eu; (eexists; split; [done|]; simpl); apply Hstep; try done.
      * unfold marked_entry. by rewrite Hsn, Er, decide_True, Eb, Eu by done.
      * unfold marked_entry. by rewrite lookup_insert_eq, Er, decide_True, Eb, Eu by done.
      * intros. by apply lookup_insert_ne.
    + eexists; split; [done|]; simpl. apply Hstep; [|done].
      unfold marked_entry. rewrite Hsn. destruct (m !! n); [|done].
      rewrite Eb. by case_decide.
  - exists m'. split; [done|]. intros n. rewrite Hr. case_decide as Hd; [done|].
    unfold marked_entry. destruct (m !! n); [|done]. rewrite decide_False; [done|].
    intros ?. by apply Hd, elem_of_block_range.
Qed.
End client.

Lemma addTrackerBlockPolicy_ok t b policy :
  tracker_wf t → is_u64 (Number b) →
  ∃ t', addTrackerBlockPolicy (Some t) b policy = Some t' ∧ tracker_wf t' ∧
    ∀ k, is_u64 k → getTrackerBlock t' k =
      if (policy =? PolicyFast)%Z && bool_decide (length (Logs b) = 0)%nat
      then getTrackerBlock t k
      else if decide (Number b = k) then Some b else getTrackerBlock t k.
Proof.
  intros Hwf Hb. unfold addTrackerBlockPolicy. case_match; (eexists; split; [done|]).
  - done.
  - split; [by apply addTrackerBlock_wf|]. intros k Hk. by apply getTrackerBlock_add.
Qed.

(** Dropping or overwriting the tracked block never fails when it is tracked. *)
Lemma handleBlocksMissingPolicy_ok t n h policy :
  tracker_wf t → is_u64 n → is_Some (getTrackerBlock t n) →
  ∃ t', handleBlocksMissingPolicy n t h policy = (t', None) ∧ tracker_wf t' ∧
    ∀ k, is_u64 k → getTrackerBlock t' k =
      if decide (n = k) then
        if (policy =? PolicyFast)%Z then None
        else (λ b, mkBlock (LogsMigrated b) (Number b) h (Header b) []) <$> getTrackerBlock t k
      else getTrackerBlock t k.
Proof.
  intros Hwf Hn Ht. unfold handleBlocksMissingPolicy.
  destruct (policy =? PolicyFast)%Z.
  - pose proof (proj2 (removeBlock_tracked t n) Ht) as Hr.
    pose proof (removeBlock_wf t n Hwf) as Hwf'.
    pose proof (getTrackerBlock_remove t n) as Hg.
    destruct (removeBlock t n) as [t' err]; simpl in *. subst err.
    eexists; split_and!; [done..|]. intros k Hk. by apply Hg.
  - eexists; split_and!; [done|by apply mutateTrackerBlock_wf|].
    intros k Hk. by apply getTrackerBlock_mutate.
Qed.

Lemma good_blocks_snoc m l n :
  good_blocks m (l ++ [n]) = good_blocks m l ++ option_list (mBlock <$> m !! n).
Proof. unfold good_blocks. rewrite omap_app. simpl. by destruct (m !! n). Qed.

Lemma reorged_blocks_snoc t m l n :
  reorged_blocks t m (l ++ [n]) = reorged_blocks t m l ++ option_list (reorged_entry t m n).
Proof. unfold reorged_blocks. rewrite omap_app. simpl. by destruct (reorged_entry t m n). Qed.

#[local] Arguments addTrackerBlockPolicy : simpl never.

Lemma process_block_ok policy n r t res :
  tracker_wf t → is_u64 n → Number (mBlock r) = n →
  (forked r = true → is_Some (getTrackerBlock t n)) →
  ∃ t', process_block policy n r (Some t, res) =
      Ret (inl (Some t', mkResult (FromBlock res) (ToBlock res) (LastGood res)
        (GoodBlocks res ++ [mBlock r])
        (ReorgedBlocks res ++ option_list (if forked r then getTrackerBlock t n else None)))) ∧
    tracker_wf t' ∧
    ∀ k, is_u64 k → getTrackerBlock t' k =
      if decide (n = k) then entry_after policy r (getTrackerBlock t n) else getTrackerBlock t k.
Proof.
  intros Hwf Hn Hnum Hf. unfold process_block, entry_after. rewrite <-Hnum in Hn.
  destruct (forked r); simpl.
  - destruct Hf as [b Hb]; [done|]. rewrite Hb.
    destruct (LogsMigrated (mBlock r)); simpl.
    + destruct (handleBlocksMissingPolicy_ok t n (BHash (mBlock r)) policy)
        as (t1 & -> & Hwf1 & Hg1); [done|congruence|by eexists|]. simpl.
      destruct (addTrackerBlockPolicy_ok t1 (mBlock r) policy)
        as (t2 & -> & Hwf2 & Hg2); [done..|].
      eexists; split_and!; [done..|]. intros k Hk. rewrite Hg2, Hg1, Hnum by done.
      destruct (policy =? PolicyFast)%Z; simpl; repeat case_decide; repeat case_bool_decide;
        try done; congruence.
    + destruct (addTrackerBlockPolicy_ok t (mBlock r) policy)
        as (t2 & -> & Hwf2 & Hg2); [done..|].
      eexists; split_and!; [done..|]. intros k Hk. rewrite Hg2, Hnum by done.
      case_match; repeat case_decide; subst; congruence.
  - destruct (addTrackerBlockPolicy_ok t (mBlock r) policy)
      as (t2 & -> & Hwf2 & Hg2); [done..|].
    eexists. split_and!; [by rewrite app_nil_r|done|]. intros k Hk.
    rewrite Hg2, Hnum by done. case_match; repeat case_decide; subst; congruence.
Qed.

#[local] Arguments process_block : simpl never.

(** processResult publishes the entries of the range in order, with the tracker's
    old block for every forked one, and updates the tracker entry by entry. *)
Lemma processResult_ok p t m :
  range_ok (p_fromBlock p) (p_toBlock p) → tracker_wf t →
  (∀ n r, m !! n = Some r → Number (mBlock r) = n) →
  (∀ n r, m !! n = Some r → forked r = true → is_Some (getTrackerBlock t n)) →
  let l := block_range (p_fromBlock p) (p_toBlock p) in
  ∃ t', processResult p (Some t) m =
      Ret (Some t', (Some (mkResult 0 0 0 (good_blocks m l) (reorged_blocks t m l)), None)) ∧
    tracker_wf t' ∧
    ∀ n, is_u64 n → getTrackerBlock t' n =
      if decide (n ∈ l) then tracked_entry (p_policy p) t m n else getTrackerBlock t n.
Proof.
  intros Hok Hwf Hnum Hf l. unfold range_ok in Hok. unfold processResult.
  rewrite for_up_range by lia. fold l.
  match goal with |- context [for_each _ ?f _] => set (body := f) end.
  destruct (for_each_ind (λ pre (s : option (blockTracker SS) * PollerResult),
      ∃ t', s = (Some t', mkResult 0 0 0 (good_blocks m pre) (reorged_blocks t m pre)) ∧
        tracker_wf t' ∧ ∀ n, is_u64 n → getTrackerBlock t' n =
          if decide (n ∈ pre) then tracked_entry (p_policy p) t m n else getTrackerBlock t n)
    (λ _ : option (blockTracker SS) * option error, False)
    l body (Some t, new_PollerResult)) as ([s|] & -> & Hr); [| | |done].
  - exists t. split_and!; [done..|]. intros n Hn.
    rewrite decide_False; [done|apply not_elem_of_nil].
  - intros pre n post s Heq (t1 & -> & Hwf1 & Hg1). subst body; cbn beta.
    destruct (block_range_split _ _ _ _ _ Heq) as (Hn & Hnin & _).
    assert (is_u64 n) as Hn64 by (unfold is_u64; lia).
    pose proof (Hg1 n Hn64) as Hgn. rewrite decide_False in Hgn by done.
    rewrite good_blocks_snoc, reorged_blocks_snoc.
    unfold reorged_entry. destruct (m !! n) as [r|] eqn:Er; simpl.
    + destruct (process_block_ok (p_policy p) n r t1
        (mkResult 0 0 0 (good_blocks m pre) (reorged_blocks t m pre)))
        as (t2 & -> & Hwf2 & Hg2); [done|done|by eapply Hnum| |].
      { rewrite Hgn. by eapply Hf. }
      eexists; split; [done|]; simpl. exists t2. split_and!; [|done|].
      { rewrite Hgn. by destruct (forked r), (getTrackerBlock t n). }
      intros k Hk. rewrite Hg2, Hgn by done. destruct (decide (n = k)) as [<-|Hne].
      * rewrite decide_True by (apply elem_of_snoc; auto). unfold tracked_entry. by rewrite Er.
      * rewrite Hg1 by done. apply decide_ext. rewrite elem_of_snoc. naive_solver.
    + eexists; split; [done|]; simpl. exists t1. rewrite !app_nil_r. split_and!; [done..|].
      intros k Hk. rewrite Hg1 by done. destruct (decide (k = n)) as [->|Hne].
      * rewrite decide_False, decide_True by (done || apply elem_of_snoc; auto).
        unfold tracked_entry. by rewrite Er.
      * apply decide_ext. rewrite elem_of_snoc. naive_solver.
  - destruct Hr as (t' & -> & ? & ?). by exists t'.
Qed.
End spec_lemmas.
