(* ===== verification/PollRun.v ===== *)
(** A run of Poll that gives a result, taken apart: what was known, what was fetched
    and what every block's entry was when the result was collected. *)

From S2P Require Import Prelude GoErrors Types Externals SortedSet EthClient Batch BlockTracker PollUtils.
From S2P Require Import PollPolicy Poller PollerSpec.

(** * Definitions *)

Section run.
Context `{SortedSet SS} `{HashText} `{EthUtil} `{Gsl}.
Implicit Types (p : poller SS) (t : blockTracker SS) (m : pollMap).

Definition poller_wf p : Prop := ∀ t, tracker p = Some t → tracker_wf t.

(** The tracker that Poll works on, after it has forgotten old blocks; a poller
    without a tracker behaves as one whose tracker stays empty. *)
Definition cleared p t : Prop :=
  match tracker p with
  | Some t0 => clearUntil t0 (lastRecordedBlock p -₆₄ filterRange p) = Ret t
  | None => t = newTracker ∧ lastRecordedBlock p = 0%Z
  end.

(** What is left of a tracker option when the tracker does not exist. *)
Definition tracker_view (tr : option (blockTracker SS)) : blockTracker SS :=
  default newTracker tr.

Definition expensive p : bool := (policy p =? PolicyExpensive)%Z.

(** The entry of block [n] when the result is collected, from the logs the client
    gave and the block that the tracker knew. *)
Definition entry_ok p t (logs : list Log) (n : Z) (e : option mapLogsResult) : Prop :=
  match e with
  | None => logs_at n logs = [] ∧ expensive p = false ∧ getTrackerBlock t n = None
  | Some r =>
      (logs_at n logs ≠ [] ∨ expensive p = true ∨ is_Some (getTrackerBlock t n)) ∧
      Number (mBlock r) = n ∧
      Logs (mBlock r) = logs_at n logs ∧
      (∀ l, l ∈ logs_at n logs → log_BlockHash l = BHash (mBlock r)) ∧
      (Header (mBlock r) = None ↔ logs_at n logs ≠ []) ∧
      (∀ h, Header (mBlock r) = Some h → header_Hash h = BHash (mBlock r)) ∧
      forked r = match getTrackerBlock t n with
                 | Some b => negb (unchanged b r) | None => false end ∧
      LogsMigrated (mBlock r) =
        forked r && negb (expensive p) && bool_decide (logs_at n logs = [])
  end.

(** What the poller knows after the run. *)
Definition known_after p t m (l : list Z) (t' : blockTracker SS) : Prop :=
  match tracker p with
  | Some _ => tracker_wf t' ∧ ∀ n, is_u64 n → getTrackerBlock t' n =
      if decide (n ∈ l) then tracked_entry (policy p) t m n else getTrackerBlock t n
  | None => t' = newTracker
  end.

(** One run of Poll with a result. *)
Record poll_run p p' (from to : Z) (res : PollerResult) (err : option error)
    t t' m (logs : list Log) : Prop := {
  run_cleared : cleared p t;
  run_wf : tracker_wf t;
  run_consistent : logs_consistent logs;
  run_entry : ∀ n, (from ≤ n ≤ to)%Z → entry_ok p t logs n (m !! n);
  run_result : res = finish_result (mkResult 0 0 0 (good_blocks m (block_range from to))
                       (reorged_blocks t m (block_range from to))) from to;
  run_known : known_after p t m (block_range from to) t';
  run_tracker : tracker p' = match tracker p with Some _ => Some t' | None => None end;
  run_recorded : lastRecordedBlock p' = LastGood res;
  run_config : addresses p' = addresses p ∧ topics p' = topics p ∧ policy p' = policy p ∧
    filterRange p' = filterRange p ∧ doReorg p' = doReorg p ∧ doHeader p' = doHeader p;
  run_error : err =
    if match m !! from with Some r => forked r | None => false end && doReorg p
    then wrap_sentinel ErrFromBlockReorged
      ("fromBlock " +:+ pretty from +:+ " was removed/reorged")
    else None;
}.
End run.

(** * Lemmas *)

Section run_lemmas.
Context `{SortedSet SS} `{HashText} `{EthUtil} `{Gsl}.
Implicit Types (p : poller SS) (t : blockTracker SS) (m : pollMap).

Lemma clear_tracker_ok p :
  poller_wf p → is_Some (tracker p) ∨ lastRecordedBlock p = 0%Z →
  ∃ t, cleared p t ∧ tracker_wf t ∧
    clear_tracker p = Ret (set_tracker p (match tracker p with
      Some _ => Some t | None => None end)).
Proof.
  intros Hwf Hok. unfold cleared, clear_tracker. destruct (tracker p) as [t0|] eqn:Et.
  - destruct (clearUntil_content t0 (lastRecordedBlock p -₆₄ filterRange p))
      as (t & Hc & Hwf' & _); [by apply Hwf|].
    exists t. rewrite bool_decide_true by done. simpl. by rewrite Hc.
  - destruct Hok as [[? ?]|Hl]; [done|]. exists newTracker. rewrite Hl. simpl.
    split_and!; [done..|apply newTracker_wf|]. unfold set_tracker. rewrite <-Et. by destruct p.
Qed.

Lemma clear_tracker_inv p p1 :
  clear_tracker p = Ret p1 → is_Some (tracker p) ∨ lastRecordedBlock p = 0%Z.
Proof.
  unfold clear_tracker. destruct (tracker p); [by left|]. simpl.
  destruct (Z.eqb_spec (lastRecordedBlock p) 0); [by right|done].
Qed.

(** A block that a fresh map does not have has no logs there. *)
Lemma fresh_ok_entry b from to logs m n :
  fresh_ok b from to logs m → (from ≤ n ≤ to)%Z →
  match m !! n with
  | None => logs_at n logs = [] ∧ b = false
  | Some r => forked r = false ∧ LogsMigrated (mBlock r) = false ∧
      Number (mBlock r) = n ∧ Logs (mBlock r) = logs_at n logs ∧
      (∀ l, l ∈ logs_at n logs → log_BlockHash l = BHash (mBlock r)) ∧
      (Header (mBlock r) = None ↔ logs_at n logs ≠ []) ∧
      (∀ h, Header (mBlock r) = Some h → header_Hash h = BHash (mBlock r)) ∧
      (logs_at n logs ≠ [] ∨ b = true)
  end.
Proof.
  intros [Hc Hm] Hn. specialize (Hm n). unfold fresh_entry in Hm.
  destruct (logs_at n logs) as [|l ls] eqn:El.
  - rewrite bool_decide_true, andb_true_r in Hm by done. destruct b.
    + destruct Hm as [h ->]. simpl. split_and!; try done; [set_solver|naive_solver|auto].
    + by rewrite Hm.
  - rewrite Hm. simpl. split_and!; try done; [|by left].
    intros l' Hl'. apply Hc; [| |]; rewrite <-El in *.
    + by apply elem_of_logs_at in Hl' as [_ ?].
    + assert (l ∈ logs_at n logs) as [_ ?]%elem_of_logs_at by (rewrite El; by left). done.
    + apply elem_of_logs_at in Hl' as [-> _].
      assert (l ∈ logs_at n logs) as [-> _]%elem_of_logs_at by (rewrite El; by left). done.
Qed.

(** The entries after pollMissing and findReorg. *)
Lemma marked_entry_ok p from to logs m t m1 m2 :
  fresh_ok (expensive p) from to logs m →
  filled m (missing_blocks t m from to) m1 →
  (∀ n, m2 !! n = marked_entry t (missing_blocks t m from to) m1 from to n) →
  ∀ n, (from ≤ n ≤ to)%Z → entry_ok p t logs n (m2 !! n).
Proof.
  intros Hf Hfill Hm2 n Hn. rewrite Hm2. unfold marked_entry.
  pose proof (fresh_ok_entry _ _ _ _ _ _ Hf Hn) as He. specialize (Hfill n).
  pose proof (elem_of_missing_blocks t m from to n) as Hmiss.
  destruct (m !! n) as [r|] eqn:Em.
  - rewrite Hfill, decide_True by done.
    destruct He as (Hfk & Hlm & Hnum & Hlogs & Hhash & Hhdr & Hhh & Hor).
    assert (gsl_Contains (missing_blocks t m from to) n = false) as Hcont.
    { apply gsl_Contains_false. rewrite Hmiss. naive_solver. }
    destruct (getTrackerBlock t n) as [b|] eqn:Eb.
    + destruct (unchanged b r) eqn:Eu; simpl; rewrite ?Eb, ?Hcont, ?Hfk, ?Hlm, ?Eu; simpl.
      * split_and!; try done. naive_solver.
      * split_and!; try done; [naive_solver|by unfold unchanged in *; simpl; rewrite Eu|].
        destruct Hor as [Hl| ->]; [rewrite bool_decide_false by done|]; by rewrite ?andb_false_r.
    + simpl. rewrite Eb, Hfk, Hlm. split_and!; try done. naive_solver.
  - destruct He as [Hl Hb]. destruct (getTrackerBlock t n) as [b|] eqn:Eb.
    + assert (n ∈ missing_blocks t m from to) as Hin by (apply Hmiss; by eauto).
      rewrite decide_True in Hfill by done. destruct Hfill as [h Hh].
      rewrite Hh, decide_True by done. apply gsl_Contains_spec in Hin. rewrite Hin.
      destruct (unchanged b _) eqn:Eu; simpl; rewrite ?Eb, ?Hl, ?Hb; simpl;
        rewrite ?Eu; (split_and!; try done; try by eauto).
      all: try (by intros ? ?%not_elem_of_nil); try (by intros ? [= <-]).
      change (unchanged b _) with (unchanged b (result_of_header n h)). by rewrite Eu.
    + rewrite decide_False in Hfill; [by rewrite Hfill|]. rewrite Hmiss. by intros (_ & [? ?] & _).
Qed.

Lemma entry_ok_number p t logs n r : entry_ok p t logs n (Some r) → Number (mBlock r) = n.
Proof. by intros (_ & ? & _). Qed.

Lemma entry_ok_forked p t logs n r :
  entry_ok p t logs n (Some r) → forked r = true → is_Some (getTrackerBlock t n).
Proof. intros (_ & _ & _ & _ & _ & _ & -> & _). by destruct (getTrackerBlock t n). Qed.

(** ** A poller without a tracker *)

Lemma missing_blocks_new m from to : missing_blocks newTracker m from to = [].
Proof.
  destruct (missing_blocks newTracker m from to) as [|n ns] eqn:E; [done|].
  assert (n ∈ missing_blocks newTracker m from to) as (_ & [b Hb] & _)%elem_of_missing_blocks
    by (rewrite E; by left).
  by rewrite getTrackerBlock_new in Hb.
Qed.

Lemma reorged_blocks_new m l : reorged_blocks newTracker m l = [].
Proof.
  unfold reorged_blocks. induction l as [|n l IH]; [done|]. simpl. unfold reorged_entry.
  rewrite getTrackerBlock_new. destruct (m !! n) as [r|]; simpl; [|done]. by destruct (forked r).
Qed.

Lemma processResult_none param m :
  range_ok (p_fromBlock param) (p_toBlock param) →
  processResult (SS:=SS) param None m = Ret (None, (Some (mkResult 0 0 0
    (good_blocks m (block_range (p_fromBlock param) (p_toBlock param))) []), None)).
Proof.
  intros Hok. unfold range_ok in Hok. unfold processResult. rewrite for_up_range by lia.
  match goal with |- context [for_each _ ?f _] => set (body := f) end.
  set (l := block_range _ _).
  destruct (for_each_ind (λ pre (s : option (blockTracker SS) * PollerResult),
      s = (None, mkResult 0 0 0 (good_blocks m pre) []))
    (λ _ : option (blockTracker SS) * option error, False) l body (None, new_PollerResult))
    as ([s|] & -> & Hr); [done| |by subst s|done].
  intros pre n post s Heq ->. subst body; cbn beta. rewrite good_blocks_snoc.
  destruct (m !! n) as [r|]; simpl; (eexists; split; [done|]; simpl); by rewrite ?app_nil_r.
Qed.

(** ** findReorg and processResult on either kind of poller *)


Lemma findReorg_view param missing (tr : option (blockTracker SS)) m :
  range_ok (p_fromBlock param) (p_toBlock param) →
  (∀ n, (p_fromBlock param ≤ n ≤ p_toBlock param)%Z →
     is_Some (getTrackerBlock (tracker_view tr) n) → is_Some (m !! n)) →
  ∃ m', findReorg param missing tr m = Ret (Some m', None) ∧ ∀ n, m' !! n =
    marked_entry (tracker_view tr) missing m (p_fromBlock param) (p_toBlock param) n.
Proof.
  intros Hok Hin. destruct tr as [t|]; [by apply findReorg_ok|].
  exists m. split; [done|]. intros n. unfold marked_entry. simpl.
  rewrite getTrackerBlock_new. destruct (m !! n); [|done]. by case_decide.
Qed.

Lemma processResult_view param (tr : option (blockTracker SS)) m :
  let l := block_range (p_fromBlock param) (p_toBlock param) in
  range_ok (p_fromBlock param) (p_toBlock param) → tracker_wf (tracker_view tr) →
  (∀ n r, m !! n = Some r → Number (mBlock r) = n) →
  (∀ n r, m !! n = Some r → forked r = true → is_Some (getTrackerBlock (tracker_view tr) n)) →
  ∃ t', processResult param tr m =
      Ret (match tr with Some _ => Some t' | None => None end,
           (Some (mkResult 0 0 0 (good_blocks m l) (reorged_blocks (tracker_view tr) m l)), None)) ∧
    match tr with
    | Some t => tracker_wf t' ∧ ∀ n, is_u64 n → getTrackerBlock t' n =
        if decide (n ∈ l) then tracked_entry (p_policy param) t m n else getTrackerBlock t n
    | None => t' = newTracker
    end.
Proof.
  intros l Hok Hwf Hnum Hf. destruct tr as [t|].
  - by apply processResult_ok.
  - exists newTracker. rewrite processResult_none by done. simpl.
    by rewrite reorged_blocks_new.
Qed.

Lemma marked_entry_wf b from to logs m t m1 n r :
  fresh_ok b from to logs m →
  filled m (missing_blocks t m from to) m1 →
  marked_entry t (missing_blocks t m from to) m1 from to n = Some r →
  Number (mBlock r) = n ∧ (forked r = true → is_Some (getTrackerBlock t n)).
Proof.
  intros Hf%fresh_ok_map Hfill. specialize (Hfill n). unfold marked_entry.
  assert (∀ r1, m1 !! n = Some r1 → Number (mBlock r1) = n ∧ forked r1 = false) as Hm1.
  { intros r1 Hr1. destruct (m !! n) as [r0|] eqn:Em.
    - simplify_eq. by apply Hf in Em as (? & ? & _).
    - case_decide; [destruct Hfill as [h Hh]|]; by simplify_eq. }
  clear Hfill. destruct (m1 !! n) as [r1|]; [|done]. destruct (Hm1 r1) as [??]; [done|].
  destruct (getTrackerBlock t n); repeat case_match; intros; simplify_eq/=;
    split; try done; try by eauto; congruence.
Qed.

Section client.
Context `{EthClient C}.

Lemma pollMissing_view (c c' : C) param tr m om missing :
  range_ok (p_fromBlock param) (p_toBlock param) →
  pollMissing c param tr m = Ret (c', (om, missing, None)) →
  ∃ m', om = Some m' ∧ filled m missing m' ∧
    missing = missing_blocks (tracker_view tr) m (p_fromBlock param) (p_toBlock param).
Proof.
  intros Hok (m' & ? & ? & ->)%pollMissing_ok; [|done]. exists m'. split_and!; [done..|].
  destruct tr; [done|]. by rewrite missing_blocks_new.
Qed.

(** Once pollMissing has succeeded, the rest of Poll succeeds. *)
Lemma filled_tracked tr m m1 from to :
  filled m (missing_blocks (tracker_view tr) m from to) m1 →
  ∀ n, (from ≤ n ≤ to)%Z → is_Some (getTrackerBlock (tracker_view tr) n) → is_Some (m1 !! n).
Proof.
  intros Hf n Hn Ht. specialize (Hf n). destruct (m !! n) as [r|] eqn:Em; [by eauto|].
  rewrite decide_True in Hf; [destruct Hf as [h ->]; by eauto|].
  by apply elem_of_missing_blocks.
Qed.

(** Once poll and pollMissing have succeeded, Poll gives a result. *)
Lemma Poll_finish lf p (c c1 c2 : C) from to t m logs m1 missing :
  let param := mkParam from to (policy p) in
  let tr := match tracker p with Some _ => Some t | None => None end in
  range_ok from to → cleared p t → tracker_wf t →
  clear_tracker p = Ret (set_tracker p tr) →
  poll lf c param (addresses p) (topics p) = Ret (c1, (Some m, None)) →
  fresh_ok (expensive p) from to logs m →
  pollMissing c1 param tr m = Ret (c2, (Some m1, missing, None)) →
  ∃ p' res err t' m2, Poll lf p c from to = Ret (p', c2, (Some res, err)) ∧
    poll_run p p' from to res err t t' m2 logs ∧
    ∀ n, m2 !! n = marked_entry t missing m1 from to n.
Proof.
  intros param tr Hok Ht Hwft Hcl Hpoll Hfresh Hmiss. unfold Poll. rewrite Hcl. simpl.
  assert (tracker_view tr = t) as Hview.
  { subst tr. unfold cleared in Ht. destruct (tracker p); [done|]. by destruct Ht as [-> _]. }
  fold param. rewrite Hpoll. simpl. rewrite Hmiss. simpl.
  apply pollMissing_view in Hmiss as (m1' & [= <-] & Hfill & ->); [|done].
  simpl in Hfill. rewrite Hview in Hfill |- *.
  destruct (findReorg_view param (missing_blocks t m from to) tr m1)
    as (m2 & Hfr & Hm2); [done|apply (filled_tracked _ m); by rewrite Hview|].
  simpl in Hm2. rewrite Hview in Hm2. cbn [p_fromBlock p_toBlock param]. rewrite Hfr. simpl.
  assert (∀ n r, m2 !! n = Some r →
    Number (mBlock r) = n ∧ (forked r = true → is_Some (getTrackerBlock t n))) as Hm2wf
    by (intros n r; rewrite Hm2; by eapply marked_entry_wf).
  destruct (processResult_view param tr m2) as (t' & Hpr & Ht'); rewrite ?Hview;
    [done|done|naive_solver..|].
  rewrite Hpr. simpl. rewrite Hview. set (res := finish_result _ _ _).
  pose proof (marked_entry_ok p _ _ _ _ _ _ _ Hfresh Hfill Hm2) as Hent.
  set (p' := mkPoller _ _ _ _ _ _ _ _).
  exists p', res, (if match m2 !! from with Some r => forked r | None => false end && doReorg p
    then wrap_sentinel ErrFromBlockReorged
      ("fromBlock " +:+ pretty from +:+ " was removed/reorged") else None), t', m2.
  split_and!; [|constructor; try done|done].
  - destruct (m2 !! from) as [r|]; [|done]. by destruct (forked r && doReorg p).
  - by destruct Hfresh.
  - subst tr. unfold known_after. by destruct (tracker p).
  - subst tr p'. simpl. by destruct (tracker p).
Qed.

(** Every run of Poll that gives a result. *)
Lemma Poll_run lf p p' (c c' : C) from to res err :
  poller_wf p → range_ok from to →
  Poll lf p c from to = Ret (p', c', (Some res, err)) →
  ∃ t t' m logs c1 c2,
    FilterLogs c1 (filter_query from to (addresses p) (topics p)) = Ret (c2, (logs, None)) ∧
    poll_run p p' from to res err t t' m logs.
Proof.
  intros Hwf Hok Hp. pose proof Hp as Hp0. unfold Poll in Hp.
  pose proof Hok as Hok'. unfold range_ok in Hok'.
  apply bind_Ret_inv in Hp as (p1 & Hcl & Hp). pose proof (clear_tracker_inv _ _ Hcl) as Htr.
  destruct (clear_tracker_ok p Hwf Htr) as (t & Ht & Hwft & Hcl').
  rewrite Hcl in Hcl'. injection Hcl' as ->.
  apply bind_Ret_inv in Hp as ([c1 [om [e|]]] & Hpoll & Hp); [done|].
  pose proof Hpoll as Hpoll0.
  apply poll_ok in Hpoll0 as (m & logs & c2 & c3 & -> & Hfl & Hfresh); simpl in *; [|lia..].
  apply bind_Ret_inv in Hp as ([c4 [[om1 missing] [e|]]] & Hmiss & Hp); [done|].
  pose proof Hmiss as Hmiss0.
  apply pollMissing_view in Hmiss0 as (m1 & -> & _); [|done].
  destruct (Poll_finish lf p c c1 c4 from to t m logs m1 missing)
    as (p2 & res2 & err2 & t' & m2 & Hp2 & Hrun & _); [done..|].
  rewrite Hp0 in Hp2. injection Hp2 as -> -> -> ->.
  by exists t, t', m2, logs, c2, c3.
Qed.
End client.
End run_lemmas.
