(* ===== verification/PollHonest.v ===== *)
(** A client whose answers agree on one view of the chain, and the theorem that Poll
    on such a client always returns a result: the reference computation of it. *)

From S2P Require Import Prelude GoErrors Types Externals SortedSet EthClient Batch BlockTracker PollUtils.
From S2P Require Import PollPolicy Poller PollerSpec PollRun.

(** * Definitions *)

(** In the states [I] the client answers every query of [Q] and every call for headers,
    its headers are [header_of] and every log names the hash of its block's header. *)
Record honest_on `{EthClient C} `{EthUtil} (Q : FilterQuery → Prop) (I : C → Prop)
    (logs_of : FilterQuery → list Log) (header_of : Z → BlockHeader) : Prop := {
  honest_logs c q : Q q → I c → ∃ c', FilterLogs c q = Ret (c', (logs_of q, None)) ∧ I c';
  honest_batch c ns : (∀ n, n ∈ ns → (0 ≤ n < two63)%Z) → I c → ∃ c' elems,
    BatchCallContext c (header_elem client_TypeOf <$> ns) = Ret (c', (elems, None)) ∧
    I c' ∧ Forall2 (λ n e, elem_header e = Some (header_of n)) ns elems;
  honest_hash q l : Q q → l ∈ logs_of q →
    log_BlockHash l = header_Hash (header_of (log_BlockNumber l));
}.

(** A client that answers every query. *)
Abbreviation honest := (honest_on (λ _, True)).

(** An entry whose hash and header are the chain's. *)
Definition chain_entry (header_of : Z → BlockHeader) (n : Z) (r : mapLogsResult) : Prop :=
  BHash (mBlock r) = header_Hash (header_of n) ∧
  ∀ h, Header (mBlock r) = Some h → h = header_of n.
Definition chain_map (header_of : Z → BlockHeader) (m : pollMap) : Prop :=
  ∀ n r, m !! n = Some r → chain_entry header_of n r.

(** The policies that poll implements. *)
Definition policy_ok (pol : Z) : Prop := (0 ≤ pol ≤ PolicyExpensive)%Z.

(** The result of a poll as a function of what was known, the logs and the chain. *)
Section reference.
Context (known : Z → option Block) (header_of : Z → BlockHeader) (logs : list Log).
Context (exp : bool).

(** A known block whose hash or number of logs is no longer what the chain says. *)
Definition changed (n : Z) : bool :=
  match known n with
  | Some b => negb (bool_decide (BHash b = header_Hash (header_of n)) &&
                    bool_decide (length (Logs b) = length (logs_at n logs)))
  | None => false
  end.

(** Blocks worth reporting: with logs, or asked for, or known. *)
Definition reported (n : Z) : Prop :=
  logs_at n logs ≠ [] ∨ exp = true ∨ is_Some (known n).
#[export] Instance reported_dec n : Decision (reported n).
Proof. unfold reported. apply _. Defined.

Definition fresh_block (n : Z) : Block :=
  mkBlock (changed n && negb exp && bool_decide (logs_at n logs = [])) n
    (header_Hash (header_of n))
    (if decide (logs_at n logs = []) then Some (header_of n) else None)
    (logs_at n logs).

(** The entry of block [n] in the map of a poll. *)
Definition spec_entry (n : Z) : option mapLogsResult :=
  if decide (reported n) then Some (mkMapLogs (changed n) (fresh_block n)) else None.

Definition report_good (l : list Z) : list Block := fresh_block <$> filter reported l.
Definition report_reorged (l : list Z) : list Block :=
  omap (λ n, if changed n then known n else None) l.

(** What is known of block [n] after it was reported. *)
Definition known_next (pol : Z) (n : Z) : option Block :=
  if decide (reported n) then
    if (pol =? PolicyFast)%Z && bool_decide (logs_at n logs = []) then
      if changed n && LogsMigrated (fresh_block n) then None else known n
    else Some (fresh_block n)
  else None.
End reference.

(** What the poller knows of block [n], and what it still knows once Poll has forgotten
    the blocks below the last recorded one. *)
Definition known_of `{SortedSet SS} (p : poller SS) (n : Z) : option Block :=
  t ← tracker p; getTrackerBlock t n.
Definition remembered `{SortedSet SS} (p : poller SS) (n : Z) : option Block :=
  if decide (to_int64 (lastRecordedBlock p -₆₄ filterRange p) < to_int64 n)%Z
  then known_of p n else None.

(** The result and the error of a poll of [from, to] by [p] over the chain. *)
Definition spec_result `{SortedSet SS} (p : poller SS) (header_of : Z → BlockHeader)
    (logs : list Log) (from to : Z) : PollerResult :=
  finish_result (mkResult 0 0 0
    (report_good (remembered p) header_of logs (expensive p) (block_range from to))
    (report_reorged (remembered p) header_of logs (block_range from to))) from to.

Definition spec_error `{SortedSet SS} (p : poller SS) (header_of : Z → BlockHeader)
    (logs : list Log) (from : Z) : option error :=
  if changed (remembered p) header_of logs from && doReorg p
  then wrap_sentinel ErrFromBlockReorged
    ("fromBlock " +:+ pretty from +:+ " was removed/reorged")
  else None.

(** The knowledge after the poll. *)
Definition spec_known `{SortedSet SS} (p : poller SS) (header_of : Z → BlockHeader)
    (logs : list Log) (from to n : Z) : option Block :=
  match tracker p with
  | Some _ =>
      if decide (from ≤ n ≤ to)%Z
      then known_next (remembered p) header_of logs (expensive p) (policy p) n
      else remembered p n
  | None => None
  end.

(** * Lemmas *)

Section honest_lemmas.
Context `{SortedSet SS} `{HashText} `{EthUtil} `{Gsl} `{EthClient C}.
Context (Q : FilterQuery → Prop) (I : C → Prop).
Context (logs_of : FilterQuery → list Log) (header_of : Z → BlockHeader).
Context (Hhon : honest_on Q I logs_of header_of).
Implicit Types (c : C) (m : pollMap).

Lemma header_Unmarshal_ok call elem h :
  elem_header elem = Some h →
  header_Unmarshal call elem = (mkHeaderBatch (hb_client call) (hb_number call) (Some h), None).
Proof. unfold elem_header, header_Unmarshal. destruct (Result elem); naive_solver. Qed.

(** A batch of header calls succeeds when every element comes back filled. *)
Lemma CallBatch_filled c c' t ns elems :
  BatchCallContext c (header_elem t <$> ns) = Ret (c', (elems, None)) →
  Forall2 (λ n e, elem_header e = Some (header_of n)) ns elems →
  ∃ calls', CallBatch c ((λ n, mkHeaderBatch t n None) <$> ns) = Ret (c', (calls', None)).
Proof.
  intros Hb Hel. unfold CallBatch. set (calls := _ <$> ns).
  match goal with |- context [for_each (imap pair calls) ?f []] => set (marsh := f) end.
  destruct (for_index_ind (λ i s, s = header_elem t <$> take i ns)
    (λ _ : option error, False) calls marsh [])
    as ([s|] & -> & Hs); [done| | |done].
  { intros i x s Hx ->. subst calls marsh; simpl. rewrite list_lookup_fmap in Hx.
    destruct (ns !! i) as [n|] eqn:E; simplify_eq/=.
    pose proof (header_Marshal_ok (mkHeaderBatch t n None)) as Hok.
    destruct (header_Marshal _) as [elem err] eqn:Em. simplify_eq/=.
    eexists; split; [done|]; simpl. rewrite (take_S_r _ _ n E), fmap_app. simpl.
    unfold header_elem. by rewrite Em. }
  simpl in Hs. subst s. subst calls. rewrite length_fmap, firstn_all. simpl.
  rewrite Hb. simpl. set (calls := _ <$> ns).
  match goal with |- context [for_each (imap pair calls) ?f calls] => set (unm := f) end.
  destruct (for_index_ind (λ _ _, True) (λ _ : list headerByNumberBatch * option error, False)
    calls unm calls) as ([s|] & -> & Hs); [done| |simpl; by eexists|done].
  intros i x s Hx _. subst calls unm; simpl. rewrite list_lookup_fmap in Hx.
  destruct (ns !! i) as [n|] eqn:E; simplify_eq/=.
  destruct (Forall2_lookup_l _ _ _ _ _ Hel E) as (e & -> & He).
  rewrite (header_Unmarshal_ok _ _ _ He). by eexists.
Qed.

Lemma getHeaders_honest c ns :
  (∀ n, n ∈ ns → (0 ≤ n < two63)%Z) → I c → NoDup ns →
  ∃ c' headers, getHeadersByNumbers c ns = Ret (c', (headers, None)) ∧ I c' ∧
    size headers = length ns ∧
    ∀ n h, headers !! n = Some h → h = Some (header_of n).
Proof.
  intros Hns HI Hnd. destruct (honest_batch _ _ _ _ Hhon c ns Hns HI) as (c' & elems & Hb & HI' & Hel).
  destruct (CallBatch_filled _ _ _ _ _ Hb Hel) as [calls Hc].
  assert (∃ headers, getHeadersByNumbers c ns = Ret (c', (headers, None))) as [headers Hg].
  { unfold getHeadersByNumbers. rewrite Hc. by eexists. }
  exists c', headers. split_and!; [done..| |].
  - assert (dom headers = list_to_set ns) as Hd.
    { apply set_eq. intros n. rewrite elem_of_dom, elem_of_list_to_set.
      by eapply getHeadersByNumbers_dom. }
    by rewrite <-size_dom, Hd, size_list_to_set.
  - intros n h Hn. apply getHeadersByNumbers_spec in Hg as (elems' & Hb' & Hno & Hyes).
    rewrite Hb in Hb'. injection Hb' as <-.
    destruct (decide (n ∈ ns)) as [Hin|Hin]; [|by rewrite Hno in Hn].
    destruct (Hyes n Hin) as (i & e & h' & Hi & He & Heh & Hh).
    pose proof (Forall2_lookup_lr _ _ _ _ _ _ Hel Hi He) as He'. simpl in He'. congruence.
Qed.

Lemma honest_consistent q : Q q → logs_consistent (logs_of q).
Proof.
  intros Hq l l' Hl Hl' Heq.
  by rewrite (honest_hash _ _ _ _ Hhon _ _ Hq Hl), (honest_hash _ _ _ _ Hhon _ _ Hq Hl'), Heq.
Qed.

Abbreviation chain_map := (chain_map header_of).

Lemma fresh_entry_chain q n r :
  Q q → fresh_entry (logs_of q) n = Some r → chain_entry header_of n r.
Proof.
  intros Hq Hr. split.
  - apply fresh_entry_hash in Hr as (l & Hl & <- & ->). by apply (honest_hash _ _ _ _ Hhon q).
  - unfold fresh_entry in Hr. destruct (logs_at n _); [done|]. by simplify_eq.
Qed.

Lemma collectLogs_honest q :
  Q q → ∃ m, collectLogs ∅ (logs_of q) = Ret (m, (0%Z, None)) ∧ chain_map m ∧
    ∀ n, m !! n = fresh_entry (logs_of q) n.
Proof.
  intros Hq. destruct (collectLogs_spec (logs_of q)) as (m & r & Hc & [(_ & -> & Hm)|[[] _]]);
    [|by apply honest_consistent].
  exists m. split_and!; [done| |done]. intros n r'. rewrite Hm. by apply fresh_entry_chain.
Qed.

Lemma collectHeaders_honest m from to headers :
  (0 ≤ from)%Z → (to < two64 - 1)%Z → chain_map m →
  (∀ n h, headers !! n = Some h → h = Some (header_of n)) →
  ∃ m' n, collectHeaders m from to headers = Ret (m', (n, None)) ∧ chain_map m' ∧
    ∀ n, m' !! n = with_headers m headers from to n.
Proof.
  intros Hf Ht Hm Hh.
  destruct (collectHeaders_spec m from to headers)
    as (m' & [n err] & Hc & [(_ & ? & Hm')|[[] _]]); [done..| | |]; simplify_eq/=.
  - intros n h Hn. apply Hh in Hn as ->. by eexists.
  - exists m', n. split_and!; [done| |done]. intros k r. rewrite Hm'. unfold with_headers.
    destruct (m !! k) as [r0|] eqn:E; [intros; simplify_eq; by apply Hm|].
    case_decide; [|done]. destruct (headers !! k) as [[h|]|] eqn:Eh; [|done..].
    apply Hh in Eh. intros. simplify_eq/=. split; [done|]. intros ? [= <-]. done.
  - intros k r h _ Hr Hk. apply Hh in Hk. simplify_eq. by apply Hm.
Qed.

Lemma pollCheap_honest c from to addrs topics :
  Q (filter_query from to addrs topics) → I c → (0 ≤ from)%Z → (to < two63 - 1)%Z →
  ∃ c' m, pollCheap c from to addrs topics ∅ = Ret (c', (Some m, None)) ∧ I c' ∧
    chain_map m ∧ fresh_ok false from to (logs_of (filter_query from to addrs topics)) m.
Proof.
  intros Hq HI Hf Ht. unfold pollCheap. set (q := filter_query from to addrs topics) in *.
  destruct (honest_logs _ _ _ _ Hhon c q Hq HI) as (c1 & -> & HI1). simpl.
  destruct (collectLogs_honest q Hq) as (m & -> & Hm & Hent). simpl.
  rewrite target_blocks_spec by (done || lia). simpl.
  destruct (getHeaders_honest c1 (filter (λ n, is_Some (m !! n)) (block_range from to)))
    as (c2 & headers & Hgh & HI2 & _ & Hh); [|done|by apply NoDup_filter, NoDup_block_range|].
  { intros n [_ Hn%elem_of_block_range]%list_elem_of_filter. lia. }
  rewrite Hgh. simpl.
  destruct (collectHeaders_honest m from to headers)
    as (m' & n & -> & Hm' & Hent'); [done|lia|done..|].
  exists c2, m'. split_and!; [done..|].
  eapply fresh_ok_cheap; [by apply honest_consistent|try done; lia..].
Qed.

Lemma fetch_both_honest lf c q ns :
  Q q → (∀ n, n ∈ ns → (0 ≤ n < two63)%Z) → I c → NoDup ns →
  ∃ c' headers c1 c2, fetch_both lf c q ns = Ret (c', ((logs_of q, None), (headers, None))) ∧
    I c' ∧ size headers = length ns ∧ (∀ n h, headers !! n = Some h → h = Some (header_of n)) ∧
    getHeadersByNumbers c1 ns = Ret (c2, (headers, None)).
Proof.
  intros Hq Hns HI Hnd. unfold fetch_both. destruct lf.
  - destruct (honest_logs _ _ _ _ Hhon c q Hq HI) as (c1 & -> & HI1).
    destruct (getHeaders_honest c1 ns) as (c2 & headers & Hgh & ? & ? & ?); [done..|].
    exists c2, headers, c1, c2. simpl. by rewrite Hgh.
  - destruct (getHeaders_honest c ns) as (c2 & headers & Hgh & HI2 & ? & ?); [done..|].
    rewrite Hgh. simpl. destruct (honest_logs _ _ _ _ Hhon c2 q Hq HI2) as (c3 & -> & HI1).
    exists c3, headers, c, c2. done.
Qed.

Lemma pollExpensive_honest lf c from to addrs topics :
  Q (filter_query from to addrs topics) → I c → (0 ≤ from)%Z → (to < two63 - 1)%Z → (from ≤ to + 1)%Z → (to - from + 1 < two63)%Z →
  ∃ c' m, pollExpensive lf c from to addrs topics ∅ = Ret (c', (Some m, None)) ∧ I c' ∧
    chain_map m ∧ fresh_ok true from to (logs_of (filter_query from to addrs topics)) m.
Proof.
  intros Hq HI Hf Ht Hle Hsz. unfold pollExpensive. rewrite number_range_spec by (done || lia). simpl.
  set (q := filter_query from to addrs topics) in *.
  destruct (fetch_both_honest lf c q (block_range from to))
    as (c1 & headers & c2 & c3 & -> & HI1 & Hlen & Hh & Hgh); [done| |done|apply NoDup_block_range|].
  { intros n Hn%elem_of_block_range. lia. }
  simpl. rewrite (proj2 (fetch_errors_nil lf None None)) by done.
  rewrite decide_False by (intros Hx; by apply Hx).
  destruct (collectLogs_honest q Hq) as (m & -> & Hm & Hent). simpl.
  destruct (collectHeaders_honest m from to headers)
    as (m' & n & -> & Hm' & Hent'); [done|lia|done..|].
  exists c1, m'. split_and!; [done..|].
  eapply fresh_ok_expensive; [by apply honest_consistent|try done; lia..].
Qed.

Lemma poll_honest lf c param addrs topics :
  Q (filter_query (p_fromBlock param) (p_toBlock param) addrs topics) →
  I c → (0 ≤ p_fromBlock param ≤ p_toBlock param + 1)%Z → (p_toBlock param < two63 - 1)%Z →
  policy_ok (p_policy param) →
  ∃ c' m, poll lf c param addrs topics = Ret (c', (Some m, None)) ∧ I c' ∧ chain_map m ∧
    fresh_ok (p_policy param =? PolicyExpensive)%Z (p_fromBlock param) (p_toBlock param)
      (logs_of (filter_query (p_fromBlock param) (p_toBlock param) addrs topics)) m.
Proof.
  unfold policy_ok. intros Hq HI Hr Ht [Hp0 Hp]. unfold poll.
  destruct (Z.leb_spec PolicyExpensiveBlock (p_policy param)) as [?|_];
    [unfold PolicyExpensiveBlock, PolicyExpensive in *; lia|].
  destruct (Z.eqb_spec (p_policy param) PolicyExpensive).
  - apply pollExpensive_honest; [done|done|lia..].
  - destruct (Z.leb_spec (p_policy param) PolicyNormal);
      [|unfold PolicyNormal, PolicyExpensive in *; lia].
    apply pollCheap_honest; [done|done|lia..].
Qed.

Lemma pollMissing_honest c param (tr : option (blockTracker SS)) m :
  I c → range_ok (p_fromBlock param) (p_toBlock param) → chain_map m →
  ∃ c' m1 missing, pollMissing c param tr m = Ret (c', (Some m1, missing, None)) ∧ I c' ∧
    chain_map m1.
Proof.
  intros HI Hr Hm. unfold range_ok in Hr. unfold pollMissing.
  destruct tr as [t|]; [|by exists c, m, []].
  rewrite find_missing_spec by lia. simpl. case_decide; [by eexists c, m, _|].
  destruct (getHeaders_honest c (missing_blocks t m (p_fromBlock param) (p_toBlock param)))
    as (c1 & headers & -> & HI1 & Hlen & Hh); [|done| |].
  { intros n [_ Hn]%list_elem_of_filter. rewrite elem_of_reverse, elem_of_block_range in Hn. lia. }
  { apply NoDup_filter. rewrite reverse_Permutation. apply NoDup_block_range. }
  simpl. rewrite decide_False by (intros Hx; by apply Hx).
  destruct (collectHeaders_honest m (p_fromBlock param) (p_toBlock param) headers)
    as (m1 & n & -> & Hm1 & _); [lia|lia|done..|]. simpl. by eexists c1, m1, _.
Qed.

Lemma cleared_remembered (p : poller SS) t n :
  poller_wf p → cleared p t → is_u64 n → getTrackerBlock t n = remembered p n.
Proof.
  unfold cleared, remembered, known_of. intros Hwf Hc Hn.
  destruct (tracker p) as [t0|] eqn:Et; simpl.
  - destruct (clearUntil_content t0 (lastRecordedBlock p -₆₄ filterRange p))
      as (t1 & Hc1 & _ & Hg); [by apply Hwf|].
    rewrite Hc in Hc1. injection Hc1 as <-. by rewrite Hg.
  - destruct Hc as [-> _]. rewrite getTrackerBlock_new. by case_decide.
Qed.

(** The entry of a block is the reference one. *)
Lemma entry_ok_chain (p : poller SS) t logs n e :
  poller_wf p → cleared p t → is_u64 n →
  entry_ok p t logs n e → (∀ r, e = Some r → chain_entry header_of n r) →
  e = spec_entry (remembered p) header_of logs (expensive p) n.
Proof.
  intros Hwf Hc Hn He Hch. unfold spec_entry. pose proof (cleared_remembered p t n Hwf Hc Hn) as Hk.
  destruct e as [[fk [lm num hash hdr ls]]|]; simpl in He; rewrite Hk in He.
  - destruct He as (Hrep & -> & -> & _ & Hhdr & _ & Hfk & ->).
    destruct (Hch _ eq_refl) as [Hhash Hhead]; simpl in *. rewrite decide_True by done.
    subst hash. assert (fk = changed (remembered p) header_of logs n) as ->.
    { rewrite Hfk. unfold changed. by destruct (remembered p n). }
    unfold fresh_block. do 3 f_equal. case_decide as Hl.
    + destruct hdr as [h|]; [by rewrite (Hhead h)|]. by destruct (proj1 Hhdr eq_refl).
    + by apply Hhdr.
  - destruct He as (Hl & Hx & Hg). rewrite decide_False; [done|].
    unfold reported. rewrite Hl, Hx, Hg. intros [?|[?|[? ?]]]; done.
Qed.

(** The lists of the result are the reference ones. *)
Lemma good_blocks_chain (p : poller SS) logs m l :
  (∀ n, n ∈ l → m !! n =
    spec_entry (remembered p) header_of logs (expensive p) n) →
  good_blocks m l = report_good (remembered p) header_of logs (expensive p) l.
Proof.
  unfold spec_entry. intros Hm. unfold report_good. induction l as [|n l IH] using rev_ind; [done|].
  rewrite good_blocks_snoc, filter_app, fmap_app, (Hm n) by set_solver.
  rewrite IH by (intros; apply Hm; set_solver). f_equal.
  rewrite filter_cons. by case_decide.
Qed.

Lemma changed_reported known logs x n :
  changed known header_of logs n = true → reported known logs x n.
Proof. unfold changed, reported. destruct (known n); naive_solver. Qed.

Lemma reorged_blocks_chain (p : poller SS) t logs m l :
  (∀ n, n ∈ l → getTrackerBlock t n = remembered p n) →
  (∀ n, n ∈ l → m !! n =
    spec_entry (remembered p) header_of logs (expensive p) n) →
  reorged_blocks t m l = report_reorged (remembered p) header_of logs l.
Proof.
  unfold spec_entry. intros Ht Hm. unfold report_reorged. induction l as [|n l IH] using rev_ind; [done|].
  rewrite reorged_blocks_snoc, omap_app. unfold reorged_entry.
  rewrite (Hm n), (Ht n) by set_solver.
  rewrite IH by (intros; (apply Ht || apply Hm); set_solver). f_equal. simpl.
  pose proof (changed_reported (remembered p) logs (expensive p) n) as Hr.
  destruct (changed _ _ _ n).
  - rewrite decide_True by auto. simpl. by destruct (remembered p n).
  - by case_decide.
Qed.

Lemma tracked_entry_chain (p : poller SS) t logs m n :
  getTrackerBlock t n = remembered p n →
  m !! n = spec_entry (remembered p) header_of logs (expensive p) n →
  tracked_entry (policy p) t m n =
    known_next (remembered p) header_of logs (expensive p) (policy p) n.
Proof.
  intros Ht Hm. unfold tracked_entry, known_next, spec_entry in *. rewrite Hm, Ht. case_decide as Hr; simpl.
  - replace (bool_decide (length (logs_at n logs) = 0%nat))
      with (bool_decide (logs_at n logs = [])); [done|].
    apply bool_decide_ext. by rewrite length_zero_iff_nil.
  - destruct (remembered p n) eqn:E; [|done]. destruct Hr. right. right. by rewrite E.
Qed.

(** The marks of findReorg keep the hashes and the headers. *)
Lemma marked_chain t missing m from to n r :
  chain_map m → marked_entry t missing m from to n = Some r → chain_entry header_of n r.
Proof.
  intros Hm. unfold marked_entry. destruct (m !! n) as [r0|] eqn:E; [|done].
  apply Hm in E. destruct E as [Hh Hd].
  repeat case_match; intros; simplify_eq; by split.
Qed.

(** A run whose entries are those of the chain has the reference result, and the reference
    knowledge is left. *)
Lemma run_entries (p p' : poller SS) from to res err t t' m logs n :
  poller_wf p → range_ok from to → poll_run p p' from to res err t t' m logs →
  (∀ n r, m !! n = Some r → chain_entry header_of n r) → n ∈ block_range from to →
  getTrackerBlock t n = remembered p n ∧
  m !! n = spec_entry (remembered p) header_of logs (expensive p) n.
Proof.
  unfold range_ok. intros Hwf Hok Hrun Hch Hn. pose proof (run_cleared _ _ _ _ _ _ _ _ _ _ Hrun) as Hcl.
  assert (is_u64 n) by (apply elem_of_block_range in Hn; unfold is_u64; lia).
  split; [by apply cleared_remembered|]. apply (entry_ok_chain p t); [done..| |by apply Hch].
  by apply (run_entry _ _ _ _ _ _ _ _ _ _ Hrun), elem_of_block_range.
Qed.

Lemma run_reference (p p' : poller SS) from to res err t t' m logs :
  poller_wf p → range_ok from to → (from ≤ to)%Z → poll_run p p' from to res err t t' m logs →
  (∀ n r, m !! n = Some r → chain_entry header_of n r) →
  res = spec_result p header_of logs from to ∧ err = spec_error p header_of logs from.
Proof.
  intros Hwf Hok Hle Hrun Hch.
  pose proof (λ n, run_entries _ _ _ _ _ _ _ _ _ _ n Hwf Hok Hrun Hch) as Hent. split.
  - rewrite (run_result _ _ _ _ _ _ _ _ _ _ Hrun). unfold spec_result.
    rewrite (good_blocks_chain p logs), (reorged_blocks_chain p t logs); [done|..];
      intros n Hn; by apply Hent.
  - rewrite (run_error _ _ _ _ _ _ _ _ _ _ Hrun). unfold spec_error.
    rewrite (proj2 (Hent from ltac:(apply elem_of_block_range; lia))). unfold spec_entry.
    pose proof (changed_reported (remembered p) logs (expensive p) from) as Hr.
    destruct (changed (remembered p) header_of logs from);
      [by rewrite decide_True by auto|by case_decide].
Qed.

Lemma run_reference_known (p p' : poller SS) from to res err t t' m logs n :
  poller_wf p → range_ok from to → poll_run p p' from to res err t t' m logs →
  (∀ n r, m !! n = Some r → chain_entry header_of n r) → is_u64 n →
  known_of p' n = spec_known p header_of logs from to n.
Proof.
  intros Hwf Hok Hrun Hch Hn. unfold spec_known. unfold known_of at 1.
  rewrite (run_tracker _ _ _ _ _ _ _ _ _ _ Hrun).
  pose proof (run_known _ _ _ _ _ _ _ _ _ _ Hrun) as Hkn. unfold known_after in Hkn.
  destruct (tracker p) eqn:Ep; [|done]. destruct Hkn as [_ Hkn]. simpl. rewrite Hkn by done.
  destruct (decide (from ≤ n ≤ to)%Z) as [Hin|Hin].
  - rewrite decide_True by (by apply elem_of_block_range).
    destruct (run_entries _ _ _ _ _ _ _ _ _ _ n Hwf Hok Hrun Hch) as [Ht He];
      [by apply elem_of_block_range|by apply tracked_entry_chain].
  - rewrite decide_False by (by rewrite elem_of_block_range). apply cleared_remembered; [done| |done].
    apply (run_cleared _ _ _ _ _ _ _ _ _ _ Hrun).
Qed.

(** Poll on an honest client is the reference poll. *)
Lemma Poll_reference_on lf (p : poller SS) c from to :
  Q (filter_query from to (addresses p) (topics p)) → I c → poller_wf p → range_ok from to → (from ≤ to)%Z → policy_ok (policy p) →
  is_Some (tracker p) ∨ lastRecordedBlock p = 0%Z →
  let logs := logs_of (filter_query from to (addresses p) (topics p)) in
  ∃ p' c', Poll lf p c from to = Ret (p', c',
      (Some (spec_result p header_of logs from to), spec_error p header_of logs from)) ∧
    I c' ∧ poller_wf p' ∧ (is_Some (tracker p') ↔ is_Some (tracker p)) ∧
    lastRecordedBlock p' = LastGood (spec_result p header_of logs from to) ∧
    (addresses p' = addresses p ∧ topics p' = topics p ∧ policy p' = policy p ∧
     filterRange p' = filterRange p ∧ doReorg p' = doReorg p ∧ doHeader p' = doHeader p) ∧
    ∀ n, is_u64 n → known_of p' n = spec_known p header_of logs from to n.
Proof.
  intros Hq HI Hwf Hok Hle Hpol Htr logs. pose proof Hok as Hok'. unfold range_ok in Hok'.
  destruct (clear_tracker_ok p Hwf Htr) as (t & Ht & Hwft & Hcl).
  set (param := mkParam from to (policy p)).
  destruct (poll_honest lf c param (addresses p) (topics p))
    as (c1 & m & Hpoll & HI1 & Hm & Hfresh); [done|done|simpl; lia..|done|].
  destruct (pollMissing_honest c1 param (match tracker p with Some _ => Some t | None => None end)
    m) as (c2 & m1 & missing & Hmiss & HI2 & Hm1); [done..|].
  destruct (Poll_finish lf p c c1 c2 from to t m logs m1 missing)
    as (p' & res & err & t' & m2 & -> & Hrun & Hm2); [done..|].
  assert (∀ n r, m2 !! n = Some r → chain_entry header_of n r) as Hch
    by (intros n r; rewrite Hm2; by apply marked_chain).
  destruct (run_reference _ _ _ _ _ _ _ _ _ _ Hwf Hok Hle Hrun Hch) as [-> ->].
  pose proof (run_tracker _ _ _ _ _ _ _ _ _ _ Hrun) as Htr'.
  exists p', c2. split; [done|]. split; [done|]. split; [|split; [|split; [|split]]].
  - intros t1. rewrite Htr'. pose proof (run_known _ _ _ _ _ _ _ _ _ _ Hrun) as Hkn.
    unfold known_after in Hkn. destruct (tracker p); [|done]. intros [= <-]. by destruct Hkn.
  - rewrite Htr'. destruct (tracker p); [|done]. by split; eauto.
  - apply (run_recorded _ _ _ _ _ _ _ _ _ _ Hrun).
  - apply (run_config _ _ _ _ _ _ _ _ _ _ Hrun).
  - intros n Hn. by eapply run_reference_known.
Qed.
End honest_lemmas.

(** The same for a client that answers every query. *)
Lemma Poll_reference `{SortedSet SS} `{HashText} `{EthUtil} `{Gsl} `{EthClient C}
    (I : C → Prop) logs_of header_of (Hhon : honest I logs_of header_of)
    lf (p : poller SS) c from to :
  I c → poller_wf p → range_ok from to → (from ≤ to)%Z → policy_ok (policy p) →
  is_Some (tracker p) ∨ lastRecordedBlock p = 0%Z →
  let logs := logs_of (filter_query from to (addresses p) (topics p)) in
  ∃ p' c', Poll lf p c from to = Ret (p', c',
      (Some (spec_result p header_of logs from to), spec_error p header_of logs from)) ∧
    I c' ∧ poller_wf p' ∧ (is_Some (tracker p') ↔ is_Some (tracker p)) ∧
    lastRecordedBlock p' = LastGood (spec_result p header_of logs from to) ∧
    (addresses p' = addresses p ∧ topics p' = topics p ∧ policy p' = policy p ∧
     filterRange p' = filterRange p ∧ doReorg p' = doReorg p ∧ doHeader p' = doHeader p) ∧
    ∀ n, is_u64 n → known_of p' n = spec_known p header_of logs from to n.
Proof. intros. by apply (Poll_reference_on (λ _, True) I). Qed.

(** A poll that is the reference poll of a view of the chain, with the poller and the client
    after it. *)
Record polled `{SortedSet SS} `{HashText} `{EthUtil} `{Gsl} `{EthClient C} (lf : bool)
    (p : poller SS) (c : C) (from to : Z) (logs : list Log) (header_of : Z → BlockHeader)
    (p' : poller SS) (c' : C) : Prop := {
  polled_run : Poll lf p c from to = Ret (p', c',
    (Some (spec_result p header_of logs from to), spec_error p header_of logs from));
  polled_wf : poller_wf p';
  polled_tracker : is_Some (tracker p') ↔ is_Some (tracker p);
  polled_recorded : lastRecordedBlock p' = LastGood (spec_result p header_of logs from to);
  polled_config : addresses p' = addresses p ∧ topics p' = topics p ∧ policy p' = policy p ∧
    filterRange p' = filterRange p ∧ doReorg p' = doReorg p ∧ doHeader p' = doHeader p;
  polled_known n : is_u64 n → known_of p' n = spec_known p header_of logs from to n;
}.

(** Every poll of an honest client is one. *)
Lemma honest_polled `{SortedSet SS} `{HashText} `{EthUtil} `{Gsl} `{EthClient C}
    (Q : FilterQuery → Prop) (I : C → Prop) logs_of header_of
    (Hhon : honest_on Q I logs_of header_of) lf (p : poller SS) c from to :
  Q (filter_query from to (addresses p) (topics p)) → I c → poller_wf p → range_ok from to →
  (from ≤ to)%Z → policy_ok (policy p) → is_Some (tracker p) ∨ lastRecordedBlock p = 0%Z →
  ∃ p' c', polled lf p c from to (logs_of (filter_query from to (addresses p) (topics p)))
    header_of p' c' ∧ I c'.
Proof.
  intros Hq HI Hwf Hr Hle Hpol Htr.
  destruct (Poll_reference_on Q I logs_of header_of Hhon lf p c from to)
    as (p' & c' & Hp & HI' & ? & ? & ? & ? & ?); [done..|].
  exists p', c'. split; [by constructor|done].
Qed.
