(* ===== verification/DemoChain.v ===== *)
(** A concrete client for examples and witnesses: a chain given by a hash function
    and a list of events, which answers every query and never changes. *)

From S2P Require Import Prelude GoErrors Types Externals SortedSet EthClient Batch BlockTracker PollUtils.
From S2P Require Import PollPolicy Poller PollHonest.

(** * Definitions *)

(** The head, the hash of every block, and the events as block and log data. *)
Record DemoChain : Type := mkDemo {
  demo_head : Z;
  demo_hash : Z → Hash;
  demo_events : list (Z * Z);
}.

Definition demo_header (c : DemoChain) (n : Z) : BlockHeader :=
  mkHeader (to_int64 n) (demo_hash c (to_int64 n)) 0 0 0 0.
Definition demo_log (c : DemoChain) (e : Z * Z) : Log :=
  mkLog 1 [] [e.2] e.1 0 (demo_hash c (to_int64 e.1)).
Definition demo_logs (c : DemoChain) (q : FilterQuery) : list Log :=
  demo_log c <$> filter (λ e, default 0 (q_FromBlock q) ≤ e.1 ≤ default 0 (q_ToBlock q))%Z
    (demo_events c).

Definition demo_elem (c : DemoChain) (e : BatchElem) : BatchElem :=
  match Args e with
  | ArgString s :: _ =>
      let n := text_Z s in
      mkElem (Method e) (Args e) (ResHeader (mkHeader n (demo_hash c n) 0 0 0 0)) None
  | _ => e
  end.

#[export] Instance Demo_EthClient : EthClient DemoChain := {|
  BlockNumber c := Ret (c, (demo_head c, None));
  FilterLogs c q := Ret (c, (demo_logs c q, None));
  HeaderByNumber c n := Ret (c, (Some (demo_header c n), None));
  BatchCallContext c b := Ret (c, (demo_elem c <$> b, None));
  client_TypeOf := "*demo.Chain";
|}.

(** A client whose two logs of block 5 carry different hashes. *)
Record SplitChain : Set := mkSplit {}.
#[export] Instance Split_EthClient : EthClient SplitChain := {|
  BlockNumber c := Ret (c, (10%Z, None));
  FilterLogs c q := Ret (c, ([mkLog 1 [] [] 5 0 50; mkLog 1 [] [] 5 1 51], None));
  HeaderByNumber c n := Ret (c, (None, None));
  BatchCallContext c b := Ret (c, (b, None));
  client_TypeOf := "*demo.Split";
|}.

(** * Lemmas *)

(** The demo chain is an honest client: every state [c] of its own. *)
Lemma demo_honest (c0 : DemoChain) : honest (eq c0) (demo_logs c0) (demo_header c0).
Proof.
  split.
  - intros c q _ <-. by exists c0.
  - intros c ns _ <-. eexists c0, _. split; [done|]. split; [done|].
    rewrite <-list_fmap_compose. apply Forall2_fmap_r, Forall_Forall2_diag, Forall_forall.
    intros n _. simpl. unfold header_elem, header_Marshal, elem_header, demo_header. simpl.
    by rewrite text_Z_text.
  - intros q l _ (e & -> & _)%list_elem_of_fmap. done.
Qed.
