(* ===== verification/PollerProps.v ===== *)
(** The properties of the poller: what Poll reports, what it remembers, how it fails
    and what its configuration methods keep. *)

From S2P Require Import Prelude GoErrors Types Externals SortedSet EthClient Batch BlockTracker PollUtils.
From S2P Require Import PollPolicy Poller PollerSpec PollRun PollHonest DemoChain.

(** * Definitions *)

(** The reorged flag and the tracker go together. *)
Definition flag_ok `{SortedSet SS} (p : poller SS) : Prop :=
  doReorg p = bool_decide (is_Some (tracker p)).

(** Under the fast policy no block without logs is remembered. *)
Definition no_empty_known `{SortedSet SS} (p : poller SS) : Prop :=
  ∀ n b, is_u64 n → known_of p n = Some b → Logs b ≠ [].

(** A block of the result tells the same as a remembered block. *)
Definition same_block (b g : Block) : bool :=
  bool_decide (BHash b = BHash g) && bool_decide (length (Logs b) = length (Logs g)).

(** ** The chain of the examples: an event in block 9 and one in block 12; the fork
    gives blocks from 11 on other hashes and moves the event of block 12 to 14. *)
Definition demo_old : DemoChain :=
  mkDemo 30 (λ n, 100 + n)%Z [(9, 1); (12, 2)]%Z.
Definition demo_new : DemoChain :=
  mkDemo 30 (λ n, if (n <? 11)%Z then 100 + n else 200 + n)%Z [(9, 1); (14, 2)]%Z.

Definition demo_poller (doReorg : bool) (pol : Z) : poller MapSet :=
  New None None doReorg false 10 pol.

(** What the poller reports and remembers when it polls [from, to] of [c]. *)
Definition demo_poll (p : poller MapSet) (c : DemoChain) (from to : Z) :
    outcome (poller MapSet * (option PollerResult * option error)) :=
  '(p', _, r) ← Poll true p c from to; Ret (p', r).

(** Poll 1 to 15 of the old chain, then 1 to 16 of the new one. *)
Definition demo_fork (pol : Z) : outcome (option PollerResult * option error) :=
  '(p, _) ← demo_poll (demo_poller true pol) demo_old 1 15;
  '(_, r) ← demo_poll p demo_new 1 16;
  Ret r.

Definition summary (r : option PollerResult * option error) :
    option (list (Z * Hash * nat) * list (Z * Hash * nat) * Z) :=
  (λ res, ((λ b, (Number b, BHash b, length (Logs b))) <$> GoodBlocks res,
           (λ b, (Number b, BHash b, length (Logs b))) <$> ReorgedBlocks res,
           LastGood res)) <$> r.1.

Example demo_fork_fast :
  summary <$> demo_fork PolicyFast =
  Ret (Some ([(9, 109, 1%nat); (12, 212, 0%nat); (14, 214, 1%nat)],
             [(12, 112, 1%nat)], 11))%Z.
Proof. vm_compute. reflexivity. Qed.

Example demo_fork_expensive :
  (λ r, (λ '(g, r, l), (length g, r, l)) <$> summary r) <$> demo_fork PolicyExpensive =
  Ret (Some (16%nat, [(11, 111, 0%nat); (12, 112, 1%nat); (13, 113, 0%nat);
                      (14, 114, 0%nat); (15, 115, 0%nat)], 10))%Z.
Proof. vm_compute. reflexivity. Qed.

(** * Lemmas *)

Section props.
Context `{SortedSet SS} `{HashText} `{EthUtil} `{Gsl}.
Implicit Types (p : poller SS) (t : blockTracker SS).

(** What one run reports, read off its entries. *)
Section of_run.
Context p p' from to res err t t' m logs
  (Hwf : poller_wf p) (Hok : range_ok from to)
  (Hrun : poll_run p p' from to res err t t' m logs).

Lemma run_remembered n : (from ≤ n ≤ to)%Z → getTrackerBlock t n = remembered p n.
Proof.
  unfold range_ok in Hok. intros. apply cleared_remembered; [done| |unfold is_u64; lia].
  apply (run_cleared _ _ _ _ _ _ _ _ _ _ Hrun).
Qed.

Lemma run_entry' n : (from ≤ n ≤ to)%Z → entry_ok p t logs n (m !! n).
Proof. apply (run_entry _ _ _ _ _ _ _ _ _ _ Hrun). Qed.

Lemma run_good g :
  g ∈ GoodBlocks res ↔ ∃ n r, (from ≤ n ≤ to)%Z ∧ m !! n = Some r ∧ g = mBlock r.
Proof.
  rewrite (run_result _ _ _ _ _ _ _ _ _ _ Hrun). simpl. unfold good_blocks.
  rewrite list_elem_of_omap. setoid_rewrite elem_of_block_range.
  setoid_rewrite fmap_Some. naive_solver.
Qed.

Lemma run_reorged b :
  b ∈ ReorgedBlocks res ↔ ∃ n r, (from ≤ n ≤ to)%Z ∧ m !! n = Some r ∧ forked r = true ∧
    remembered p n = Some b.
Proof.
  rewrite (run_result _ _ _ _ _ _ _ _ _ _ Hrun). simpl. unfold reorged_blocks, reorged_entry.
  rewrite list_elem_of_omap. setoid_rewrite elem_of_block_range. split.
  - intros (n & Hn & Hb). destruct (m !! n) as [r|] eqn:E; [|done]. simpl in Hb.
    destruct (forked r) eqn:Ef; [|done]. rewrite run_remembered in Hb by done. eauto 10.
  - intros (n & r & Hn & Hm & Hf & Hb). exists n. split; [done|].
    rewrite Hm. simpl. rewrite Hf. by rewrite run_remembered.
Qed.

Lemma run_forked n r :
  (from ≤ n ≤ to)%Z → m !! n = Some r →
  forked r = match remembered p n with
             | Some b => negb (same_block b (mBlock r)) | None => false end.
Proof.
  intros Hn Hm. pose proof (run_entry' n Hn) as He. rewrite Hm in He.
  destruct He as (_ & _ & _ & _ & _ & _ & -> & _). by rewrite run_remembered.
Qed.

Lemma run_reported n :
  (from ≤ n ≤ to)%Z →
  is_Some (m !! n) ↔ reported (remembered p) logs (expensive p) n.
Proof.
  intros Hn. pose proof (run_entry' n Hn) as He. unfold reported. unfold entry_ok in He.
  rewrite run_remembered in He by done. destruct (m !! n) as [r|].
  - split; [|by eauto]. intros _. by destruct He.
  - destruct He as (-> & -> & ->). split; [by intros [? ?]|].
    intros [?|[?|[? ?]]]; done.
Qed.

Lemma run_good_numbers :
  Number <$> GoodBlocks res =
    filter (reported (remembered p) logs (expensive p)) (block_range from to).
Proof.
  rewrite (run_result _ _ _ _ _ _ _ _ _ _ Hrun). simpl.
  assert (∀ n, n ∈ block_range from to → (from ≤ n ≤ to)%Z) as Hl
    by (intros ?; apply elem_of_block_range).
  induction (block_range from to) as [|n l IH] using rev_ind; [done|].
  rewrite good_blocks_snoc, fmap_app, filter_app, IH by set_solver. f_equal.
  pose proof (run_reported n (Hl n ltac:(set_solver))) as Hr.
  pose proof (run_entry' n (Hl n ltac:(set_solver))) as He.
  destruct (m !! n) as [r|]; simpl; rewrite filter_cons.
  - rewrite decide_True by (apply Hr; by eauto). by rewrite (entry_ok_number _ _ _ _ _ He).
  - rewrite decide_False; [done|]. intros Hx. apply Hr in Hx as [? ?]. done.
Qed.

Lemma run_reorged_numbers :
  (Number <$> ReorgedBlocks res) `sublist_of` (Number <$> GoodBlocks res).
Proof.
  rewrite (run_result _ _ _ _ _ _ _ _ _ _ Hrun). simpl.
  assert (∀ n, n ∈ block_range from to → (from ≤ n ≤ to)%Z) as Hl
    by (intros ?; apply elem_of_block_range).
  induction (block_range from to) as [|n l IH] using rev_ind; [done|].
  rewrite good_blocks_snoc, reorged_blocks_snoc, !fmap_app.
  apply sublist_app; [apply IH; set_solver|].
  pose proof (Hl n ltac:(set_solver)) as Hn. pose proof (run_entry' n Hn) as He.
  unfold reorged_entry. destruct (m !! n) as [r|]; simpl; [|done].
  destruct (forked r); simpl; [|apply sublist_nil_l].
  destruct (getTrackerBlock t n) as [b|] eqn:Eb; simpl; [|apply sublist_nil_l].
  rewrite (entry_ok_number _ _ _ _ _ He).
  rewrite (getTrackerBlock_Number t n b); [done|..|done].
  - apply (run_wf _ _ _ _ _ _ _ _ _ _ Hrun).
  - unfold range_ok, is_u64 in *. lia.
Qed.

Lemma run_reorged_number n :
  (from ≤ n ≤ to)%Z →
  n ∈ Number <$> ReorgedBlocks res ↔
    match m !! n with Some r => forked r = true | None => False end.
Proof.
  intros Hn. rewrite list_elem_of_fmap. setoid_rewrite run_reorged.
  assert (∀ k b, (from ≤ k ≤ to)%Z → remembered p k = Some b → Number b = k) as Hnum.
  { intros k b Hk Hb. rewrite <-run_remembered in Hb by done.
    apply (getTrackerBlock_Number t); [apply (run_wf _ _ _ _ _ _ _ _ _ _ Hrun)| |done].
    unfold range_ok, is_u64 in *. lia. }
  split.
  - intros (b & -> & k & r & Hk & Hm & Hf & Hb). by rewrite (Hnum k b), Hm.
  - destruct (m !! n) as [r|] eqn:Em; [|done]. intros Hf.
    pose proof (run_entry' n Hn) as He. rewrite Em in He.
    destruct (entry_ok_forked _ _ _ _ _ He Hf) as [b Hb].
    rewrite run_remembered in Hb by done.
    exists b. split; [by rewrite (Hnum n b)|]. by exists n, r.
Qed.

Lemma run_range : FromBlock res = from ∧ ToBlock res = to ∧ LastGood res = LastGoodBlock res.
Proof. by rewrite (run_result _ _ _ _ _ _ _ _ _ _ Hrun). Qed.
End of_run.

(** LastGoodBlock of ascending blocks whose reorged numbers are good numbers too. *)
Lemma LastGoodBlock_bounds (r : PollerResult) from to :
  range_ok from to → FromBlock r = from → ToBlock r = to →
  ascending (Number <$> GoodBlocks r) →
  (Number <$> ReorgedBlocks r) `sublist_of` (Number <$> GoodBlocks r) →
  (∀ g, g ∈ GoodBlocks r → (from ≤ Number g ≤ to)%Z) →
  (from - 1 ≤ LastGoodBlock r ≤ to)%Z ∧
  (ReorgedBlocks r = [] → LastGoodBlock r = to) ∧
  (∀ b, b ∈ ReorgedBlocks r → (LastGoodBlock r < Number b)%Z ∨
     LastGoodBlock r = Number b ∧ Number <$> last (GoodBlocks r) = Some (Number b)).
Proof.
  intros Hok Hf Ht Hasc Hsub Hin. unfold range_ok in Hok.
  pose proof (ascending_sublist _ _ Hsub Hasc) as Hrasc.
  destruct (ReorgedBlocks r) as [|b0 rs] eqn:Er.
  { rewrite LastGoodBlock_no_reorg, Ht by done. split; [lia|]. split; [done|].
    by intros b ?%not_elem_of_nil. }
  assert (∀ b, b ∈ b0 :: rs → Number b ∈ Number <$> GoodBlocks r) as Hmem.
  { intros b Hb. eapply elem_of_sublist; [|done]. by apply list_elem_of_fmap_2. }
  pose proof (Hmem b0 ltac:(left)) as Hb0.
  destruct (last (GoodBlocks r)) as [g|] eqn:Eg.
  2:{ apply last_None in Eg. rewrite Eg in Hb0. by apply not_elem_of_nil in Hb0. }
  assert (∀ b, b ∈ b0 :: rs → (Number b0 ≤ Number b ≤ Number g)%Z) as Hb.
  { intros b Hb. split.
    - apply (ascending_head _ _ _ Hrasc). by apply (list_elem_of_fmap_2 Number (b0 :: rs)).
    - apply (ascending_last _ _ _ Hasc); [|by apply Hmem]. by rewrite fmap_last, Eg. }
  assert (∃ gs, GoodBlocks r = gs ++ [g]) as [gs Hgs] by by apply last_Some.
  apply list_elem_of_fmap in Hb0 as (g0 & Hg0 & Hb0). apply Hin in Hb0.
  assert (from ≤ Number g ≤ to)%Z as Hg by by apply Hin, last_Some_elem_of.
  rewrite (LastGoodBlock_reorg r b0 rs gs g) by (done || lia).
  destruct (Z.ltb_spec (Number b0) (Number g)); (split; [lia|]; split; [done|]);
    intros b Hb'; apply Hb in Hb' as ?; [lia|]. right. split; [lia|]. simpl. f_equal. lia.
Qed.

(** ** Reading a run of Poll *)

Section client.
Context `{EthClient C}.
Implicit Types c : C.

(** Whatever the client answers, a result of Poll holds in GoodBlocks, in
    ascending order and once each, exactly the blocks of the range that have logs,
    that the policy asks for, or that the poller remembered; and in ReorgedBlocks a
    subsequence of these numbers. *)
Lemma Poll_blocks_in_order lf p p' c c' from to res err :
  poller_wf p → range_ok from to →
  Poll lf p c from to = Ret (p', c', (Some res, err)) →
  ∃ logs c1 c2,
    FilterLogs c1 (filter_query from to (addresses p) (topics p)) = Ret (c2, (logs, None)) ∧
    Number <$> GoodBlocks res =
      filter (reported (remembered p) logs (expensive p)) (block_range from to) ∧
    (Number <$> ReorgedBlocks res) `sublist_of` (Number <$> GoodBlocks res).
Proof.
  intros Hwf Hok Hp.
  destruct (Poll_run _ _ _ _ _ _ _ _ _ Hwf Hok Hp) as (t & t' & m & logs & c1 & c2 & Hfl & Hrun).
  exists logs, c1, c2. split; [done|]. split.
  - by eapply run_good_numbers.
  - by eapply run_reorged_numbers.
Qed.

(** C12: Reorg detection is sound and complete: a block is reported as reorged exactly
    when the poller remembered it in the range and the good block of its number has
    another hash or another number of logs. *)
Theorem Poll_reorged_iff lf p p' c c' from to res err b :
  poller_wf p → range_ok from to →
  Poll lf p c from to = Ret (p', c', (Some res, err)) →
  b ∈ ReorgedBlocks res ↔
    ∃ n g, (from ≤ n ≤ to)%Z ∧ remembered p n = Some b ∧
      g ∈ GoodBlocks res ∧ Number g = n ∧ same_block b g = false.
Proof.
  intros Hwf Hok Hp.
  destruct (Poll_run _ _ _ _ _ _ _ _ _ Hwf Hok Hp) as (t & t' & m & logs & c1 & c2 & _ & Hrun).
  rewrite (run_reorged p p' from to res err t t' m logs) by done.
  setoid_rewrite (run_good p p' from to res err t t' m logs Hrun). split.
  - intros (n & r & Hn & Hm & Hf & Hb). exists n, (mBlock r). do 2 (split; [done|]). split_and!.
    + by exists n, r.
    + pose proof (run_entry' _ _ _ _ _ _ _ _ _ _ Hrun n Hn) as He. rewrite Hm in He.
      by eapply entry_ok_number.
    + rewrite (run_forked p p' from to res err t t' m logs Hwf Hok Hrun n) in Hf by done.
      rewrite Hb in Hf. by apply negb_true_iff.
  - intros (n & g & Hn & Hb & (n' & r & Hn' & Hm & ->) & Hnum & Hs).
    pose proof (run_entry' _ _ _ _ _ _ _ _ _ _ Hrun n' Hn') as He. rewrite Hm in He.
    apply entry_ok_number in He as Hnn. assert (n' = n) as -> by congruence.
    exists n, r. do 2 (split; [done|]). split; [|done].
    rewrite (run_forked p p' from to res err t t' m logs Hwf Hok Hrun n) by done.
    by rewrite Hb, Hs.
Qed.

(** C29: No log is lost, invented or misplaced: every good block carries exactly the
    logs that the client gave for its number, in their order and under the block's own
    hash, and every log in the range is in a good block. *)
Theorem Poll_good_logs lf p p' c c' from to res err :
  poller_wf p → range_ok from to →
  Poll lf p c from to = Ret (p', c', (Some res, err)) →
  ∃ logs c1 c2,
    FilterLogs c1 (filter_query from to (addresses p) (topics p)) = Ret (c2, (logs, None)) ∧
    (∀ g, g ∈ GoodBlocks res →
       Logs g = logs_at (Number g) logs ∧ ∀ l, l ∈ Logs g → log_BlockHash l = BHash g) ∧
    (∀ l, l ∈ logs → (from ≤ log_BlockNumber l ≤ to)%Z →
       ∃ g, g ∈ GoodBlocks res ∧ Number g = log_BlockNumber l ∧ l ∈ Logs g).
Proof.
  intros Hwf Hok Hp.
  destruct (Poll_run _ _ _ _ _ _ _ _ _ Hwf Hok Hp) as (t & t' & m & logs & c1 & c2 & Hfl & Hrun).
  exists logs, c1, c2. split; [done|].
  setoid_rewrite (run_good p p' from to res err t t' m logs Hrun). split.
  - intros g (n & r & Hn & Hm & ->).
    pose proof (run_entry' _ _ _ _ _ _ _ _ _ _ Hrun n Hn) as He. rewrite Hm in He.
    destruct He as (_ & Hnum & Hlogs & Hhash & _). rewrite Hnum, Hlogs. done.
  - intros l Hl Hn.
    pose proof (run_entry' _ _ _ _ _ _ _ _ _ _ Hrun _ Hn) as He.
    assert (l ∈ logs_at (log_BlockNumber l) logs) as Hat by by apply elem_of_logs_at.
    destruct (m !! log_BlockNumber l) as [r|] eqn:Em.
    + destruct He as (_ & Hnum & Hlogs & _). exists (mBlock r). rewrite Hnum, Hlogs. eauto 10.
    + destruct He as [He _]. rewrite He in Hat. by apply not_elem_of_nil in Hat.
Qed.

(** Where the last good block lies. *)
Lemma Poll_last_good_bounds lf p p' c c' from to res err :
  poller_wf p → range_ok from to →
  Poll lf p c from to = Ret (p', c', (Some res, err)) →
  lastRecordedBlock p' = LastGood res ∧ (from - 1 ≤ LastGood res ≤ to)%Z ∧
  (ReorgedBlocks res = [] → LastGood res = to) ∧
  (∀ b, b ∈ ReorgedBlocks res → (LastGood res < Number b)%Z ∨
     LastGood res = Number b ∧ Number <$> last (GoodBlocks res) = Some (Number b)).
Proof.
  intros Hwf Hok Hp.
  destruct (Poll_run _ _ _ _ _ _ _ _ _ Hwf Hok Hp) as (t & t' & m & logs & c1 & c2 & Hfl & Hrun).
  destruct (run_range _ _ _ _ _ _ _ _ _ _ Hrun) as (Hf & Ht & Hl).
  split; [apply (run_recorded _ _ _ _ _ _ _ _ _ _ Hrun)|]. rewrite Hl.
  assert (Number <$> GoodBlocks res =
    filter (reported (remembered p) logs (expensive p)) (block_range from to)) as Hnum
    by by eapply run_good_numbers.
  apply LastGoodBlock_bounds; try done.
  - rewrite Hnum. eapply ascending_sublist; [apply sublist_filter|apply ascending_block_range].
  - by eapply run_reorged_numbers.
  - intros g Hg. apply (list_elem_of_fmap_2 Number) in Hg. rewrite Hnum in Hg.
    by apply list_elem_of_filter in Hg as [_ ?%elem_of_block_range].
Qed.

End client.
End props.
