(* ===== verification/PollerMemory.v ===== *)
(** The properties of the poller's memory, of its configuration methods and of the
    ways in which Poll fails. *)

From S2P Require Import Prelude GoErrors Types Externals SortedSet EthClient Batch BlockTracker PollUtils.
From S2P Require Import PollPolicy Poller PollerSpec PollRun PollHonest DemoChain PollerProps.

(** * Lemmas *)

(** The known block of a settled entry no longer differs from the chain. *)
Lemma known_next_settled known header_of logs pol n b :
  known_next known header_of logs (pol =? PolicyExpensive)%Z pol n = Some b →
  BHash b = header_Hash (header_of n) ∧ length (Logs b) = length (logs_at n logs).
Proof.
  unfold known_next. case_decide; [|done].
  destruct (Z.eqb_spec pol PolicyFast) as [->|?]; simpl;
    [case_bool_decide as Hl; simpl|]; [|by intros [= <-]..].
  unfold fresh_block. simpl. rewrite Hl.
  rewrite andb_true_r, andb_true_r, andb_diag. intros Hk.
  destruct (changed known header_of logs n) eqn:Ec; [done|].
  unfold changed in Ec. rewrite Hk, Hl in Ec.
  apply negb_false_iff, andb_true_iff in Ec as [?%bool_decide_eq_true ?%bool_decide_eq_true].
  done.
Qed.

Lemma report_reorged_nil known header_of logs l :
  (∀ n, n ∈ l → changed known header_of logs n = false) →
  report_reorged known header_of logs l = [].
Proof.
  intros Hl. unfold report_reorged. induction l as [|n l IH]; [done|]. simpl.
  rewrite (Hl n) by left. apply IH. intros. apply Hl. by right.
Qed.

Section memory.
Context `{SortedSet SS} `{HashText} `{EthUtil} `{Gsl} `{EthClient C}.
Implicit Types (p : poller SS) (t : blockTracker SS) (c : C).

Lemma remembered_known p n b : remembered p n = Some b → known_of p n = Some b.
Proof. unfold remembered. by case_decide. Qed.

(** A poll that fails has only forgotten old blocks. *)
Lemma Poll_none lf p p' c c' from to err :
  poller_wf p → range_ok from to →
  Poll lf p c from to = Ret (p', c', (None, err)) →
  err ≠ None ∧ ∃ t, cleared p t ∧ tracker_wf t ∧
    p' = set_tracker p (match tracker p with Some _ => Some t | None => None end).
Proof.
  intros Hwf Hok Hp. pose proof Hp as Hp0. unfold Poll in Hp.
  pose proof Hok as Hok'. unfold range_ok in Hok'.
  apply bind_Ret_inv in Hp as (p1 & Hcl & Hp). pose proof (clear_tracker_inv _ _ Hcl) as Htr.
  destruct (clear_tracker_ok p Hwf Htr) as (t & Ht & Hwft & Hcl').
  rewrite Hcl in Hcl'. injection Hcl' as ->.
  assert (∀ (c0 : C) e, Ret (set_tracker p (match tracker p with Some _ => Some t
      | None => None end), c0, (None, Some e)) = Ret (p', c', (@None PollerResult, err)) →
    err ≠ None ∧ ∃ t, cleared p t ∧ tracker_wf t ∧
      p' = set_tracker p (match tracker p with Some _ => Some t | None => None end)) as Hend
    by (intros c0 e [= <- <- <-]; split; [done|]; by exists t).
  apply bind_Ret_inv in Hp as ([c1 [om [e|]]] & Hpoll & Hp); [by apply Hend in Hp|].
  pose proof Hpoll as Hpoll0.
  apply poll_ok in Hpoll0 as (m & logs & c2 & c3 & -> & Hfl & Hfresh); simpl in *; [|lia..].
  apply bind_Ret_inv in Hp as ([c4 [[om1 missing] [e|]]] & Hmiss & Hp); [by apply Hend in Hp|].
  pose proof Hmiss as Hmiss0.
  apply pollMissing_view in Hmiss0 as (m1 & -> & _); [|done].
  destruct (Poll_finish lf p c c1 c4 from to t m logs m1 missing)
    as (p2 & res2 & err2 & t' & m2 & Hp2 & Hrun & _); [done..|].
  rewrite Hp0 in Hp2. by injection Hp2.
Qed.

Lemma set_tracker_known p t n :
  poller_wf p → cleared p t → is_u64 n →
  known_of (set_tracker p (match tracker p with Some _ => Some t | None => None end)) n =
    remembered p n.
Proof.
  intros Hwf Hc Hn. rewrite <-(cleared_remembered p t n) by done.
  unfold known_of, cleared in *. simpl. destruct (tracker p); [done|].
  destruct Hc as [-> _]. by rewrite getTrackerBlock_new.
Qed.

Lemma set_tracker_wf p t :
  tracker_wf t →
  poller_wf (set_tracker p (match tracker p with Some _ => Some t | None => None end)).
Proof. intros Hwf t0. simpl. destruct (tracker p); [|done]. by intros [= <-]. Qed.

(** What is known after a run. *)
Lemma run_known_of p p' from to res err t t' m logs n :
  poller_wf p → poll_run p p' from to res err t t' m logs → is_u64 n →
  known_of p' n = match tracker p with
    | Some _ => if decide (from ≤ n ≤ to)%Z then tracked_entry (policy p) t m n
                else remembered p n
    | None => None
    end.
Proof.
  intros Hwf Hrun Hn. unfold known_of. rewrite (run_tracker _ _ _ _ _ _ _ _ _ _ Hrun).
  pose proof (run_known _ _ _ _ _ _ _ _ _ _ Hrun) as Hk. unfold known_after in Hk.
  pose proof (run_cleared _ _ _ _ _ _ _ _ _ _ Hrun) as Hc.
  pose proof (cleared_remembered p t n Hwf Hc Hn) as Hr.
  destruct (tracker p); [|done]. simpl. destruct Hk as [_ ->]; [|done]. rewrite Hr.
  apply decide_ext, elem_of_block_range.
Qed.

Lemma run_poller_wf p p' from to res err t t' m logs :
  poll_run p p' from to res err t t' m logs → poller_wf p'.
Proof.
  intros Hrun t0. rewrite (run_tracker _ _ _ _ _ _ _ _ _ _ Hrun).
  pose proof (run_known _ _ _ _ _ _ _ _ _ _ Hrun) as Hk. unfold known_after in Hk.
  destruct (tracker p); [|done]. intros [= <-]. by destruct Hk.
Qed.

(** An entry that the fast policy leaves in the tracker has logs. *)
Lemma tracked_entry_fast p t logs m n b :
  policy p = PolicyFast → (∀ b, getTrackerBlock t n = Some b → Logs b ≠ []) →
  entry_ok p t logs n (m !! n) → tracked_entry (policy p) t m n = Some b → Logs b ≠ [].
Proof.
  intros Hpol Hne He. unfold tracked_entry. rewrite Hpol. simpl.
  destruct (m !! n) as [r|]; [|by intros ?%Hne].
  destruct He as (_ & _ & Hl & _ & _ & _ & Hf & Hm).
  destruct (decide (length (Logs (mBlock r)) = 0%nat)) as [Hlen|Hlen];
    [rewrite bool_decide_true by done|rewrite bool_decide_false by done; intros [= <-] Hnil;
      by rewrite Hnil in Hlen].
  apply nil_length_inv in Hlen. rewrite Hlen in Hl.
  destruct (getTrackerBlock t n) as [b0|] eqn:Eb; [|by case_match].
  specialize (Hne _ eq_refl). unfold unchanged in Hf. rewrite Hlen in Hf.
  rewrite (bool_decide_false (length (Logs b0) = _)) in Hf by (by intros ?%nil_length_inv).
  rewrite andb_false_r in Hf. simpl in Hf.
  unfold expensive in Hm. rewrite Hpol, Hf, <-Hl, bool_decide_true in Hm by done. simpl in Hm.
  by rewrite Hf, Hm.
Qed.

(** * Properties *)

(** C2: Refinement: when every answer of the client to the poller's queries agrees with one
    view of the chain, Poll always returns, and its result, its error and the poller's
    knowledge of every block afterwards are those of the reference poll, which compares the
    remembered blocks with the chain block by block. *)
Theorem Poll_refines_reference Q I logs_of header_of lf p c from to :
  honest_on Q I logs_of header_of → Q (filter_query from to (addresses p) (topics p)) →
  I c → poller_wf p → range_ok from to → (from ≤ to)%Z →
  policy_ok (policy p) → is_Some (tracker p) ∨ lastRecordedBlock p = 0%Z →
  let logs := logs_of (filter_query from to (addresses p) (topics p)) in
  ∃ p' c', Poll lf p c from to = Ret (p', c',
      (Some (spec_result p header_of logs from to), spec_error p header_of logs from)) ∧
    I c' ∧ poller_wf p' ∧
    lastRecordedBlock p' = LastGood (spec_result p header_of logs from to) ∧
    ∀ n, is_u64 n → known_of p' n = spec_known p header_of logs from to n.
Proof.
  intros Hhon Hq HI Hwf Hok Hle Hpol Htr logs.
  destruct (Poll_reference_on Q I logs_of header_of Hhon lf p c from to)
    as (p' & c' & Hp & HI' & Hwf' & _ & Hlast & _ & Hk); [done..|]. by exists p', c'.
Qed.

(** C13: A reorg is reported once: polling the same range of the same chain again reports
    no reorged block and no error, and its last good block is the end of the range. *)
Theorem Poll_reports_once I logs_of header_of lf lf' p p1 c c1 from to r :
  honest I logs_of header_of → I c → poller_wf p → range_ok from to → (from ≤ to)%Z →
  policy_ok (policy p) → is_Some (tracker p) →
  Poll lf p c from to = Ret (p1, c1, r) →
  ∃ p2 c2 res, Poll lf' p1 c1 from to = Ret (p2, c2, (Some res, None)) ∧
    ReorgedBlocks res = [] ∧ LastGood res = to.
Proof.
  intros Hhon HI Hwf Hok Hle Hpol Htr Hp.
  destruct (Poll_reference I logs_of header_of Hhon lf p c from to)
    as (p' & c' & Hp' & HI' & Hwf' & Htr' & _ & (Ha & Ht & Hpol' & _) & Hk); [by auto..|].
  rewrite Hp in Hp'. injection Hp' as <- <- _.
  destruct (Poll_reference I logs_of header_of Hhon lf' p1 c1 from to)
    as (p2 & c2 & Hp2 & _); [by rewrite ?Hpol', ?Htr'; auto..|].
  rewrite Ha, Ht in Hp2. set (logs := logs_of _) in *.
  assert (∀ n, n ∈ block_range from to → changed (remembered p1) header_of logs n = false) as Hch.
  { intros n Hn%elem_of_block_range. unfold changed.
    destruct (remembered p1 n) as [b|] eqn:Eb; [|done]. apply remembered_known in Eb.
    rewrite Hk in Eb by (unfold range_ok, is_u64 in *; lia). unfold spec_known in Eb.
    destruct (tracker p); [|done]. rewrite decide_True in Eb by done.
    apply known_next_settled in Eb as [? ?]. by rewrite !bool_decide_true. }
  exists p2, c2, (spec_result p1 header_of logs from to). split.
  - rewrite Hp2. unfold spec_error.
    by rewrite Hch by (apply elem_of_block_range; lia).
  - unfold spec_result, finish_result, LastGoodBlock. simpl.
    by rewrite report_reorged_nil by done.
Qed.

(** C31: A failed poll is atomic: a result is missing exactly when the error is not
    ErrFromBlockReorged, and then the poller has forgotten old blocks at most; the error
    ErrFromBlockReorged comes with the result that holds the reorged first block. *)
Theorem Poll_error_atomic lf p p' c c' from to res err :
  poller_wf p → range_ok from to → (from ≤ to)%Z →
  Poll lf p c from to = Ret (p', c', (res, err)) →
  match res with
  | None => err ≠ None ∧ lastRecordedBlock p' = lastRecordedBlock p ∧
      ∀ n, is_u64 n → known_of p' n = remembered p n
  | Some r =>
      if doReorg p && bool_decide (from ∈ Number <$> ReorgedBlocks r)
      then errors_Is err ErrFromBlockReorged = true else err = None
  end.
Proof.
  intros Hwf Hok Hle Hp. destruct res as [res|].
  - destruct (Poll_run _ _ _ _ _ _ _ _ _ Hwf Hok Hp)
      as (t & t' & m & logs & c1 & c2 & Hfl & Hrun).
    assert (bool_decide (from ∈ Number <$> ReorgedBlocks res) =
      match m !! from with Some r => forked r | None => false end) as ->.
    { pose proof (run_reorged_number _ _ _ _ _ _ _ _ _ _ Hwf Hok Hrun from ltac:(lia)) as Hn.
      destruct (m !! from) as [r|]; [destruct (forked r)|];
        [rewrite bool_decide_true|rewrite bool_decide_false..]; naive_solver. }
    rewrite (run_error _ _ _ _ _ _ _ _ _ _ Hrun), andb_comm. by case_match.
  - destruct (Poll_none _ _ _ _ _ _ _ _ Hwf Hok Hp) as (? & t & Hc & _ & ->).
    split; [done|]. split; [done|]. intros n Hn. by apply set_tracker_known.
Qed.

(** Under the fast policy the poller never remembers a block without logs, whatever
    the client answers, reorgs and failed polls included. *)
Lemma Poll_fast_remembers_logs lf p p' c c' from to r :
  poller_wf p → range_ok from to → policy p = PolicyFast → no_empty_known p →
  Poll lf p c from to = Ret (p', c', r) → no_empty_known p'.
Proof.
  intros Hwf Hok Hpol Hne Hp n b Hn Hb. destruct r as [[res|] err].
  - destruct (Poll_run _ _ _ _ _ _ _ _ _ Hwf Hok Hp)
      as (t & t' & m & logs & c1 & c2 & Hfl & Hrun).
    rewrite (run_known_of p p' from to res err t t' m logs n) in Hb by done.
    destruct (tracker p); [|done].
    destruct (decide (from ≤ n ≤ to)%Z) as [Hin|Hin];
      [|apply (Hne n); [done|by apply remembered_known]].
    eapply (tracked_entry_fast p t logs m n); [done| |by eapply run_entry'|done].
    intros b'. rewrite (run_remembered p p' from to res err t t' m logs) by done.
    intros ?%remembered_known. by apply (Hne n).
  - destruct (Poll_none _ _ _ _ _ _ _ _ Hwf Hok Hp) as (? & t & Hc & _ & ->).
    rewrite set_tracker_known in Hb by done. apply (Hne n); [done|by apply remembered_known].
Qed.

(** Poll keeps the poller well formed and its configuration, whatever the client
    answers; with the flag and the tracker in step it keeps them in step. *)
Lemma Poll_keeps_poller lf p p' c c' from to r :
  poller_wf p → range_ok from to →
  Poll lf p c from to = Ret (p', c', r) →
  poller_wf p' ∧ (flag_ok p → flag_ok p') ∧
  (addresses p', topics p', policy p', filterRange p', doReorg p', doHeader p') =
  (addresses p, topics p, policy p, filterRange p, doReorg p, doHeader p).
Proof.
  intros Hwf Hok Hp. destruct r as [[res|] err].
  - destruct (Poll_run _ _ _ _ _ _ _ _ _ Hwf Hok Hp)
      as (t & t' & m & logs & c1 & c2 & Hfl & Hrun).
    split; [by eapply run_poller_wf|].
    destruct (run_config _ _ _ _ _ _ _ _ _ _ Hrun) as (-> & -> & -> & -> & Hd & ->).
    split; [|by rewrite Hd]. unfold flag_ok. rewrite Hd, (run_tracker _ _ _ _ _ _ _ _ _ _ Hrun).
    by destruct (tracker p).
  - destruct (Poll_none _ _ _ _ _ _ _ _ Hwf Hok Hp) as (? & t & Hc & Hwft & ->).
    split; [by apply set_tracker_wf|]. split; [|done]. unfold flag_ok. simpl.
    by destruct (tracker p).
Qed.
End memory.
