(* ===== verification/PollerFailures.v ===== *)
(** How Poll fails without a result, and what the configuration methods do. *)

From S2P Require Import Prelude GoErrors Types Externals SortedSet EthClient Batch BlockTracker PollUtils.
From S2P Require Import PollPolicy Poller PollerSpec PollRun PollHonest DemoChain PollerProps PollerMemory.

(** * Definitions *)

(** Messages of the runtime errors. *)
Definition nil_tracker : string := "nil pointer dereference: tracker.clearUntil".

(** The result of a Go call with its poller changed by [f]. *)
Definition map_poller {SS C A} (f : poller SS → poller SS)
    (r : outcome (poller SS * C * A)) : outcome (poller SS * C * A) :=
  (λ '(p, c, a), (f p, c, a)) <$> r.

(** * Lemmas *)

Section failures.
Context `{SortedSet SS} `{HashText} `{EthUtil} `{Gsl} `{EthClient C}.
Implicit Types (p : poller SS) (t : blockTracker SS) (c : C).

Lemma Poll_nil_tracker lf p c from to :
  tracker p = None → lastRecordedBlock p ≠ 0%Z → Poll lf p c from to = Panic nil_tracker.
Proof.
  intros Ht Hl. unfold Poll, clear_tracker. rewrite Ht. simpl.
  by rewrite (proj2 (Z.eqb_neq _ _) Hl).
Qed.

Lemma remembered_nil p n : tracker p = None → remembered p n = None.
Proof. intros Ht. unfold remembered, known_of. rewrite Ht. by case_decide. Qed.

(** collectLogs refuses logs that disagree on the hash of a block. *)
Lemma collectLogs_split logs :
  ¬ logs_consistent logs →
  ∃ m n msg, collectLogs ∅ logs = Ret (m, (n, wrap_sentinel errHashesDiffer msg)).
Proof.
  intros Hn. destruct (collectLogs_spec logs) as (m & r & Hc & [(? & _)|(_ & n & msg & ->)]);
    [done|eauto].
Qed.

(** ** The header flag plays no part *)

Lemma clear_tracker_header p b :
  clear_tracker (SetDoHeader p b) = (λ p, SetDoHeader p b) <$> clear_tracker p.
Proof.
  unfold clear_tracker, SetDoHeader. simpl.
  destruct (bool_decide _ || _); [|done]. destruct (tracker p); [|done].
  by destruct (clearUntil _ _).
Qed.

Lemma Poll_header_stages lf p b c from to :
  Poll lf (SetDoHeader p b) c from to =
    map_poller (λ p, SetDoHeader p b) (Poll lf p c from to).
Proof.
  unfold Poll. rewrite clear_tracker_header. destruct (clear_tracker p) as [p1| |]; [|done..].
  simpl. destruct (poll _ _ _ _ _) as [[c1 [om [e|]]]| |]; [done| |done..]. simpl.
  destruct (pollMissing _ _ _ _) as [[c2 [[om1 ms] [e|]]]| |]; [done| |done..]. simpl.
  destruct (findReorg _ _ _ _) as [[om2 [e|]]| |]; [done| |done..]. simpl.
  destruct (processResult _ _ _) as [[t' [[r|] [e|]]]| |]; try done. simpl.
  destruct (default ∅ om2 !! from) as [fr|]; [|done]. by destruct (forked fr && doReorg p1).
Qed.

Lemma Poll_split lf p c c1 from to logs :
  poller_wf p → is_Some (tracker p) ∨ lastRecordedBlock p = 0%Z →
  (0 ≤ policy p ≤ PolicyNormal)%Z →
  FilterLogs c (filter_query from to (addresses p) (topics p)) = Ret (c1, (logs, None)) →
  ¬ logs_consistent logs →
  ∃ p' err, Poll lf p c from to = Ret (p', c1, (None, Some err)) ∧
    error_is err ErrChainIsReorging = true ∧ lastRecordedBlock p' = lastRecordedBlock p.
Proof.
  intros Hwf Htr Hpol Hfl Hn.
  destruct (clear_tracker_ok p Hwf Htr) as (t & Ht & Hwft & Hcl).
  unfold Poll. rewrite Hcl. simpl. unfold poll. simpl.
  unfold PolicyNormal, PolicyExpensiveBlock, PolicyExpensive in *.
  destruct (Z.leb_spec 3 (policy p)); [lia|]. destruct (Z.eqb_spec (policy p) 2); [lia|].
  destruct (Z.leb_spec (policy p) 1); [|lia].
  unfold pollCheap. rewrite Hfl. simpl.
  destruct (collectLogs_split logs Hn) as (m & n1 & msg & ->). simpl. by eexists _, _.
Qed.

(** * Properties *)

(** C39: A poller without a tracker (doReorg off) works once: its first poll of a chain
    gives a result, and its next poll, of any range, panics on the nil tracker. *)
Theorem Poll_no_reorg_panics I logs_of header_of lf lf' p c from to :
  honest I logs_of header_of → I c → range_ok from to → (from ≤ to)%Z →
  policy_ok (policy p) → tracker p = None → lastRecordedBlock p = 0%Z →
  ∃ p1 c1 res, Poll lf p c from to = Ret (p1, c1, (Some res, None)) ∧ LastGood res = to ∧
    ∀ from' to', Poll lf' p1 c1 from' to' = Panic nil_tracker.
Proof.
  intros Hhon HI Hok Hle Hpol Ht Hl. set (logs := logs_of (filter_query from to (addresses p) (topics p))).
  assert (∀ n, changed (remembered p) header_of logs n = false) as Hch
    by (intros n; unfold changed; by rewrite remembered_nil).
  destruct (Poll_reference I logs_of header_of Hhon lf p c from to)
    as (p1 & c1 & Hp & _ & _ & Htr & Hlast & _); [done|by intros t; rewrite Ht|by auto..|].
  assert (LastGood (spec_result p header_of logs from to) = to) as Hto.
  { unfold spec_result, finish_result, LastGoodBlock. simpl. by rewrite report_reorged_nil. }
  exists p1, c1, (spec_result p header_of logs from to). split; [|split; [done|]].
  - rewrite Hp. fold logs. unfold spec_error. by rewrite Hch.
  - intros from' to'. apply Poll_nil_tracker.
    + destruct (tracker p1); [|done]. destruct Htr as [Htr _].
      destruct Htr; [by eexists|congruence].
    + fold logs in Hlast. rewrite Hlast, Hto. unfold range_ok in Hok. lia.
Qed.

(** C40: With a tracker, a poll of a range that starts at block 0 never returns: the
    countdown of pollMissing does not stop at 0. *)
Theorem Poll_from_zero_diverges I logs_of header_of lf p c to :
  honest I logs_of header_of → I c → poller_wf p → policy_ok (policy p) →
  is_Some (tracker p) → (0 ≤ to < two63 - 1)%Z →
  Poll lf p c 0 to = Diverge.
Proof.
  intros Hhon HI Hwf Hpol Htr Hto.
  destruct (clear_tracker_ok p Hwf (or_introl Htr)) as (t & Ht & Hwft & Hcl).
  unfold Poll. rewrite Hcl. simpl.
  destruct (poll_honest _ I logs_of header_of Hhon lf c (mkParam 0 to (policy p))
    (addresses p) (topics p)) as (c1 & m & -> & _); [done|done|simpl; lia..|done|].
  simpl. destruct Htr as [t0 ->]. simpl.
  rewrite find_missing_zero by (unfold is_u64; lia). done.
Qed.

(** When two of the logs that the client gives disagree on the hash of their block,
    Poll gives no result and an error that answers to ErrChainIsReorging. *)
Lemma Poll_inconsistent_logs lf p c c1 from to logs :
  poller_wf p → is_Some (tracker p) ∨ lastRecordedBlock p = 0%Z →
  (0 ≤ policy p ≤ PolicyNormal)%Z →
  FilterLogs c (filter_query from to (addresses p) (topics p)) = Ret (c1, (logs, None)) →
  ¬ logs_consistent logs →
  ∃ p' err, Poll lf p c from to = Ret (p', c1, (None, Some err)) ∧
    error_is err ErrChainIsReorging = true ∧ lastRecordedBlock p' = lastRecordedBlock p.
Proof. apply Poll_split. Qed.

(** DoHeader has no effect on Poll: with the flag set to anything, Poll fetches and
    reports the same and leaves the same poller, up to the flag. *)
Lemma Poll_ignores_doHeader lf p b c from to :
  Poll lf (SetDoHeader p b) c from to =
    map_poller (λ p, SetDoHeader p b) (Poll lf p c from to).
Proof. apply Poll_header_stages. Qed.

(** SetDoReorg returns on every poller whose flag and tracker are in step, sets the
    flag and keeps them in step; turning reorg detection off forgets every block, turning
    it on starts from none, and setting the same flag again changes nothing. *)
Lemma SetDoReorg_spec p b :
  poller_wf p → flag_ok p →
  ∃ p', SetDoReorg p b = Ret p' ∧ poller_wf p' ∧ flag_ok p' ∧ doReorg p' = b ∧
    lastRecordedBlock p' = lastRecordedBlock p ∧
    (b = doReorg p → p' = p) ∧ (b ≠ doReorg p → ∀ n, known_of p' n = None).
Proof.
  unfold flag_ok, SetDoReorg. intros Hwf Hfl.
  destruct (doReorg p) eqn:Ed, b; simpl.
  - exists p. rewrite Ed. naive_solver.
  - symmetry in Hfl. apply bool_decide_eq_true in Hfl as [t Ht]. rewrite Ht.
    destruct (clearUntil_content t (lastRecordedBlock p)) as (t' & -> & _); [by apply Hwf|].
    simpl. eexists. split; [done|]. split; [by intros t0|]. by split_and!.
  - symmetry in Hfl. apply bool_decide_eq_false in Hfl.
    destruct (tracker p) as [t|] eqn:Ht; [by destruct Hfl; eexists|].
    eexists. split; [done|]. split; [intros t0 [= <-]; apply newTracker_wf|].
    split_and!; try done. intros _ n. apply getTrackerBlock_new.
  - exists p. rewrite Ed. naive_solver.
Qed.
End failures.

Lemma New_wf `{SortedSet SS} addrs topics' dr dh range pol :
  poller_wf (New addrs topics' dr dh range pol : poller SS).
Proof. intros t. simpl. destruct dr; [|done]. intros [= <-]. apply newTracker_wf. Qed.

Lemma New_flag `{SortedSet SS} addrs topics' dr dh range pol :
  flag_ok (New addrs topics' dr dh range pol : poller SS).
Proof. unfold flag_ok. by destruct dr. Qed.

Lemma AddAddresses_elems `{SortedSet SS} (p : poller SS) l :
  slice_elems (addresses (AddAddresses p l)) = slice_elems (addresses p) ++ l.
Proof.
  unfold AddAddresses. case_decide as Hl; simpl; [|done].
  apply nil_length_inv in Hl. rewrite Hl. by destruct l.
Qed.

Lemma AddTopics_elems `{SortedSet SS} (p : poller SS) l :
  slice_elems (topics (AddTopics p l)) = slice_elems (topics p) ++ l.
Proof.
  unfold AddTopics. case_decide as Hl; simpl; [|done].
  apply nil_length_inv in Hl. rewrite Hl. by destruct l.
Qed.
