(* ===== verification/PollerExamples.v ===== *)
(** The poller's theorems at concrete inputs: a poller over the demo chains, before and
    after a fork. *)

From S2P Require Import Prelude GoErrors Types Externals SortedSet EthClient Batch BlockTracker PollUtils.
From S2P Require Import PollPolicy Poller PollerSpec PollRun PollHonest DemoChain PollerProps PollerMemory PollerFailures.

(** * Definitions *)

(** A fast poller that has polled blocks 1 to 15 of the old chain. *)
Definition demo_p1 : poller MapSet :=
  match demo_poll (demo_poller true PolicyFast) demo_old 1 15 with
  | Ret (p, _) => p
  | _ => demo_poller true PolicyFast
  end.

(** The result of its next poll, of blocks 1 to 16 of the new chain. *)
Definition demo_res : PollerResult :=
  match demo_poll demo_p1 demo_new 1 16 with
  | Ret (_, (Some r, _)) => r
  | _ => new_PollerResult
  end.

Definition demo_query (to : Z) : FilterQuery := filter_query 1 to None None.

(** * Lemmas *)

Lemma demo_range to : (1 ≤ to < 100)%Z → range_ok 1 to.
Proof. unfold range_ok. lia. Qed.

Lemma demo_policies pol : pol = PolicyFast ∨ pol = PolicyNormal ∨ pol = PolicyExpensive → policy_ok pol.
Proof. unfold policy_ok, PolicyFast, PolicyNormal, PolicyExpensive. lia. Qed.

Lemma demo_p1_ok : poller_wf demo_p1 ∧ is_Some (tracker demo_p1) ∧ policy demo_p1 = PolicyFast ∧
  addresses demo_p1 = None ∧ topics demo_p1 = None.
Proof.
  destruct (Poll_reference _ _ _ (demo_honest demo_old) true (demo_poller true PolicyFast)
    demo_old 1 15) as (p' & c' & Hp & _ & Hwf & Htr & _ & (Ha & Ht & Hpol & _) & _);
    [done|apply New_wf|apply demo_range; lia|lia|apply demo_policies; auto|left; by eexists|].
  assert (demo_p1 = p') as -> by (unfold demo_p1, demo_poll; by rewrite Hp).
  split; [done|]. rewrite Ha, Ht, Hpol, Htr. split; [by eexists|done].
Qed.

Lemma demo_run : ∃ p' c' err, Poll true demo_p1 demo_new 1 16 = Ret (p', c', (Some demo_res, err)).
Proof.
  destruct demo_p1_ok as (Hwf & Htr & Hpol & Ha & Ht).
  destruct (Poll_reference _ _ _ (demo_honest demo_new) true demo_p1 demo_new 1 16)
    as (p' & c' & Hp & _); [done|done|apply demo_range; lia|lia|rewrite Hpol; apply demo_policies; auto|by left|].
  eexists p', c', _. rewrite Hp. unfold demo_res, demo_poll. by rewrite Hp.
Qed.

Lemma demo_p1_logs : no_empty_known demo_p1.
Proof.
  intros n b Hn Hb.
  assert (known_of demo_p1 n = snd <$> (sortedSet (default newTracker (tracker demo_p1)) :
    gmap string (Z * Block)) !! FormatUint n) as Hk.
  { unfold known_of. destruct demo_p1_ok as (_ & [t Ht] & _). rewrite Ht. simpl.
    by rewrite getTrackerBlock_view. }
  rewrite Hk in Hb. apply fmap_Some in Hb as ([sc b'] & Hl & ->).
  apply elem_of_map_to_list in Hl. revert Hl.
  set (l := map_to_list _). assert (Forall (λ kv : string * (Z * Block), Logs kv.2.2 ≠ []) l) as Hall.
  { subst l. vm_compute. repeat constructor; done. }
  rewrite Forall_forall in Hall. intros Hl. apply (Hall _ Hl).
Qed.

(** * Witnesses *)

Lemma Poll_refines_reference_witness :
  ∃ p' c', Poll true demo_p1 demo_new 1 16 = Ret (p', c',
    (Some (spec_result demo_p1 (demo_header demo_new) (demo_logs demo_new (demo_query 16)) 1 16),
     spec_error demo_p1 (demo_header demo_new) (demo_logs demo_new (demo_query 16)) 1)).
Proof.
  destruct demo_p1_ok as (Hwf & Htr & Hpol & Ha & Ht).
  destruct (Poll_refines_reference (λ _, True) (eq demo_new) (demo_logs demo_new) (demo_header demo_new)
    true demo_p1 demo_new 1 16) as (p' & c' & Hp & _);
    [apply demo_honest|done|done|done|apply demo_range; lia|lia
    |rewrite Hpol; apply demo_policies; auto|by left|].
  exists p', c'. rewrite Ha, Ht in Hp. exact Hp.
Defined.

Lemma Poll_reports_once_witness :
  ∃ p1 c1 r p2 c2 res, Poll true demo_p1 demo_new 1 16 = Ret (p1, c1, r) ∧
    Poll false p1 c1 1 16 = Ret (p2, c2, (Some res, None)) ∧ ReorgedBlocks res = [] ∧
    LastGood res = 16%Z.
Proof.
  destruct demo_p1_ok as (Hwf & Htr & Hpol & Ha & Ht).
  destruct demo_run as (p1 & c1 & err & Hp).
  destruct (Poll_reports_once (eq demo_new) (demo_logs demo_new) (demo_header demo_new)
    true false demo_p1 p1 demo_new c1 1 16 (Some demo_res, err))
    as (p2 & c2 & res & H2 & Hr & Hl);
    [apply demo_honest|done|done|apply demo_range; lia|lia
    |rewrite Hpol; apply demo_policies; auto|done|exact Hp|].
  exists p1, c1, (Some demo_res, err), p2, c2, res. by split_and!.
Defined.

Lemma Poll_reorged_iff_witness :
  (∀ b, b ∈ ReorgedBlocks demo_res ↔
    ∃ n g, (1 ≤ n ≤ 16)%Z ∧ remembered demo_p1 n = Some b ∧
      g ∈ GoodBlocks demo_res ∧ Number g = n ∧ same_block b g = false) ∧
  Number <$> ReorgedBlocks demo_res = [12%Z].
Proof.
  split; [|vm_compute; reflexivity].
  destruct demo_p1_ok as (Hwf & _). destruct demo_run as (p1 & c1 & err & Hp). intros b.
  apply (Poll_reorged_iff true demo_p1 p1 demo_new c1 1 16 demo_res err b);
    [exact Hwf|apply demo_range; lia|exact Hp].
Defined.

Lemma Poll_blocks_in_order_witness :
  (∃ logs c1 c2,
    FilterLogs c1 (filter_query 1 16 (addresses demo_p1) (topics demo_p1)) =
      Ret (c2 : DemoChain, (logs, None)) ∧
    Number <$> GoodBlocks demo_res =
      filter (reported (remembered demo_p1) logs (expensive demo_p1)) (block_range 1 16) ∧
    (Number <$> ReorgedBlocks demo_res) `sublist_of` (Number <$> GoodBlocks demo_res)) ∧
  Number <$> GoodBlocks demo_res = [9; 12; 14]%Z.
Proof.
  split; [|vm_compute; reflexivity].
  destruct demo_p1_ok as (Hwf & _). destruct demo_run as (p1 & c1 & err & Hp).
  apply (Poll_blocks_in_order true demo_p1 p1 demo_new c1 1 16 demo_res err);
    [exact Hwf|apply demo_range; lia|exact Hp].
Defined.

Lemma Poll_good_logs_witness :
  ∃ logs c1 c2,
    FilterLogs c1 (filter_query 1 16 (addresses demo_p1) (topics demo_p1)) =
      Ret (c2 : DemoChain, (logs, None)) ∧
    (∀ g, g ∈ GoodBlocks demo_res →
       Logs g = logs_at (Number g) logs ∧ ∀ l, l ∈ Logs g → log_BlockHash l = BHash g) ∧
    (∀ l, l ∈ logs → (1 ≤ log_BlockNumber l ≤ 16)%Z →
       ∃ g, g ∈ GoodBlocks demo_res ∧ Number g = log_BlockNumber l ∧ l ∈ Logs g).
Proof.
  destruct demo_p1_ok as (Hwf & _). destruct demo_run as (p1 & c1 & err & Hp).
  apply (Poll_good_logs true demo_p1 p1 demo_new c1 1 16 demo_res err);
    [exact Hwf|apply demo_range; lia|exact Hp].
Defined.


Lemma Poll_error_atomic_witness :
  ∃ p1 c1 err, Poll true demo_p1 demo_new 1 16 = Ret (p1, c1, (Some demo_res, err)) ∧
    if doReorg demo_p1 && bool_decide (1%Z ∈ Number <$> ReorgedBlocks demo_res)
    then errors_Is err ErrFromBlockReorged = true else err = None.
Proof.
  destruct demo_p1_ok as (Hwf & _). destruct demo_run as (p1 & c1 & err & Hp).
  exists p1, c1, err. split; [exact Hp|].
  apply (Poll_error_atomic true demo_p1 p1 demo_new c1 1 16 (Some demo_res) err);
    [exact Hwf|apply demo_range; lia|lia|exact Hp].
Defined.

Lemma Poll_fast_remembers_logs_witness :
  ∃ p1 c1 r, Poll true demo_p1 demo_new 1 16 = Ret (p1, c1, r) ∧ no_empty_known p1.
Proof.
  destruct demo_p1_ok as (Hwf & _ & Hpol & _). destruct demo_run as (p1 & c1 & err & Hp).
  exists p1, c1, (Some demo_res, err). split; [exact Hp|].
  apply (Poll_fast_remembers_logs true demo_p1 p1 demo_new c1 1 16 (Some demo_res, err));
    [exact Hwf|apply demo_range; lia|exact Hpol|exact demo_p1_logs|exact Hp].
Defined.

Lemma Poll_keeps_poller_witness :
  ∃ p1 c1 r, Poll true demo_p1 demo_new 1 16 = Ret (p1, c1, r) ∧ poller_wf p1 ∧
    doReorg p1 = doReorg demo_p1.
Proof.
  destruct demo_p1_ok as (Hwf & _). destruct demo_run as (p1 & c1 & err & Hp).
  exists p1, c1, (Some demo_res, err). split; [exact Hp|].
  destruct (Poll_keeps_poller true demo_p1 p1 demo_new c1 1 16 (Some demo_res, err))
    as (H1 & _ & H2); [exact Hwf|apply demo_range; lia|exact Hp|].
  split; [exact H1|]. injection H2. congruence.
Defined.

Lemma Poll_no_reorg_panics_witness :
  ∃ p1 c1 res, Poll true (demo_poller false PolicyFast) demo_old 1 15 =
      Ret (p1, c1, (Some res, None)) ∧ LastGood res = 15%Z ∧
    ∀ from' to', Poll true p1 c1 from' to' = Panic nil_tracker.
Proof.
  apply (Poll_no_reorg_panics (eq demo_old) (demo_logs demo_old) (demo_header demo_old));
    [apply demo_honest|done|apply demo_range; lia|lia|apply demo_policies; auto|done|done].
Defined.

Lemma Poll_from_zero_diverges_witness :
  Poll true (demo_poller true PolicyFast) demo_old 0 15 = Diverge.
Proof.
  apply (Poll_from_zero_diverges (eq demo_old) (demo_logs demo_old) (demo_header demo_old));
    [apply demo_honest|done|apply New_wf|apply demo_policies; auto|by eexists|lia].
Defined.

Lemma Poll_inconsistent_logs_witness :
  ∃ p' err, Poll true (demo_poller true PolicyFast) mkSplit 1 15 =
      Ret (p', mkSplit, (None, Some err)) ∧ error_is err ErrChainIsReorging = true.
Proof.
  destruct (Poll_inconsistent_logs true (demo_poller true PolicyFast) mkSplit mkSplit 1 15
    [mkLog 1 [] [] 5 0 50; mkLog 1 [] [] 5 1 51]) as (p' & err & Hp & He & _);
    [apply New_wf|left; by eexists|done|done| |exists p', err; split; [exact Hp|exact He]].
  intros Hc. specialize (Hc (mkLog 1 [] [] 5 0 50) (mkLog 1 [] [] 5 1 51)). simpl in Hc.
  assert (50 = 51)%Z as [=] by (apply Hc; set_solver).
Defined.

Lemma SetDoReorg_spec_witness :
  ∃ p', SetDoReorg demo_p1 false = Ret p' ∧ doReorg p' = false ∧ ∀ n, known_of p' n = None.
Proof.
  destruct demo_p1_ok as (Hwf & Htr & _).
  destruct (SetDoReorg_spec demo_p1 false) as (p' & Hs & _ & _ & Hd & _ & _ & Hk);
    [exact Hwf|vm_compute; reflexivity|].
  exists p'. split; [exact Hs|]. split; [exact Hd|]. apply Hk. vm_compute. discriminate.
Defined.
