(* ===== verification/DataGateway.v ===== *)
(** datagateway.go and pkg/components/mock/datagateway_mem.go: where the last recorded
    block is kept between the engine, which sets it, and the emitter, which gets it. *)

From S2P Require Import Prelude GoErrors.

(** * Definitions *)

(** GetStateDataGateway and SetStateDataGateway, on the state of the store. *)
Class GetStateDataGateway (G : Type) : Type := {
  GetLastRecordedBlock : G → outcome (G * (Z * option error));
}.
Class SetStateDataGateway (G : Type) : Type := {
  SetLastRecordedBlock : G → Z → outcome (G * option error);
}.

(** What an engine relies on: a set value is what the next get gives. *)
Class StateDataGateway (G : Type) `{GetStateDataGateway G} `{SetStateDataGateway G} : Prop :=
  gateway_get_set g n g' : is_u64 n → SetLastRecordedBlock g n = Ret (g', None) →
    ∃ g'', GetLastRecordedBlock g' = Ret (g'', (n, None)).

(** dataGatewayWrapper: functions on a shared state; the constructors set one each. *)
Record dataGatewayWrapper (W : Type) : Type := mkWrapperFuncs {
  getFunc : option (W → outcome (W * (Z * option error)));
  setFunc : option (W → Z → outcome (W * option error));
}.
Arguments mkWrapperFuncs {W}.
Arguments getFunc {W}.
Arguments setFunc {W}.

Definition GetStateDataGatewayFunc {W} (f : W → outcome (W * (Z * option error))) :
    dataGatewayWrapper W := mkWrapperFuncs (Some f) None.
Definition SetStateDataGatewayFunc {W} (f : W → Z → outcome (W * option error)) :
    dataGatewayWrapper W := mkWrapperFuncs None (Some f).

Definition wrapper_GetLastRecordedBlock {W} (d : dataGatewayWrapper W) (w : W) :
    outcome (W * (Z * option error)) :=
  match getFunc d with Some f => f w | None => Panic "nil pointer dereference: getFunc" end.
Definition wrapper_SetLastRecordedBlock {W} (d : dataGatewayWrapper W) (w : W) (n : Z) :
    outcome (W * option error) :=
  match setFunc d with Some f => f w n | None => Panic "nil pointer dereference: setFunc" end.

(** fakeRedisMem; its lock makes each method atomic. *)
Record fakeRedisMem : Set := mkMem { mem_lastRecordedBlock : Z; mem_ok : bool }.

Definition NewDataGatewayMem (lastRecordedBlock : Z) (ok : bool) : fakeRedisMem :=
  mkMem lastRecordedBlock ok.

Definition mem_GetLastRecordedBlock (m : fakeRedisMem) :
    outcome (fakeRedisMem * (Z * option error)) :=
  if mem_ok m then Ret (m, (mem_lastRecordedBlock m, None))
  else Ret (m, (0%Z, wrap_sentinel ErrRecordNotFound "key not found")).

Definition mem_SetLastRecordedBlock (m : fakeRedisMem) (v : Z) :
    outcome (fakeRedisMem * option error) := Ret (mkMem v true, None).

#[export] Instance mem_Get : GetStateDataGateway fakeRedisMem := {|
  GetLastRecordedBlock := mem_GetLastRecordedBlock;
|}.
#[export] Instance mem_Set : SetStateDataGateway fakeRedisMem := {|
  SetLastRecordedBlock := mem_SetLastRecordedBlock;
|}.

(** Successive SetLastRecordedBlock calls. *)
Fixpoint set_all `{SetStateDataGateway G} (g : G) (vs : list Z) : outcome G :=
  match vs with
  | [] => Ret g
  | v :: vs => '(g', _) ← SetLastRecordedBlock g v; set_all g' vs
  end.

(** * Lemmas *)

#[export] Instance mem_StateDataGateway : StateDataGateway fakeRedisMem.
Proof. intros g n g' _ [= <-]. by eexists. Qed.

Lemma set_all_app `{SetStateDataGateway G} (g : G) vs1 vs2 :
  set_all g (vs1 ++ vs2) = g' ← set_all g vs1; set_all g' vs2.
Proof.
  revert g. induction vs1 as [|v vs1 IH]; intros g; simpl; [done|].
  destruct (SetLastRecordedBlock g v) as [[g' err]| |]; simpl; [|done..]. apply IH.
Qed.

(** The in-memory gateway that starts without a record answers ErrRecordNotFound until
    the first SetLastRecordedBlock, and from then on the last value set. *)
Lemma mem_gateway_roundtrip first vs :
  ∃ m r err, set_all (NewDataGatewayMem first false) vs = Ret m ∧
    GetLastRecordedBlock m = Ret (m, (r, err)) ∧
    match last vs with
    | None => errors_Is err ErrRecordNotFound = true
    | Some v => r = v ∧ err = None
    end.
Proof.
  induction vs as [|v vs IH] using rev_ind; [by eexists _, _, _|].
  destruct IH as (m & _ & _ & Hm & _). rewrite set_all_app, Hm, last_snoc. simpl.
  by eexists _, _, _.
Qed.
