(* ===== verification/FileGateway.v ===== *)
(** pkg/components/mock/fakeredis_file.go and fakeredis.go: the gateway that keeps the last
    recorded block in a file, as decimal text. *)

From Stdlib Require Import Ascii.
From S2P Require Import Prelude GoErrors DataGateway.

(** * Definitions *)

(** os.ReadFile and os.WriteFile on the state of the file system: a file that was written
    reads back. *)
Class OsFiles (F : Type) : Type := {
  ReadFile : F → string → string + error;
  WriteFile : F → string → string → F * option error;
  ReadFile_WriteFile fs name content fs' :
    WriteFile fs name content = (fs', None) → ReadFile fs' name = inl content;
}.

(** strconv.ParseUint(s, 10, 64): digits only, and the value must fit. *)
Definition digit_of (c : ascii) : option Z :=
  let n := Z.of_nat (nat_of_ascii c) in
  if ((48 <=? n) && (n <=? 57))%Z then Some (n - 48)%Z else None.

Fixpoint parse_digits (n : Z) (s : string) : Z + error :=
  match s with
  | EmptyString => inl n
  | String c s' =>
      match digit_of c with
      | None => inr (ENew "strconv.ParseUint: invalid syntax")
      | Some d =>
          if (n * 10 + d <? two64)%Z then parse_digits (n * 10 + d) s'
          else inr (ENew "strconv.ParseUint: value out of range")
      end
  end.

Definition ParseUint (s : string) : Z + error :=
  match s with
  | EmptyString => inr (ENew "strconv.ParseUint: invalid syntax")
  | _ => parse_digits 0 s
  end.

(** fmt.Sprintf("%d", v) of an unsigned number. *)
Definition decimal (v : Z) : string := pretty (Z.to_N v).

(** fakeRedisFile; its lock makes each method atomic. *)
Record fakeRedisFile : Set := mkFile { filename : string; file_ok : bool }.

Section files.
Context `{OsFiles F}.

Definition writeLastRecordedBlockToFile (fs : F) (filename : string) (lastRecordedBlock : Z) :
    F * option error :=
  let '(fs, err) := WriteFile fs filename (decimal lastRecordedBlock) in
  (fs, errors_Wrap err "failed to write fakeRedisFile db").

Definition NewDataGatewayFile (fs : F) (filename : string) (lastRecordedBlock : Z) (ok : bool) :
    outcome (F * fakeRedisFile) :=
  if ok then
    match writeLastRecordedBlockToFile fs filename lastRecordedBlock with
    | (_, Some err) => Panic ("failed to write file to init fakeRedisFile: " +:+ error_Error err)
    | (fs, None) => Ret (fs, mkFile filename ok)
    end
  else Ret (fs, mkFile filename ok).

Definition file_GetLastRecordedBlock (w : F * fakeRedisFile) :
    outcome ((F * fakeRedisFile) * (Z * option error)) :=
  let '(fs, m) := w in
  if negb (file_ok m) then Ret (w, (0%Z, wrap_sentinel ErrRecordNotFound "key not found"))
  else
    match ReadFile fs (filename m) with
    | inr err => Ret (w, (0%Z,
        Some (EWrap err ("failed to get lastRecordedBlock from file " +:+ filename m))))
    | inl b =>
        match ParseUint b with
        | inr err => Ret (w, (0%Z, Some (EWrap err
            ("failed to parse file " +:+ filename m +:+ " content " +:+ b +:+ " to uint64"))))
        | inl lastRecordedBlock => Ret (w, (lastRecordedBlock, None))
        end
    end.

Definition file_SetLastRecordedBlock (w : F * fakeRedisFile) (lastRecordedBlock : Z) :
    outcome ((F * fakeRedisFile) * option error) :=
  let '(fs, m) := w in
  let '(fs, err) := writeLastRecordedBlockToFile fs (filename m) lastRecordedBlock in
  Ret ((fs, mkFile (filename m) true), err).

#[export] Instance file_Get : GetStateDataGateway (F * fakeRedisFile) := {|
  GetLastRecordedBlock := file_GetLastRecordedBlock;
|}.
#[export] Instance file_Set : SetStateDataGateway (F * fakeRedisFile) := {|
  SetLastRecordedBlock := file_SetLastRecordedBlock;
|}.
End files.

(** * Lemmas *)

Lemma digit_of_digit (n : N) : (n < 10)%N → digit_of (pretty_N_char n) = Some (Z.of_N n).
Proof.
  intros Hn. assert (n ∈ [0;1;2;3;4;5;6;7;8;9]%N) as Hin.
  { repeat (rewrite elem_of_cons); lia. }
  revert n Hn Hin. cut (Forall (λ n, digit_of (pretty_N_char n) = Some (Z.of_N n)) [0;1;2;3;4;5;6;7;8;9]%N).
  - rewrite Forall_forall. auto.
  - repeat constructor.
Qed.

(** Reading what printing a number in front of a text gives. *)
Lemma parse_pretty_go (x : N) s :
  (Z.of_N x < two64)%Z → parse_digits 0 (pretty_N_go x s) = parse_digits (Z.of_N x) s.
Proof.
  revert s. induction (N.lt_wf_0 x) as [x _ IH]. intros s Hx.
  destruct (decide (0 < x)%N) as [Hpos|Hz].
  - rewrite pretty_N_go_step by done. rewrite IH; [|apply N.div_lt; lia|].
    + simpl. rewrite digit_of_digit by (apply N.mod_lt; lia).
      replace (Z.of_N (x / 10) * 10 + Z.of_N (x mod 10))%Z with (Z.of_N x).
      * destruct (Z.ltb_spec (Z.of_N x) two64); [done|lia].
      * rewrite (N.div_mod x 10) at 1 by lia. lia.
    + assert (x / 10 < x)%N by (apply N.div_lt; lia). lia.
  - assert (x = 0)%N as -> by lia. by rewrite pretty_N_go_0.
Qed.

Lemma ParseUint_decimal v : is_u64 v → ParseUint (decimal v) = inl v.
Proof.
  intros Hv. unfold is_u64 in Hv. unfold decimal, pretty, pretty_N.
  destruct (decide (Z.to_N v = 0)%N) as [Hz|Hz].
  - assert (v = 0%Z) as -> by lia. done.
  - assert (parse_digits 0 (pretty_N_go (Z.to_N v) EmptyString) = inl v) as Hp.
    { rewrite parse_pretty_go by lia. simpl. by rewrite Z2N.id by lia. }
    unfold ParseUint. change "" with EmptyString. destruct (pretty_N_go _ _) as [|c s]; [|done].
    simpl in Hp. injection Hp as <-. done.
Qed.

#[export] Instance file_StateDataGateway `{OsFiles F} : StateDataGateway (F * fakeRedisFile).
Proof.
  intros [fs m] n w' Hn. simpl. unfold writeLastRecordedBlockToFile.
  destruct (WriteFile fs (filename m) (decimal n)) as [fs' [err|]] eqn:Ew; intros [= <-].
  exists (fs', mkFile (filename m) true). simpl.
  by rewrite (ReadFile_WriteFile _ _ _ _ Ew), ParseUint_decimal.
Qed.

(** A file system in memory; one that refuses to write. *)
#[export, refine] Instance map_files : OsFiles (gmap string string) := {|
  ReadFile fs name := match fs !! name with
                      | Some content => inl content
                      | None => inr (ENew "no such file or directory")
                      end;
  WriteFile fs name content := (<[name := content]> fs, None);
|}.
Proof. intros fs name content fs' [= <-]. by rewrite lookup_insert_eq. Defined.

(** * Properties *)

(** C33: The file gateway gives back what it was given: it answers ErrRecordNotFound before the
    first SetLastRecordedBlock; a set that succeeds is what the next gets give, read back from
    its decimal text without loss for every uint64; and after a set that failed it no longer
    answers ErrRecordNotFound but reads the file as it is. *)
Theorem file_gateway_roundtrip `{OsFiles F} (fs : F) name ok v :
  is_u64 v →
  (∃ err, GetLastRecordedBlock (fs, mkFile name false) = Ret ((fs, mkFile name false), (0%Z, err)) ∧
     errors_Is err ErrRecordNotFound = true) ∧
  ∃ fs' err, SetLastRecordedBlock (fs, mkFile name ok) v = Ret ((fs', mkFile name true), err) ∧
    match err with
    | None => GetLastRecordedBlock (fs', mkFile name true) = Ret ((fs', mkFile name true), (v, None))
    | Some _ => ∀ s, ReadFile fs' name = inl s →
        GetLastRecordedBlock (fs', mkFile name true) = Ret ((fs', mkFile name true),
          match ParseUint s with
          | inl n => (n, None)
          | inr e => (0%Z, Some (EWrap e
              ("failed to parse file " +:+ name +:+ " content " +:+ s +:+ " to uint64")))
          end)
    end.
Proof.
  intros Hv. split; [by eexists|]. simpl. unfold writeLastRecordedBlockToFile.
  destruct (WriteFile fs name (decimal v)) as [fs' [e|]] eqn:Ew; eexists _, _; (split; [done|]).
  - intros s Hs. simpl. rewrite Hs. by destruct (ParseUint s).
  - simpl. by rewrite (ReadFile_WriteFile _ _ _ _ Ew), ParseUint_decimal.
Qed.

Lemma file_gateway_roundtrip_witness :
  ∃ fs', SetLastRecordedBlock ((∅ : gmap string string), mkFile "db" false) 1234 =
      Ret ((fs', mkFile "db" true), None) ∧
    GetLastRecordedBlock (fs', mkFile "db" true) = Ret ((fs', mkFile "db" true), (1234%Z, None)).
Proof.
  destruct (file_gateway_roundtrip (∅ : gmap string string) "db" false 1234) as [_ Hs];
    [unfold is_u64; lia|].
  destruct Hs as (fs' & [e|] & Hset & Hget); [discriminate|]. exists fs'. split; [exact Hset|exact Hget].
Defined.
