(* ===== verification/EmitterBlocks.v ===== *)
(** internal/emitter/blocknum_utils.go and the function computeFromBlockToBlock of
    loop_emit.go: the block range of the next poll. *)

From S2P Require Import Prelude GoErrors Types Externals.

(** * Definitions *)

Record emitterStatus : Set := mkStatus {
  st_FromBlock : Z;
  st_ToBlock : Z;
  st_CurrentBlock : Z;
  st_LastRecordedBlock : Z;
  st_GoBackFirstStart : bool;
  st_IsReorging : bool;
  st_RetriesCount : Z;
}.

(** new(emitterStatus). *)
Definition new_emitterStatus : emitterStatus := mkStatus 0 0 0 0 false false 0.

(** The assignments to the fields of a status. *)
Definition set_GoBackFirstStart (b : bool) (s : emitterStatus) : emitterStatus :=
  mkStatus (st_FromBlock s) (st_ToBlock s) (st_CurrentBlock s) (st_LastRecordedBlock s)
    b (st_IsReorging s) (st_RetriesCount s).
Definition set_recent (current last : Z) (s : emitterStatus) : emitterStatus :=
  mkStatus (st_FromBlock s) (st_ToBlock s) current last
    (st_GoBackFirstStart s) (st_IsReorging s) (st_RetriesCount s).
Definition set_range (from to : Z) (s : emitterStatus) : emitterStatus :=
  mkStatus from to (st_CurrentBlock s) (st_LastRecordedBlock s)
    (st_GoBackFirstStart s) (st_IsReorging s) (st_RetriesCount s).

Section blocks.
Context `{Gsl}.

Definition fromBlockToBlockNormal (emitterStartBlock currentBlock lastRecordedBlock
    filterRange : Z) : Z * Z :=
  let toBlock := gsl_Min currentBlock (lastRecordedBlock +₆₄ filterRange) in
  let firstNewBlock := lastRecordedBlock +₆₄ 1 in
  let firstNewBlock := gsl_Min currentBlock firstNewBlock in
  let fromBlock :=
    if (firstNewBlock <? filterRange)%Z then emitterStartBlock
    else firstNewBlock -₆₄ filterRange in
  (fromBlock, toBlock).

Definition fromBlockToBlockIsReorging (emitterStartBlock currentBlock lastRecordedBlock
    filterRange maxRetries : Z) (prevStatus : emitterStatus) : Z * Z * option error :=
  if (maxRetries <? st_RetriesCount prevStatus)%Z then
    (st_FromBlock prevStatus, st_ToBlock prevStatus,
     wrap_sentinel ErrMaxRetriesReached
       (pretty (st_RetriesCount prevStatus) +:+ " goBackRetries"))
  else
    let goBack := filterRange in
    let fromBlock :=
      if (st_FromBlock prevStatus <? goBack)%Z then emitterStartBlock
      else st_FromBlock prevStatus -₆₄ goBack in
    let toBlock := gsl_Min (st_ToBlock prevStatus) currentBlock in
    (fromBlock, toBlock, None).

Definition fromBlockToBlockGoBackFirstRun (emitterStartBlock currentBlock lastRecordedBlock
    filterRange maxRetries : Z) (prevStatus : emitterStatus) : Z * Z * Z :=
  let goBack := filterRange *₆₄ st_RetriesCount prevStatus in
  let firstNewBlock := lastRecordedBlock +₆₄ 1 in
  let fromBlock :=
    if (firstNewBlock <? goBack)%Z then emitterStartBlock
    else firstNewBlock -₆₄ goBack in
  let toBlock := fromBlock +₆₄ filterRange -₆₄ 1 in
  (fromBlock, toBlock, goBack).

(** computeFromBlockToBlock writes to prevStatus; the first component is prevStatus
    afterwards. *)
Definition computeFromBlockToBlock (prevStatus : emitterStatus) (currentBlock
    lastRecordedBlock filterRange maxRetries startBlock : Z) (doReorg : bool) :
    emitterStatus * (Z * Z * option error) :=
  let '(prevStatus, (fromBlock, toBlock, err)) :=
    if st_GoBackFirstStart prevStatus then
      let prevStatus := set_GoBackFirstStart false prevStatus in
      let '(fromBlock, toBlock, _) := fromBlockToBlockGoBackFirstRun startBlock currentBlock
        lastRecordedBlock filterRange maxRetries prevStatus in
      (prevStatus, (fromBlock, toBlock, None))
    else if st_IsReorging prevStatus then
      (prevStatus, fromBlockToBlockIsReorging startBlock currentBlock lastRecordedBlock
        filterRange maxRetries prevStatus)
    else
      let '(fromBlock, toBlock) := fromBlockToBlockNormal startBlock currentBlock
        lastRecordedBlock filterRange in
      (prevStatus, (fromBlock, toBlock, None)) in
  (set_range fromBlock toBlock prevStatus, (fromBlock, toBlock, err)).

(** The lower end that the method computeFromBlockToBlock enforces. *)
Definition clamp_start (startBlock fromBlock : Z) : Z :=
  if (fromBlock <? startBlock)%Z then startBlock else fromBlock.
End blocks.

(** The number of windows that normal polling takes to go from the block [last] to the
    head [current]; [normal_windows] are these windows when every poll succeeds. *)
Fixpoint normal_windows `{Gsl} (k : nat) (start current last range : Z) : list (Z * Z) :=
  match k with
  | O => []
  | S k' =>
      if (last =? current)%Z then []
      else
        let '(from, to) := fromBlockToBlockNormal start current last range in
        (clamp_start start from, to) :: normal_windows k' start current to range
  end.

(** The ranges of successive go-backs while every poll finds its first block reorged. *)
Fixpoint reorg_windows `{Gsl} (k : nat) (start current last range maxRetries : Z)
    (prev : emitterStatus) : list (Z * Z) * option error :=
  match k with
  | O => ([], None)
  | S k' =>
      match fromBlockToBlockIsReorging start current last range maxRetries prev with
      | (_, _, Some e) => ([], Some e)
      | (from, to, None) =>
          let from := clamp_start start from in
          let next := mkStatus from to current last false true (st_RetriesCount prev + 1) in
          let '(ws, e) := reorg_windows k' start current last range maxRetries next in
          ((from, to) :: ws, e)
      end
  end.

(** How many windows hold block [n]. *)
Definition covers (n : Z) (ws : list (Z * Z)) : nat :=
  length (filter (λ w, w.1 ≤ n ≤ w.2)%Z ws).

(** * Lemmas *)

#[local] Arguments clamp_start : simpl never.
#[local] Arguments fromBlockToBlockNormal : simpl never.
#[local] Arguments fromBlockToBlockIsReorging : simpl never.

Section block_lemmas.
Context `{Gsl}.
Local Open Scope Z_scope.

(** A normal window, for numbers far from the top of uint64. *)
Lemma normal_window start current last range :
  0 ≤ start → 0 ≤ current < two63 → 0 ≤ last < two63 - 1 → 0 ≤ range < two63 →
  fromBlockToBlockNormal start current last range =
    (if (Z.min current (last + 1) <? range) then start else Z.min current (last + 1) - range,
     Z.min current (last + range)).
Proof.
  intros ? ? ? ?. unfold fromBlockToBlockNormal. rewrite !gsl_Min_spec.
  rewrite !(u64_add_small last) by (unfold is_u64; lia).
  destruct (Z.ltb_spec (Z.min current (last + 1)) range); [done|].
  by rewrite u64_sub_small by (unfold is_u64; lia).
Qed.

(** The window ends at the head or [range] blocks on, and it starts at or before the
    first new block. *)
Lemma normal_window_covers start current last range from to :
  0 ≤ start ≤ last + 1 → 0 ≤ current < two63 → 0 ≤ last < two63 - 1 → 1 ≤ range < two63 →
  last < current →
  fromBlockToBlockNormal start current last range = (from, to) →
  to = Z.min current (last + range) ∧ last < to ≤ current ∧
  clamp_start start from ≤ last + 1 ∧
  clamp_start start from = Z.max start (last + 1 - range).
Proof.
  intros. rewrite normal_window in * by lia. simplify_eq. unfold clamp_start.
  destruct (Z.ltb_spec (Z.min current (last + 1)) range);
    repeat match goal with |- context [(?a <? ?b)%Z] => destruct (Z.ltb_spec a b) end; lia.
Qed.

Lemma reorging_error start current last range maxRetries prev :
  maxRetries < st_RetriesCount prev →
  ∃ msg, fromBlockToBlockIsReorging start current last range maxRetries prev =
    (st_FromBlock prev, st_ToBlock prev, wrap_sentinel ErrMaxRetriesReached msg).
Proof.
  intros. unfold fromBlockToBlockIsReorging.
  destruct (Z.ltb_spec maxRetries (st_RetriesCount prev)); [by eexists|lia].
Qed.

Lemma reorging_window start current last range maxRetries prev :
  st_RetriesCount prev ≤ maxRetries → 0 ≤ start → 0 ≤ st_FromBlock prev < two64 →
  0 ≤ range →
  ∃ from, fromBlockToBlockIsReorging start current last range maxRetries prev =
      (from, Z.min (st_ToBlock prev) current, None) ∧
    clamp_start start from = Z.max start (st_FromBlock prev - range).
Proof.
  intros. unfold fromBlockToBlockIsReorging. rewrite gsl_Min_spec.
  destruct (Z.ltb_spec maxRetries (st_RetriesCount prev)); [lia|].
  eexists. split; [done|]. unfold clamp_start.
  destruct (Z.ltb_spec (st_FromBlock prev) range).
  - rewrite Z.ltb_irrefl. lia.
  - rewrite u64_sub_small by (unfold is_u64; lia).
    destruct (Z.ltb_spec (st_FromBlock prev - range) start); lia.
Qed.

Lemma first_run_window start current last range maxRetries prev :
  st_RetriesCount prev = 0 → 0 ≤ last < two63 → 1 ≤ range < two63 - 1 →
  fromBlockToBlockGoBackFirstRun start current last range maxRetries prev =
    (last + 1, last + range, 0).
Proof.
  intros Hr ? ?. unfold fromBlockToBlockGoBackFirstRun. rewrite Hr.
  rewrite (u64_mul_small range 0), Z.mul_0_r by (unfold is_u64; lia).
  rewrite (u64_add_small last 1) by (unfold is_u64; lia).
  destruct (Z.ltb_spec (last + 1) 0); [lia|].
  rewrite (u64_sub_small (last + 1) 0), Z.sub_0_r by (unfold is_u64; lia).
  rewrite (u64_add_small (last + 1)) by (unfold is_u64; lia).
  rewrite u64_sub_small by (unfold is_u64; lia). do 2 f_equal. lia.
Qed.
End block_lemmas.

(** * Properties *)

Section block_properties.
Context `{Gsl}.
Local Open Scope Z_scope.

Lemma normal_windows_cons k start current last range :
  0 ≤ start ≤ last + 1 → 0 ≤ current < two63 → 0 ≤ last < current → 1 ≤ range < two63 →
  normal_windows (S k) start current last range =
    (Z.max start (last + 1 - range), Z.min current (last + range)) ::
      normal_windows k start current (Z.min current (last + range)) range.
Proof.
  intros. cbn [normal_windows]. destruct (Z.eqb_spec last current); [lia|].
  destruct (fromBlockToBlockNormal start current last range) as [from to] eqn:Ef.
  eapply normal_window_covers in Ef as (-> & _ & _ & ->); [done|lia..].
Qed.

Lemma covers_cons n w ws :
  covers n (w :: ws) = ((if decide (w.1 ≤ n ≤ w.2)%Z then 1 else 0) + covers n ws)%nat.
Proof. unfold covers. rewrite filter_cons. by case_decide. Qed.

Lemma normal_windows_once k start current last range n :
  0 ≤ start ≤ last + 1 → 0 ≤ current < two63 → 0 ≤ last → 1 ≤ range < two63 →
  current - last ≤ Z.of_nat k → last < n ≤ current →
  (1 ≤ covers n (normal_windows k start current last range))%nat.
Proof.
  revert last. induction k as [|k IH]; intros last ? ? ? ? Hk Hn; [lia|].
  rewrite normal_windows_cons, covers_cons by lia. simpl.
  case_decide as Hd; [lia|]. specialize (IH (Z.min current (last + range))). lia.
Qed.

Lemma normal_windows_twice k start current last range n :
  0 ≤ start ≤ last + 1 → 0 ≤ current < two63 → 0 ≤ last → 1 ≤ range < two63 →
  current - last ≤ Z.of_nat k → last < n ≤ current - range →
  (2 ≤ covers n (normal_windows k start current last range))%nat.
Proof.
  revert last. induction k as [|k IH]; intros last ? ? ? ? Hk Hn; [lia|].
  destruct (decide (n ≤ last + range)) as [Hle|Hgt].
  - destruct k as [|k]; [lia|]. rewrite !normal_windows_cons, !covers_cons by lia. simpl.
    rewrite !decide_True by lia. lia.
  - rewrite normal_windows_cons, covers_cons by lia. simpl.
    specialize (IH (Z.min current (last + range))). lia.
Qed.

(** Normal polling skips nothing and looks back: when every poll succeeds, the
    emitter's windows from the last recorded block to the head cover every new block at
    least once, and at least twice every new block that is a filter range below the head,
    so that a reorg there is compared with an earlier poll. *)
Lemma normal_polling_covers k start current last range n :
  0 ≤ start ≤ last + 1 → 0 ≤ current < two63 → 0 ≤ last → 1 ≤ range < two63 →
  current - last ≤ Z.of_nat k → last < n ≤ current →
  (1 ≤ covers n (normal_windows k start current last range))%nat ∧
  (n ≤ current - range → (2 ≤ covers n (normal_windows k start current last range))%nat).
Proof.
  intros. split; [by apply normal_windows_once|]. intros. apply normal_windows_twice; lia.
Qed.

Lemma seqZ_shift m n : m = 1 → seqZ m n = Z.add 1 <$> seqZ 0 n.
Proof. intros ->. by rewrite fmap_add_seqZ. Qed.

Lemma reorg_windows_from k start current last range maxRetries prev :
  0 ≤ range → 0 ≤ start ≤ st_FromBlock prev → st_FromBlock prev < two64 →
  st_RetriesCount prev ≤ maxRetries + 1 →
  (Z.to_nat (maxRetries + 1 - st_RetriesCount prev) < k)%nat →
  ∃ msg, reorg_windows k start current last range maxRetries prev =
    ((λ i, (Z.max start (st_FromBlock prev - (i + 1) * range),
            Z.min (st_ToBlock prev) current)) <$> seqZ 0 (maxRetries + 1 - st_RetriesCount prev),
     wrap_sentinel ErrMaxRetriesReached msg).
Proof.
  revert prev. induction k as [|k IH]; intros prev Hr Hs Hf Hc Hk; [lia|].
  cbn [reorg_windows].
  destruct (decide (maxRetries < st_RetriesCount prev)) as [Hmax|Hmax].
  - destruct (reorging_error start current last range maxRetries prev Hmax) as [msg ->].
    exists msg. by rewrite seqZ_nil by lia.
  - destruct (reorging_window start current last range maxRetries prev)
      as (from & -> & Hfrom); [lia..|].
    rewrite Hfrom. cbv zeta. set (next := mkStatus _ _ _ _ _ _ _).
    destruct (IH next) as [msg ->]; [subst next; simpl; lia..|]. exists msg. subst next. simpl.
    rewrite (seqZ_cons 0 (maxRetries + 1 - st_RetriesCount prev)) by lia. simpl. f_equal. f_equal.
    + f_equal. lia.
    + replace (Z.pred (maxRetries + 1 - st_RetriesCount prev))
        with (maxRetries + 1 - (st_RetriesCount prev + 1)) by lia.
      rewrite (seqZ_shift (Z.succ 0)), <-list_fmap_compose by lia.
      apply list_fmap_ext. intros i x [-> _]%lookup_seqZ. simpl.
      assert (0 ≤ Z.of_nat i * range) by nia. f_equal; lia.
Qed.

(** C27: Going back during a reorg is bounded: from the status after the first reorged
    poll, if every further poll finds its first block reorged, there are exactly
    maxRetries go-backs, the i-th of which starts i filter ranges further back (not below
    the start block) and does not end later than the reorged poll or the head; then
    ErrMaxRetriesReached comes. *)
Theorem reorg_go_backs_bounded k start current last range maxRetries prev :
  st_RetriesCount prev = 1 → 0 ≤ maxRetries → 0 ≤ range →
  0 ≤ start ≤ st_FromBlock prev → st_FromBlock prev < two64 →
  (Z.to_nat maxRetries < k)%nat →
  ∃ err, reorg_windows k start current last range maxRetries prev =
    ((λ i, (Z.max start (st_FromBlock prev - i * range), Z.min (st_ToBlock prev) current))
       <$> seqZ 1 maxRetries, Some err) ∧
    error_is err ErrMaxRetriesReached = true.
Proof.
  intros Hr ? ? ? ? ?.
  destruct (reorg_windows_from k start current last range maxRetries prev)
    as [msg ->]; [lia..|].
  exists (EWrap (ESentinel ErrMaxRetriesReached) msg). split; [|done].
  unfold wrap_sentinel. f_equal. rewrite Hr. replace (maxRetries + 1 - 1) with maxRetries by lia.
  rewrite (seqZ_shift 1), <-list_fmap_compose by lia.
  apply list_fmap_ext. intros i x _. simpl. do 2 f_equal. lia.
Qed.
End block_properties.
