(* ===== verification/Emitter.v ===== *)
(** internal/emitter/emit.go, emitter.go and loop_emit.go: one turn of loopEmit and
    the Loop around it, as a state machine. *)

From S2P Require Import Prelude GoErrors Types Externals EmitterBlocks.

(** * Definitions *)

(** What the emitter calls: the state data gateway, the client's BlockNumber and the
    poller.  They may share state (the poller has the same client), so all act on one
    world. *)
Class EmitterEnv (W : Type) : Type := {
  env_GetLastRecordedBlock : W → outcome (W * (Z * option error));
  env_BlockNumber : W → outcome (W * (Z * option error));
  env_Poll : W → Z → Z → outcome (W * (option PollerResult * option error));
  env_DoReorg : W → bool;
}.

(** What the rest of the program sees of the emitter: calls of Poll, sends on the
    channels, receives from syncChan, sleeps and the closing of the channels. *)
Inductive event : Type :=
  | EvSleep
  | EvPoll (from to : Z)
  | EvResult (r : PollerResult)
  | EvSync
  | EvError (e : error)
  | EvShutdown.

(** The emitter's own data: its configuration, and whether pollResultChan is not nil. *)
Record emitter : Type := mkEmitter { conf : Config; hasResultChan : bool }.

(** loopEmit's [status] variable.  It points to the status of Loop until updateStatus
    makes it point to a new one; the status of Loop is then no longer written. *)
Record statusVar : Type := mkVar { sv_outer : emitterStatus; sv_local : option emitterStatus }.

Definition sv_get (s : statusVar) : emitterStatus := default (sv_outer s) (sv_local s).
Definition sv_set (s : statusVar) (v : emitterStatus) : statusVar :=
  match sv_local s with
  | Some _ => mkVar (sv_outer s) (Some v)
  | None => mkVar v None
  end.

Section emitter.
Context `{Gsl} `{EmitterEnv W}.
Implicit Types (e : emitter) (w : W).

(** emitFilterResult, and emitError for a non-nil error. *)
Definition emitFilterResult e (result : option PollerResult) : outcome (list event) :=
  match result with
  | Some r => Ret (if hasResultChan e then [EvResult r] else [])
  | None => Panic "nil PollerResult got sent to emitFilterREsult"
  end.

Definition emitError (err : option error) : list event :=
  match err with Some e => [EvError e] | None => [] end.

(** The method computeFromBlockToBlock from the comparison of the two numbers on. *)
Definition after_numbers e w (prevStatus : emitterStatus) (lastRecordedBlock currentBlock : Z) :
    outcome (W * (emitterStatus * (option emitterStatus * option error))) :=
  if (lastRecordedBlock =? currentBlock)%Z && negb (st_GoBackFirstStart prevStatus) then
    Ret (w, (prevStatus, (None,
      wrap_sentinel errNoNewBlock ("block " +:+ pretty currentBlock))))
  else
    let prevStatus := set_recent currentBlock lastRecordedBlock prevStatus in
    let '(prevStatus, (fromBlock, toBlock, err)) :=
      computeFromBlockToBlock prevStatus currentBlock lastRecordedBlock
        (FilterRange (conf e)) (MaxGoBackRetries (conf e)) (StartBlock (conf e))
        (env_DoReorg w) in
    match err with
    | Some _ => Ret (w, (prevStatus, (None,
        errors_Wrap err "failed to compute fromBlockToBlock")))
    | None =>
        let fromBlock := clamp_start (StartBlock (conf e)) fromBlock in
        Ret (w, (prevStatus, (Some (mkStatus fromBlock toBlock currentBlock
          lastRecordedBlock false (st_IsReorging prevStatus)
          (st_RetriesCount prevStatus)), None)))
    end.

(** The method computeFromBlockToBlock, which writes to prevStatus.  It returns
    prevStatus itself ([None]) or a new status. *)
Definition emitter_computeFromBlockToBlock e w (prevStatus : emitterStatus) :
    outcome (W * (emitterStatus * (option emitterStatus * option error))) :=
  '(w, (lastRecordedBlock, err)) ← env_GetLastRecordedBlock w;
  let found : option error + emitterStatus * Z :=
    match err with
    | Some _ =>
        if errors_Is err ErrRecordNotFound
        then inr (set_GoBackFirstStart false prevStatus, StartBlock (conf e))
        else inl (errors_Wrap err "failed to get last recorded block from Redis")
    | None => inr (prevStatus, lastRecordedBlock)
    end in
  match found with
  | inl err => Ret (w, (prevStatus, (None, err)))
  | inr (prevStatus, lastRecordedBlock) =>
      '(w, (currentBlock, err)) ← env_BlockNumber w;
      match err with
      | Some _ => Ret (w, (prevStatus, (None,
          errors_Wrap err "failed to get current block number from node")))
      | None =>
          after_numbers e w prevStatus lastRecordedBlock currentBlock
      end
  end.

(** updateStatus: [newStatus] is [None] when it is the status variable's own pointer. *)
Definition updateStatus (s : statusVar) (newStatus : option emitterStatus)
    (isReorging : bool) : statusVar :=
  let v := default (sv_get s) newStatus in
  let v := mkStatus (st_FromBlock v) (st_ToBlock v) (st_CurrentBlock v)
    (st_LastRecordedBlock v) (st_GoBackFirstStart v) isReorging
    (if isReorging then st_RetriesCount v +₆₄ 1 else 0%Z) in
  match newStatus with
  | Some _ => mkVar (sv_outer s) (Some v)
  | None => sv_set s v
  end.

(** One turn of loopEmit's loop, when its context is not done: the events and either
    the status variable for the next turn or the error that loopEmit returns. *)
Definition loop_turn e (s : statusVar) w :
    outcome (W * (list event * (statusVar + statusVar * error))) :=
  let slept := if st_GoBackFirstStart (sv_get s) then [] else [EvSleep] in
  '(w, (prevStatus, (newStatus, err))) ← emitter_computeFromBlockToBlock e w (sv_get s);
  let s := sv_set s prevStatus in
  let err := if st_GoBackFirstStart prevStatus && errors_Is err errNoNewBlock
             then None else err in
  match err with
  | Some err' =>
      if errors_Is err errNoNewBlock then Ret (w, (slept, inl s))
      else Ret (w, (slept, inr (s,
        EWrap err' "emitter failed to compute fromBlock and toBlock")))
  | None =>
      let v := default prevStatus newStatus in
      '(w, (result, err)) ← env_Poll w (st_FromBlock v) (st_ToBlock v);
      let polled := slept ++ [EvPoll (st_FromBlock v) (st_ToBlock v)] in
      match err with
      | Some err' =>
          if errors_Is err ErrChainIsReorging then
            let s := if env_DoReorg w then updateStatus s newStatus true else s in
            sent ← emitFilterResult e result;
            Ret (w, (polled ++ sent ++ [EvSync], inl s))
          else Ret (w, (polled, inr (s, EWrap err' "unexpected poller error")))
      | None =>
          match result with
          | None => Panic "nil pointer dereference: result.GoodBlocks"
          | Some _ =>
              sent ← emitFilterResult e result;
              Ret (w, (polled ++ sent ++ [EvSync], inl (updateStatus s newStatus false)))
          end
      end
  end.

(** ** The machine of Loop *)

(** At Loop's select, inside loopEmit, or after Loop has returned. *)
Inductive emitterState : Type :=
  | AtLoop (outer : emitterStatus)
  | InLoopEmit (s : statusVar)
  | Stopped (err : error).

(** The Loop of a new emitter. *)
Definition loop_start : emitterState := AtLoop new_emitterStatus.

(** loopEmit's first assignment writes through the pointer that Loop gave it. *)
Definition enter_loopEmit (outer : emitterStatus) : statusVar :=
  mkVar (set_GoBackFirstStart true outer) None.

(** [ctxErr] is ctx.Err() once the context is done, at any time from outside. *)
Inductive emitter_step e (ctxErr : error) :
    emitterState → W → list event → emitterState → W → Prop :=
  | step_shutdown outer w :
      emitter_step e ctxErr (AtLoop outer) w [EvShutdown]
        (Stopped (EWrap ctxErr (sentinel_text ErrEmitterShutdown))) w
  | step_enter outer w :
      emitter_step e ctxErr (AtLoop outer) w [] (InLoopEmit (enter_loopEmit outer)) w
  | step_cancelled s w :
      emitter_step e ctxErr (InLoopEmit s) w
        ((if st_GoBackFirstStart (sv_get s) then [] else [EvSleep]) ++
         emitError (Some (EWrap (EWrap ctxErr "exiting loopEmit") "error in loopEmit")))
        (AtLoop (sv_outer s)) w
  | step_turn s w w' evs s' :
      loop_turn e s w = Ret (w', (evs, inl s')) →
      emitter_step e ctxErr (InLoopEmit s) w evs (InLoopEmit s') w'
  | step_return s w w' evs s' err :
      loop_turn e s w = Ret (w', (evs, inr (s', err))) →
      emitter_step e ctxErr (InLoopEmit s) w
        (evs ++ emitError (Some (EWrap err "error in loopEmit"))) (AtLoop (sv_outer s')) w'.

(** Steps of the emitter, between which the rest of the program changes the world. *)
Inductive emitter_reach e (ctxErr : error) : emitterState → list event → emitterState → Prop :=
  | reach_refl st : emitter_reach e ctxErr st [] st
  | reach_step st evs st1 w evs1 st2 w' :
      emitter_reach e ctxErr st evs st1 → emitter_step e ctxErr st1 w evs1 st2 w' →
      emitter_reach e ctxErr st (evs ++ evs1) st2.
End emitter.
