(* ===== verification/EmitterProps.v ===== *)
(** The properties of the emitter's loop: which range each turn polls, what it sends
    and how its status evolves. *)

From S2P Require Import Prelude GoErrors Types Externals EmitterBlocks Emitter.

(** * Definitions *)

(** What a turn is going to do: wait for new blocks, give up going back, or poll. *)
Inductive plan : Set :=
  | PlanWait
  | PlanGiveUp
  | PlanPoll (from to : Z).

(** The plan of a turn with status [v] when the last recorded block is [last] and the
    head is [current]. *)
Definition next_plan (c : Config) (v : emitterStatus) (last current : Z) : plan :=
  if st_GoBackFirstStart v then
    PlanPoll (Z.max (StartBlock c) (last + 1)) (last + FilterRange c)
  else if (last =? current)%Z then PlanWait
  else if st_IsReorging v then
    if (MaxGoBackRetries c <? st_RetriesCount v)%Z then PlanGiveUp
    else PlanPoll (Z.max (StartBlock c) (st_FromBlock v - FilterRange c))
           (Z.min (st_ToBlock v) current)
  else
    PlanPoll (Z.max (StartBlock c) (Z.min current (last + 1) - FilterRange c))
      (Z.min current (last + FilterRange c)).

(** Configurations and block numbers far from the top of uint64. *)
Definition config_ok (c : Config) : Prop :=
  (0 ≤ StartBlock c < two64)%Z ∧ (1 ≤ FilterRange c < two63 - 1)%Z ∧ (0 ≤ MaxGoBackRetries c < two63)%Z.
Definition block_ok (n : Z) : Prop := (0 ≤ n < two63 - 1)%Z.

(** A status between turns: no retries unless the chain is reorging, and never more than
    one above the configured maximum. *)
Definition status_ok (c : Config) (v : emitterStatus) : Prop :=
  (st_GoBackFirstStart v = true → st_IsReorging v = false) ∧
  (st_IsReorging v = false → st_RetriesCount v = 0%Z) ∧
  (st_IsReorging v = true → (1 ≤ st_RetriesCount v ≤ MaxGoBackRetries c + 1)%Z) ∧
  (0 ≤ st_FromBlock v < two64)%Z.

(** The status of Loop itself never counts a retry. *)
Definition outer_ok (v : emitterStatus) : Prop :=
  st_IsReorging v = false ∧ st_RetriesCount v = 0%Z ∧ (0 ≤ st_FromBlock v < two64)%Z.

Definition var_ok (c : Config) (s : statusVar) : Prop :=
  outer_ok (sv_outer s) ∧ status_ok c (sv_get s).

Definition state_ok (c : Config) (st : emitterState) : Prop :=
  match st with
  | AtLoop outer => outer_ok outer
  | InLoopEmit s => var_ok c s
  | Stopped _ => True
  end.

(** The errors of the gateway and of the client are not the emitter's own, unexported
    errNoNewBlock. *)
Definition foreign_errors (W : Type) `{EmitterEnv W} : Prop :=
  (∀ w w' n err, env_GetLastRecordedBlock w = Ret (w', (n, Some err)) →
     error_is err errNoNewBlock = false) ∧
  (∀ w w' n err, env_BlockNumber w = Ret (w', (n, Some err)) →
     error_is err errNoNewBlock = false).

(** The gateway's answer as the emitter uses it: the recorded block, or the start block
    on a host that has no record. *)
Definition recorded (c : Config) (last : Z) (err : option error) : option Z :=
  match err with
  | None => Some last
  | Some _ => if errors_Is err ErrRecordNotFound then Some (StartBlock c) else None
  end.

(** The status that a turn starts from: a host without a record does not go back. *)
Definition turn_status (s : statusVar) (err : option error) : emitterStatus :=
  match err with
  | None => sv_get s
  | Some _ => set_GoBackFirstStart false (sv_get s)
  end.

Definition slept (s : statusVar) : list event :=
  if st_GoBackFirstStart (sv_get s) then [] else [EvSleep].

(** What emitFilterResult sends of a result. *)
Definition sent (e : emitter) (r : PollerResult) : list event :=
  if hasResultChan e then [EvResult r] else [].

(** * Lemmas *)

#[local] Arguments clamp_start : simpl never.
#[local] Arguments fromBlockToBlockNormal : simpl never.
#[local] Arguments fromBlockToBlockIsReorging : simpl never.
#[local] Arguments fromBlockToBlockGoBackFirstRun : simpl never.

Section compute.
Context `{Gsl}.
Local Open Scope Z_scope.

Lemma clamp_start_max start n : clamp_start start n = Z.max start n.
Proof. unfold clamp_start. destruct (Z.ltb_spec n start); lia. Qed.

(** The block range of a status is its plan. *)
Lemma computeFromBlockToBlock_plan c v last current doReorg :
  config_ok c → status_ok c v → block_ok current → block_ok last →
  (st_GoBackFirstStart v = true → last + FilterRange c < two64) →
  (st_GoBackFirstStart v = false → last ≠ current) →
  let '(v', (from, to, err)) := computeFromBlockToBlock v current last
    (FilterRange c) (MaxGoBackRetries c) (StartBlock c) doReorg in
  st_GoBackFirstStart v' = false ∧ st_IsReorging v' = st_IsReorging v ∧
  st_RetriesCount v' = st_RetriesCount v ∧
  match next_plan c v last current with
  | PlanWait => False
  | PlanGiveUp => ∃ msg, err = wrap_sentinel ErrMaxRetriesReached msg
  | PlanPoll from' to' => err = None ∧ clamp_start (StartBlock c) from = from' ∧ to = to'
  end.
Proof.
  unfold config_ok, status_ok, block_ok. intros Hc (Hfr & Hnr & Hre & Hfb) Hcur Hlast Hov Hnew.
  unfold computeFromBlockToBlock, next_plan.
  destruct (st_GoBackFirstStart v) eqn:Eg.
  - rewrite first_run_window; simpl; [|by rewrite Hnr; auto|lia..].
    split_and!; try done. apply clamp_start_max.
  - destruct (Z.eqb_spec last current); [by destruct Hnew|].
    destruct (st_IsReorging v) eqn:Er.
    + destruct (Z.ltb_spec (MaxGoBackRetries c) (st_RetriesCount v)).
      * destruct (reorging_error (StartBlock c) current last (FilterRange c)
          (MaxGoBackRetries c) v) as [msg ->]; [lia|]. simpl. split_and!; eauto.
      * destruct (reorging_window (StartBlock c) current last (FilterRange c)
          (MaxGoBackRetries c) v) as (from & -> & Hfrom); [lia..|].
        simpl. by split_and!.
    + rewrite normal_window by lia. simpl. split_and!; try done. rewrite clamp_start_max.
      destruct (Z.ltb_spec (Z.min current (last + 1)) (FilterRange c)); lia.
Qed.
End compute.

Section turn.
Context `{Gsl} `{EmitterEnv W}.
Implicit Types (e : emitter) (s : statusVar) (w : W).

(** The answers that a turn starts with, in the order it asks for them. *)
Definition answers e s w w2 (v : emitterStatus) (last current : Z) : Prop :=
  ∃ w1 rec err, env_GetLastRecordedBlock w = Ret (w1, (rec, err)) ∧
    recorded (conf e) rec err = Some last ∧ v = turn_status s err ∧
    env_BlockNumber w1 = Ret (w2, (current, None)).

(** Numbers for which nothing wraps around. *)
Definition numbers_ok e (last current : Z) : Prop :=
  config_ok (conf e) ∧ block_ok current ∧ block_ok last ∧
  (last + FilterRange (conf e) < two64)%Z.

Lemma turn_status_ok c s err : var_ok c s → status_ok c (turn_status s err).
Proof. intros [_ ?]. destruct err; [|done]. unfold status_ok in *. simpl. naive_solver. Qed.

Lemma compute_plan e s w w2 v last current :
  var_ok (conf e) s → answers e s w w2 v last current → numbers_ok e last current →
  ∃ v' r, emitter_computeFromBlockToBlock e w (sv_get s) = Ret (w2, (v', r)) ∧
    st_IsReorging v' = st_IsReorging v ∧ st_RetriesCount v' = st_RetriesCount v ∧
    st_GoBackFirstStart v' = false ∧
    match next_plan (conf e) v last current with
    | PlanWait => v' = v ∧ r.1 = None ∧ ∃ msg, r.2 = wrap_sentinel errNoNewBlock msg
    | PlanGiveUp => r.1 = None ∧ ∃ err, r.2 = Some err ∧
        error_is err ErrMaxRetriesReached = true ∧ error_is err errNoNewBlock = false
    | PlanPoll from to => r = (Some (mkStatus from to current last false
        (st_IsReorging v) (st_RetriesCount v)), None)
    end.
Proof.
  intros Hs (w1 & rec & err & Hget & Hrec & -> & Hbn) (Hc & Hcur & Hlast & Hov).
  pose proof (turn_status_ok _ _ err Hs) as Hv.
  unfold emitter_computeFromBlockToBlock. rewrite Hget. simpl.
  assert ((match err with
    | Some _ => if errors_Is err ErrRecordNotFound
        then inr (set_GoBackFirstStart false (sv_get s), StartBlock (conf e))
        else inl (errors_Wrap err "failed to get last recorded block from Redis")
    | None => inr (sv_get s, rec) end : option error + emitterStatus * Z)
    = inr (turn_status s err, last)) as ->.
  { destruct err as [e0|]; simpl in *; [|by simplify_eq].
    destruct (error_is e0 ErrRecordNotFound); by simplify_eq. }
  rewrite Hbn. simpl. set (v := turn_status s err) in *. unfold after_numbers.
  destruct ((last =? current)%Z && negb (st_GoBackFirstStart v)) eqn:Eb.
  { apply andb_true_iff in Eb as [El Eg%negb_true_iff]. unfold next_plan. rewrite Eg, El.
    eexists v, (None, _). by eauto 10. }
  assert (st_GoBackFirstStart v = false → last ≠ current) as Hne.
  { intros Eg ->. rewrite Eg, Z.eqb_refl in Eb. done. }
  pose proof (computeFromBlockToBlock_plan (conf e) (set_recent current last v) last
    current (env_DoReorg w2) Hc Hv Hcur Hlast ltac:(auto) Hne) as Hp.
  destruct (computeFromBlockToBlock _ _ _ _ _ _ _) as [v' [[from to] cerr]].
  destruct Hp as (Hg & Hr & Hn & Hp). simpl in *.
  change (next_plan (conf e) (set_recent current last v) last current)
    with (next_plan (conf e) v last current) in Hp.
  destruct (next_plan (conf e) v last current) as [| |from' to'].
  - done.
  - destruct Hp as [msg ->]. eexists v', (None, _). split_and!; try done. by eexists.
  - destruct Hp as (-> & <- & ->). rewrite Hr, Hn. by eexists v', _.
Qed.

(** ** What a turn keeps, whatever the answers *)

Lemma compute_range_u64 c v last current doReorg :
  config_ok c → (0 ≤ st_FromBlock v < two64)%Z →
  let '(v', (from, to, err)) := computeFromBlockToBlock v current last
    (FilterRange c) (MaxGoBackRetries c) (StartBlock c) doReorg in
  (0 ≤ st_FromBlock v' < two64)%Z ∧ (0 ≤ from < two64)%Z ∧
  st_IsReorging v' = st_IsReorging v ∧ st_RetriesCount v' = st_RetriesCount v ∧
  st_GoBackFirstStart v' = false ∧
  (err = None → st_GoBackFirstStart v = false → st_IsReorging v = true →
     (st_RetriesCount v ≤ MaxGoBackRetries c)%Z) ∧
  errors_Is err errNoNewBlock = false.
Proof.
  intros Hc Hv. unfold config_ok in Hc. unfold computeFromBlockToBlock.
  assert (∀ a b, 0 ≤ a -₆₄ b < two64)%Z as Hsub by (intros; apply wrap64_u64).
  unfold fromBlockToBlockGoBackFirstRun, fromBlockToBlockIsReorging, fromBlockToBlockNormal.
  destruct (st_GoBackFirstStart v) eqn:Eg; simpl.
  - destruct (_ <? _)%Z; naive_solver lia.
  - destruct (st_IsReorging v) eqn:Er.
    + destruct (Z.ltb_spec (MaxGoBackRetries c) (st_RetriesCount v)); simpl; [naive_solver|].
      destruct (_ <? _)%Z; naive_solver lia.
    + destruct (_ <? _)%Z; naive_solver lia.
Qed.

Lemma compute_keeps e w w' v v' ns err :
  foreign_errors W → config_ok (conf e) → (0 ≤ st_FromBlock v < two64)%Z →
  (st_IsReorging v = true → st_GoBackFirstStart v = false) →
  emitter_computeFromBlockToBlock e w v = Ret (w', (v', (ns, err))) →
  (0 ≤ st_FromBlock v' < two64)%Z ∧
  st_IsReorging v' = st_IsReorging v ∧ st_RetriesCount v' = st_RetriesCount v ∧
  (st_GoBackFirstStart v' = true → st_GoBackFirstStart v = true ∧
     err ≠ None ∧ errors_Is err errNoNewBlock = false) ∧
  (err = None → ∃ n, ns = Some n ∧ (StartBlock (conf e) ≤ st_FromBlock n < two64)%Z ∧
     st_GoBackFirstStart n = false ∧ st_IsReorging n = st_IsReorging v ∧
     st_RetriesCount n = st_RetriesCount v ∧
     (st_IsReorging v = true → (st_RetriesCount v ≤ MaxGoBackRetries (conf e))%Z)).
Proof.
  intros [Hf1 Hf2] Hc Hv Hre Hp. unfold emitter_computeFromBlockToBlock in Hp.
  apply bind_Ret_inv in Hp as ([w1 [rec gerr]] & Hget & Hp).
  assert ((∃ err', gerr = Some err' ∧ w' = w1 ∧ v' = v ∧ ns = None ∧
      err = errors_Wrap gerr "failed to get last recorded block from Redis") ∨
    ∃ v0 last, (v0 = v ∨ v0 = set_GoBackFirstStart false v) ∧
      ('(w, (currentBlock, err)) ← env_BlockNumber w1;
       match err with
       | Some _ => Ret (w, (v0, (None,
           errors_Wrap err "failed to get current block number from node")))
       | None => after_numbers e w v0 last currentBlock
       end) = Ret (w', (v', (ns, err)))) as [(err' & -> & -> & -> & -> & ->)|(v0 & last & Hv0 & Hp')].
  { destruct gerr as [err'|]; [|right; exists v, rec; auto].
    destruct (errors_Is (Some err') ErrRecordNotFound); [right; eauto|left].
    simplify_eq/=. by eexists. }
  { apply Hf1 in Hget. naive_solver. }
  clear Hp. assert (0 ≤ st_FromBlock v0 < two64)%Z as Hfv0 by by destruct Hv0 as [-> | ->].
  assert (st_IsReorging v0 = st_IsReorging v ∧ st_RetriesCount v0 = st_RetriesCount v ∧
    (st_GoBackFirstStart v0 = true → st_GoBackFirstStart v = true)) as (Hr0 & Hn0 & Hg0)
    by (destruct Hv0 as [-> | ->]; naive_solver).
  apply bind_Ret_inv in Hp' as ([w2 [current [cerr|]]] & Hbn & Hp).
  { apply Hf2 in Hbn. simplify_eq/=. naive_solver. }
  unfold after_numbers in Hp.
  destruct (_ && negb (st_GoBackFirstStart v0)) eqn:Eb.
  { apply andb_true_iff in Eb as [_ Eg%negb_true_iff]. simplify_eq/=. naive_solver congruence. }
  pose proof (compute_range_u64 (conf e) (set_recent current last v0) last current
    (env_DoReorg w2) Hc Hfv0) as Hcr.
  destruct (computeFromBlockToBlock _ _ _ _ _ _ _) as [v1 [[from to] cerr]].
  destruct Hcr as (Hfv1 & Hfrom & Hr1 & Hn1 & Hg1 & Hmax & Hnn). simpl in *.
  destruct cerr as [cerr|]; simplify_eq/=; [naive_solver congruence|].
  split; [done|]. split; [congruence|]. split; [congruence|]. split; [congruence|].
  intros _. eexists. split; [done|]. simpl. rewrite clamp_start_max.
  unfold config_ok in Hc. split; [lia|]. split; [done|]. split; [congruence|].
  split; [congruence|]. intros Hx. rewrite <-Hn0. apply Hmax; [done| |congruence].
  destruct (st_GoBackFirstStart v0); [|done]. rewrite Hre in Hg0 by done. by destruct Hg0.
Qed.

Lemma sv_get_set s v : sv_get (sv_set s v) = v.
Proof. by destruct s as [o [l|]]. Qed.

Lemma sv_set_ok c s v :
  var_ok c s → status_ok c v →
  st_IsReorging v = st_IsReorging (sv_get s) → st_RetriesCount v = st_RetriesCount (sv_get s) →
  var_ok c (sv_set s v).
Proof.
  intros [(Ho1 & Ho2 & Ho3) Hs] Hv Hr Hn. split; [|by rewrite sv_get_set].
  unfold sv_get in *. destruct s as [o [l|]]; simpl in *; [done|].
  split_and!; [congruence..|apply Hv|apply Hv].
Qed.

(** A turn whose poll succeeds polls exactly the planned range, sends the result and
    then waits for the engine, and its next status has that range and no retries. *)
Lemma turn_good e s w w2 w3 v last current from to res :
  var_ok (conf e) s → answers e s w w2 v last current → numbers_ok e last current →
  next_plan (conf e) v last current = PlanPoll from to →
  env_Poll w2 from to = Ret (w3, (Some res, None)) →
  ∃ s', loop_turn e s w =
      Ret (w3, (slept s ++ [EvPoll from to] ++ sent e res ++ [EvSync], inl s')) ∧
    sv_get s' = mkStatus from to current last false false 0.
Proof.
  intros Hs Ha Hn Hplan Hpoll. destruct (compute_plan _ _ _ _ _ _ _ Hs Ha Hn)
    as (v' & [ns err] & Hc & _ & _ & Hg & Hp). rewrite Hplan in Hp. simplify_eq/=.
  unfold loop_turn. rewrite Hc. simpl. rewrite Hg. simpl. rewrite Hpoll. simpl.
  rewrite <-app_assoc. by eexists.
Qed.

(** A turn that learns that the chain is reorging still sends the result and waits for
    the engine; with reorg detection on, the next status keeps the range, is reorging and
    counts one more retry. *)
Lemma turn_reorg e s w w2 w3 v last current from to res err :
  var_ok (conf e) s → answers e s w w2 v last current → numbers_ok e last current →
  next_plan (conf e) v last current = PlanPoll from to →
  env_Poll w2 from to = Ret (w3, (Some res, Some err)) →
  error_is err ErrChainIsReorging = true → env_DoReorg w3 = true →
  ∃ s', loop_turn e s w =
      Ret (w3, (slept s ++ [EvPoll from to] ++ sent e res ++ [EvSync], inl s')) ∧
    sv_get s' = mkStatus from to current last false true (st_RetriesCount v + 1).
Proof.
  intros Hs Ha Hn Hplan Hpoll He Hd. destruct (compute_plan _ _ _ _ _ _ _ Hs Ha Hn)
    as (v' & [ns err'] & Hc & _ & _ & Hg & Hp). rewrite Hplan in Hp. simplify_eq/=.
  assert (status_ok (conf e) v) as (_ & Hnr & Hre & _).
  { destruct Ha as (? & ? & gerr & _ & _ & -> & _). by apply turn_status_ok. }
  destruct Hn as [(_ & _ & Hmax) _].
  unfold loop_turn. rewrite Hc. simpl. rewrite Hg. simpl. rewrite Hpoll. simpl.
  rewrite He, Hd, <-app_assoc. simpl. eexists. split; [done|]. unfold updateStatus. simpl.
  rewrite u64_add_small; [done|]. unfold is_u64.
  destruct (st_IsReorging v); [specialize (Hre eq_refl)|rewrite (Hnr eq_refl)]; lia.
Qed.

Lemma turn_nil_result e s w w2 w3 v last current from to err :
  var_ok (conf e) s → answers e s w w2 v last current → numbers_ok e last current →
  next_plan (conf e) v last current = PlanPoll from to →
  env_Poll w2 from to = Ret (w3, (None, Some err)) →
  error_is err ErrChainIsReorging = true →
  loop_turn e s w = Panic "nil PollerResult got sent to emitFilterREsult".
Proof.
  intros Hs Ha Hn Hplan Hpoll He. destruct (compute_plan _ _ _ _ _ _ _ Hs Ha Hn)
    as (v' & [ns err'] & Hc & _ & _ & Hg & Hp). rewrite Hplan in Hp. simplify_eq/=.
  unfold loop_turn. rewrite Hc. simpl. rewrite Hg. simpl. rewrite Hpoll. simpl. by rewrite He.
Qed.

(** * Properties *)

(** A turn whose plan is not to poll: with no block after the last recorded one it
    sends nothing and keeps its status; with the retries used up it ends loopEmit with
    ErrMaxRetriesReached, without polling. *)
Lemma turn_without_poll e s w w2 v last current :
  var_ok (conf e) s → answers e s w w2 v last current → numbers_ok e last current →
  match next_plan (conf e) v last current with
  | PlanWait => ∃ s', loop_turn e s w = Ret (w2, (slept s, inl s')) ∧ sv_get s' = v
  | PlanGiveUp => ∃ s' err, loop_turn e s w = Ret (w2, (slept s, inr (s', err))) ∧
      error_is err ErrMaxRetriesReached = true
  | PlanPoll _ _ => True
  end.
Proof.
  intros Hs Ha Hn. destruct (compute_plan _ _ _ _ _ _ _ Hs Ha Hn)
    as (v' & [ns err] & Hc & _ & _ & Hg & Hp). unfold loop_turn. rewrite Hc. simpl. rewrite Hg.
  destruct (next_plan (conf e) v last current); [| |done]; simpl in Hp.
  - destruct Hp as (-> & -> & msg & ->). simpl. eexists. split; [done|]. apply sv_get_set.
  - destruct Hp as (-> & err' & -> & He & Hne). simpl. rewrite Hne. by eexists _, _.
Qed.

(** Any other error of the poller ends loopEmit with that error, and nothing of the
    result is sent. *)
Lemma turn_poll_fails e s w w2 w3 v last current from to r err :
  var_ok (conf e) s → answers e s w w2 v last current → numbers_ok e last current →
  next_plan (conf e) v last current = PlanPoll from to →
  env_Poll w2 from to = Ret (w3, (r, Some err)) →
  error_is err ErrChainIsReorging = false →
  ∃ s' err', loop_turn e s w = Ret (w3, (slept s ++ [EvPoll from to], inr (s', err'))) ∧
    ∀ x, error_is err' x = error_is err x.
Proof.
  intros Hs Ha Hn Hplan Hpoll He. destruct (compute_plan _ _ _ _ _ _ _ Hs Ha Hn)
    as (v' & [ns err'] & Hc & _ & _ & Hg & Hp). rewrite Hplan in Hp. simplify_eq/=.
  unfold loop_turn. rewrite Hc. simpl. rewrite Hg. simpl. rewrite Hpoll. simpl. rewrite He.
  by eexists _, _.
Qed.

(** updateStatus keeps the invariant, when the new status has retries to spare. *)
Lemma updateStatus_ok c s n b :
  config_ok c → var_ok c s → (0 ≤ st_FromBlock n < two64)%Z → st_GoBackFirstStart n = false →
  (0 ≤ st_RetriesCount n ≤ MaxGoBackRetries c)%Z →
  var_ok c (updateStatus s (Some n) b).
Proof.
  intros (_ & _ & Hmax) [Ho Hs] Hf Hg Hr. split; [done|]. unfold updateStatus, status_ok. simpl.
  split; [congruence|]. destruct b; [|naive_solver].
  rewrite u64_add_small by (unfold is_u64; lia). split; [done|]. split; [lia|done].
Qed.

Lemma emitFilterResult_events e r evs :
  emitFilterResult e r = Ret evs → ∃ res, r = Some res ∧ evs = sent e res.
Proof. destruct r as [res|]; simpl; [|done]. intros [= <-]. by exists res. Qed.

Lemma slept_no_poll s from to : EvPoll from to ∉ slept s.
Proof.
  unfold slept. destruct (st_GoBackFirstStart (sv_get s)); [apply not_elem_of_nil|].
  by intros Hin%list_elem_of_singleton.
Qed.

Lemma sent_no_poll e res from to : EvPoll from to ∉ sent e res ++ [EvSync].
Proof.
  rewrite elem_of_snoc. unfold sent. intros [Hin|?]; [|done].
  case_match; [by apply list_elem_of_singleton in Hin|by apply not_elem_of_nil in Hin].
Qed.

Lemma polled_from s a b evs from to :
  EvPoll from to ∉ evs → EvPoll from to ∈ (slept s ++ [EvPoll a b]) ++ evs → from = a.
Proof.
  intros Hno [Hin|Hin]%elem_of_app; [|done].
  apply elem_of_snoc in Hin as [Hin|[= -> _]]; [by apply slept_no_poll in Hin|done].
Qed.

(** A turn keeps the invariant of the status variable and does not poll below the start
    block. *)
Lemma loop_turn_ok e s w w' evs r :
  foreign_errors W → config_ok (conf e) → var_ok (conf e) s →
  loop_turn e s w = Ret (w', (evs, r)) →
  match r with
  | inl s' => var_ok (conf e) s'
  | inr (s', _) => outer_ok (sv_outer s')
  end ∧
  ∀ from to, EvPoll from to ∈ evs → (StartBlock (conf e) ≤ from)%Z.
Proof.
  intros Hfe Hc Hs Hp. unfold loop_turn in Hp.
  pose proof Hs as [Ho (Hfs & Hnr & Hre & Hfb)].
  apply bind_Ret_inv in Hp as ([w1 [v' [ns err]]] & Hcomp & Hp).
  apply compute_keeps in Hcomp as (Hfb' & Hr' & Hn' & Hg' & Hok); [|done..|].
  2:{ intros Hr. destruct (st_GoBackFirstStart (sv_get s)); [|done].
      by rewrite (Hfs eq_refl) in Hr. }
  assert (var_ok (conf e) (sv_set s v')) as Hs'.
  { apply sv_set_ok; [done| |done|done]. unfold status_ok. rewrite Hr', Hn'. naive_solver. }
  fold (slept s) in Hp.
  assert (st_GoBackFirstStart v' && errors_Is err errNoNewBlock = false) as Hfirst.
  { destruct (st_GoBackFirstStart v') eqn:Eg; [|done].
    destruct Hg' as (_ & _ & ->); [done|]. done. }
  rewrite Hfirst in Hp. destruct err as [err|].
  { case_match; simplify_eq; (split; [done || apply Hs'|]); intros ? ? Hx; by apply slept_no_poll in Hx. }
  destruct (Hok eq_refl) as (n & -> & Hfn & Hgn & Hrn & Hnn & Hmax). simpl in Hp.
  assert (0 ≤ st_RetriesCount n ≤ MaxGoBackRetries (conf e))%Z as Hret.
  { rewrite Hnn. unfold config_ok in Hc. destruct (st_IsReorging (sv_get s)).
    - specialize (Hre eq_refl). specialize (Hmax eq_refl). lia.
    - rewrite Hnr by done. lia. }
  apply bind_Ret_inv in Hp as ([w2 [result [perr|]]] & Hpoll & Hp).
  - case_match.
    + apply bind_Ret_inv in Hp as (sent' & (res & -> & ->)%emitFilterResult_events & Hp).
      simplify_eq. split; [|intros from to ->%polled_from; [lia|apply sent_no_poll]].
      destruct (env_DoReorg w'); [|done]. apply updateStatus_ok; try done. unfold config_ok in Hc; lia.
    + simplify_eq. split; [apply Hs'|]. rewrite <-(app_nil_r (slept s ++ _)).
      intros from to ->%polled_from; [lia|apply not_elem_of_nil].
  - destruct result as [res|]; [|done]. simpl in Hp. simplify_eq.
    split; [|intros from to ->%polled_from; [lia|apply sent_no_poll]].
    apply updateStatus_ok; try done. unfold config_ok in Hc; lia.
Qed.

Lemma emitter_step_ok e ctxErr st w evs st' w' :
  foreign_errors W → config_ok (conf e) →
  emitter_step e ctxErr st w evs st' w' → state_ok (conf e) st →
  state_ok (conf e) st' ∧ ∀ from to, EvPoll from to ∈ evs → (StartBlock (conf e) ≤ from)%Z.
Proof.
  intros Hfe Hc Hstep Hst.
  destruct Hstep as [| | |s w w' evs s' Ht|s w w' evs s' err Ht]; simpl in *.
  - split; [done|]. by intros ? ? ?%list_elem_of_singleton.
  - split; [|by intros ? ? ?%not_elem_of_nil]. destruct Hst as (? & ? & ?).
    unfold var_ok, outer_ok, sv_get, status_ok. simpl.
    split; [done|]. split; [done|]. split; [done|]. split; [congruence|done].
  - split; [by destruct Hst|]. intros from to Hin.
    destruct (st_GoBackFirstStart (sv_get s)); simpl in Hin; set_solver.
  - by apply (loop_turn_ok _ _ _ _ _ _ Hfe Hc Hst Ht).
  - destruct (loop_turn_ok _ _ _ _ _ _ Hfe Hc Hst Ht) as [? Hev]. split; [done|].
    intros from to [Hin|[=]]%elem_of_snoc. by eapply Hev.
Qed.

Lemma emitter_reach_ok e ctxErr st0 evs st :
  foreign_errors W → config_ok (conf e) → state_ok (conf e) st0 →
  emitter_reach e ctxErr st0 evs st →
  state_ok (conf e) st ∧ ∀ from to, EvPoll from to ∈ evs → (StartBlock (conf e) ≤ from)%Z.
Proof.
  intros Hfe Hc Hst0. induction 1 as [|st evs st1 w evs1 st2 w' Hr IH Hs].
  - split; [done|]. by intros ? ? ?%not_elem_of_nil.
  - destruct IH as [Hst Hev]; [done|].
    destruct (emitter_step_ok _ _ _ _ _ _ _ Hfe Hc Hs Hst) as [? Hev1].
    split; [done|]. intros from to [?|?]%elem_of_app; eauto.
Qed.

Lemma loop_start_ok c : state_ok c loop_start.
Proof. done. Qed.

(** C28: In every state that Loop can reach, whatever happens around it, retries are counted
    only while the chain is reorging, at most one more than MaxGoBackRetries, the status
    kept by Loop itself counts none, and no poll ever starts below the start block. *)
Theorem emitter_invariant e ctxErr evs st :
  foreign_errors W → config_ok (conf e) →
  emitter_reach e ctxErr loop_start evs st →
  state_ok (conf e) st ∧ ∀ from to, EvPoll from to ∈ evs → (StartBlock (conf e) ≤ from)%Z.
Proof.
  intros Hfe Hc. apply emitter_reach_ok; [done..|apply loop_start_ok].
Qed.

(** On a host with a record, the first poll after a start or a restart of loopEmit
    begins at the first new block, or the start block: it never goes back, whatever
    MaxGoBackRetries is, and its end may lie beyond the head of the chain. *)
Lemma first_start_never_goes_back e ctxErr evs s w w1 w2 w' last current evs1 r from to :
  foreign_errors W → numbers_ok e last current →
  emitter_reach e ctxErr loop_start evs (InLoopEmit s) →
  st_GoBackFirstStart (sv_get s) = true →
  env_GetLastRecordedBlock w = Ret (w1, (last, None)) →
  env_BlockNumber w1 = Ret (w2, (current, None)) →
  loop_turn e s w = Ret (w', (evs1, r)) → EvPoll from to ∈ evs1 →
  from = Z.max (StartBlock (conf e)) (last + 1) ∧ to = (last + FilterRange (conf e))%Z.
Proof.
  intros Hfe Hn Hr Hg Hget Hbn Hp Hin.
  destruct (emitter_reach_ok _ _ _ _ _ Hfe (proj1 Hn) (loop_start_ok _) Hr) as [Hs _].
  assert (answers e s w w2 (sv_get s) last current) as Ha
    by (exists w1, last, None; by split_and!).
  destruct (compute_plan _ _ _ _ _ _ _ Hs Ha Hn) as (v' & [ns err] & Hc & _ & _ & Hg' & Hplan).
  unfold next_plan in Hplan. rewrite Hg in Hplan. simplify_eq/=.
  unfold loop_turn in Hp. rewrite Hg, Hc in Hp. simpl in Hp. rewrite Hg' in Hp. simpl in Hp.
  apply bind_Ret_inv in Hp as ([w3 [res [perr|]]] & Hpoll & Hp).
  - case_match; [|simplify_eq; set_solver].
    apply bind_Ret_inv in Hp as (sent' & (res' & -> & ->)%emitFilterResult_events & Hp).
    simplify_eq. revert Hin. unfold sent. case_match; set_solver.
  - destruct res as [res|]; [|done]. simpl in Hp. simplify_eq.
    revert Hin. case_match; set_solver.
Qed.
End turn.
