(* ===== verification/EngineStates.v ===== *)
(** internal/engine/block_metadata_states.go: the state machine of a block in the
    engine. *)

From S2P Require Import Prelude.

(** * Definitions *)

(** The constants blockState and blockEvent. *)
Inductive blockState : Set :=
  | stateNull | stateSeen | stateHandled | stateReorged | stateHandledReorg | stateInvalid.
Inductive blockEvent : Set :=
  | eventInvalid | eventSeeBlock | eventHandle | eventSeeReorg | eventHandleReorg.

#[export] Instance blockState_eq_dec : EqDecision blockState.
Proof. solve_decision. Defined.
#[export] Instance blockEvent_eq_dec : EqDecision blockEvent.
Proof. solve_decision. Defined.

(** The table, in the order of the source. *)
Definition watcherEngineStateMachine : list ((blockState * blockEvent) * blockState) :=
  [((stateNull, eventSeeBlock), stateSeen);
   ((stateNull, eventSeeReorg), stateInvalid);
   ((stateNull, eventHandle), stateInvalid);
   ((stateNull, eventHandleReorg), stateInvalid);
   ((stateSeen, eventSeeBlock), stateInvalid);
   ((stateSeen, eventSeeReorg), stateInvalid);
   ((stateSeen, eventHandle), stateHandled);
   ((stateSeen, eventHandleReorg), stateInvalid);
   ((stateHandled, eventSeeBlock), stateHandled);
   ((stateHandled, eventSeeReorg), stateReorged);
   ((stateHandled, eventHandle), stateInvalid);
   ((stateHandled, eventHandleReorg), stateInvalid);
   ((stateReorged, eventSeeBlock), stateInvalid);
   ((stateReorged, eventSeeReorg), stateInvalid);
   ((stateReorged, eventHandle), stateInvalid);
   ((stateReorged, eventHandleReorg), stateHandledReorg);
   ((stateHandledReorg, eventSeeBlock), stateInvalid);
   ((stateHandledReorg, eventSeeReorg), stateInvalid);
   ((stateHandledReorg, eventHandle), stateInvalid);
   ((stateHandledReorg, eventHandleReorg), stateInvalid)].

(** The lookup in the Go map. *)
Definition machine_lookup (k : blockState * blockEvent) : option blockState :=
  snd <$> head (filter (λ row, row.1 = k) watcherEngineStateMachine).

Definition event_IsValid (event : blockEvent) : bool :=
  match event with
  | eventSeeBlock | eventHandle | eventSeeReorg | eventHandleReorg => true
  | eventInvalid => false
  end.

(** Fire, with the new state of its receiver. *)
Definition Fire (state : blockState) (event : blockEvent) : outcome blockState :=
  if negb (event_IsValid event) then Panic "invalid Engine event"
  else
    match machine_lookup (state, event) with
    | None => Ret stateInvalid
    | Some newState => Ret newState
    end.

Definition state_IsValid (state : blockState) : bool :=
  match state with stateInvalid => false | _ => true end.

Definition state_String (state : blockState) : string :=
  match state with
  | stateNull => "NULL"
  | stateSeen => "SEEN"
  | stateHandled => "HANDLED"
  | stateReorged => "REORGED"
  | stateHandledReorg => "HANDLED_REORG"
  | stateInvalid => "INVALID_BLOCK_STATE"
  end.

Definition event_String (event : blockEvent) : outcome string :=
  match event with
  | eventSeeBlock => Ret "See Block"
  | eventHandle => Ret "Handle Block"
  | eventSeeReorg => Ret "See Reorg"
  | eventHandleReorg => Ret "Handle Reorg"
  | eventInvalid => Panic "invalid Engine event"
  end.

(** The state reached by a sequence of events, and the states passed on the way. *)
Fixpoint fire_all (state : blockState) (events : list blockEvent) : outcome (list blockState) :=
  match events with
  | [] => Ret []
  | ev :: events => s ← Fire state ev; l ← fire_all s events; Ret (s :: l)
  end.

(** Fire as a function, for the valid events. *)
Definition next_state (state : blockState) (event : blockEvent) : blockState :=
  default stateInvalid (machine_lookup (state, event)).

(** * Lemmas *)

Lemma Fire_valid state event :
  event_IsValid event = true → Fire state event = Ret (next_state state event).
Proof. unfold Fire, next_state. intros ->. simpl. by destruct (machine_lookup _). Qed.

Lemma fire_all_app state evs1 evs2 :
  fire_all state (evs1 ++ evs2) =
    l1 ← fire_all state evs1;
    l2 ← fire_all (default state (last l1)) evs2; Ret (l1 ++ l2).
Proof.
  revert state. induction evs1 as [|ev evs1 IH]; intros state; simpl.
  - by destruct (fire_all state evs2).
  - destruct (Fire state ev) as [s| |]; simpl; [|done..]. rewrite IH.
    destruct (fire_all s evs1) as [l1| |]; simpl; [|done..].
    assert (default s (last l1) = default state (last (s :: l1))) as ->
      by (destruct l1; [done|]; by rewrite last_cons_cons; destruct (last _) eqn:E;
          [done|apply last_None in E]).
    by destruct (fire_all _ evs2).
Qed.

(** How far a block has come in its life; Fire never goes back. *)
Definition state_rank (s : blockState) : nat :=
  match s with
  | stateNull => 0 | stateSeen => 1 | stateHandled => 2
  | stateReorged => 3 | stateHandledReorg => 4 | stateInvalid => 5
  end.

Lemma next_state_rank s ev :
  event_IsValid ev = true →
  state_rank s < state_rank (next_state s ev) ∨ next_state s ev = s ∧ (s = stateHandled ∨ s = stateInvalid).
Proof. destruct s, ev; vm_compute; intros; try done; try (left; lia); right; auto. Qed.

(** Order of states in time: further, or the same one of the two that can repeat. *)
Definition later (s s' : blockState) : Prop :=
  state_rank s < state_rank s' ∨ s = s' ∧ (s = stateHandled ∨ s = stateInvalid).

Lemma later_trans s1 s2 s3 : later s1 s2 → later s2 s3 → later s1 s3.
Proof. unfold later. intros [?|[-> ?]] [?|[-> ?]]; auto. left. lia. Qed.

Lemma fire_all_later state events states :
  Forall (λ ev, event_IsValid ev = true) events →
  fire_all state events = Ret states → StronglySorted later (state :: states).
Proof.
  revert state states. induction events as [|ev events IH]; intros state states Hv Hf.
  - simplify_eq/=. by repeat constructor.
  - apply Forall_cons in Hv as [Hv1 Hv]. simpl in Hf. rewrite Fire_valid in Hf by done.
    simpl in Hf. apply bind_Ret_inv in Hf as (l & Hl & [= <-]).
    pose proof (IH _ _ Hv Hl) as Hs. constructor; [done|].
    assert (later state (next_state state ev)) as Hst.
    { destruct (next_state_rank state ev Hv1) as [?|[-> ?]]; [by left|by right]. }
    constructor; [done|]. apply StronglySorted_inv in Hs as [_ Hall].
    eapply Forall_impl; [done|]. intros s. by apply later_trans.
Qed.

Lemma fire_all_prev state events states i s :
  Forall (λ ev, event_IsValid ev = true) events →
  fire_all state events = Ret states → states !! i = Some s →
  ∃ s' ev, (state :: states) !! i = Some s' ∧ next_state s' ev = s ∧ event_IsValid ev = true.
Proof.
  revert state states i. induction events as [|ev events IH]; intros state states i Hv Hf Hi.
  - by simplify_eq/=.
  - apply Forall_cons in Hv as [Hv1 Hv]. simpl in Hf. rewrite Fire_valid in Hf by done.
    simpl in Hf. apply bind_Ret_inv in Hf as (l & Hl & [= <-]). destruct i as [|i]; simpl in *.
    + simplify_eq. by exists state, ev.
    + destruct (IH _ _ _ Hv Hl Hi) as (s' & ev' & ? & ? & ?). by exists s', ev'.
Qed.

Lemma StronglySorted_lookup {A} (R : A → A → Prop) l i j x y :
  StronglySorted R l → l !! i = Some x → l !! j = Some y → i < j → R x y.
Proof.
  intros Hs. revert i j. induction Hs as [|a l Hs IH Ha]; intros i j Hi Hj Hij; [done|].
  destruct i as [|i], j as [|j]; simpl in *; [lia| |lia|].
  - simplify_eq. rewrite Forall_forall in Ha. by eapply Ha, list_elem_of_lookup_2.
  - apply (IH i j); [done..|lia].
Qed.

(** The state before a state in the life of a block. *)
Definition predecessor (s : blockState) : blockState :=
  match s with
  | stateHandled => stateSeen
  | stateReorged => stateHandled
  | stateHandledReorg => stateReorged
  | _ => stateNull
  end.

Lemma next_state_predecessor s ev s' :
  event_IsValid ev = true → next_state s ev = s' →
  s' = stateHandled ∨ s' = stateReorged ∨ s' = stateHandledReorg →
  s = s' ∧ s' = stateHandled ∨ s = predecessor s'.
Proof. destruct s, ev; vm_compute; naive_solver. Qed.

(** * Properties *)

(** C32: The life of a block hash goes one way: whatever events are fired on a block that
    the engine has not seen, no state other than HANDLED (which a block keeps when it is
    seen again) and INVALID is entered twice, and it is HANDLED, REORGED and
    HANDLED_REORG only after it was SEEN, HANDLED and REORGED, in this order. *)
Theorem block_life_goes_one_way events states :
  Forall (λ ev, event_IsValid ev = true) events →
  fire_all stateNull events = Ret states →
  (∀ i j s, i < j → states !! i = Some s → states !! j = Some s →
     s = stateHandled ∨ s = stateInvalid) ∧
  (∀ i s, states !! i = Some s →
     s = stateHandled ∨ s = stateReorged ∨ s = stateHandledReorg →
     ∃ j, j < i ∧ states !! j = Some (predecessor s)).
Proof.
  intros Hv Hf. pose proof (fire_all_later _ _ _ Hv Hf) as Hs. split.
  - intros i j s Hij Hi Hj.
    destruct (StronglySorted_lookup _ _ (S i) (S j) _ _ Hs Hi Hj) as [?|[_ ?]]; [lia|lia|done].
  - intros i s Hi Hcase. induction i as [i IH] using lt_wf_ind.
    destruct (fire_all_prev _ _ _ _ _ Hv Hf Hi) as (s' & ev & Hs' & Hn & Hev).
    destruct i as [|i]; simpl in Hs'.
    + simplify_eq. destruct ev; vm_compute in Hcase; naive_solver.
    + destruct (next_state_predecessor _ _ _ Hev Hn Hcase) as [[-> ->]| ->].
      * destruct (IH i) as (j & ? & ?); [lia|done|]. exists j. split; [lia|done].
      * exists i. split; [lia|done].
Qed.
