(* ===== verification/MetadataTracker.v ===== *)
(** internal/engine/block_metadata.go and block_metadata_tracker.go: the engine's memory
    of blocks, a sorted set of pointers to metadata. *)

From S2P Require Import Prelude GoErrors Types Externals SortedSet BlockTracker EngineStates.

(** * Definitions *)

Definition callerGoodLogs : string := "callerGoodLogs".
Definition callerReorgedLogs : string := "callerReorgedLogs".

(** blockMetadata; [A] is the type of the service's artifacts. *)
Record blockMetadata (A : Type) : Type := mkMeta {
  blockNumber : Z;
  blockHash : string;
  state : blockState;
  artifacts : goslice A;
}.
Arguments mkMeta {A}.
Arguments blockNumber {A}.
Arguments blockHash {A}.
Arguments state {A}.
Arguments artifacts {A}.

(** A *blockMetadata is a reference into the heap of all metadata made so far; the set
    maps block hash texts to references, so that a write through a reference is seen by
    every later read. *)
Record metadataTracker (SS : Type → Type) (A : Type) : Type := mkMT {
  mt_set : SS nat;
  mt_heap : list (blockMetadata A);
}.
Arguments mkMT {SS A}.
Arguments mt_set {SS A}.
Arguments mt_heap {SS A}.

Section tracker.
Context `{SortedSet SS} {A : Type}.
Implicit Types (t : metadataTracker SS A) (ref : nat).

Definition newMetadataTracker : metadataTracker SS A := mkMT ss_New [].

(** Reading and writing through a reference. *)
Definition deref t ref : outcome (blockMetadata A) :=
  match mt_heap t !! ref with
  | Some m => Ret m
  | None => Panic "nil pointer dereference"
  end.
Definition assign t ref (m : blockMetadata A) : metadataTracker SS A :=
  mkMT (mt_set t) (<[ref := m]> (mt_heap t)).

(** metadata.state.Fire(event) and metadata.artifacts = artifacts. *)
Definition fire_at t ref (event : blockEvent) : outcome (metadataTracker SS A) :=
  m ← deref t ref;
  s ← Fire (state m) event;
  Ret (assign t ref (mkMeta (blockNumber m) (blockHash m) s (artifacts m))).
Definition set_artifacts t ref (arts : goslice A) : outcome (metadataTracker SS A) :=
  m ← deref t ref;
  Ret (assign t ref (mkMeta (blockNumber m) (blockHash m) (state m) arts)).

Definition ClearUntil t (blockNumber : Z) : outcome (metadataTracker SS A) :=
  s ← pop_until (ss_GetCount (mt_set t)) (SCORE blockNumber) (mt_set t);
  Ret (mkMT s (mt_heap t)).

Definition SetBlockMetadata t ref : outcome (metadataTracker SS A) :=
  m ← deref t ref;
  Ret (mkMT (ss_AddOrUpdate (mt_set t) (blockHash m) (SCORE (blockNumber m)) ref) (mt_heap t)).

(** A block that is not tracked gets new metadata, which is not tracked yet. *)
Definition GetBlockMetadata t (caller : string) (number : Z) (hash : string) :
    outcome (metadataTracker SS A * nat) :=
  match ss_GetByKey (mt_set t) hash with
  | None =>
      if bool_decide (caller = callerReorgedLogs) then
        Panic ("nil metadata for block " +:+ pretty number +:+ " blockHash " +:+ hash)
      else Ret (mkMT (mt_set t) (mt_heap t ++ [mkMeta number hash stateNull None]),
                length (mt_heap t))
  | Some (_, ref) => Ret (t, ref)
  end.

Definition metadataTracker_Len t : nat := ss_GetCount (mt_set t).

(** BlockNumber panics on a zero number. *)
Definition metadata_BlockNumber (m : blockMetadata A) : outcome Z :=
  if (blockNumber m =? 0)%Z then Panic "got blockNumber 0 from a serviceLogStateKey"
  else Ret (blockNumber m).

(** ** What is known of a block hash *)

Definition ref_of t (hash : string) : option nat := snd <$> ss_view (mt_set t) !! hash.
Definition meta_of t (hash : string) : option (blockMetadata A) :=
  ref ← ref_of t hash; mt_heap t !! ref.
Definition state_of t (hash : string) : blockState :=
  from_option state stateNull (meta_of t hash).

(** Every node refers to the metadata of its own hash, with its number as score. *)
Definition mt_wf t : Prop :=
  ∀ hash sc ref, ss_view (mt_set t) !! hash = Some (sc, ref) →
    ∃ m, mt_heap t !! ref = Some m ∧ blockHash m = hash ∧ sc = SCORE (blockNumber m).
End tracker.

(** * Lemmas *)

Section tracker_lemmas.
Context `{SortedSet SS} {A : Type}.
Implicit Types (t : metadataTracker SS A).

Lemma newMetadataTracker_wf : mt_wf (newMetadataTracker (SS:=SS) (A:=A)).
Proof. intros hash sc ref. simpl. by rewrite ss_New_spec. Qed.

Lemma ref_of_meta t hash ref :
  mt_wf t → ref_of t hash = Some ref →
  ∃ m, mt_heap t !! ref = Some m ∧ blockHash m = hash ∧ meta_of t hash = Some m.
Proof.
  intros Hwf Hr. unfold meta_of. rewrite Hr. unfold ref_of in Hr.
  apply fmap_Some in Hr as ([sc r] & Hv & ->). destruct (Hwf _ _ _ Hv) as (m & Hm & Hh & _).
  simpl. by exists m.
Qed.

(** Writing to a reference keeps the tracker well formed when it keeps hash and number. *)
Lemma assign_wf t ref m m' :
  mt_wf t → mt_heap t !! ref = Some m → blockHash m' = blockHash m →
  blockNumber m' = blockNumber m → mt_wf (assign t ref m').
Proof.
  intros Hwf Hm Hh Hn hash sc r Hv. destruct (Hwf _ _ _ Hv) as (m0 & Hm0 & Hh0 & Hs).
  simpl. destruct (decide (ref = r)) as [<-|Hne].
  - simplify_eq. exists m'. rewrite list_lookup_insert_eq by (by eapply lookup_lt_Some).
    split; [done|]. by rewrite Hn.
  - exists m0. by rewrite list_lookup_insert_ne.
Qed.

Lemma ref_of_assign t ref m hash : ref_of (assign t ref m) hash = ref_of t hash.
Proof. done. Qed.

(** Other hashes have other references. *)
Lemma meta_of_assign t ref m m' hash :
  mt_wf t → mt_heap t !! ref = Some m → blockHash m' = blockHash m →
  meta_of (assign t ref m') hash =
    if decide (ref_of t hash = Some ref) then Some m' else meta_of t hash.
Proof.
  intros Hwf Hm Hh. unfold meta_of. rewrite ref_of_assign.
  destruct (ref_of t hash) as [r|] eqn:Er; simpl; [|done].
  case_decide as Hd; [simplify_eq; by apply list_lookup_insert_eq; eapply lookup_lt_Some|].
  apply list_lookup_insert_ne. congruence.
Qed.

Lemma ClearUntil_spec t u :
  mt_wf t →
  ∃ t', ClearUntil t u = Ret t' ∧ mt_wf t' ∧ mt_heap t' = mt_heap t ∧
    ∀ hash, meta_of t' hash =
      m ← meta_of t hash; if decide (to_int64 u < to_int64 (blockNumber m))%Z
                          then Some m else None.
Proof.
  intros Hwf. unfold ClearUntil.
  destruct (pop_until_spec (ss_GetCount (mt_set t)) (SCORE u) (mt_set t)) as (s & -> & Hs); [done|].
  simpl. eexists. split; [done|]. split; [|split; [done|]].
  - intros hash sc ref. simpl. rewrite Hs. intros [? _]%map_lookup_filter_Some. by apply Hwf.
  - intros hash. unfold meta_of, ref_of. simpl. rewrite Hs.
    destruct (ss_view (mt_set t) !! hash) as [[sc ref]|] eqn:Ev.
    + destruct (Hwf _ _ _ Ev) as (m & Hm & Hh & ->). simpl. rewrite Hm. simpl.
      case_decide as Hd.
      * rewrite (map_lookup_filter_Some_2 _ _ _ _ Ev Hd). simpl. done.
      * rewrite map_lookup_filter_None_2; [done|]. right. intros x ?. simplify_eq. by simpl.
    + by rewrite map_lookup_filter_None_2 by (by left).
Qed.

Lemma SetBlockMetadata_spec t ref m :
  mt_wf t → mt_heap t !! ref = Some m →
  ∃ t', SetBlockMetadata t ref = Ret t' ∧ mt_wf t' ∧ mt_heap t' = mt_heap t ∧
    (∀ hash, ref_of t' hash = if decide (blockHash m = hash) then Some ref else ref_of t hash) ∧
    ∀ hash, meta_of t' hash = if decide (blockHash m = hash) then Some m else meta_of t hash.
Proof.
  intros Hwf Hm. unfold SetBlockMetadata, deref. rewrite Hm. simpl. eexists. split; [done|].
  assert (∀ hash, ref_of (mkMT (ss_AddOrUpdate (mt_set t) (blockHash m)
    (SCORE (blockNumber m)) ref) (mt_heap t)) hash =
    if decide (blockHash m = hash) then Some ref else ref_of t hash) as Href.
  { intros hash. unfold ref_of. simpl. rewrite ss_AddOrUpdate_spec, lookup_insert.
    by case_decide. }
  split; [|split; [done|split; [done|]]].
  - intros hash sc r. simpl. rewrite ss_AddOrUpdate_spec, lookup_insert.
    case_decide; [|apply Hwf]. intros [= <- <-]. by exists m.
  - intros hash. unfold meta_of at 1. rewrite Href. case_decide; simpl; done.
Qed.

(** A node's metadata is found; a block without one gets fresh metadata at a new
    reference, which the set does not have. *)
Lemma GetBlockMetadata_spec t caller number hash :
  mt_wf t →
  match meta_of t hash with
  | Some m => ∃ ref, GetBlockMetadata t caller number hash = Ret (t, ref) ∧
      ref_of t hash = Some ref ∧ mt_heap t !! ref = Some m
  | None =>
      (caller = callerReorgedLogs →
         ∃ msg, GetBlockMetadata t caller number hash = Panic msg) ∧
      (caller ≠ callerReorgedLogs →
         ∃ t', GetBlockMetadata t caller number hash = Ret (t', length (mt_heap t)) ∧
           mt_wf t' ∧ mt_heap t' = mt_heap t ++ [mkMeta number hash stateNull None] ∧
           (∀ h, ref_of t' h = ref_of t h) ∧ ∀ h, meta_of t' h = meta_of t h)
  end.
Proof.
  intros Hwf. unfold GetBlockMetadata. rewrite ss_GetByKey_spec.
  assert (meta_of t hash = None ↔ ss_view (mt_set t) !! hash = None) as Hnone.
  { unfold meta_of, ref_of. destruct (ss_view _ !! hash) as [[sc r]|] eqn:E; simpl; [|done].
    destruct (Hwf _ _ _ E) as (m & -> & _). by split. }
  destruct (meta_of t hash) as [m|] eqn:Em.
  - unfold meta_of, ref_of in *. destruct (ss_view _ !! hash) as [[sc r]|] eqn:E; simpl in *; [|done].
    by exists r.
  - rewrite (proj1 Hnone) by done. split; intros Hc.
    + rewrite bool_decide_true by done. by eexists.
    + rewrite bool_decide_false by done. eexists. split; [done|].
      assert (∀ r m0, mt_heap t !! r = Some m0 →
        (mt_heap t ++ [mkMeta number hash stateNull None]) !! r = Some m0) as Happ.
      { intros r m0 Hr. rewrite lookup_app_l; [done|]. by eapply lookup_lt_Some. }
      split; [|split; [done|split; [done|]]].
      * intros h sc r Hv. destruct (Hwf _ _ _ Hv) as (m0 & Hm0 & ?). exists m0. split; [by apply Happ|done].
      * intros h. unfold meta_of. simpl. unfold ref_of. simpl.
        destruct (ss_view _ !! h) as [[sc r]|] eqn:E; simpl; [|done].
        destruct (Hwf _ _ _ E) as (m0 & Hm0 & ?). by rewrite (Happ _ _ Hm0), Hm0.
Qed.
End tracker_lemmas.
