(* ===== verification/Engine.v ===== *)
(** internal/engine/engine.go and handle_results.go: the engine that passes the blocks of
    each result to the service once. *)

From S2P Require Import Prelude GoErrors Types Externals SortedSet BlockTracker DataGateway EngineStates MetadataTracker.

(** * Definitions *)

(** superwatcher.ServiceEngine, the injected service code.  The maps that it returns have
    block hashes as keys; a hash that a map does not have gives a nil slice. *)
Class ServiceEngine (W A : Type) : Type := {
  HandleGoodBlocks : W → list Block → goslice (goslice A) →
    outcome (W * (gmap Z (goslice A) * option error));
  HandleReorgedBlocks : W → list Block → goslice (goslice A) →
    outcome (W * (gmap Z (goslice A) * option error));
  HandleEmitterError : W → error → outcome (W * option error);
}.

(** The engine's calls of the outside, in order. *)
Inductive engineEvent (A : Type) : Type :=
  | CallReorged (blocks : list Block) (arts : goslice (goslice A))
  | CallGood (blocks : list Block) (arts : goslice (goslice A))
  | RecordBlock (lastRecordedBlock : Z)
  | SyncsEmitter.
Arguments CallReorged {A}.
Arguments CallGood {A}.
Arguments RecordBlock {A}.
Arguments SyncsEmitter {A}.

(** engineBlocks; the metadata are references. *)
Record engineBlocks (A : Type) : Type := mkEB {
  eb_blocks : list Block;
  eb_metadata : list nat;
  eb_artifacts : goslice (goslice A);
}.
Arguments mkEB {A}.
Arguments eb_blocks {A}.
Arguments eb_metadata {A}.
Arguments eb_artifacts {A}.

Definition append_slice {A} (s : goslice A) (x : A) : goslice A := Some (slice_elems s ++ [x]).

Section engine.
Context `{SortedSet SS} `{HashText} {W A : Type} `{ServiceEngine W A} `{SetStateDataGateway W}.
Implicit Types (t : metadataTracker SS A) (w : W).

Definition no_blocks : engineBlocks A := mkEB [] [] None.

(** The loop over result.ReorgedBlocks. *)
Definition see_reorged t (blocks : list Block) :
    outcome (metadataTracker SS A * engineBlocks A) :=
  r ← for_each (R := Empty_set) blocks (λ block '(t, reorgedBlocks),
    '(t, ref) ← GetBlockMetadata t callerReorgedLogs (Number block) (Block_String block);
    t ← fire_at t ref eventSeeReorg;
    metadata ← deref t ref;
    if decide (state metadata ≠ stateReorged) then Ret (inl (t, reorgedBlocks))
    else Ret (inl (t, mkEB (eb_blocks reorgedBlocks ++ [block])
      (eb_metadata reorgedBlocks ++ [ref])
      (append_slice (eb_artifacts reorgedBlocks) (artifacts metadata))))) (t, no_blocks);
  match r with inl s => Ret s | inr v => match (v : Empty_set) with end end.

(** The loops that fire the last event on the metadata of the blocks that the service
    handled, keep its artifacts and save it. *)
Definition settle (event : blockEvent) t (refs : list nat) (arts : gmap Z (goslice A)) :
    outcome (metadataTracker SS A) :=
  r ← for_each (R := Empty_set) refs (λ ref t,
    t ← fire_at t ref event;
    metadata ← deref t ref;
    t ← set_artifacts t ref (default None (arts !! HexToHash (blockHash metadata)));
    t ← SetBlockMetadata t ref;
    Ret (inl t)) t;
  match r with inl t => Ret t | inr v => match (v : Empty_set) with end end.

(** The loop over result.GoodBlocks; the artifacts of a good block are appended to
    those of the reorged blocks. *)
Definition see_good t (reorgedBlocks : engineBlocks A) (blocks : list Block) :
    outcome (metadataTracker SS A * engineBlocks A * engineBlocks A) :=
  r ← for_each (R := Empty_set) blocks (λ block '(t, reorgedBlocks, goodBlocks),
    '(t, ref) ← GetBlockMetadata t callerGoodLogs (Number block) (Block_String block);
    t ← fire_at t ref eventSeeBlock;
    t ← SetBlockMetadata t ref;
    metadata ← deref t ref;
    if decide (state metadata ≠ stateSeen) then Ret (inl (t, reorgedBlocks, goodBlocks))
    else Ret (inl (t,
      mkEB (eb_blocks reorgedBlocks) (eb_metadata reorgedBlocks)
        (append_slice (eb_artifacts reorgedBlocks) (artifacts metadata)),
      mkEB (eb_blocks goodBlocks ++ [block]) (eb_metadata goodBlocks ++ [ref])
        (eb_artifacts goodBlocks)))) (t, reorgedBlocks, no_blocks);
  match r with inl s => Ret s | inr v => match (v : Empty_set) with end end.

(** One turn of handleResults, for a result that is not nil: the calls made, and the
    error that handleResults returns, if any. *)
Definition handle_result (conf : Config) t w (result : PollerResult) :
    outcome (metadataTracker SS A * W * (list (engineEvent A) * option error)) :=
  '(t, reorgedBlocks) ← see_reorged t (ReorgedBlocks result);
  let reorged := bool_decide (ReorgedBlocks result ≠ []) in
  let shouldCallServiceEngine := bool_decide (eb_blocks reorgedBlocks ≠ []) in
  '(w, evs, (reorgedArtifacts, err)) ←
    (if shouldCallServiceEngine then
       '(w, r) ← HandleReorgedBlocks w (eb_blocks reorgedBlocks) (eb_artifacts reorgedBlocks);
       Ret (w, [CallReorged (eb_blocks reorgedBlocks) (eb_artifacts reorgedBlocks)], r)
     else Ret (w, [], (∅, None)));
  match err with
  | Some _ => Ret (t, w, (evs, errors_Wrap err "serviceEngine.HandleReorgedBlockLogs failed"))
  | None =>
      t ← settle eventHandleReorg t (eb_metadata reorgedBlocks) reorgedArtifacts;
      '(t, reorgedBlocks, goodBlocks) ← see_good t reorgedBlocks (GoodBlocks result);
      let shouldCallServiceEngine := bool_decide (eb_blocks goodBlocks ≠ []) in
      '(w, evs, (goodArtifacts, err)) ←
        (if shouldCallServiceEngine then
           '(w, r) ← HandleGoodBlocks w (eb_blocks goodBlocks) (eb_artifacts goodBlocks);
           Ret (w, evs ++ [CallGood (eb_blocks goodBlocks) (eb_artifacts goodBlocks)], r)
         else Ret (w, evs, (∅, None)));
      match err with
      | Some _ => Ret (t, w, (evs, errors_Wrap err "serviceEngine.HandleGoodBlockLogs failed"))
      | None =>
          t ← settle eventHandle t (eb_metadata goodBlocks) goodArtifacts;
          t ← ClearUntil t (LastGood result -₆₄ (FilterRange conf *₆₄ MaxGoBackRetries conf));
          let lastRecordedBlock := if reorged then LastGood result else ToBlock result in
          '(w, err) ← SetLastRecordedBlock w (LastGood result);
          let evs := evs ++ [RecordBlock (LastGood result)] in
          match err with
          | Some _ => Ret (t, w, (evs, errors_Wrap err
              ("failed to save lastRecordedBlock " +:+ pretty lastRecordedBlock)))
          | None => Ret (t, w, (evs ++ [SyncsEmitter], None))
          end
      end
  end.

(** handleResults on the results that the emitter client gives, until the channel is
    closed (the end of the list) or an error comes. *)
Fixpoint handleResults (conf : Config) t w (results : list PollerResult) :
    outcome (metadataTracker SS A * W * (list (engineEvent A) * option error)) :=
  match results with
  | [] => Ret (t, w, ([], None))
  | result :: results =>
      '(t, w, (evs, err)) ← handle_result conf t w result;
      match err with
      | Some _ => Ret (t, w, (evs, err))
      | None =>
          '(t, w, (evs', err)) ← handleResults conf t w results;
          Ret (t, w, (evs ++ evs', err))
      end
  end.
End engine.
