(* ===== verification/EngineSpec.v ===== *)
(** What each pass of the engine over a result does to what it knows of every block. *)

From S2P Require Import Prelude GoErrors Types Externals SortedSet BlockTracker DataGateway EngineStates MetadataTracker.
From S2P Require Import Engine.

(** * Definitions *)

Section spec.
Context `{SortedSet SS} `{HashText} {A : Type}.
Implicit Types (t : metadataTracker SS A) (m : blockMetadata A).

(** The metadata of block [b] after [event], from what is known of it or fresh. *)
Definition fired (event : blockEvent) m : blockMetadata A :=
  mkMeta (blockNumber m) (blockHash m) (next_state (state m) event) (artifacts m).
Definition fresh_meta (b : Block) : blockMetadata A :=
  mkMeta (Number b) (Block_String b) stateNull None.
Definition settled (event : blockEvent) (arts : gmap Z (goslice A)) m : blockMetadata A :=
  mkMeta (blockNumber m) (blockHash m) (next_state (state m) event)
    (default None (arts !! HexToHash (blockHash m))).

(** References of a list of blocks. *)
Definition refs_for t (refs : list nat) (blocks : list Block) : Prop :=
  Forall2 (λ ref b, ref_of t (Block_String b) = Some ref) refs blocks.

(** Distinct blocks of a result have distinct hashes. *)
Definition distinct (blocks : list Block) : Prop := NoDup (Block_String <$> blocks).

(** What a loop over blocks has done to the tracker [t] when it has passed [pre]: [t'] has the
    same references, and [f] was applied to what is known of the blocks of [pre]. *)
Definition applied (f : blockMetadata A → blockMetadata A) t (pre : list Block) t' : Prop :=
  mt_wf t' ∧ (∀ h, ref_of t' h = ref_of t h) ∧
  ∀ h, meta_of t' h = if decide (h ∈ Block_String <$> pre) then f <$> meta_of t h
                      else meta_of t h.

(** The blocks of [pre] that the reorg pass has collected. *)
Definition reorged_collected t t' (pre : list Block) (eb : engineBlocks A) : Prop :=
  eb_blocks eb = filter (λ b, state_of t (Block_String b) = stateHandled) pre ∧
  refs_for t' (eb_metadata eb) (eb_blocks eb) ∧
  slice_elems (eb_artifacts eb) =
    (λ b, from_option artifacts None (meta_of t (Block_String b))) <$> eb_blocks eb.

(** What the pass over good blocks has done when it has passed [pre]. *)
Definition good_seen t t' (pre : list Block) : Prop :=
  mt_wf t' ∧
  (∀ b, b ∈ pre → meta_of t' (Block_String b) =
     Some (fired eventSeeBlock (default (fresh_meta b) (meta_of t (Block_String b))))) ∧
  ∀ h, h ∉ Block_String <$> pre → meta_of t' h = meta_of t h.
Definition good_collected t t' (pre : list Block) (eb : engineBlocks A) : Prop :=
  eb_blocks eb = filter (λ b, state_of t (Block_String b) = stateNull) pre ∧
  refs_for t' (eb_metadata eb) (eb_blocks eb) ∧ eb_artifacts eb = None.
End spec.

(** * Lemmas *)

Section spec_lemmas.
Context `{SortedSet SS} `{HashText} {A : Type}.
Implicit Types (t : metadataTracker SS A) (m : blockMetadata A).

Lemma fire_at_ok t ref m event :
  mt_wf t → mt_heap t !! ref = Some m → event_IsValid event = true →
  ∃ t', fire_at t ref event = Ret t' ∧ mt_wf t' ∧ (∀ h, ref_of t' h = ref_of t h) ∧
    mt_heap t' !! ref = Some (fired event m) ∧
    length (mt_heap t') = length (mt_heap t) ∧
    ∀ h, meta_of t' h = if decide (ref_of t h = Some ref) then Some (fired event m)
                        else meta_of t h.
Proof.
  intros Hwf Hm Hev. unfold fire_at, deref. rewrite Hm. simpl. rewrite Fire_valid by done. simpl.
  eexists. split; [done|]. split; [by eapply assign_wf|]. split; [done|].
  split; [simpl; apply list_lookup_insert_eq; by eapply lookup_lt_Some|].
  split; [simpl; apply length_insert|]. intros h. by eapply meta_of_assign.
Qed.

Lemma set_artifacts_ok t ref m arts :
  mt_wf t → mt_heap t !! ref = Some m →
  ∃ t', set_artifacts t ref arts = Ret t' ∧ mt_wf t' ∧ (∀ h, ref_of t' h = ref_of t h) ∧
    mt_heap t' !! ref = Some (mkMeta (blockNumber m) (blockHash m) (state m) arts) ∧
    length (mt_heap t') = length (mt_heap t) ∧
    ∀ h, meta_of t' h = if decide (ref_of t h = Some ref)
      then Some (mkMeta (blockNumber m) (blockHash m) (state m) arts) else meta_of t h.
Proof.
  intros Hwf Hm. unfold set_artifacts, deref. rewrite Hm. simpl. eexists. split; [done|].
  split; [by eapply assign_wf|]. split; [done|].
  split; [simpl; apply list_lookup_insert_eq; by eapply lookup_lt_Some|].
  split; [simpl; apply length_insert|]. intros h. by eapply meta_of_assign.
Qed.

(** A reference belongs to one hash. *)
Lemma ref_of_inj t h1 h2 ref :
  mt_wf t → ref_of t h1 = Some ref → ref_of t h2 = Some ref → h1 = h2.
Proof.
  intros Hwf H1 H2. destruct (ref_of_meta _ _ _ Hwf H1) as (m1 & Hm1 & <- & _).
  destruct (ref_of_meta _ _ _ Hwf H2) as (m2 & Hm2 & <- & _). by simplify_eq.
Qed.

Lemma next_state_reorged s : next_state s eventSeeReorg = stateReorged ↔ s = stateHandled.
Proof. destruct s; vm_compute; naive_solver. Qed.

Lemma next_state_seen s : next_state s eventSeeBlock = stateSeen ↔ s = stateNull.
Proof. destruct s; vm_compute; naive_solver. Qed.

Lemma distinct_middle pre b post :
  distinct (pre ++ b :: post) → Block_String b ∉ Block_String <$> pre.
Proof.
  unfold distinct. rewrite fmap_app, fmap_cons. intros (_ & Hd & _)%NoDup_app Hx.
  apply (Hd _ Hx). by left.
Qed.

Lemma refs_for_same t t' refs blocks :
  (∀ b, b ∈ blocks → ref_of t' (Block_String b) = ref_of t (Block_String b)) →
  refs_for t refs blocks → refs_for t' refs blocks.
Proof.
  intros Ht Hx. unfold refs_for in *. induction Hx as [|ref b refs blocks Hr Hx IH]; constructor.
  - by rewrite Ht by left.
  - apply IH. intros b' ?. apply Ht. by right.
Qed.

Lemma refs_for_snoc t refs blocks ref b :
  refs_for t refs blocks → ref_of t (Block_String b) = Some ref →
  refs_for t (refs ++ [ref]) (blocks ++ [b]).
Proof. intros. apply Forall2_app; [done|]. by constructor; [|constructor]. Qed.

Lemma applied_nil f t : mt_wf t → applied f t [] t.
Proof.
  intros. split; [done|]. split; [done|]. intros h. rewrite decide_False; [done|apply not_elem_of_nil].
Qed.

(** The loop passes the next block [b]: the tracker [t2] differs in the metadata of [b]. *)
Lemma applied_snoc f t pre b t1 t2 m ref :
  applied f t pre t1 → meta_of t (Block_String b) = Some m →
  ref_of t1 (Block_String b) = Some ref → mt_wf t2 → (∀ h, ref_of t2 h = ref_of t1 h) →
  (∀ h, meta_of t2 h = if decide (ref_of t1 h = Some ref) then Some (f m) else meta_of t1 h) →
  applied f t (pre ++ [b]) t2.
Proof.
  intros (Hwf1 & Href1 & Hm1) Hm Hrefb Hwf2 Href2 Hm2.
  split; [done|]. split; [by intros h; rewrite Href2|]. intros h. rewrite Hm2, fmap_app. simpl.
  case_decide as Hd.
  - assert (h = Block_String b) as -> by by eapply (ref_of_inj t1).
    rewrite decide_True by (apply elem_of_snoc; by right). by rewrite Hm.
  - rewrite Hm1. apply decide_ext. rewrite elem_of_snoc. split; [by left|].
    intros [?| ->]; [done|]. by destruct Hd.
Qed.

(** One turn of the reorg pass, on a known block. *)
Lemma see_reorged_step t pre b t1 m :
  applied (fired eventSeeReorg) t pre t1 → Block_String b ∉ Block_String <$> pre →
  meta_of t (Block_String b) = Some m →
  ∃ ref t2, GetBlockMetadata t1 callerReorgedLogs (Number b) (Block_String b) = Ret (t1, ref) ∧
    fire_at t1 ref eventSeeReorg = Ret t2 ∧ deref t2 ref = Ret (fired eventSeeReorg m) ∧
    ref_of t2 (Block_String b) = Some ref ∧ (∀ h, ref_of t2 h = ref_of t1 h) ∧
    applied (fired eventSeeReorg) t (pre ++ [b]) t2.
Proof.
  intros Happ Hnew Hm. pose proof Happ as (Hwf1 & Href1 & Hm1).
  pose proof (Hm1 (Block_String b)) as Hmb. rewrite decide_False, Hm in Hmb by done.
  pose proof (GetBlockMetadata_spec t1 callerReorgedLogs (Number b) (Block_String b) Hwf1) as Hg.
  rewrite Hmb in Hg. destruct Hg as (ref & Hget & Hrefb & Hheap).
  destruct (fire_at_ok t1 ref m eventSeeReorg) as (t2 & Hf2 & Hwf2 & Href2 & Hh2 & _ & Hm2);
    [done..|].
  exists ref, t2. split; [done|]. split; [done|]. split; [unfold deref; by rewrite Hh2|].
  split; [by rewrite Href2|]. split; [done|]. by eapply applied_snoc.
Qed.

(** Known blocks of a result go through the reorg pass: the handled ones are collected. *)
Lemma see_reorged_ok t blocks :
  mt_wf t → distinct blocks → (∀ b, b ∈ blocks → is_Some (meta_of t (Block_String b))) →
  ∃ t' eb, see_reorged t blocks = Ret (t', eb) ∧
    applied (fired eventSeeReorg) t blocks t' ∧ reorged_collected t t' blocks eb.
Proof.
  intros Hwf Hnd Hin. unfold see_reorged.
  match goal with |- context [for_each _ ?f _] => set (body := f) end.
  destruct (for_each_ind (R := Empty_set)
    (λ pre (s : metadataTracker SS A * engineBlocks A),
      applied (fired eventSeeReorg) t pre s.1 ∧ reorged_collected t s.1 pre s.2)
    (λ _, False) blocks body (t, no_blocks)) as ([[t' eb]|[]] & -> & Hr).
  - split; [by apply applied_nil|]. split; [done|]. split; [constructor|done].
  - intros pre b post [t1 eb] -> [Happ (Hbl & Hrefs & Harts)]. simpl in *.
    destruct (Hin b) as [m Hm]; [set_solver|].
    destruct (see_reorged_step t pre b t1 m) as (ref & t2 & Hget & Hf & Hd & Href & Hrefs2 & Happ2);
      [done|by eapply distinct_middle|done|].
    assert (state_of t (Block_String b) = state m) as Hst by (unfold state_of; by rewrite Hm).
    apply (refs_for_same _ t2) in Hrefs; [|by intros].
    subst body. cbn beta iota. rewrite Hget. simpl. rewrite Hf. simpl. rewrite Hd. simpl.
    unfold reorged_collected. rewrite filter_app, filter_cons, Hst.
    case_decide as Hs; rewrite next_state_reorged in Hs; eexists; (split; [done|]); simpl.
    + rewrite decide_False by done. by rewrite app_nil_r.
    + rewrite decide_True by done. split; [done|]. rewrite Harts, fmap_app. simpl. rewrite Hm, Hbl.
      split; [done|]. split; [|done]. rewrite <-Hbl. by apply refs_for_snoc.
  - by exists t', eb.
Qed.

(** One turn of the settling loop, on a known block. *)
Lemma settle_step event t arts pre b ref t1 :
  mt_wf t → applied (settled event arts) t pre t1 → Block_String b ∉ Block_String <$> pre →
  event_IsValid event = true → ref_of t (Block_String b) = Some ref →
  ∃ m t2 t3 t4, fire_at t1 ref event = Ret t2 ∧ deref t2 ref = Ret (fired event m) ∧
    set_artifacts t2 ref (default None (arts !! HexToHash (blockHash (fired event m)))) = Ret t3 ∧
    SetBlockMetadata t3 ref = Ret t4 ∧ applied (settled event arts) t (pre ++ [b]) t4.
Proof.
  intros Hwf Happ Hnew Hev Href. pose proof Happ as (Hwf1 & Href1 & Hm1).
  destruct (ref_of_meta t _ ref Hwf Href) as (m & _ & Hmh & Hm).
  pose proof (Hm1 (Block_String b)) as Hmb. rewrite decide_False, Hm in Hmb by done.
  rewrite <-Href1 in Href.
  destruct (ref_of_meta t1 _ ref Hwf1 Href) as (m' & Hheap & _ & Hm').
  rewrite Hm' in Hmb. injection Hmb as ->.
  destruct (fire_at_ok t1 ref m event) as (t2 & Hf2 & Hwf2 & Href2 & Hh2 & _ & Hm2); [done..|].
  destruct (set_artifacts_ok t2 ref (fired event m) (default None (arts !! HexToHash (blockHash m))))
    as (t3 & Hf3 & Hwf3 & Href3 & Hh3 & _ & Hm3); [done..|].
  destruct (SetBlockMetadata_spec t3 ref _ Hwf3 Hh3) as (t4 & Hf4 & Hwf4 & _ & Href4 & Hm4).
  exists m, t2, t3, t4. split; [done|]. split; [unfold deref; by rewrite Hh2|]. split; [done|].
  split; [done|]. simpl in *. rewrite Hmh in Href4, Hm4.
  apply (applied_snoc _ _ _ _ t1 _ m ref); [done..| |].
  - intros h. rewrite Href4, Href3, Href2. case_decide as Hd; [|done]. by rewrite <-Hd.
  - intros h. rewrite Hm4, Hm3, Href2, Hm2. unfold settled. rewrite Hmh.
    destruct (decide (Block_String b = h)) as [<-|Hne]; [by rewrite decide_True|].
    by repeat case_decide.
Qed.

(** The settling loop fires the event on every collected block and keeps its artifacts. *)
Lemma settle_ok event t refs blocks arts :
  mt_wf t → distinct blocks → event_IsValid event = true → refs_for t refs blocks →
  ∃ t', settle event t refs arts = Ret t' ∧ applied (settled event arts) t blocks t'.
Proof.
  intros Hwf Hnd Hev Hrefs. unfold settle.
  match goal with |- context [for_each _ ?f _] => set (body := f) end.
  destruct (for_each_ind (R := Empty_set)
    (λ pre t', applied (settled event arts) t (take (length pre) blocks) t')
    (λ _, False) refs body t) as ([t'|[]] & -> & Hr).
  - by apply applied_nil.
  - intros pre ref post t1 Heq Happ.
    destruct (Forall2_lookup_l _ _ _ (length pre) ref Hrefs) as (b & Hb & Href).
    { by rewrite Heq, list_lookup_middle. }
    rewrite <-(take_drop_middle _ _ _ Hb) in Hnd.
    destruct (settle_step event t arts _ b ref t1 Hwf Happ) as (m & t2 & t3 & t4 & Hf & Hd & Ha & Hs & Happ4);
      [by eapply distinct_middle|done..|].
    subst body. cbn beta iota. rewrite Hf. simpl. rewrite Hd. simpl in *. rewrite Ha. simpl.
    rewrite Hs. simpl. eexists. split; [done|]. simpl.
    by rewrite length_app, Nat.add_1_r, (take_S_r _ _ _ Hb).
  - exists t'. split; [done|]. by rewrite (Forall2_length _ _ _ Hrefs), firstn_all in Hr.
Qed.

(** GetBlockMetadata for a good block: what is known of it or fresh metadata, under a
    reference of its own. *)
Lemma GetBlockMetadata_good t b :
  mt_wf t →
  ∃ t' ref m, GetBlockMetadata t callerGoodLogs (Number b) (Block_String b) = Ret (t', ref) ∧
    m = default (fresh_meta b) (meta_of t (Block_String b)) ∧
    mt_wf t' ∧ mt_heap t' !! ref = Some m ∧ blockHash m = Block_String b ∧
    (∀ h, ref_of t' h = ref_of t h) ∧ (∀ h, h ≠ Block_String b → ref_of t' h ≠ Some ref) ∧
    ∀ h, meta_of t' h = meta_of t h.
Proof.
  intros Hwf.
  pose proof (GetBlockMetadata_spec t callerGoodLogs (Number b) (Block_String b) Hwf) as Hg.
  destruct (meta_of t (Block_String b)) as [m|] eqn:Em.
  - destruct Hg as (ref & -> & Href & Hh). exists t, ref, m. split; [done|]. split; [done|].
    destruct (ref_of_meta _ _ _ Hwf Href) as (m' & Hm' & Hmh & _). simplify_eq.
    do 4 (split; [done|]). split; [|done]. intros h Hne Hx. apply Hne. by eapply ref_of_inj.
  - destruct Hg as [_ Hg]. destruct Hg as (t2 & -> & Hwf2 & Hh2 & Href2 & Hm2); [done|].
    exists t2, (length (mt_heap t)), (fresh_meta b). split; [done|]. split; [done|]. split; [done|].
    split; [by rewrite Hh2, list_lookup_middle|]. split; [done|]. split; [done|].
    split; [|done]. intros h _. rewrite Href2. intros Hx.
    destruct (ref_of_meta _ _ _ Hwf Hx) as (m' & Hm'%lookup_lt_Some & _). lia.
Qed.

Lemma good_seen_snoc t t1 t2 pre b :
  good_seen t t1 pre → Block_String b ∉ Block_String <$> pre → mt_wf t2 →
  (∀ h, h ≠ Block_String b → meta_of t2 h = meta_of t1 h) →
  meta_of t2 (Block_String b) =
    Some (fired eventSeeBlock (default (fresh_meta b) (meta_of t (Block_String b)))) →
  good_seen t t2 (pre ++ [b]).
Proof.
  intros (_ & Hin & Hout) Hnew Hwf Hm Hb. split; [done|]. split.
  - intros b' [Hb'| ->]%elem_of_snoc; [|done].
    rewrite Hm by (intros Hx; apply Hnew; rewrite <-Hx; by apply list_elem_of_fmap_2).
    by apply Hin.
  - intros h Hh. rewrite fmap_app in Hh. rewrite Hm; [apply Hout|]; set_solver.
Qed.

(** One turn of the pass over good blocks. *)
Lemma see_good_step t pre b t1 :
  good_seen t t1 pre → Block_String b ∉ Block_String <$> pre →
  let m := default (fresh_meta b) (meta_of t (Block_String b)) in
  ∃ t1' ref t2 t3, GetBlockMetadata t1 callerGoodLogs (Number b) (Block_String b) = Ret (t1', ref) ∧
    fire_at t1' ref eventSeeBlock = Ret t2 ∧ SetBlockMetadata t2 ref = Ret t3 ∧
    deref t3 ref = Ret (fired eventSeeBlock m) ∧
    (∀ h, ref_of t3 h = if decide (Block_String b = h) then Some ref else ref_of t1 h) ∧
    good_seen t t3 (pre ++ [b]).
Proof.
  intros Hseen Hnew m. pose proof Hseen as (Hwf1 & Hin & Hout).
  destruct (GetBlockMetadata_good t1 b Hwf1)
    as (t1' & ref & m' & Hget & -> & Hwf1' & Hheap & Hmh & Href1 & Hother & Hm1).
  rewrite (Hout _ Hnew) in Hheap, Hmh. fold m in Hheap, Hmh.
  destruct (fire_at_ok t1' ref m eventSeeBlock) as (t2 & Hf2 & Hwf2 & Href2 & Hh2 & _ & Hm2);
    [done..|].
  destruct (SetBlockMetadata_spec t2 ref _ Hwf2 Hh2) as (t3 & Hf3 & Hwf3 & Hh3 & Href3 & Hm3).
  simpl in Href3, Hm3. rewrite Hmh in Href3, Hm3.
  exists t1', ref, t2, t3. do 3 (split; [done|]). split; [unfold deref; by rewrite Hh3, Hh2|].
  split; [by intros h; rewrite Href3, Href2, Href1|].
  eapply good_seen_snoc; [done..| |].
  - intros h Hne. rewrite Hm3, Hm2, !decide_False by auto. apply Hm1.
  - by rewrite Hm3, decide_True.
Qed.

(** The pass over the good blocks: new blocks become tracked and SEEN and are collected;
    no artifacts are collected for them. *)
Lemma see_good_ok t rb blocks :
  mt_wf t → distinct blocks →
  ∃ t' rb' eb, see_good t rb blocks = Ret (t', rb', eb) ∧
    good_seen t t' blocks ∧ good_collected t t' blocks eb.
Proof.
  intros Hwf Hnd. unfold see_good.
  match goal with |- context [for_each _ ?f _] => set (body := f) end.
  destruct (for_each_ind (R := Empty_set)
    (λ pre (s : metadataTracker SS A * engineBlocks A * engineBlocks A),
      good_seen t s.1.1 pre ∧ good_collected t s.1.1 pre s.2)
    (λ _, False) blocks body (t, rb, no_blocks)) as ([[[t' rb'] eb]|[]] & -> & Hr).
  - split; [|split; [done|split; [constructor|done]]].
    split; [done|]. split; [by intros b ?%not_elem_of_nil|done].
  - intros pre b post [[t1 rb1] eb] -> [Hseen (Hbl & Hrefs & Harts)]. simpl in *.
    apply distinct_middle in Hnd.
    destruct (see_good_step t pre b t1 Hseen Hnd) as (t1' & ref & t2 & t3 & Hget & Hf & Hs & Hd & Href3 & Hseen3).
    set (m := default _ _) in *.
    assert (state_of t (Block_String b) = state m) as Hst
      by (unfold state_of; subst m; by destruct (meta_of t _)).
    assert (refs_for t3 (eb_metadata eb) (eb_blocks eb)) as Hrefs3.
    { eapply refs_for_same, Hrefs. intros b' Hb'. rewrite Href3, decide_False; [done|]. intros Hk. apply Hnd. rewrite Hk.
      apply list_elem_of_fmap_2. rewrite Hbl in Hb'. by apply list_elem_of_filter in Hb' as [_ ?]. }
    subst body. cbn beta iota. rewrite Hget. simpl. rewrite Hf. simpl. rewrite Hs. simpl. rewrite Hd.
    simpl. unfold good_collected. rewrite filter_app, filter_cons, Hst.
    case_decide as Hn; rewrite next_state_seen in Hn; eexists; (split; [done|]); simpl.
    + rewrite decide_False by done. by rewrite app_nil_r.
    + rewrite decide_True by done. split; [done|]. rewrite Hbl. split; [done|]. split; [|done].
      rewrite <-Hbl. apply refs_for_snoc; [done|]. by rewrite Href3, decide_True.
  - by exists t', rb', eb.
Qed.
End spec_lemmas.
