(* ===== verification/EngineProps.v ===== *)
(** The engine's contract: which blocks of a result the service gets, in which order, how
    often, and what is recorded. *)

From S2P Require Import Prelude GoErrors Types Externals SortedSet BlockTracker DataGateway EngineStates MetadataTracker.
From S2P Require Import Engine EngineSpec.

(** * Definitions *)

Section contract.
Context `{SortedSet SS} `{HashText} {A : Type}.
Implicit Types (t : metadataTracker SS A) (r : PollerResult) (h : string).

(** The hashes of a list of blocks, as texts. *)
Definition keys (blocks : list Block) : list string := Block_String <$> blocks.

(** The results that the poller makes for an engine that has seen its earlier ones. *)
Definition result_ok t r : Prop :=
  distinct (ReorgedBlocks r) ∧ distinct (GoodBlocks r) ∧
  ∀ b, b ∈ ReorgedBlocks r → is_Some (meta_of t (Block_String b)).

(** The blocks to undo, and the state of every hash when they are undone. *)
Definition to_undo t r : list Block :=
  filter (λ b, state_of t (Block_String b) = stateHandled) (ReorgedBlocks r).
Definition state_undone t r h : blockState :=
  if decide (h ∈ keys (ReorgedBlocks r)) then
    match state_of t h with stateHandled => stateHandledReorg | _ => stateInvalid end
  else state_of t h.

(** The blocks to do, and the state of every hash when they are done. *)
Definition to_do t r : list Block :=
  filter (λ b, state_undone t r (Block_String b) = stateNull) (GoodBlocks r).
Definition state_done t r h : blockState :=
  if decide (h ∈ keys (GoodBlocks r)) then
    match state_undone t r h with
    | stateNull | stateHandled => stateHandled
    | _ => stateInvalid
    end
  else state_undone t r h.

(** The number under which a hash is known: the first block of that hash that came. *)
Definition number_known t r h : option Z :=
  match meta_of t h with
  | Some m => Some (blockNumber m)
  | None => Number <$> head (filter (λ b, Block_String b = h) (GoodBlocks r))
  end.

(** Up to where a result makes the engine forget, and whether it forgets a number. *)
Definition forget_bound (c : Config) r : Z :=
  LastGood r -₆₄ (FilterRange c *₆₄ MaxGoBackRetries c).
Definition forgotten (c : Config) r (n : Z) : Prop :=
  (to_int64 n ≤ to_int64 (forget_bound c r))%Z.
#[export] Instance forgotten_dec c r n : Decision (forgotten c r n).
Proof. unfold forgotten. apply _. Defined.

(** Number and state of every hash after the result. *)
Definition known_done (c : Config) t r h : option (Z * blockState) :=
  n ← number_known t r h;
  if decide (forgotten c r n) then None else Some (n, state_done t r h).

(** The calls of the service for a result. *)
Definition artifacts_of t (b : Block) : goslice A :=
  from_option artifacts None (meta_of t (Block_String b)).
Definition service_calls t r : list (engineEvent A) :=
  (if decide (to_undo t r = []) then []
   else [CallReorged (to_undo t r) (Some (artifacts_of t <$> to_undo t r))]) ++
  (if decide (to_do t r = []) then [] else [CallGood (to_do t r) None]).
End contract.

(** The service and the gateway return; they may return errors. *)
Definition env_returns (W A : Type) `{ServiceEngine W A} `{SetStateDataGateway W} : Prop :=
  (∀ w bs (arts : goslice (goslice A)), returns (HandleGoodBlocks w bs arts)) ∧
  (∀ w bs (arts : goslice (goslice A)), returns (HandleReorgedBlocks w bs arts)) ∧
  (∀ w n, returns (SetLastRecordedBlock w n)).

(** The hashes that the service was called with, to do and to undo. *)
Definition done_hashes `{HashText} {A} (evs : list (engineEvent A)) : list string :=
  evs ≫= λ ev, match ev with CallGood bs _ => Block_String <$> bs | _ => [] end.
Definition undone_hashes `{HashText} {A} (evs : list (engineEvent A)) : list string :=
  evs ≫= λ ev, match ev with CallReorged bs _ => Block_String <$> bs | _ => [] end.

(** * Lemmas *)

Section lemmas.
Context `{SortedSet SS} `{HashText} {W A : Type} `{!ServiceEngine W A} `{!SetStateDataGateway W}.
Implicit Types (t : metadataTracker SS A) (r : PollerResult) (w : W) (c : Config).

Definition number_state (m : blockMetadata A) : Z * blockState := (blockNumber m, state m).

Lemma elem_of_keys_filter (P : Block → Prop) `{∀ b, Decision (P b)} h blocks :
  h ∈ keys (filter P blocks) ↔ ∃ b, b ∈ blocks ∧ Block_String b = h ∧ P b.
Proof.
  unfold keys. rewrite list_elem_of_fmap. setoid_rewrite list_elem_of_filter. naive_solver.
Qed.

Lemma elem_of_keys h blocks : h ∈ keys blocks ↔ ∃ b, b ∈ blocks ∧ Block_String b = h.
Proof. unfold keys. rewrite list_elem_of_fmap. naive_solver. Qed.

Lemma distinct_filter (P : Block → Prop) `{∀ b, Decision (P b)} blocks :
  distinct blocks → distinct (filter P blocks).
Proof.
  unfold distinct. intros Hnd.
  apply (sublist_NoDup _ _ Hnd), fmap_sublist, sublist_filter.
Qed.

Lemma distinct_inj blocks b b' :
  distinct blocks → b ∈ blocks → b' ∈ blocks → Block_String b = Block_String b' → b = b'.
Proof.
  intros Hnd Hb Hb' Heq. apply list_elem_of_lookup in Hb as [i Hi].
  apply list_elem_of_lookup in Hb' as [j Hj].
  assert (i = j) as ->; [|by simplify_eq].
  apply (NoDup_lookup _ _ _ (Block_String b) Hnd).
  - by rewrite list_lookup_fmap, Hi.
  - by rewrite list_lookup_fmap, Hj, Heq.
Qed.

(** After the reorg pass and its settling. *)
Lemma undone_ok t t1 t2 (eb : engineBlocks A) arts r :
  result_ok t r →
  eb_blocks eb = to_undo t r →
  (∀ h, meta_of t1 h = if decide (h ∈ Block_String <$> ReorgedBlocks r)
     then fired eventSeeReorg <$> meta_of t h else meta_of t h) →
  (∀ h, meta_of t2 h = if decide (h ∈ Block_String <$> eb_blocks eb)
     then settled eventHandleReorg arts <$> meta_of t1 h else meta_of t1 h) →
  ∀ h, number_state <$> meta_of t2 h =
    (λ m, (blockNumber m, state_undone t r h)) <$> meta_of t h.
Proof.
  intros (Hnd & _ & Hin) Heb Hm1 Hm2 h. rewrite Hm2, Hm1, Heb. unfold state_undone, to_undo, keys.
  assert (h ∈ Block_String <$> filter (λ b, state_of t (Block_String b) = stateHandled)
    (ReorgedBlocks r) ↔ h ∈ Block_String <$> ReorgedBlocks r ∧ state_of t h = stateHandled) as Hiff.
  { pose proof (elem_of_keys_filter (λ b, state_of t (Block_String b) = stateHandled) h
      (ReorgedBlocks r)) as ->.
    pose proof (elem_of_keys h (ReorgedBlocks r)) as ->. naive_solver. }
  unfold state_of in *. destruct (meta_of t h) as [m|] eqn:Em; simpl in *.
  2:{ by repeat case_decide. }
  destruct (decide (h ∈ Block_String <$> ReorgedBlocks r)) as [Hr|Hr].
  - destruct (decide (state m = stateHandled)) as [Hs|Hs].
    + rewrite decide_True by (by apply Hiff). simpl. unfold number_state, settled, fired. simpl.
      by rewrite Hs.
    + rewrite decide_False by (rewrite Hiff; naive_solver). simpl. unfold number_state, fired. simpl.
      by destruct (state m).
  - rewrite decide_False by (rewrite Hiff; naive_solver). done.
Qed.

Lemma state_of_undone t t2 r h :
  result_ok t r →
  number_state <$> meta_of t2 h = (λ m, (blockNumber m, state_undone t r h)) <$> meta_of t h →
  state_of t2 h = state_undone t r h.
Proof.
  intros (_ & _ & Hin) Hns. unfold state_of at 1. destruct (meta_of t h) as [m|] eqn:Em; simpl in Hns.
  - destruct (meta_of t2 h) as [m2|]; simplify_eq/=. by injection Hns.
  - destruct (meta_of t2 h); simplify_eq/=. unfold state_undone, state_of. rewrite Em. simpl.
    rewrite decide_False; [done|]. intros (b & Hb & <-)%elem_of_keys.
    apply Hin in Hb as [? ?]. congruence.
Qed.

Lemma head_filter_key blocks b :
  distinct blocks → b ∈ blocks →
  head (filter (λ b', Block_String b' = Block_String b) blocks) = Some b.
Proof.
  intros Hnd Hb. destruct (filter _ blocks) as [|b' l] eqn:E.
  - assert (b ∈ filter (λ b', Block_String b' = Block_String b) blocks) as Hx
      by (by apply list_elem_of_filter). rewrite E in Hx. by apply not_elem_of_nil in Hx.
  - assert (b' ∈ filter (λ b', Block_String b' = Block_String b) blocks) as Hx
      by (rewrite E; by left).
    apply list_elem_of_filter in Hx as [Hk Hx]. simpl. f_equal. by apply (distinct_inj blocks).
Qed.

(** After the pass over the good blocks and its settling. *)
Lemma done_ok t t2 t3 t4 (eb : engineBlocks A) arts r :
  result_ok t r →
  (∀ h, number_state <$> meta_of t2 h =
     (λ m, (blockNumber m, state_undone t r h)) <$> meta_of t h) →
  eb_blocks eb = filter (λ b, state_of t2 (Block_String b) = stateNull) (GoodBlocks r) →
  (∀ b, b ∈ GoodBlocks r → meta_of t3 (Block_String b) =
     Some (fired eventSeeBlock (default (fresh_meta b) (meta_of t2 (Block_String b))))) →
  (∀ h, h ∉ Block_String <$> GoodBlocks r → meta_of t3 h = meta_of t2 h) →
  (∀ h, meta_of t4 h = if decide (h ∈ Block_String <$> eb_blocks eb)
     then settled eventHandle arts <$> meta_of t3 h else meta_of t3 h) →
  eb_blocks eb = to_do t r ∧
  ∀ h, number_state <$> meta_of t4 h = (λ n, (n, state_done t r h)) <$> number_known t r h.
Proof.
  intros Hok Hns2 Heb Hin3 Hout3 Hm4.
  assert (∀ h, state_of t2 h = state_undone t r h) as Hso
    by (intros h; by apply state_of_undone).
  assert (eb_blocks eb = to_do t r) as Hdo.
  { rewrite Heb. unfold to_do. apply list_filter_iff. intros b. by rewrite Hso. }
  split; [done|]. intros h. rewrite Hm4, Hdo. unfold state_done.
  pose proof (elem_of_keys_filter (λ b, state_undone t r (Block_String b) = stateNull) h
    (GoodBlocks r)) as Hiff. fold (to_do t r) in Hiff. unfold keys in Hiff.
  pose proof (elem_of_keys h (GoodBlocks r)) as Hk. unfold keys in *.
  pose proof (Hns2 h) as Hns. destruct Hok as (_ & Hnd & _).
  destruct (decide (h ∈ Block_String <$> GoodBlocks r)) as [Hg|Hg].
  - destruct (proj1 Hk Hg) as (b & Hb & <-).
    rewrite Hin3 by done. set (m := default (fresh_meta b) (meta_of t2 (Block_String b))).
    assert (state_undone t r (Block_String b) = state m) as Hst.
    { rewrite <-Hso. unfold state_of. subst m. by destruct (meta_of t2 _). }
    assert (number_known t r (Block_String b) = Some (blockNumber m)) as ->.
    { unfold number_known. subst m. destruct (meta_of t (Block_String b)) as [m0|].
      - destruct (meta_of t2 (Block_String b)) as [m2|]; simplify_eq/=. injection Hns as Hn _.
        by rewrite Hn.
      - rewrite head_filter_key by done. by destruct (meta_of t2 (Block_String b)). }
    rewrite Hst. destruct (decide (state m = stateNull)) as [Hs|Hs].
    + rewrite decide_True by (apply Hiff; exists b; by rewrite Hst). simpl.
      unfold number_state, settled, fired. simpl. by rewrite Hs.
    + rewrite decide_False by (rewrite Hiff; intros (b' & _ & Hkb & Hsb);
        rewrite Hkb, Hst in Hsb; done). simpl.
      unfold number_state, fired. simpl. by destruct (state m).
  - rewrite decide_False by (rewrite Hiff; naive_solver). rewrite Hout3 by done. rewrite Hns.
    unfold number_known. destruct (meta_of t h) as [m|]; [done|].
    destruct (filter (λ b, Block_String b = h) (GoodBlocks r)) as [|b l] eqn:E; [done|].
    destruct Hg. apply Hk. exists b.
    assert (b ∈ filter (λ b, Block_String b = h) (GoodBlocks r)) as [? ?]%list_elem_of_filter
      by (rewrite E; by left). done.
Qed.

Lemma cleared_ok c t t4 t5 r :
  (∀ h, number_state <$> meta_of t4 h = (λ n, (n, state_done t r h)) <$> number_known t r h) →
  (∀ h, meta_of t5 h = m ← meta_of t4 h;
     if decide (to_int64 (forget_bound c r) < to_int64 (blockNumber m))%Z then Some m else None) →
  ∀ h, number_state <$> meta_of t5 h = known_done c t r h.
Proof.
  intros Hns Hm5 h. rewrite Hm5. unfold known_done. specialize (Hns h).
  destruct (meta_of t4 h) as [m|]; destruct (number_known t r h) as [n|]; simplify_eq/=; [|done].
  injection Hns as <- <-. unfold forgotten.
  destruct (decide (to_int64 (forget_bound c r) < to_int64 (blockNumber m))%Z).
  - by rewrite decide_False by lia.
  - by rewrite decide_True by lia.
Qed.

(** How a turn of the engine ends: all calls and the new knowledge, or a prefix of the
    calls and an error. *)
Definition turn_ends c t r (t' : metadataTracker SS A) (evs : list (engineEvent A))
    (err : option error) : Prop :=
  match err with
  | None => evs = service_calls t r ++ [RecordBlock (LastGood r); SyncsEmitter] ∧
      mt_wf t' ∧ ∀ h, number_state <$> meta_of t' h = known_done c t r h
  | Some _ => evs `prefix_of` (service_calls t r ++ [RecordBlock (LastGood r)])
  end.

(** The conditional calls of the service. *)
Lemma call_reorged w (bs : list Block) (arts : goslice (goslice A)) :
  env_returns W A →
  ∃ w1 m err, (if bool_decide (bs ≠ []) then
      '(w, r) ← HandleReorgedBlocks w bs arts; Ret (w, [CallReorged bs arts], r)
    else Ret (w, [], (∅, None))) =
      Ret (w1, if decide (bs = []) then [] else [CallReorged bs arts], (m, err)).
Proof.
  intros (_ & Hr & _). destruct (decide (bs = [])) as [->|Hne].
  - rewrite bool_decide_false by (intros Hx; by apply Hx). by eexists _, _, _.
  - rewrite bool_decide_true by done. destruct (Hr w bs arts) as [[w1 [m err]] ->]. by eexists _, _, _.
Qed.

Lemma call_good w evs (bs : list Block) (arts : goslice (goslice A)) :
  env_returns W A →
  ∃ w1 m err, (if bool_decide (bs ≠ []) then
      '(w, r) ← HandleGoodBlocks w bs arts; Ret (w, evs ++ [CallGood bs arts], r)
    else Ret (w, evs, (∅, None))) =
      Ret (w1, evs ++ (if decide (bs = []) then [] else [CallGood bs arts]), (m, err)).
Proof.
  intros (Hg & _). destruct (decide (bs = [])) as [->|Hne].
  - rewrite bool_decide_false by (intros Hx; by apply Hx). rewrite app_nil_r. by eexists _, _, _.
  - rewrite bool_decide_true by done. destruct (Hg w bs arts) as [[w1 [m err]] ->]. by eexists _, _, _.
Qed.

Lemma slice_some {B} (s : goslice B) l : slice_elems s = l → l ≠ [] → s = Some l.
Proof. destruct s; naive_solver. Qed.

Lemma handle_result_ends c t w r :
  env_returns W A → mt_wf t → result_ok t r →
  ∃ t' w' evs err, handle_result c t w r = Ret (t', w', (evs, err)) ∧
    turn_ends c t r t' evs err.
Proof.
  intros Henv Hwf Hok. pose proof Hok as (Hd1 & Hd2 & Hin). unfold handle_result.
  destruct (see_reorged_ok t (ReorgedBlocks r))
    as (t1 & rb & -> & (Hwf1 & Href1 & Hm1) & Hbl & Hrefs & Harts); [done..|]. simpl.
  fold (to_undo t r) in Hbl.
  destruct (call_reorged w (eb_blocks rb) (eb_artifacts rb) Henv) as (w1 & m1 & err1 & ->). simpl.
  assert ((if decide (eb_blocks rb = []) then [] else [CallReorged (eb_blocks rb) (eb_artifacts rb)])
    ++ (if decide (to_do t r = []) then [] else [CallGood (to_do t r) None]) = service_calls t r)
    as Hcalls.
  { unfold service_calls. f_equal. rewrite Hbl. case_decide as Hne; [done|]. do 2 f_equal.
    apply slice_some; [by rewrite Harts, Hbl|]. by intros ?%fmap_nil_inv. }
  set (evs1 := if decide (eb_blocks rb = []) then _ else _) in *.
  destruct err1 as [err1|].
  { eexists _, _, _, _. split; [done|]. unfold turn_ends. simpl.
    rewrite <-Hcalls, <-app_assoc. by apply prefix_app_r. }
  destruct (settle_ok eventHandleReorg t1 (eb_metadata rb) (eb_blocks rb) m1)
    as (t2 & -> & Hwf2 & _ & Hm2); [done|rewrite Hbl; by apply distinct_filter|done..|]. simpl.
  destruct (see_good_ok t2 rb (GoodBlocks r))
    as (t3 & rb' & gb & -> & (Hwf3 & Hin3 & Hout3) & Hgbl & Hgrefs & Hgarts); [done..|]. simpl.
  destruct (call_good w1 evs1 (eb_blocks gb) (eb_artifacts gb) Henv) as (w2 & m2 & err2 & ->). simpl.
  pose proof (undone_ok t t1 t2 rb m1 r Hok Hbl Hm1 Hm2) as Hns2.
  assert (eb_blocks gb = to_do t r) as Hdo.
  { rewrite Hgbl. apply list_filter_iff. intros b. by rewrite (state_of_undone t t2 r). }
  rewrite Hdo, Hgarts, Hcalls.
  destruct err2 as [err2|].
  { eexists _, _, _, _. split; [done|]. simpl. by apply prefix_app_r. }
  destruct (settle_ok eventHandle t3 (eb_metadata gb) (eb_blocks gb) m2)
    as (t4 & -> & Hwf4 & _ & Hm4); [done|rewrite Hgbl; by apply distinct_filter|done..|]. simpl.
  destruct (done_ok t t2 t3 t4 gb m2 r Hok Hns2 Hgbl Hin3 Hout3 Hm4) as [_ Hns4].
  destruct (ClearUntil_spec t4 (forget_bound c r)) as (t5 & Hcl & Hwf5 & _ & Hm5); [done|].
  unfold forget_bound in Hcl. rewrite Hcl. simpl.
  pose proof (proj2 (proj2 Henv)) as Hset.
  destruct (Hset w2 (LastGood r)) as [[w3 err3] ->]. simpl. destruct err3 as [err3|].
  - eexists _, _, _, _. split; [done|]. unfold turn_ends. simpl. reflexivity.
  - eexists _, _, _, _. split; [done|]. split; [by rewrite <-app_assoc|]. split; [done|].
    by eapply cleared_ok.
Qed.
End lemmas.
