(* ===== verification/EngineRuns.v ===== *)
(** Runs of the engine over many results: what the service is called with, how often and
    in which order, and the cases in which the engine stops or repeats itself. *)

From S2P Require Import Prelude GoErrors Types Externals SortedSet BlockTracker DataGateway EngineStates MetadataTracker.
From S2P Require Import Engine EngineSpec EngineProps.

(** * Definitions *)

(** How often a hash was passed to HandleGoodBlocks and to HandleReorgedBlocks. *)
Definition times (h : string) (l : list string) : nat := length (filter (λ k, k = h) l).
Definition times_done `{HashText} {A} (h : string) (evs : list (engineEvent A)) : nat :=
  times h (done_hashes evs).
Definition times_undone `{HashText} {A} (h : string) (evs : list (engineEvent A)) : nat :=
  times h (undone_hashes evs).

(** * Lemmas *)

Lemma times_app h l1 l2 : times h (l1 ++ l2) = times h l1 + times h l2.
Proof. unfold times. by rewrite filter_app, length_app. Qed.

Lemma times_not_in h l : h ∉ l → times h l = 0.
Proof.
  unfold times. intros Hn. destruct (filter (λ k, k = h) l) as [|k ks] eqn:E; [done|].
  assert (k ∈ filter (λ k, k = h) l) as [-> ?]%list_elem_of_filter by (rewrite E; by left). done.
Qed.

Lemma times_cons h k l : times h (k :: l) = (if decide (k = h) then 1 else 0) + times h l.
Proof. unfold times. rewrite filter_cons. by case_decide. Qed.

Lemma times_NoDup h l : NoDup l → times h l = if decide (h ∈ l) then 1 else 0.
Proof.
  induction 1 as [|k l Hk Hnd IH]; [by rewrite decide_False by apply not_elem_of_nil|].
  rewrite times_cons, IH. destruct (decide (k = h)) as [->|Hne].
  - rewrite decide_False, decide_True by (done || by left). done.
  - simpl. apply decide_ext. rewrite elem_of_cons. naive_solver.
Qed.

Lemma prefix_app_split {B} (p l1 l2 : list B) :
  p `prefix_of` l1 ++ l2 →
  p `prefix_of` l1 ∨ ∃ p', p = l1 ++ p' ∧ p' `prefix_of` l2.
Proof.
  revert p. induction l1 as [|x l1 IH]; intros p Hp; [right; by exists p|].
  destruct p as [|y p]; [left; apply prefix_nil|]. simpl in Hp.
  apply prefix_cons_inv_1 in Hp as Hy. apply prefix_cons_inv_2 in Hp. subst y.
  destruct (IH _ Hp) as [?|(p' & -> & ?)]; [left; by apply prefix_cons|right; by exists p'].
Qed.

Section runs.
Context `{SortedSet SS} `{HashText} {W A : Type} `{!ServiceEngine W A} `{!SetStateDataGateway W}.
Implicit Types (t : metadataTracker SS A) (r : PollerResult) (w : W) (c : Config)
  (evs : list (engineEvent A)).

Lemma times_done_app h evs1 evs2 :
  times_done h (evs1 ++ evs2) = times_done h evs1 + times_done h evs2.
Proof. unfold times_done, done_hashes. by rewrite bind_app, times_app. Qed.

Lemma times_undone_app h evs1 evs2 :
  times_undone h (evs1 ++ evs2) = times_undone h evs1 + times_undone h evs2.
Proof. unfold times_undone, undone_hashes. by rewrite bind_app, times_app. Qed.

Lemma times_done_prefix h evs1 evs2 :
  evs1 `prefix_of` evs2 → times_done h evs1 ≤ times_done h evs2.
Proof. intros [k ->]. rewrite times_done_app. lia. Qed.

Lemma times_undone_prefix h evs1 evs2 :
  evs1 `prefix_of` evs2 → times_undone h evs1 ≤ times_undone h evs2.
Proof. intros [k ->]. rewrite times_undone_app. lia. Qed.

(** A reorged block that the engine does not know makes it panic. *)
Lemma see_reorged_unknown t blocks b :
  mt_wf t → b ∈ blocks → meta_of t (Block_String b) = None →
  ∃ msg, see_reorged t blocks = Panic msg.
Proof.
  intros Hwf Hb Hm. unfold see_reorged.
  match goal with |- context [for_each _ ?f _] => set (body := f) end.
  enough (∀ eb, ∃ msg, for_each (R := Empty_set) blocks body (t, eb) = Panic msg) as Hgen
    by (destruct (Hgen no_blocks) as [msg ->]; by exists msg).
  revert t Hwf Hb Hm. induction blocks as [|b' blocks IH]; intros t Hwf Hb Hm eb;
    [by apply not_elem_of_nil in Hb|]. simpl.
  pose proof (GetBlockMetadata_spec t callerReorgedLogs (Number b') (Block_String b') Hwf) as Hg.
  unfold body at 1. cbn beta iota.
  destruct (meta_of t (Block_String b')) as [m|] eqn:Em.
  - destruct Hg as (ref & -> & Href & Hheap). simpl.
    destruct (fire_at_ok t ref m eventSeeReorg) as (t2 & -> & Hwf2 & _ & Hh2 & _ & Hm2); [done..|].
    simpl. unfold deref. rewrite Hh2. simpl.
    assert (b ∈ blocks) as Hb' by (apply elem_of_cons in Hb as [->|?]; [congruence|done]).
    assert (meta_of t2 (Block_String b) = None) as Hmb.
    { rewrite Hm2, decide_False; [done|]. intros Hx.
      destruct (ref_of_meta _ _ _ Hwf Hx) as (? & _ & _ & ?). congruence. }
    case_decide; simpl; by apply IH.
  - destruct Hg as [Hg _]. destruct Hg as [msg ->]; [done|]. by exists msg.
Qed.

Lemma handle_result_known c t w r x :
  mt_wf t → handle_result c t w r = Ret x →
  ∀ b, b ∈ ReorgedBlocks r → is_Some (meta_of t (Block_String b)).
Proof.
  intros Hwf Hh b Hb. destruct (meta_of t (Block_String b)) eqn:Em; [by eexists|].
  destruct (see_reorged_unknown t _ b Hwf Hb Em) as [msg Hp].
  unfold handle_result in Hh. by rewrite Hp in Hh.
Qed.

(** How often a turn passes a hash to the service. *)
Lemma turn_times c t r t' evs err h :
  result_ok t r → turn_ends c t r t' evs err →
  times_done h evs ≤ (if decide (h ∈ keys (to_do t r)) then 1 else 0) ∧
  times_undone h evs ≤ (if decide (h ∈ keys (to_undo t r)) then 1 else 0) ∧
  (err = None → times_done h evs = if decide (h ∈ keys (to_do t r)) then 1 else 0) ∧
  (err = None → times_undone h evs = if decide (h ∈ keys (to_undo t r)) then 1 else 0).
Proof.
  intros (Hd1 & Hd2 & _) He.
  assert (times_done h (service_calls t r) = if decide (h ∈ keys (to_do t r)) then 1 else 0) as Hd.
  { rewrite <-times_NoDup by (by apply distinct_filter). unfold times_done, done_hashes,
      service_calls. rewrite bind_app. f_equal.
    case_decide; case_decide as Hn; simpl; by rewrite ?app_nil_r, ?Hn. }
  assert (times_undone h (service_calls t r) = if decide (h ∈ keys (to_undo t r)) then 1 else 0) as Hu.
  { rewrite <-times_NoDup by (by apply distinct_filter). unfold times_undone, undone_hashes,
      service_calls. rewrite bind_app. f_equal.
    destruct (decide (to_undo t r = [])) as [Hn|Hn], (decide (to_do t r = [])); simpl;
      by rewrite ?app_nil_r, ?Hn. }
  assert (∀ l : list (engineEvent A), l = [RecordBlock (LastGood r)] ∨
    l = [RecordBlock (LastGood r); SyncsEmitter] → times_done h l = 0 ∧ times_undone h l = 0) as Hl
    by (by intros l [-> | ->]).
  unfold turn_ends in He. destruct err as [err|].
  - pose proof (times_done_prefix h _ _ He) as H1. pose proof (times_undone_prefix h _ _ He) as H2.
    rewrite times_done_app in H1. rewrite times_undone_app in H2.
    destruct (Hl [RecordBlock (LastGood r)]) as [Hl1 Hl2]; [by left|].
    split; [lia|]. split; [lia|done].
  - destruct He as (-> & _). rewrite times_done_app, times_undone_app.
    destruct (Hl [RecordBlock (LastGood r); SyncsEmitter]) as [-> ->]; [by right|].
    rewrite Hd, Hu. split; [lia|]. split; [lia|]. split; lia.
Qed.

(** What a turn is allowed to do with a hash, by its state. *)
Definition may_do (s : blockState) : nat := match s with stateNull => 1 | _ => 0 end.
Definition may_undo (s : blockState) : nat := match s with stateHandled => 1 | _ => 0 end.

Lemma to_do_state t r h : h ∈ keys (to_do t r) → state_of t h = stateNull ∧ state_undone t r h = stateNull.
Proof.
  unfold to_do. rewrite elem_of_keys_filter. intros (b & _ & -> & Hs). split; [|done].
  unfold state_undone in Hs. case_decide; [|done]. by destruct (state_of t h).
Qed.

Lemma to_undo_state t r h :
  h ∈ keys (to_undo t r) → state_of t h = stateHandled ∧ h ∈ keys (ReorgedBlocks r).
Proof.
  unfold to_undo. rewrite elem_of_keys_filter. intros (b & Hb & <- & Hs). split; [done|].
  by apply elem_of_keys; exists b.
Qed.

(** The budget of a hash after a turn that has not forgotten it. *)
Lemma turn_budget t r h :
  (h ∈ keys (to_do t r) → state_done t r h = stateHandled) ∧
  (h ∉ keys (to_do t r) → may_do (state_done t r h) ≤ may_do (state_of t h)) ∧
  (h ∉ keys (to_do t r) → h ∉ keys (to_undo t r) →
     may_undo (state_done t r h) ≤ may_undo (state_of t h)) ∧
  (h ∈ keys (to_undo t r) → may_do (state_done t r h) = 0 ∧ may_undo (state_done t r h) = 0).
Proof.
  split_and!.
  - intros Hd. pose proof (to_do_state _ _ _ Hd) as [_ Hs]. unfold state_done.
    rewrite Hs. rewrite decide_True; [done|].
    unfold to_do in Hd. rewrite elem_of_keys_filter in Hd. destruct Hd as (b & ? & <- & _).
    apply elem_of_keys. by exists b.
  - intros _. unfold state_done, state_undone. repeat case_decide;
      destruct (state_of t h); simpl; lia.
  - unfold to_do. rewrite elem_of_keys_filter. intros Hd _.
    destruct (decide (state_done t r h = stateHandled)) as [Hh|Hh];
      [|destruct (state_done t r h); simpl; (lia || done)].
    enough (state_of t h = stateHandled) as -> by (rewrite Hh; done).
    assert (state_undone t r h = stateHandled) as Hs.
    { unfold state_done in Hh. destruct (decide (h ∈ keys (GoodBlocks r))) as [Hin|Hin]; [|done].
      destruct (decide (state_undone t r h = stateNull)) as [Hn|Hn].
      - destruct Hd. apply elem_of_keys in Hin as (b & ? & <-). by exists b.
      - destruct (state_undone t r h); naive_solver. }
    unfold state_undone in Hs. destruct (decide (h ∈ keys (ReorgedBlocks r))); [|done].
    destruct (state_of t h); naive_solver.
  - intros Hu. pose proof (to_undo_state _ _ _ Hu) as [Hs Hr]. unfold state_done, state_undone.
    rewrite Hs. destruct (decide (h ∈ keys (GoodBlocks r))),
      (decide (h ∈ keys (ReorgedBlocks r))); done.
Qed.

(** The number under which a hash is tracked, when every block of that hash has it. *)
Definition number_is t (h : string) (n : Z) : Prop :=
  ∀ m, meta_of t h = Some m → blockNumber m = n.

Lemma turn_state c t r t' evs h n :
  turn_ends c t r t' evs None → number_is t h n →
  (∀ b, b ∈ GoodBlocks r → Block_String b = h → Number b = n) → ¬ forgotten c r n →
  number_is t' h n ∧ (state_of t' h = state_done t r h ∨
    state_of t' h = stateNull ∧ (h ∉ keys (to_do t r)) ∧ state_of t h = stateNull).
Proof.
  intros (_ & _ & Hk) Hnum Hb Hf. specialize (Hk h). unfold known_done, number_known in Hk.
  assert (∀ n', (match meta_of t h with
      | Some m => Some (blockNumber m)
      | None => Number <$> head (filter (λ b, Block_String b = h) (GoodBlocks r)) end) = Some n' →
    n' = n) as Hn.
  { intros n'. destruct (meta_of t h) as [m|] eqn:Em; [intros [= <-]; by apply Hnum|].
    destruct (filter _ _) as [|b l] eqn:E; [done|]. simpl. intros [= <-].
    assert (b ∈ filter (λ b, Block_String b = h) (GoodBlocks r)) as [? ?]%list_elem_of_filter
      by (rewrite E; by left). by apply Hb. }
  destruct (match meta_of t h with Some m => _ | None => _ end) as [n'|] eqn:En; simpl in Hk.
  - rewrite (Hn n') in Hk by done. rewrite decide_False in Hk by done.
    destruct (meta_of t' h) as [m'|] eqn:Em'; [|done]. injection Hk as Hk1 Hk2. split.
    + intros m. rewrite Em'. by intros [= <-].
    + left. unfold state_of. by rewrite Em'.
  - destruct (meta_of t' h) as [m'|] eqn:Em'; [done|]. split; [intros m; by rewrite Em'|].
    right. unfold state_of. rewrite Em'. destruct (meta_of t h); [done|]. split; [done|].
    split; [|done]. unfold to_do. rewrite elem_of_keys_filter. intros (b & Hin & Hkb & _).
    destruct (filter _ _) as [|b' l] eqn:E; [|done].
    assert (b ∈ filter (λ b, Block_String b = h) (GoodBlocks r)) as Hx
      by (by apply list_elem_of_filter). rewrite E in Hx. by apply not_elem_of_nil in Hx.
Qed.

(** The budgets hold along a run from any tracker. *)
Lemma handleResults_budget c t w rs t' w' evs err h n :
  env_returns W A → mt_wf t → number_is t h n →
  (∀ r, r ∈ rs → distinct (ReorgedBlocks r) ∧ distinct (GoodBlocks r) ∧
     (∀ b, b ∈ GoodBlocks r → Block_String b = h → Number b = n) ∧ ¬ forgotten c r n) →
  handleResults c t w rs = Ret (t', w', (evs, err)) →
  ∀ p, p `prefix_of` evs → times_done h p ≤ may_do (state_of t h) ∧
    times_undone h p ≤ times_done h p + may_undo (state_of t h).
Proof.
  intros Henv. revert t w evs. induction rs as [|r rs IH]; intros t w evs Hwf Hnum Hrs Hrun p Hp.
  { simplify_eq/=. apply prefix_nil_inv in Hp as ->. simpl.
    unfold times_done, times_undone, times. simpl. lia. }
  simpl in Hrun. apply bind_Ret_inv in Hrun as ([[t1 w1] [evs1 err1]] & Hh & Hrun).
  destruct (Hrs r) as (Hd1 & Hd2 & Hb & Hf); [by left|].
  assert (result_ok t r) as Hok by (split_and!; try done; by eapply handle_result_known).
  destruct (handle_result_ends c t w r Henv Hwf Hok) as (t2 & w2 & evs2 & err2 & Hh2 & Hends).
  rewrite Hh in Hh2. injection Hh2 as <- <- <- <-.
  destruct (turn_times c t r t1 evs1 err1 h Hok Hends) as (Hdone & Hundone & Hdone' & _).
  assert (∀ q, q `prefix_of` evs1 → times_done h q ≤ may_do (state_of t h) ∧
    times_undone h q ≤ times_done h q + may_undo (state_of t h)) as Hturn.
  { intros q Hq. pose proof (times_done_prefix h _ _ Hq). pose proof (times_undone_prefix h _ _ Hq).
    destruct (decide (h ∈ keys (to_do t r))) as [Hx|Hx];
      [apply to_do_state in Hx as [Hx _]; rewrite Hx; simpl|];
      (destruct (decide (h ∈ keys (to_undo t r))) as [Hy|Hy];
        [apply to_undo_state in Hy as [Hy _]; rewrite Hy in *; simpl|]); try done; lia. }
  destruct err1 as [err1|]; [simplify_eq; by apply Hturn|].
  apply bind_Ret_inv in Hrun as ([[t3 w3] [evs3 err3]] & Hrest & Hrun). simplify_eq.
  apply prefix_app_split in Hp as [Hp|(p' & -> & Hp)]; [by apply Hturn|].
  destruct (turn_state c t r t1 evs1 h n Hends Hnum Hb Hf) as [Hnum1 Hst].
  destruct (IH t1 w1 evs3) with (p := p') as [IHd IHu]; [by destruct Hends as (_ & ? & _)|done| |done..|].
  { intros r' Hr'. apply Hrs. by right. }
  rewrite times_done_app, times_undone_app. specialize (Hdone' eq_refl).
  pose proof (turn_budget t r h) as (B1 & B2 & B3 & B4).
  destruct (decide (h ∈ keys (to_do t r))) as [Hx|Hx].
  - destruct (to_do_state _ _ _ Hx) as [Hs _].
    assert (h ∉ keys (to_undo t r)) as Hy by (intros [Hy _]%to_undo_state; congruence).
    rewrite decide_False in Hundone by done.
    destruct Hst as [Hst|(_ & ? & _)]; [|done].
    rewrite Hst, (B1 Hx) in IHd, IHu. rewrite Hs. simpl in *. lia.
  - destruct (decide (h ∈ keys (to_undo t r))) as [Hy|Hy].
    + destruct (to_undo_state _ _ _ Hy) as [Hs _]. destruct (B4 Hy) as [B5 B6].
      destruct Hst as [Hst|(_ & _ & ?)]; [|congruence].
      rewrite Hst in IHd, IHu. rewrite Hs. simpl. lia.
    + assert (may_do (state_of t1 h) ≤ may_do (state_of t h) ∧
        may_undo (state_of t1 h) ≤ may_undo (state_of t h)) as [B7 B8]; [|lia].
      destruct Hst as [Hst|(Hst & _ & Hs)]; [|by rewrite Hst, Hs].
      rewrite Hst. split; [by apply B2|by apply B3].
Qed.

(** A turn without reorged blocks does every good block that is not known. *)
Lemma turn_all_new c t w r t' w' evs h :
  env_returns W A → mt_wf t → ReorgedBlocks r = [] → distinct (GoodBlocks r) →
  handle_result c t w r = Ret (t', w', (evs, None)) →
  h ∈ keys (GoodBlocks r) → meta_of t h = None →
  times_done h evs = 1 ∧ mt_wf t' ∧ number_state <$> meta_of t' h = known_done c t r h.
Proof.
  intros Henv Hwf Hr Hd Hh Hg Hm.
  assert (result_ok t r) as Hok.
  { split; [rewrite Hr; constructor|]. split; [done|]. rewrite Hr. by intros ? ?%not_elem_of_nil. }
  destruct (handle_result_ends c t w r Henv Hwf Hok) as (t2 & w2 & evs2 & err2 & Hh2 & Hends).
  rewrite Hh in Hh2. injection Hh2 as <- <- <- <-.
  destruct (turn_times c t r t' evs None h Hok Hends) as (_ & _ & Hdone & _).
  destruct Hends as (_ & Hwf' & Hk). split; [|done]. rewrite Hdone by done.
  rewrite decide_True; [done|]. unfold to_do. rewrite elem_of_keys_filter.
  apply elem_of_keys in Hg as (b & Hb & <-). exists b. split; [done|]. split; [done|].
  unfold state_undone, state_of. by rewrite Hm, Hr.
Qed.

(** * Properties *)

(** C6: The engine's contract for one result, when the service and the gateway return: the
    blocks to undo (reorged and HANDLED) go to HandleReorgedBlocks with their artifacts,
    then the blocks to do (good and not seen) to HandleGoodBlocks, neither call being made
    without blocks, then LastGoodBlock is recorded, then the emitter is released; number
    and state of every hash are then the reference ones, less the numbers forgotten.  If
    an error comes, the calls made are a prefix of these without the release. *)
Theorem engine_handles_result c t w r :
  env_returns W A → mt_wf t → result_ok t r →
  ∃ t' w' evs err, handle_result c t w r = Ret (t', w', (evs, err)) ∧
    match err with
    | None => evs = service_calls t r ++ [RecordBlock (LastGood r); SyncsEmitter] ∧
        mt_wf t' ∧ ∀ h, number_state <$> meta_of t' h = known_done c t r h
    | Some _ => evs `prefix_of` (service_calls t r ++ [RecordBlock (LastGood r)])
    end.
Proof.
  intros Henv Hwf Hok.
  destruct (handle_result_ends c t w r Henv Hwf Hok) as (t' & w' & evs & err & Hh & He).
  by exists t', w', evs, err.
Qed.


(** A result with a reorged block that the engine does not know, because it was never
    good or has been forgotten, makes the engine panic before anything is called. *)
Lemma engine_panics_on_unknown_reorg c t w r b :
  mt_wf t → b ∈ ReorgedBlocks r → meta_of t (Block_String b) = None →
  ∃ msg, handle_result c t w r = Panic msg.
Proof.
  intros Hwf Hb Hm. destruct (see_reorged_unknown t _ b Hwf Hb Hm) as [msg Hp].
  exists msg. unfold handle_result. by rewrite Hp.
Qed.

(** A handled block that one result reports both as reorged and as good under the same
    hash is undone and not done again: its state becomes INVALID. *)
Lemma engine_same_hash_not_redone c t w r t' w' evs h :
  env_returns W A → mt_wf t → result_ok t r →
  h ∈ keys (ReorgedBlocks r) → h ∈ keys (GoodBlocks r) → state_of t h = stateHandled →
  handle_result c t w r = Ret (t', w', (evs, None)) →
  times_undone h evs = 1 ∧ times_done h evs = 0 ∧ state_done t r h = stateInvalid.
Proof.
  intros Henv Hwf Hok Hr Hg Hs Hh.
  destruct (handle_result_ends c t w r Henv Hwf Hok) as (t2 & w2 & evs2 & err2 & Hh2 & Hends).
  rewrite Hh in Hh2. injection Hh2 as <- <- <- <-.
  assert (h ∉ keys (to_do t r)) as Hx by (intros [? _]%to_do_state; congruence).
  assert (h ∈ keys (to_undo t r)) as Hy.
  { unfold to_undo. rewrite elem_of_keys_filter. apply elem_of_keys in Hr as (b & ? & <-).
    by exists b. }
  destruct (turn_times c t r t' evs None h Hok Hends) as (_ & _ & Hdone & Hundone).
  rewrite decide_False in Hdone by done. rewrite decide_True in Hundone by done.
  split; [by apply Hundone|]. split; [by apply Hdone|].
  unfold state_done, state_undone. by rewrite Hs, !decide_True.
Qed.

(** With MaxGoBackRetries 0 the engine forgets a result as soon as it has handled it:
    when the same result comes again, every good block up to its last good block is passed
    to the service a second time. *)
Lemma engine_forgets_without_retries c w r t' w' evs h :
  env_returns W A → MaxGoBackRetries c = 0%Z → ReorgedBlocks r = [] →
  distinct (GoodBlocks r) → (0 ≤ LastGood r < two63)%Z →
  (∀ b, b ∈ GoodBlocks r → (0 ≤ Number b ≤ LastGood r)%Z) →
  handleResults c newMetadataTracker w [r; r] = Ret (t', w', (evs, None)) →
  h ∈ keys (GoodBlocks r) → times_done h evs = 2.
Proof.
  intros Henv Hmax Hr Hd HL Hb Hrun Hh. simpl in Hrun.
  apply bind_Ret_inv in Hrun as ([[t1 w1] [evs1 err1]] & Hh1 & Hrun).
  destruct err1 as [err1|]; [done|].
  apply bind_Ret_inv in Hrun as ([[t3 w3] [evs3 err3]] & Hrun2 & Hrun). simplify_eq.
  apply bind_Ret_inv in Hrun2 as ([[t2 w2] [evs2 err2]] & Hh2 & Hrun2).
  destruct err2 as [err2|]; simplify_eq/=. rewrite app_nil_r, times_done_app.
  destruct (turn_all_new c newMetadataTracker w r t1 w1 evs1 h) as (-> & Hwf1 & Hk);
    [done|apply newMetadataTracker_wf|done..| |].
  { unfold meta_of, ref_of. simpl. by rewrite ss_New_spec. }
  destruct (turn_all_new c t1 w1 r t' w' evs2 h) as (-> & _); [done..| |done].
  unfold known_done in Hk. destruct (number_known _ r h) as [n|] eqn:En; simpl in Hk.
  - rewrite decide_True in Hk; [by destruct (meta_of t1 h)|].
    unfold number_known in En. unfold meta_of, ref_of in En. simpl in En.
    rewrite ss_New_spec, lookup_empty in En. simpl in En.
    destruct (filter (λ b, Block_String b = h) (GoodBlocks r)) as [|b l] eqn:Ef; [done|].
    simplify_eq/=. assert (b ∈ filter (λ b, Block_String b = h) (GoodBlocks r))
      as [_ Hin]%list_elem_of_filter by (rewrite Ef; by left).
    apply Hb in Hin. unfold forgotten, forget_bound. rewrite Hmax.
    unfold u64_mul, u64_sub. rewrite Z.mul_0_r. change (wrap64 0) with 0%Z.
    rewrite Z.sub_0_r, wrap64_small by (unfold is_u64; lia).
    rewrite !to_int64_small by lia. lia.
  - by destruct (meta_of t1 h).
Qed.


(** The artifacts that the service kept for good blocks never reach it again:
    HandleGoodBlocks is always called with nil artifacts. *)
Lemma engine_good_artifacts_nil c t w r t' w' evs err bs arts :
  env_returns W A → mt_wf t → result_ok t r →
  handle_result c t w r = Ret (t', w', (evs, err)) →
  CallGood bs arts ∈ evs → arts = None ∧ bs = to_do t r.
Proof.
  intros Henv Hwf Hok Hh Hin.
  destruct (handle_result_ends c t w r Henv Hwf Hok) as (t2 & w2 & evs2 & err2 & Hh2 & Hends).
  rewrite Hh in Hh2. injection Hh2 as <- <- <- <-.
  assert (CallGood bs arts ∈ service_calls t r) as Hc.
  { unfold turn_ends in Hends. destruct err as [err|].
    - destruct Hends as [k Hk]. assert (CallGood bs arts ∈ evs ++ k) as Hx by set_solver.
      rewrite <-Hk in Hx. set_solver.
    - destruct Hends as [-> _]. set_solver. }
  unfold service_calls in Hc. repeat case_decide; set_solver.
Qed.
End runs.
