(* ===== verification/EngineArtifacts.v ===== *)
(** What the engine does with the artifacts that the service returns: it keeps them with the
    block's metadata and hands them back when the block is reorged. *)

From S2P Require Import Prelude GoErrors Types Externals SortedSet BlockTracker DataGateway EngineStates MetadataTracker.
From S2P Require Import Engine EngineSpec EngineProps EngineRuns.

(** * Definitions *)

Section answers.
Context `{SortedSet SS} `{HashText} {W A : Type} `{!ServiceEngine W A} `{!SetStateDataGateway W}.
Implicit Types (t : metadataTracker SS A) (r : PollerResult) (w : W).

(** What the service answers to a call that is made only when there are blocks. *)
Definition served (call : W → list Block → goslice (goslice A) →
    outcome (W * (gmap Z (goslice A) * option error))) w bs arts w' (m : gmap Z (goslice A)) : Prop :=
  if decide (bs = []) then w' = w ∧ m = ∅ else call w bs arts = Ret (w', (m, None)).

(** The answers of the service to a turn: the maps for the reorged and for the good blocks. *)
Definition turn_answers t r w w' (m1 m2 : gmap Z (goslice A)) : Prop :=
  ∃ w1, served HandleReorgedBlocks w (to_undo t r) (Some (artifacts_of t <$> to_undo t r)) w1 m1 ∧
    served HandleGoodBlocks w1 (to_do t r) None w' m2.

(** The artifacts of every hash after a turn with these answers. *)
Definition artifacts_done t r (m1 m2 : gmap Z (goslice A)) (h : string) : goslice A :=
  if decide (h ∈ keys (to_do t r)) then default None (m2 !! HexToHash h)
  else if decide (h ∈ keys (to_undo t r)) then default None (m1 !! HexToHash h)
  else from_option artifacts None (meta_of t h).
End answers.

(** * Lemmas *)

Section lemmas.
Context `{SortedSet SS} `{HashText} {W A : Type} `{!ServiceEngine W A} `{!SetStateDataGateway W}.
Implicit Types (t : metadataTracker SS A) (r : PollerResult) (w : W) (c : Config) (h : string).

Lemma served_arts_run call w bs arts w' (m : gmap Z (goslice A)) (ev : engineEvent A) evs :
  served call w bs arts w' m →
  (if bool_decide (bs ≠ []) then '(w, r) ← call w bs arts; Ret (w, evs ++ [ev], r)
   else Ret (w, evs, (∅, None))) =
  Ret (w', evs ++ (if decide (bs = []) then [] else [ev]), (m, @None error)).
Proof.
  unfold served. destruct (decide (bs = [])) as [->|Hne].
  - intros [-> ->]. by rewrite bool_decide_false, app_nil_r by (intros Hx; by apply Hx).
  - intros Hc. rewrite bool_decide_true by done. by rewrite Hc.
Qed.

Lemma served_inv call w bs arts (ev : engineEvent A) evs w' evs' (m : gmap Z (goslice A)) :
  (if bool_decide (bs ≠ []) then '(w, r) ← call w bs arts; Ret (w, evs ++ [ev], r)
   else Ret (w, evs, (∅, None))) = Ret (w', evs', (m, @None error)) →
  served call w bs arts w' m.
Proof.
  unfold served. destruct (decide (bs = [])) as [->|Hne].
  - rewrite bool_decide_false by (intros Hx; by apply Hx). by intros [= <- _ <-].
  - rewrite bool_decide_true by done. destruct (call w bs arts) as [[w1 [m1 err]]| |]; [|done..].
    simpl. by intros [= <- _ <- ->].
Qed.

(** Artifacts through the passes of a turn. *)
Lemma passes_artifacts t t1 t2 t3 t4 r (rb gb : list Block) m1 m2 :
  result_ok t r → rb = to_undo t r → gb = to_do t r →
  (∀ h, meta_of t1 h = if decide (h ∈ Block_String <$> ReorgedBlocks r)
     then fired eventSeeReorg <$> meta_of t h else meta_of t h) →
  (∀ h, meta_of t2 h = if decide (h ∈ Block_String <$> rb)
     then settled eventHandleReorg m1 <$> meta_of t1 h else meta_of t1 h) →
  (∀ b, b ∈ GoodBlocks r → meta_of t3 (Block_String b) =
     Some (fired eventSeeBlock (default (fresh_meta b) (meta_of t2 (Block_String b))))) →
  (∀ h, h ∉ Block_String <$> GoodBlocks r → meta_of t3 h = meta_of t2 h) →
  (∀ h, meta_of t4 h = if decide (h ∈ Block_String <$> gb)
     then settled eventHandle m2 <$> meta_of t3 h else meta_of t3 h) →
  mt_wf t3 → mt_wf t1 →
  ∀ h m, meta_of t4 h = Some m → artifacts m = artifacts_done t r m1 m2 h.
Proof.
  intros Hok -> -> Hm1 Hm2 Hin3 Hout3 Hm4 Hwf3 Hwf1 h m Hm. unfold artifacts_done, keys.
  assert (∀ t' m', mt_wf t' → meta_of t' h = Some m' → blockHash m' = h) as Hhash.
  { intros t' m' Hwf Hm'. destruct (ref_of t' h) as [ref|] eqn:Er.
    - destruct (ref_of_meta _ _ _ Hwf Er) as (m0 & _ & Hh & Hm0). congruence.
    - unfold meta_of in Hm'. by rewrite Er in Hm'. }
  assert (∀ m', meta_of t3 h = Some m' → h ∉ Block_String <$> to_do t r →
    artifacts m' = from_option artifacts None (meta_of t2 h)) as H3.
  { intros m' Hm'. destruct (decide (h ∈ Block_String <$> GoodBlocks r)) as [Hg|Hg].
    - apply list_elem_of_fmap in Hg as (b & -> & Hb). rewrite Hin3 in Hm' by done. simplify_eq. intros _. simpl.
      by destruct (meta_of t2 (Block_String b)).
    - rewrite Hout3 in Hm' by done. by rewrite Hm'. }
  rewrite Hm4 in Hm. case_decide as Hd.
  - destruct (meta_of t3 h) as [m3|] eqn:E3; simplify_eq/=. by rewrite (Hhash t3 m3).
  - rewrite (H3 m Hm Hd), Hm2. case_decide as Hu.
    + destruct (meta_of t1 h) as [m'|] eqn:E1; simpl; [by rewrite (Hhash t1 m')|].
      unfold keys in *. apply list_elem_of_fmap in Hu as (b & -> & [_ Hb]%list_elem_of_filter).
      destruct Hok as (_ & _ & Hin). destruct (Hin b Hb) as [mb Hmb].
      rewrite Hm1, Hmb in E1. by case_decide.
    + rewrite Hm1. case_decide; [|done]. by destruct (meta_of t h).
Qed.

(** A turn to which service and gateway answer without error. *)
Lemma handle_result_served c t w r w2 w3 m1 m2 :
  mt_wf t → result_ok t r → turn_answers t r w w2 m1 m2 →
  SetLastRecordedBlock w2 (LastGood r) = Ret (w3, None) →
  ∃ t', handle_result c t w r =
      Ret (t', w3, (service_calls t r ++ [RecordBlock (LastGood r); SyncsEmitter], None)) ∧
    mt_wf t' ∧ (∀ h, number_state <$> meta_of t' h = known_done c t r h) ∧
    ∀ h m, meta_of t' h = Some m → artifacts m = artifacts_done t r m1 m2 h.
Proof.
  intros Hwf Hok (w1 & Hundo & Hdo) Hset. pose proof Hok as (Hd1 & Hd2 & Hin). unfold handle_result.
  destruct (see_reorged_ok t (ReorgedBlocks r))
    as (t1 & rb & -> & (Hwf1 & _ & Hm1) & Hbl & Hrefs & Harts); [done..|]. cbn [mbind outcome_bind].
  fold (to_undo t r) in Hbl. rewrite Hbl in Harts.
  assert (to_undo t r = [] ∨ eb_artifacts rb = Some (artifacts_of t <$> to_undo t r)) as Hrb.
  { destruct (to_undo t r) eqn:Eu; [by left|right]. by apply slice_some. }
  assert (served HandleReorgedBlocks w (to_undo t r) (eb_artifacts rb) w1 m1) as Hundo'.
  { destruct Hrb as [Hnil|Hsome]; [|by rewrite Hsome]. unfold served in *. by rewrite Hnil in *. }
  rewrite Hbl. pose proof (served_arts_run _ _ _ _ _ _ (CallReorged (to_undo t r) (eb_artifacts rb)) [] Hundo') as Hrun1.
  simpl in Hrun1. rewrite Hrun1. cbn [mbind outcome_bind].
  destruct (settle_ok eventHandleReorg t1 (eb_metadata rb) (eb_blocks rb) m1)
    as (t2 & -> & Hwf2 & _ & Hm2); [done|rewrite Hbl; by apply distinct_filter|done..|]. cbn [mbind outcome_bind].
  destruct (see_good_ok t2 rb (GoodBlocks r))
    as (t3 & rb' & gb & -> & (Hwf3 & Hin3 & Hout3) & Hgbl & Hgrefs & Hgarts); [done..|]. cbn [mbind outcome_bind].
  pose proof (undone_ok t t1 t2 rb m1 r Hok Hbl Hm1 Hm2) as Hns2.
  assert (eb_blocks gb = to_do t r) as Hgb.
  { rewrite Hgbl. apply list_filter_iff. intros b. by rewrite (state_of_undone t t2 r). }
  rewrite Hgarts, Hgb, (served_arts_run _ _ _ _ _ _ _ _ Hdo). cbn [mbind outcome_bind].
  destruct (settle_ok eventHandle t3 (eb_metadata gb) (eb_blocks gb) m2)
    as (t4 & -> & Hwf4 & _ & Hm4); [done|rewrite Hgbl; by apply distinct_filter|done..|]. cbn [mbind outcome_bind].
  destruct (done_ok t t2 t3 t4 gb m2 r Hok Hns2 Hgbl Hin3 Hout3 Hm4) as [_ Hns4].
  destruct (ClearUntil_spec t4 (forget_bound c r)) as (t5 & Hcl & Hwf5 & _ & Hm5); [done|].
  unfold forget_bound in Hcl. rewrite Hcl. simpl. rewrite Hset. simpl.
  exists t5. split; [|split; [done|split; [by eapply cleared_ok|]]].
  - do 3 f_equal. unfold service_calls. rewrite <-app_assoc. simpl. f_equal. f_equal.
    case_decide as Hne; [done|]. by destruct Hrb as [?| ->].
  - intros h m. rewrite Hm5. destruct (meta_of t4 h) as [m4|] eqn:E4; [|done]. simpl.
    intros Hm. case_decide; simplify_eq. by apply (passes_artifacts t t1 t2 t3 t4 r (eb_blocks rb) (eb_blocks gb)).
Qed.

(** A turn without error has been answered so. *)
Lemma handle_result_answered c t w r t' w' evs :
  mt_wf t → result_ok t r → handle_result c t w r = Ret (t', w', (evs, None)) →
  ∃ w2 m1 m2, turn_answers t r w w2 m1 m2 ∧ SetLastRecordedBlock w2 (LastGood r) = Ret (w', None).
Proof.
  intros Hwf Hok. pose proof Hok as (Hd1 & Hd2 & Hin). unfold handle_result.
  destruct (see_reorged_ok t (ReorgedBlocks r))
    as (t1 & rb & -> & (Hwf1 & _ & Hm1) & Hbl & Hrefs & Harts); [done..|]. cbn [mbind outcome_bind].
  fold (to_undo t r) in Hbl. rewrite Hbl in Harts.
  intros ([[w1 evs1] [m1 err1]] & Hc1 & Hrun)%bind_Ret_inv. destruct err1 as [err1|]; [done|].
  apply (served_inv HandleReorgedBlocks w _ _ (CallReorged (eb_blocks rb) (eb_artifacts rb)) []) in Hc1.
  destruct (settle_ok eventHandleReorg t1 (eb_metadata rb) (eb_blocks rb) m1)
    as (t2 & Hs2 & Hwf2 & _ & Hm2); [done|rewrite Hbl; by apply distinct_filter|done..|].
  rewrite Hs2 in Hrun. cbn [mbind outcome_bind] in Hrun.
  destruct (see_good_ok t2 rb (GoodBlocks r))
    as (t3 & rb' & gb & Hs3 & (Hwf3 & Hin3 & Hout3) & Hgbl & Hgrefs & Hgarts); [done..|].
  rewrite Hs3 in Hrun. cbn [mbind outcome_bind] in Hrun.
  pose proof (undone_ok t t1 t2 rb m1 r Hok Hbl Hm1 Hm2) as Hns2.
  assert (eb_blocks gb = to_do t r) as Hgb.
  { rewrite Hgbl. apply list_filter_iff. intros b. by rewrite (state_of_undone t t2 r). }
  apply bind_Ret_inv in Hrun as ([[w2 evs2] [m2 err2]] & Hc2 & Hrun). destruct err2 as [err2|]; [done|].
  apply served_inv in Hc2. rewrite Hgb, Hgarts in Hc2.
  apply bind_Ret_inv in Hrun as (t4 & _ & Hrun). apply bind_Ret_inv in Hrun as (t5 & _ & Hrun).
  apply bind_Ret_inv in Hrun as ([w3 err3] & Hset & Hrun). destruct err3; [done|]. simplify_eq.
  exists w2, m1, m2. split; [|done]. exists w1. split; [|done]. rewrite Hbl in Hc1.
  unfold served in Hc1 |- *. destruct (decide (to_undo t r = [])) as [Hne|Hne]; [done|]. by rewrite (slice_some (eb_artifacts rb) _ Harts) in Hc1
    by by intros ?%fmap_nil_inv.
Qed.

(** A turn that has blocks to undo begins with their call, with what is kept for them. *)
Lemma undo_called c t w r t' w' evs err :
  mt_wf t → result_ok t r → to_undo t r ≠ [] → handle_result c t w r = Ret (t', w', (evs, err)) →
  ∃ evs', evs = CallReorged (to_undo t r) (Some (artifacts_of t <$> to_undo t r)) :: evs'.
Proof.
  intros Hwf Hok Hne. pose proof Hok as (Hd1 & _ & Hin). unfold handle_result.
  destruct (see_reorged_ok t (ReorgedBlocks r))
    as (t1 & rb & -> & _ & Hbl & _ & Harts); [done..|]. cbn [mbind outcome_bind].
  fold (to_undo t r) in Hbl. rewrite Hbl in *. rewrite (bool_decide_true (to_undo t r ≠ [])) by done.
  rewrite (slice_some (eb_artifacts rb) _ Harts) by by intros ?%fmap_nil_inv.
  intros ([[w1 evs1] [m1 err1]] & Hc1 & Hrun)%bind_Ret_inv.
  apply bind_Ret_inv in Hc1 as ([w1' x] & _ & Hc1). simplify_eq.
  destruct err1 as [err1|]; [simplify_eq; by eexists|].
  apply bind_Ret_inv in Hrun as (t2 & _ & Hrun). apply bind_Ret_inv in Hrun as ([[t3 rb'] gb] & _ & Hrun).
  apply bind_Ret_inv in Hrun as ([[w2 evs2] [m2 err2]] & Hc2 & Hrun).
  assert (∃ evs', evs2 = CallReorged (to_undo t r) (Some (artifacts_of t <$> to_undo t r)) :: evs') as [evs' ->].
  { destruct (bool_decide (eb_blocks gb ≠ [])); [apply bind_Ret_inv in Hc2 as ([w2' x'] & _ & Hc2)|];
      injection Hc2 as _ <- _; by eexists. }
  destruct err2 as [err2|]; [simplify_eq; by eexists|].
  apply bind_Ret_inv in Hrun as (t4 & _ & Hrun). apply bind_Ret_inv in Hrun as (t5 & _ & Hrun).
  apply bind_Ret_inv in Hrun as ([w3 err3] & _ & Hrun). destruct err3; simplify_eq; by eexists.
Qed.

(** What is known of a hash that is handled, with its number and artifacts. *)
Definition handled_with t h (n : Z) (arts : goslice A) : Prop :=
  ∃ m, meta_of t h = Some m ∧ blockNumber m = n ∧ state m = stateHandled ∧ artifacts m = arts.

(** A turn that neither reorgs nor forgets a handled block keeps its artifacts. *)
Lemma turn_keeps c t w r t' w' evs h n arts :
  mt_wf t → distinct (ReorgedBlocks r) → distinct (GoodBlocks r) →
  handle_result c t w r = Ret (t', w', (evs, None)) → handled_with t h n arts →
  h ∉ keys (ReorgedBlocks r) → ¬ forgotten c r n → mt_wf t' ∧ handled_with t' h n arts.
Proof.
  intros Hwf Hd1 Hd2 Hrun (m & Hm & <- & Hst & <-) Hr Hf.
  assert (result_ok t r) as Hok by (split_and!; try done; by eapply handle_result_known).
  destruct (handle_result_answered c t w r t' w' evs Hwf Hok Hrun) as (w2 & m1 & m2 & Hans & Hset).
  destruct (handle_result_served c t w r w2 w' m1 m2 Hwf Hok Hans Hset) as (t'' & Hrun' & Hwf' & Hk & Ha).
  rewrite Hrun in Hrun'. injection Hrun' as <- _. split; [done|].
  assert (state_of t h = stateHandled) as Hst' by (unfold state_of; by rewrite Hm).
  assert (state_undone t r h = stateHandled) as Hund by (unfold state_undone; by rewrite decide_False).
  specialize (Hk h). unfold known_done, number_known, state_done in Hk. rewrite Hm, Hund in Hk. simpl in Hk.
  rewrite decide_False in Hk by done. destruct (meta_of t' h) as [m'|] eqn:Em'; [|done].
  simpl in Hk. injection Hk as Hn Hs. exists m'. split; [done|]. split; [done|].
  split; [by case_decide|]. rewrite (Ha h m') by done. unfold artifacts_done.
  rewrite decide_False, decide_False, Hm; [done|intros (b & Hb & <- & _)%elem_of_keys_filter; apply Hr..|].
  - apply elem_of_keys. by exists b.
  - intros (b & _ & <- & Hb)%elem_of_keys_filter. congruence.
Qed.

Lemma results_keep c t w rs t' w' evs h n arts :
  (∀ r, r ∈ rs → distinct (ReorgedBlocks r) ∧ distinct (GoodBlocks r) ∧
    (h ∉ keys (ReorgedBlocks r)) ∧ ¬ forgotten c r n) →
  mt_wf t → handleResults c t w rs = Ret (t', w', (evs, None)) → handled_with t h n arts →
  mt_wf t' ∧ handled_with t' h n arts.
Proof.
  revert t w evs. induction rs as [|r rs IH]; intros t w evs Hrs Hwf Hrun Hh; [by simplify_eq/=|].
  simpl in Hrun. apply bind_Ret_inv in Hrun as ([[t1 w1] [evs1 err1]] & Hturn & Hrun).
  destruct err1 as [err1|]; [done|]. apply bind_Ret_inv in Hrun as ([[t2 w2] [evs2 err2]] & Hrest & Hrun).
  simplify_eq. destruct (Hrs r) as (Hd1 & Hd2 & Hr & Hf); [by left|].
  destruct (turn_keeps c t w r t1 w1 evs1 h n arts) as [Hwf1 Hh1]; [done..|].
  apply (IH t1 w1 evs2); [|done..]. intros r' Hr'. apply Hrs. by right.
Qed.

(** A turn on a new good block: it is handled, with the artifacts of the service's answer. *)
Lemma turn_handles c t w r t' w' evs b w2 m1 m2 :
  mt_wf t → result_ok t r → turn_answers t r w w2 m1 m2 →
  handle_result c t w r = Ret (t', w', (evs, None)) → b ∈ GoodBlocks r →
  meta_of t (Block_String b) = None → ¬ forgotten c r (Number b) →
  mt_wf t' ∧ handled_with t' (Block_String b) (Number b) (default None (m2 !! BHash b)).
Proof.
  intros Hwf Hok Hans Hrun Hb Hm Hf.
  destruct (handle_result_answered c t w r t' w' evs Hwf Hok Hrun) as (w2' & m1' & m2' & Hans' & Hset).
  assert (w2' = w2 ∧ m2' = m2) as [-> ->].
  { destruct Hans as (wa & Ha1 & Ha2), Hans' as (wb & Hb1 & Hb2). unfold served in *.
    repeat case_decide; naive_solver congruence. }
  destruct (handle_result_served c t w r w2 w' m1 m2 Hwf Hok Hans Hset) as (t'' & Hrun' & Hwf' & Hk & Ha).
  rewrite Hrun in Hrun'. injection Hrun' as <- _. split; [done|].
  pose proof Hok as (_ & Hd2 & Hin).
  assert (Block_String b ∉ keys (ReorgedBlocks r)) as Hr.
  { intros (b' & Hb' & Heq)%elem_of_keys. apply Hin in Hb' as [? Hb']. rewrite Heq in Hb'. congruence. }
  assert (state_undone t r (Block_String b) = stateNull) as Hund
    by (unfold state_undone, state_of; by rewrite decide_False, Hm).
  assert (Block_String b ∈ keys (GoodBlocks r)) as Hg by (apply elem_of_keys; by exists b).
  specialize (Hk (Block_String b)). unfold known_done, number_known, state_done in Hk.
  rewrite Hm, Hund, (head_filter_key _ _ Hd2 Hb) in Hk. simpl in Hk.
  rewrite decide_False, decide_True in Hk by done. destruct (meta_of t' _) as [m'|] eqn:Em'; [|done].
  simpl in Hk. injection Hk as Hn Hs. exists m'. split; [done|]. split; [done|]. split; [done|].
  rewrite (Ha _ m') by done. unfold artifacts_done. rewrite decide_True.
  - unfold Block_String. by rewrite HexToHash_String.
  - unfold to_do. apply elem_of_keys_filter. by exists b.
Qed.

(** * Properties *)

(** C7: Artifacts come back.  A new good block that the engine handles: whatever results follow,
    as long as they neither reorg the block nor make the engine forget its number, and whatever
    they make of other blocks, the turn that reports the block as reorged begins with a call of
    HandleReorgedBlocks in which the block comes with exactly the artifacts that the service
    returned for its hash when it handled the block, at the block's position. *)
Theorem engine_gives_artifacts_back c t w r t1 w1 evs1 rs t2 w2 evs2 r2 t3 w3 evs3 err3 b :
  mt_wf t →
  (∀ r', r' ∈ r :: rs → distinct (ReorgedBlocks r') ∧ distinct (GoodBlocks r') ∧
    (Block_String b ∉ keys (ReorgedBlocks r')) ∧ ¬ forgotten c r' (Number b)) →
  b ∈ GoodBlocks r → meta_of t (Block_String b) = None →
  handle_result c t w r = Ret (t1, w1, (evs1, None)) →
  handleResults c t1 w1 rs = Ret (t2, w2, (evs2, None)) →
  distinct (ReorgedBlocks r2) → distinct (GoodBlocks r2) → b ∈ ReorgedBlocks r2 →
  handle_result c t2 w2 r2 = Ret (t3, w3, (evs3, err3)) →
  ∃ w' m1 m2, turn_answers t r w w' m1 m2 ∧
    ∃ bs arts evs i, evs3 = CallReorged bs (Some arts) :: evs ∧ bs !! i = Some b ∧
      arts !! i = Some (default None (m2 !! BHash b)).
Proof.
  intros Hwf Hrs Hb Hm Hrun Hruns Hd1 Hd2 Hb2 Hrun2.
  destruct (Hrs r) as (Hdr & Hdg & _ & Hf); [by left|].
  assert (result_ok t r) as Hok by (split_and!; try done; by eapply handle_result_known).
  destruct (handle_result_answered c t w r t1 w1 evs1 Hwf Hok Hrun) as (w' & m1 & m2 & Hans & _).
  exists w', m1, m2. split; [done|].
  destruct (turn_handles c t w r t1 w1 evs1 b w' m1 m2) as [Hwf1 Hh1]; [done..|].
  destruct (results_keep c t1 w1 rs t2 w2 evs2 (Block_String b) (Number b) (default None (m2 !! BHash b)))
    as [Hwf2 (m & Hm2 & _ & Hst & Hart)]; [intros r' ?; apply Hrs; by right|done..|].
  assert (result_ok t2 r2) as Hok2 by (split_and!; try done; by eapply handle_result_known).
  assert (b ∈ to_undo t2 r2) as Hin by (apply list_elem_of_filter; unfold state_of; by rewrite Hm2).
  destruct (undo_called c t2 w2 r2 t3 w3 evs3 err3) as [evs ->]; [done..| |done|].
  { intros Hnil. rewrite Hnil in Hin. by apply not_elem_of_nil in Hin. }
  apply list_elem_of_lookup in Hin as [i Hi]. eexists _, _, _, i. split; [done|]. split; [done|].
  rewrite list_lookup_fmap, Hi. simpl. unfold artifacts_of. by rewrite Hm2, <-Hart.
Qed.
End lemmas.
