(* ===== verification/EmitterClient.v ===== *)
(** internal/emitterclient: the engine's end of the emitter's channels, and the loop that
    passes the emitter's errors to the service; internal/thinengine, which does nothing
    but pass results on. *)

From S2P Require Import Prelude GoErrors Types DataGateway Engine.

(** * Definitions *)

Inductive chanState : Set := ChanNil | ChanOpen | ChanClosed.

(** emitterClient.  What the emitter still sends on the two receive channels before it
    closes them is given as lists. *)
Record emitterClient : Type := mkClient {
  emitterConfig : Config;
  emitterSyncChan : chanState;
  pollResultChan : list PollerResult;
  errChan : list (option error);
}.

Definition set_syncChan (c : emitterClient) (s : chanState) : emitterClient :=
  mkClient (emitterConfig c) s (pollResultChan c) (errChan c).

(** Shutdown closes the channel but keeps it in the field. *)
Definition Shutdown (c : emitterClient) : outcome emitterClient :=
  match emitterSyncChan c with
  | ChanNil => Ret c
  | ChanOpen => Ret (set_syncChan c ChanClosed)
  | ChanClosed => Panic "close of closed channel"
  end.

(** A send on a nil channel blocks for ever. *)
Definition client_SyncsEmitter (c : emitterClient) : outcome emitterClient :=
  match emitterSyncChan c with
  | ChanNil => Diverge
  | ChanOpen => Ret c
  | ChanClosed => Panic "send on closed channel"
  end.

Definition WatcherConfig (c : emitterClient) : Config := emitterConfig c.

(** A receive from a closed channel gives nil. *)
Definition WatcherResult (c : emitterClient) : emitterClient * option PollerResult :=
  match pollResultChan c with
  | r :: rs => (mkClient (emitterConfig c) (emitterSyncChan c) rs (errChan c), Some r)
  | [] => (c, None)
  end.

Definition WatcherError (c : emitterClient) : emitterClient * option error :=
  match errChan c with
  | e :: es => (mkClient (emitterConfig c) (emitterSyncChan c) (pollResultChan c) es, e)
  | [] => (c, None)
  end.

(** HandleEmitterError; the fuel counts received errors, of which the channel has finitely
    many before it is closed. *)
Fixpoint handle_errors {W A} `{ServiceEngine W A} (fuel : nat) (c : emitterClient) (w : W) :
    outcome (emitterClient * W * option error) :=
  let '(c, err) := WatcherError c in
  match err with
  | None => Ret (c, w, None)
  | Some e =>
      '(w, err) ← HandleEmitterError w e;
      match err with
      | Some _ => Ret (c, w, errors_Wrap err "serviceEngine.HandleEmitterError returned non-nil error")
      | None =>
          match fuel with O => Diverge | S fuel => handle_errors (A := A) fuel c w end
      end
  end.

Definition client_HandleEmitterError {W A} `{ServiceEngine W A} (c : emitterClient) (w : W) :
    outcome (emitterClient * W * option error) :=
  handle_errors (A := A) (length (errChan c)) c w.

(** ThinServiceEngine, with the method of BaseServiceEngine. *)
Class ThinServiceEngine (W : Type) : Type := {
  HandleFilterResult : W → option PollerResult → outcome (W * option error);
  thin_HandleEmitterError : W → error → outcome (W * option error);
}.

(** One turn of thinEngine.handleResults: the error that it returns, if any. *)
Definition thin_turn {W} `{ThinServiceEngine W} (c : emitterClient) (w : W) :
    outcome (emitterClient * W * option error) :=
  let '(c, result) := WatcherResult c in
  '(w, err) ← HandleFilterResult w result;
  match err with
  | Some _ => Ret (c, w, errors_Wrap err "serviceEngine returned error")
  | None => c ← client_SyncsEmitter c; Ret (c, w, None)
  end.

(** ** Reference: the first error of a list that a service does not absorb *)

(** What the service answers to each error in turn. *)
Fixpoint absorb {W A} `{ServiceEngine W A} (w : W) (es : list (option error)) :
    outcome (W * option error) :=
  match es with
  | Some e :: es =>
      '(w, err) ← HandleEmitterError w e;
      match err with Some _ => Ret (w, err) | None => absorb (A := A) w es end
  | _ => Ret (w, None)
  end.

(** * Lemmas *)

Section client.
Context {W A : Type} `{ServiceEngine W A}.

Lemma handle_errors_ok (fuel : nat) c (w : W) :
  length (errChan c) ≤ fuel →
  (λ '(c, w, err), (w, err)) <$> handle_errors (A := A) fuel c w =
    '(w, err) ← absorb (A := A) w (errChan c);
    Ret (w, errors_Wrap err "serviceEngine.HandleEmitterError returned non-nil error").
Proof.
  revert c w. induction fuel as [|fuel IH]; intros c w Hl;
    destruct c as [conf sync rs [|[e|] es]]; simpl in *; try done; try lia.
  destruct (HandleEmitterError w e) as [[w' [err|]]| |]; simpl; try done.
  apply IH. simpl. lia.
Qed.

(** HandleEmitterError never outlives the error channel: it passes every error to the
    service in order, returns the first one that the service does not absorb, wrapped, and
    returns nil when the channel is closed. *)
Lemma HandleEmitterError_first c (w : W) :
  (λ '(c, w, err), (w, err)) <$> client_HandleEmitterError (A := A) c w =
    '(w, err) ← absorb (A := A) w (errChan c);
    Ret (w, errors_Wrap err "serviceEngine.HandleEmitterError returned non-nil error").
Proof. by apply handle_errors_ok. Qed.
End client.

(** The thin engine does not notice that the emitter is gone: on a closed result channel
    it calls the service with a nil result, and it does so again on its next turn. *)
Lemma thin_engine_ignores_close {W} `{ThinServiceEngine W} c (w w' : W) :
  pollResultChan c = [] → emitterSyncChan c = ChanOpen →
  HandleFilterResult w None = Ret (w', None) →
  thin_turn c w = Ret (c, w', None).
Proof.
  intros Hr Hs Hh. unfold thin_turn, WatcherResult. rewrite Hr, Hh. simpl.
  unfold client_SyncsEmitter. by rewrite Hs.
Qed.

(** A second Shutdown panics: the field is not set to nil. *)
Lemma Shutdown_twice c c' :
  emitterSyncChan c = ChanOpen → Shutdown c = Ret c' → ∃ msg, Shutdown c' = Panic msg.
Proof. unfold Shutdown. intros -> [= <-]. by eexists. Qed.
