(* ===== verification/Watcher.v ===== *)
(** The emitter over the real poller: the instance of the emitter's environment made of the
    poller, the client they share and the data gateway; what a turn of the emitter sends when
    the client is honest, and what it does when the client's answers contradict each other. *)

From S2P Require Import Prelude GoErrors Types SortedSet Externals EthClient Batch BlockTracker PollUtils.
From S2P Require Import PollPolicy Poller PollerSpec PollRun PollHonest PollerProps PollerFailures DataGateway EmitterBlocks.
From S2P Require Import Emitter EmitterProps.

(** * Definitions *)

(** The client of the emitter and of the poller is one object. *)
Record watcherWorld (SS : Type → Type) (C G : Type) : Type := mkWorld {
  ww_poller : poller SS;
  ww_client : C;
  ww_gateway : G;
}.
Arguments mkWorld {SS C G}.
Arguments ww_poller {SS C G}.
Arguments ww_client {SS C G}.
Arguments ww_gateway {SS C G}.

Section watcher.
Context `{SortedSet SS} `{HashText} `{EthUtil} `{Gsl} `{EthClient C} `{GetStateDataGateway G}.
Implicit Types (w : watcherWorld SS C G).

Definition watcher_GetLastRecordedBlock w : outcome (watcherWorld SS C G * (Z * option error)) :=
  '(g, r) ← GetLastRecordedBlock (ww_gateway w); Ret (mkWorld (ww_poller w) (ww_client w) g, r).

Definition watcher_BlockNumber w : outcome (watcherWorld SS C G * (Z * option error)) :=
  '(c, r) ← BlockNumber (ww_client w); Ret (mkWorld (ww_poller w) c (ww_gateway w), r).

Definition watcher_Poll (logsFirst : bool) w (from to : Z) :
    outcome (watcherWorld SS C G * (option PollerResult * option error)) :=
  '(p, c, r) ← Poll logsFirst (ww_poller w) (ww_client w) from to;
  Ret (mkWorld p c (ww_gateway w), r).

(** [logsFirst] is how the two goroutines of an expensive poll are scheduled. *)
Definition watcher_env (logsFirst : bool) : EmitterEnv (watcherWorld SS C G) := {|
  env_GetLastRecordedBlock := watcher_GetLastRecordedBlock;
  env_BlockNumber := watcher_BlockNumber;
  env_Poll := watcher_Poll logsFirst;
  env_DoReorg w := doReorg (ww_poller w);
|}.
End watcher.

(** * Lemmas *)

Section watcher.
Context `{SortedSet SS} `{HashText} `{EthUtil} `{Gsl} `{EthClient C} `{GetStateDataGateway G}.
Implicit Types (w : watcherWorld SS C G) (s : statusVar) (e : emitter).

Lemma answers_poller lf e s w w2 v last current :
  @answers _ (watcher_env lf) e s w w2 v last current → ww_poller w2 = ww_poller w.
Proof.
  intros (w1 & rec & err & Hget & _ & _ & Hbn).
  simpl in Hget, Hbn. unfold watcher_GetLastRecordedBlock in Hget. unfold watcher_BlockNumber in Hbn.
  apply bind_Ret_inv in Hget as ([g r] & _ & Hget). apply bind_Ret_inv in Hbn as ([c r'] & _ & Hbn).
  by simplify_eq/=.
Qed.

(** A turn whose poll is the reference poll of a view of the chain: what is sent, and the
    next status. *)
Lemma watcher_turn lf header_of logs e s w w2 v last current from to p' c' :
  polled lf (ww_poller w) (ww_client w2) from to logs header_of p' c' →
  doReorg (ww_poller w) = true → var_ok (conf e) s →
  @answers _ (watcher_env lf) e s w w2 v last current →
  numbers_ok e last current → next_plan (conf e) v last current = PlanPoll from to →
  let p := ww_poller w in
  let reorged := changed (remembered p) header_of logs from in
  ∃ s', @loop_turn _ _ (watcher_env lf) e s w =
      Ret (mkWorld p' c' (ww_gateway w2), (slept s ++ [EvPoll from to] ++
        sent e (spec_result p header_of logs from to) ++ [EvSync], inl s')) ∧
    sv_get s' = mkStatus from to current last false reorged
      (if reorged then st_RetriesCount v + 1 else 0)%Z.
Proof.
  intros Hpd Hdo Hs Ha Hn Hplan p reorged.
  pose proof (answers_poller _ _ _ _ _ _ _ _ Ha) as Hp2.
  assert (@env_Poll _ (watcher_env lf) w2 from to = Ret (mkWorld p' c' (ww_gateway w2),
    (Some (spec_result p header_of logs from to), spec_error p header_of logs from))) as Henv
    by (simpl; unfold watcher_Poll; rewrite Hp2; by rewrite (polled_run _ _ _ _ _ _ _ _ _ Hpd)).
  assert (doReorg p' = true) as Hdo'
    by (destruct (polled_config _ _ _ _ _ _ _ _ _ Hpd) as (_ & _ & _ & _ & -> & _); done).
  unfold spec_error in Henv. fold reorged in Henv. subst p. rewrite Hdo, andb_true_r in Henv.
  destruct reorged.
  - by eapply (@turn_reorg _ _ (watcher_env lf)).
  - by eapply (@turn_good _ _ (watcher_env lf)).
Qed.

Lemma flag_tracker (p : poller SS) : flag_ok p → doReorg p = true → is_Some (tracker p).
Proof. unfold flag_ok. intros Hf Hd. rewrite Hd in Hf. symmetry in Hf. by apply bool_decide_eq_true in Hf. Qed.

(** * Properties *)

(** Emitter and poller composed: on an honest client, a turn that polls sends exactly
    the reference result for its range and the poller's knowledge; its next status goes on
    normally unless the first block of the range was reorged, when it is reorging with one
    more retry. *)
Lemma watcher_turn_emits_reference lf I logs_of header_of e s w w2 v last current from to :
  honest I logs_of header_of → I (ww_client w2) → poller_wf (ww_poller w) →
  policy_ok (policy (ww_poller w)) → doReorg (ww_poller w) = true →
  flag_ok (ww_poller w) →
  var_ok (conf e) s → @answers _ (watcher_env lf) e s w w2 v last current →
  numbers_ok e last current → next_plan (conf e) v last current = PlanPoll from to →
  range_ok from to → (from ≤ to)%Z →
  let p := ww_poller w in
  let logs := logs_of (filter_query from to (addresses p) (topics p)) in
  let reorged := changed (remembered p) header_of logs from in
  ∃ s' w', @loop_turn _ _ (watcher_env lf) e s w =
      Ret (w', (slept s ++ [EvPoll from to] ++ sent e (spec_result p header_of logs from to)
                ++ [EvSync], inl s')) ∧
    sv_get s' = mkStatus from to current last false reorged
      (if reorged then st_RetriesCount v + 1 else 0)%Z.
Proof.
  intros Hhon HI Hwf Hpol Hdo Hflag Hs Ha Hn Hplan Hok Hle p logs reorged.
  destruct (honest_polled (λ _, True) I logs_of header_of Hhon lf p (ww_client w2) from to)
    as (p' & c' & Hpd & _); [try done; left; by apply flag_tracker..|].
  destruct (watcher_turn lf header_of logs e s w w2 v last current from to p' c')
    as (s' & Ht & Hst); [done..|].
  by exists s', (mkWorld p' c' (ww_gateway w2)).
Qed.

(** C38: Emitter and poller composed: when the logs of the polled range contradict each other
    on the hash of a block, as they may while the chain is reorging, the watcher does not
    poll again but panics. *)
Theorem watcher_panics_on_split_logs lf e s w w2 c1 v last current from to logs :
  poller_wf (ww_poller w) →
  is_Some (tracker (ww_poller w)) ∨ lastRecordedBlock (ww_poller w) = 0%Z →
  (0 ≤ policy (ww_poller w) ≤ PolicyNormal)%Z →
  var_ok (conf e) s → @answers _ (watcher_env lf) e s w w2 v last current →
  numbers_ok e last current → next_plan (conf e) v last current = PlanPoll from to →
  FilterLogs (ww_client w2) (filter_query from to (addresses (ww_poller w))
    (topics (ww_poller w))) = Ret (c1, (logs, None)) →
  ¬ logs_consistent logs →
  @loop_turn _ _ (watcher_env lf) e s w =
    Panic "nil PollerResult got sent to emitFilterREsult".
Proof.
  intros Hwf Htr Hpol Hs Ha Hn Hplan Hfl Hsplit.
  pose proof (answers_poller _ _ _ _ _ _ _ _ Ha) as Hp2.
  destruct (Poll_split lf (ww_poller w) (ww_client w2) c1 from to logs)
    as (p' & err & Hpoll & He & _); [done..|].
  eapply (@turn_nil_result _ _ (watcher_env lf)); [done..| |done].
  simpl. unfold watcher_Poll. by rewrite Hp2, Hpoll.
Qed.
End watcher.
