(* ===== verification/EmitterExamples.v ===== *)
(** The emitter's theorems at concrete inputs: a scripted environment, and the real poller
    over the demo chain with the in-memory gateway. *)

From S2P Require Import Prelude GoErrors Types Externals SortedSet EthClient Batch BlockTracker PollUtils.
From S2P Require Import PollPolicy Poller PollerSpec PollRun PollHonest DemoChain PollerProps PollerMemory PollerFailures.
From S2P Require Import PollerExamples DataGateway EmitterBlocks Emitter EmitterProps Watcher.

(** * Definitions *)

(** An environment that gives fixed answers; [None] is a missing record. *)
Record Script : Type := mkScript {
  sc_recorded : option Z;
  sc_head : Z;
  sc_poll : option PollerResult * option error;
}.

#[export] Instance Script_env : EmitterEnv Script := {|
  env_GetLastRecordedBlock w :=
    match sc_recorded w with
    | Some n => Ret (w, (n, None))
    | None => Ret (w, (0%Z, wrap_sentinel ErrRecordNotFound "key not found"))
    end;
  env_BlockNumber w := Ret (w, (sc_head w, None));
  env_Poll w from to := Ret (w, sc_poll w);
  env_DoReorg w := true;
|}.

Definition demo_conf : Config := mkConfig "http://localhost" 1 10 true false 3 0 0 PolicyFast.
Definition demo_emitter : emitter := mkEmitter demo_conf true.
Definition demo_result : PollerResult := mkResult 71 90 90 [] [].

(** A normal status and one that is reorging after [n] retries. *)
Definition normal_var : statusVar := mkVar new_emitterStatus (Some new_emitterStatus).
Definition reorging_var (n : Z) : statusVar :=
  mkVar new_emitterStatus (Some (mkStatus 71 90 90 80 false true n)).

(** The watcher after the old chain was polled up to block 15, and one whose client
    contradicts itself. *)
Definition demo_watcher : watcherWorld MapSet DemoChain fakeRedisMem :=
  mkWorld demo_p1 demo_new (mkMem 15 true).
Definition split_watcher : watcherWorld MapSet SplitChain fakeRedisMem :=
  mkWorld (demo_poller true PolicyFast) mkSplit (mkMem 5 true).

(** * Lemmas *)

Lemma demo_conf_ok : config_ok demo_conf.
Proof. unfold config_ok. simpl. lia. Qed.

Lemma demo_numbers last current :
  (0 ≤ last < 1000)%Z → (0 ≤ current < 1000)%Z → numbers_ok demo_emitter last current.
Proof. unfold numbers_ok, block_ok. pose proof demo_conf_ok. simpl. intros; split; [done|]. lia. Qed.

Lemma script_foreign : foreign_errors Script.
Proof.
  split; [|done]. intros w w' n err. simpl. destruct (sc_recorded w); [done|].
  intros [= _ _ <-]. done.
Qed.

Lemma normal_var_ok : var_ok demo_conf normal_var.
Proof. repeat split; simpl; lia || done. Qed.

Lemma reorging_var_ok n : (1 ≤ n ≤ 4)%Z → var_ok demo_conf (reorging_var n).
Proof. intros. repeat split; simpl; lia || done. Qed.

Lemma script_answers s rec head poll :
  answers demo_emitter s (mkScript (Some rec) head poll) (mkScript (Some rec) head poll)
    (sv_get s) rec head.
Proof. by exists (mkScript (Some rec) head poll), rec, None. Qed.

(** * Witnesses *)

Lemma normal_polling_covers_witness :
  (1 ≤ covers 95 (normal_windows 40 1 110 80 10))%nat ∧
  (2 ≤ covers 95 (normal_windows 40 1 110 80 10))%nat.
Proof.
  destruct (normal_polling_covers 40 1 110 80 10 95) as [H1 H2]; [lia..|].
  split; [exact H1|]. apply H2. lia.
Defined.

Lemma reorg_go_backs_bounded_witness :
  ∃ err, reorg_windows 10 1 110 100 10 3 (mkStatus 91 110 110 100 false true 1) =
    ([(81, 110); (71, 110); (61, 110)]%Z, Some err) ∧ error_is err ErrMaxRetriesReached = true.
Proof.
  apply (reorg_go_backs_bounded 10 1 110 100 10 3 (mkStatus 91 110 110 100 false true 1));
    simpl; lia.
Defined.

Lemma turn_without_poll_witness :
  ∃ s' err, loop_turn demo_emitter (reorging_var 4) (mkScript (Some 80%Z) 100 (None, None)) =
    Ret (mkScript (Some 80%Z) 100 (None, None), ([EvSleep], inr (s', err))) ∧
    error_is err ErrMaxRetriesReached = true.
Proof.
  apply (turn_without_poll demo_emitter (reorging_var 4) (mkScript (Some 80%Z) 100 (None, None))
    (mkScript (Some 80%Z) 100 (None, None)) (sv_get (reorging_var 4)) 80 100);
    [apply reorging_var_ok; lia|apply script_answers|apply demo_numbers; lia].
Defined.

Lemma turn_good_witness :
  ∃ s', loop_turn demo_emitter normal_var (mkScript (Some 80%Z) 100 (Some demo_result, None)) =
    Ret (mkScript (Some 80%Z) 100 (Some demo_result, None),
      ([EvSleep; EvPoll 71 90; EvResult demo_result; EvSync], inl s')) ∧
    sv_get s' = mkStatus 71 90 100 80 false false 0.
Proof.
  set (w := mkScript (Some 80%Z) 100 (Some demo_result, None)).
  apply (turn_good demo_emitter normal_var 
    w w w (sv_get normal_var) 80 100 71 90 demo_result);
    [apply normal_var_ok|apply script_answers|apply demo_numbers; lia|reflexivity|reflexivity].
Defined.

Lemma turn_reorg_witness :
  ∃ s', loop_turn demo_emitter (reorging_var 2)
      (mkScript (Some 80%Z) 100 (Some demo_result, wrap_sentinel ErrFromBlockReorged "x")) =
    Ret (mkScript (Some 80%Z) 100 (Some demo_result, wrap_sentinel ErrFromBlockReorged "x"),
      ([EvSleep; EvPoll 61 90; EvResult demo_result; EvSync], inl s')) ∧
    sv_get s' = mkStatus 61 90 100 80 false true 3.
Proof.
  set (w := mkScript (Some 80%Z) 100 (Some demo_result, wrap_sentinel ErrFromBlockReorged "x")).
  apply (turn_reorg demo_emitter (reorging_var 2) 
    w w w (sv_get (reorging_var 2)) 80 100 61 90
    demo_result (EWrap (ESentinel ErrFromBlockReorged) "x"));
    [apply reorging_var_ok; lia|apply script_answers|apply demo_numbers; lia|reflexivity..].
Defined.

Lemma turn_poll_fails_witness :
  ∃ s' err', loop_turn demo_emitter normal_var
      (mkScript (Some 80%Z) 100 (None, wrap_sentinel ErrFetchError "x")) =
    Ret (mkScript (Some 80%Z) 100 (None, wrap_sentinel ErrFetchError "x"),
      ([EvSleep; EvPoll 71 90], inr (s', err'))) ∧
    ∀ x, error_is err' x = error_is (EWrap (ESentinel ErrFetchError) "x") x.
Proof.
  set (w := mkScript (Some 80%Z) 100 (None, wrap_sentinel ErrFetchError "x")).
  apply (turn_poll_fails demo_emitter normal_var 
    w w w (sv_get normal_var) 80 100 71 90 None
    (EWrap (ESentinel ErrFetchError) "x"));
    [apply normal_var_ok|apply script_answers|apply demo_numbers; lia|reflexivity..].
Defined.

Lemma emitter_invariant_witness :
  state_ok demo_conf (InLoopEmit (enter_loopEmit new_emitterStatus)).
Proof.
  apply (emitter_invariant demo_emitter (ENew "context canceled")
    ([] ++ []) (InLoopEmit (enter_loopEmit new_emitterStatus)));
    [apply script_foreign|apply demo_conf_ok|].
  eapply reach_step; [apply reach_refl|].
  apply (step_enter _ _ _ (mkScript None 0 (None, None))).
Defined.

Lemma first_start_never_goes_back_witness :
  ∃ r, loop_turn demo_emitter (enter_loopEmit new_emitterStatus)
      (mkScript (Some 80%Z) 82 (Some demo_result, None)) =
    Ret (mkScript (Some 80%Z) 82 (Some demo_result, None),
      ([EvPoll 81 90; EvResult demo_result; EvSync], r)) ∧
    (81 = Z.max 1 (80 + 1) ∧ 90 = 80 + 10)%Z.
Proof.
  eexists. split; [reflexivity|].
  apply (first_start_never_goes_back demo_emitter (ENew "context canceled") ([] ++ [])
    (enter_loopEmit new_emitterStatus) (mkScript (Some 80%Z) 82 (Some demo_result, None))
    (mkScript (Some 80%Z) 82 (Some demo_result, None))
    (mkScript (Some 80%Z) 82 (Some demo_result, None))
    (mkScript (Some 80%Z) 82 (Some demo_result, None)) 80 82
    [EvPoll 81 90; EvResult demo_result; EvSync]
    (inl (updateStatus (mkVar (mkStatus 81 90 82 80 false false 0) None)
      (Some (mkStatus 81 90 82 80 false false 0)) false)) 81 90);
    [apply script_foreign|apply demo_numbers; lia| |reflexivity..|left].
  eapply reach_step; [apply reach_refl|].
  apply (step_enter _ _ _ (mkScript None 0 (None, None))).
Defined.

Lemma watcher_turn_emits_reference_witness :
  ∃ s' w' res, @loop_turn _ _ (watcher_env true) demo_emitter normal_var demo_watcher =
      Ret (w', ([EvSleep; EvPoll 6 25; EvResult res; EvSync], inl s')) ∧
    sv_get s' = mkStatus 6 25 30 15 false false 0 ∧
    Number <$> ReorgedBlocks res = [12%Z] ∧ LastGood res = 11%Z.
Proof.
  destruct demo_p1_ok as (Hwf & Htr & Hpol & Ha & Ht).
  destruct (watcher_turn_emits_reference true (eq demo_new) (demo_logs demo_new)
    (demo_header demo_new) demo_emitter normal_var demo_watcher demo_watcher
    new_emitterStatus 15 30 6 25) as (s' & w' & Hrun & Hst);
    [apply demo_honest|reflexivity|exact Hwf|simpl; rewrite Hpol; apply demo_policies; auto
    |vm_compute; reflexivity|vm_compute; reflexivity|apply normal_var_ok
    |by exists demo_watcher, 15%Z, None|apply demo_numbers; lia|reflexivity
    |unfold range_ok; lia|lia|].
  exists s', w', (spec_result demo_p1 (demo_header demo_new)
    (demo_logs demo_new (filter_query 6 25 (addresses demo_p1) (topics demo_p1))) 6 25).
  split; [exact Hrun|]. split; [rewrite Hst; vm_compute; reflexivity|].
  split; vm_compute; reflexivity.
Defined.

Lemma watcher_panics_on_split_logs_witness :
  @loop_turn _ _ (watcher_env true) demo_emitter normal_var split_watcher =
    Panic "nil PollerResult got sent to emitFilterREsult".
Proof.
  apply (watcher_panics_on_split_logs true demo_emitter normal_var split_watcher split_watcher
    mkSplit new_emitterStatus 5 10 1 10 [mkLog 1 [] [] 5 0 50; mkLog 1 [] [] 5 1 51]);
    [apply New_wf|left; by eexists|done|apply normal_var_ok
    |by exists split_watcher, 5%Z, None|apply demo_numbers; lia|reflexivity|reflexivity|].
  intros Hc. specialize (Hc (mkLog 1 [] [] 5 0 50) (mkLog 1 [] [] 5 1 51)). simpl in Hc.
  assert (50 = 51)%Z as [=] by (apply Hc; set_solver).
Defined.
