(* ===== verification/EngineExamples.v ===== *)
(** The engine's theorems at concrete inputs: a service that keeps the hashes it was given
    and returns artifacts for them, fed with the results of the real poller. *)

From S2P Require Import Prelude GoErrors Types Externals SortedSet EthClient Batch BlockTracker PollUtils.
From S2P Require Import PollPolicy Poller PollerSpec PollRun PollHonest DemoChain PollerProps PollerMemory PollerExamples.
From S2P Require Import DataGateway EngineStates MetadataTracker Engine EngineSpec EngineProps EngineRuns EngineArtifacts.
From S2P Require Import EmitterClient.

(** * Definitions *)

(** A service that keeps a list of block hashes: done blocks are added, undone ones are
    taken away.  Its artifacts of a block are the number of its logs. *)
Record demoService : Type := mkService {
  ds_hashes : list Hash;
  ds_gateway : fakeRedisMem;
}.

Definition demo_artifacts (bs : list Block) : gmap Z (goslice nat) :=
  list_to_map ((λ b, (BHash b, Some [length (Logs b)])) <$> bs).

#[export] Instance demo_ServiceEngine : ServiceEngine demoService nat := {|
  HandleGoodBlocks w bs arts :=
    Ret (mkService (ds_hashes w ++ (BHash <$> bs)) (ds_gateway w), (demo_artifacts bs, None));
  HandleReorgedBlocks w bs arts :=
    Ret (mkService (filter (λ h, h ∉ BHash <$> bs) (ds_hashes w)) (ds_gateway w),
      (demo_artifacts bs, None));
  HandleEmitterError w err := Ret (w, Some err);
|}.

#[export] Instance demo_Gateway : SetStateDataGateway demoService := {|
  SetLastRecordedBlock w n :=
    '(m, err) ← SetLastRecordedBlock (ds_gateway w) n; Ret (mkService (ds_hashes w) m, err);
|}.

#[export] Instance demo_Thin : ThinServiceEngine nat := {|
  HandleFilterResult w r := Ret (S w, None);
  thin_HandleEmitterError w err := Ret (w, Some err);
|}.

Definition engine_conf (retries : Z) : Config :=
  mkConfig "http://localhost" 1 10 true false retries 0 0 PolicyFast.

Definition demo_service : demoService := mkService [] (mkMem 0 false).

(** What the poller says of blocks 1 to 15 of the old chain, and then of 1 to 16 of the
    new one. *)
Definition demo_first : PollerResult :=
  match demo_poll (demo_poller true PolicyFast) demo_old 1 15 with
  | Ret (_, (Some r, _)) => r
  | _ => new_PollerResult
  end.

Abbreviation engine_tracker := (metadataTracker MapSet nat).

(** The engine after the first result. *)
Definition demo_tracker : engine_tracker :=
  match handle_result (engine_conf 3) newMetadataTracker demo_service demo_first with
  | Ret (t, _, _) => t
  | _ => newMetadataTracker
  end.

(** The run over both results. *)
Definition engine_events : list (engineEvent nat) :=
  match handleResults (engine_conf 3) (newMetadataTracker : engine_tracker) demo_service
    [demo_first; demo_res] with
  | Ret (_, _, (evs, _)) => evs
  | _ => []
  end.

(** A result in which a known block is both reorged and good under the same hash. *)
Definition twice_result : PollerResult :=
  mkResult 1 16 11 (GoodBlocks demo_first) (ReorgedBlocks demo_res).

(** * Lemmas *)

Lemma demo_returns : env_returns demoService nat.
Proof. split; [|split]; intros; by eexists. Qed.

Lemma demo_tracker_run :
  ∃ w evs err, handle_result (engine_conf 3) (newMetadataTracker : engine_tracker)
    demo_service demo_first = Ret (demo_tracker, w, (evs, err)).
Proof.
  unfold demo_tracker.
  destruct (handle_result _ _ _ _) as [[[t w] [evs err]]| |] eqn:E; [by eauto|..];
    by vm_compute in E.
Qed.

Lemma distinct_first : distinct (GoodBlocks demo_first).
Proof. unfold distinct. apply (bool_decide_eq_true_1 (NoDup _)). vm_compute. reflexivity. Qed.

(** The engine's calls over both results: block 12 is undone when the fork is seen, with
    the artifacts that the service made for it, and its replacement and block 14 are done. *)
Example demo_run_calls :
  (λ ev, match ev with
    | CallReorged bs arts => (BHash <$> bs, arts)
    | CallGood bs arts => (BHash <$> bs, arts)
    | RecordBlock n => ([n], None)
    | SyncsEmitter => ([], None)
    end) <$> engine_events =
  [([109; 112], None); ([15], None); ([], None);
   ([112], Some [Some [1%nat]]); ([212; 214], None); ([11], None); ([], None)]%Z.
Proof. vm_compute. reflexivity. Qed.

Lemma first_ok : result_ok (newMetadataTracker : engine_tracker) demo_first.
Proof.
  split; [unfold distinct; apply (bool_decide_eq_true_1 (NoDup _)); by vm_compute|].
  split; [apply distinct_first|]. apply Forall_forall. by vm_compute.
Qed.

Lemma demo_tracker_wf : mt_wf demo_tracker.
Proof.
  destruct (handle_result_ends (engine_conf 3) (newMetadataTracker : engine_tracker)
    demo_service demo_first) as (t & w & evs & err & Hh & He);
    [apply demo_returns|apply newMetadataTracker_wf|apply first_ok|].
  assert (err = None) as ->.
  { assert (snd <$> (snd <$> handle_result (engine_conf 3) (newMetadataTracker : engine_tracker)
      demo_service demo_first) = Ret None) as Hn by by vm_compute.
    rewrite Hh in Hn. by injection Hn. }
  unfold demo_tracker. rewrite Hh. apply He.
Qed.

(** A result whose hashes are distinct and whose reorged blocks the tracker knows. *)
Lemma result_ok_compute (t : engine_tracker) r :
  bool_decide (NoDup (keys (ReorgedBlocks r))) = true →
  bool_decide (NoDup (keys (GoodBlocks r))) = true →
  forallb (λ b, bool_decide (is_Some (meta_of t (Block_String b)))) (ReorgedBlocks r) = true →
  result_ok t r.
Proof.
  intros H1%bool_decide_eq_true H2%bool_decide_eq_true H3. split; [done|]. split; [done|].
  intros b Hb. rewrite forallb_forall in H3.
  by apply list_elem_of_In, H3, bool_decide_eq_true in Hb.
Qed.

Lemma demo_res_ok : result_ok demo_tracker demo_res.
Proof. apply result_ok_compute; by vm_compute. Qed.

Lemma twice_ok : result_ok demo_tracker twice_result.
Proof. apply result_ok_compute; by vm_compute. Qed.

(** * Witnesses *)

Lemma engine_handles_result_witness :
  ∃ t' w' evs err, handle_result (engine_conf 3) demo_tracker demo_service demo_res =
    Ret (t', w', (evs, err)) ∧ err = None ∧
    evs = service_calls demo_tracker demo_res ++ [RecordBlock 11; SyncsEmitter].
Proof.
  destruct (engine_handles_result (engine_conf 3) demo_tracker demo_service demo_res)
    as (t' & w' & evs & err & Hh & He);
    [apply demo_returns|apply demo_tracker_wf|apply demo_res_ok|].
  exists t', w', evs, err. split; [exact Hh|].
  assert (snd <$> (snd <$> handle_result (engine_conf 3) demo_tracker demo_service demo_res)
    = Ret None) as Hn by (vm_compute; reflexivity).
  rewrite Hh in Hn. injection Hn as ->. split; [reflexivity|]. exact (proj1 He).
Defined.


Lemma engine_panics_on_unknown_reorg_witness :
  ∃ msg, handle_result (engine_conf 3) (newMetadataTracker : engine_tracker) demo_service
    demo_res = Panic msg.
Proof.
  apply (engine_panics_on_unknown_reorg (engine_conf 3) newMetadataTracker demo_service demo_res
    (default (mkBlock false 0 0 None []) (head (ReorgedBlocks demo_res))));
    [apply newMetadataTracker_wf|vm_compute; left|vm_compute; reflexivity].
Defined.

Lemma engine_same_hash_not_redone_witness :
  ∃ t' w' evs, handle_result (engine_conf 3) demo_tracker demo_service twice_result =
      Ret (t', w', (evs, None)) ∧
    times_undone (Z_text 112) evs = 1%nat ∧ times_done (Z_text 112) evs = 0%nat.
Proof.
  destruct (handle_result_ends (engine_conf 3) demo_tracker demo_service twice_result)
    as (t' & w' & evs & err & Hh & _);
    [apply demo_returns|apply demo_tracker_wf|apply twice_ok|].
  assert (snd <$> (snd <$> handle_result (engine_conf 3) demo_tracker demo_service twice_result)
    = Ret None) as Hn by (vm_compute; reflexivity).
  rewrite Hh in Hn. injection Hn as ->. exists t', w', evs. split; [exact Hh|].
  destruct (engine_same_hash_not_redone (engine_conf 3) demo_tracker demo_service twice_result
    t' w' evs (Z_text 112)) as (Hu & Hd & _);
    [apply demo_returns|apply demo_tracker_wf|apply twice_ok|vm_compute; left
    |vm_compute; right; left|vm_compute; reflexivity|exact Hh|split; assumption].
Defined.

Lemma engine_forgets_without_retries_witness :
  ∃ t' w' evs, handleResults (engine_conf 0) (newMetadataTracker : engine_tracker) demo_service
      [demo_first; demo_first] = Ret (t', w', (evs, None)) ∧ times_done (Z_text 109) evs = 2%nat.
Proof.
  destruct (handleResults (engine_conf 0) (newMetadataTracker : engine_tracker) demo_service
    [demo_first; demo_first]) as [[[t' w'] [evs err]]| |] eqn:E;
    [|exfalso; vm_compute in E; discriminate..].
  assert (snd <$> (snd <$> handleResults (engine_conf 0) (newMetadataTracker : engine_tracker)
    demo_service [demo_first; demo_first]) = Ret None) as Hn by (vm_compute; reflexivity).
  rewrite E in Hn. injection Hn as ->. exists t', w', evs. split; [reflexivity|].
  apply (engine_forgets_without_retries (engine_conf 0) demo_service demo_first t' w' evs);
    [apply demo_returns|reflexivity|vm_compute; reflexivity|apply distinct_first
    |vm_compute; split; congruence| |exact E|vm_compute; left].
  apply Forall_forall. vm_compute. repeat constructor; congruence.
Defined.

Lemma engine_good_artifacts_nil_witness :
  ∃ bs, CallGood bs None ∈ engine_events ∧ bs = to_do (newMetadataTracker : engine_tracker) demo_first.
Proof.
  exists (GoodBlocks demo_first). split; [vm_compute; left|].
  destruct (handle_result_ends (engine_conf 3) (newMetadataTracker : engine_tracker)
    demo_service demo_first) as (t' & w' & evs & err & Hh & _);
    [apply demo_returns|apply newMetadataTracker_wf|apply first_ok|].
  apply (engine_good_artifacts_nil (engine_conf 3) newMetadataTracker demo_service demo_first
    t' w' evs err _ None); [apply demo_returns|apply newMetadataTracker_wf|apply first_ok
    |exact Hh|].
  assert (head ∘ fst <$> (snd <$> handle_result (engine_conf 3)
    (newMetadataTracker : engine_tracker) demo_service demo_first) =
    Ret (Some (CallGood (GoodBlocks demo_first) None))) as Hn by (vm_compute; reflexivity).
  rewrite Hh in Hn. destruct evs as [|ev evs]; [discriminate Hn|]. injection Hn as ->. left.
Defined.

Lemma block_life_goes_one_way_witness :
  ∃ j, (j < 3)%nat ∧ [stateSeen; stateHandled; stateHandled; stateReorged; stateHandledReorg]
    !! j = Some stateHandled.
Proof.
  destruct (block_life_goes_one_way
    [eventSeeBlock; eventHandle; eventSeeBlock; eventSeeReorg; eventHandleReorg]
    [stateSeen; stateHandled; stateHandled; stateReorged; stateHandledReorg]) as [_ H];
    [repeat constructor|reflexivity|].
  apply (H 3%nat stateReorged); [reflexivity|auto].
Defined.

Lemma thin_engine_ignores_close_witness :
  thin_turn (mkClient (engine_conf 3) ChanOpen [] []) 4%nat =
    Ret (mkClient (engine_conf 3) ChanOpen [] [], 5%nat, None).
Proof. apply thin_engine_ignores_close; reflexivity. Defined.

(** Block 12 of the old chain, and a result without blocks in between. *)
Definition block12 : Block := default (mkBlock false 0 0 None []) (find (λ b, (BHash b =? 112)%Z) (GoodBlocks demo_first)).
Definition quiet_result : PollerResult := mkResult 6 15 15 [] [].

(** The parts of a run, and the three runs. *)
Abbreviation engine_run := (outcome (engine_tracker * demoService * (list (engineEvent nat) * option error))).
Definition run_tracker (o : engine_run) : engine_tracker :=
  match o with Ret (t, _, _) => t | _ => newMetadataTracker end.
Definition run_world (o : engine_run) : demoService := match o with Ret (_, w, _) => w | _ => demo_service end.
Definition run_events (o : engine_run) : list (engineEvent nat) :=
  match o with Ret (_, _, (evs, _)) => evs | _ => [] end.

Lemma run_parts (o : engine_run) :
  match o with Ret (_, _, (_, None)) => true | _ => false end = true →
  o = Ret (run_tracker o, run_world o, (run_events o, None)).
Proof. by destruct o as [[[t w] [evs [err|]]]| |]. Qed.

Definition run1 : engine_run := handle_result (engine_conf 3) newMetadataTracker demo_service demo_first.
Definition run2 : engine_run := handleResults (engine_conf 3) (run_tracker run1) (run_world run1) [quiet_result].
Definition run3 : engine_run := handle_result (engine_conf 3) (run_tracker run2) (run_world run2) demo_res.

Lemma engine_gives_artifacts_back_witness : ∃ w' m1 m2,
  turn_answers (newMetadataTracker : engine_tracker) demo_first demo_service w' m1 m2 ∧
  ∃ bs arts evs i, run_events run3 = CallReorged bs (Some arts) :: evs ∧ bs !! i = Some block12 ∧
    arts !! i = Some (default None (m2 !! 112%Z)).
Proof.
  apply (engine_gives_artifacts_back (engine_conf 3) newMetadataTracker demo_service demo_first (run_tracker run1)
    (run_world run1) (run_events run1) [quiet_result] (run_tracker run2) (run_world run2) (run_events run2)
    demo_res (run_tracker run3) (run_world run3) (run_events run3) None block12).
  - apply newMetadataTracker_wf.
  - intros r Hr. apply list_elem_of_In in Hr as [<-|[<-|[]]]; unfold distinct, keys, forgotten;
      split_and!; apply (bool_decide_unpack _); vm_compute; exact I.
  - apply (bool_decide_unpack _). vm_compute. exact I.
  - vm_compute. reflexivity.
  - apply run_parts. vm_compute. reflexivity.
  - apply run_parts. vm_compute. reflexivity.
  - unfold distinct. apply (bool_decide_unpack _). vm_compute. exact I.
  - unfold distinct. apply (bool_decide_unpack _). vm_compute. exact I.
  - apply (bool_decide_unpack _). vm_compute. exact I.
  - apply run_parts. vm_compute. reflexivity.
Defined.
