(* ===== verification/EngineLoop.v ===== *)
(** internal/engine/engine.go and pkg/components/superwatcher_impl.go: the three goroutines of
    a watcher (the emitter's Loop, the engine's handleResults and its HandleEmitterError, which
    is what Loop waits for) and the unbuffered channels between them, for any engine that has
    the class [EngineSide]. *)

From S2P Require Import Prelude GoErrors Types Externals SortedSet DataGateway EmitterBlocks Emitter.
From S2P Require Import EngineStates MetadataTracker Engine.

(** * Definitions *)

(** Where the goroutine of handleResults is: at the receive, at the send of a sync, or done,
    with the emitter client shut down, which closes the sync channel. *)
Inductive resultsLoop : Type :=
  | ResReceives
  | ResSyncs
  | ResReturned (err : option error).

(** Where HandleEmitterError is; engine.Loop returns what it returns. *)
Inductive errorsLoop : Type :=
  | ErrReceives
  | ErrReturned (err : option error).

(** What handleResults does next after a result: it sends a sync, or returns the error. *)
Definition after_result (err : option error) : resultsLoop :=
  match err with None => ResSyncs | Some _ => ResReturned err end.

(** What an engine does with what it receives, for any state [T] of its own: with a result,
    when the result channel is closed, and with an error of the emitter.  The engine of
    internal/engine is one, the thin engine another. *)
Class EngineSide (T W : Type) : Type := {
  side_result : Config → T → W → PollerResult → outcome (T * W * option error);
  side_closed : T → W → outcome (T * W * resultsLoop);
  side_error : W → error → outcome (W * option error);
}.

#[export] Instance engine_side {SS W A} `{SortedSet SS} `{HashText} `{Gsl} `{!SetStateDataGateway W}
    `{!ServiceEngine W A} : EngineSide (metadataTracker SS A) W := {|
  side_result conf t w res := '(t, w, (_, err)) ← handle_result conf t w res; Ret (t, w, err);
  side_closed t w := Ret (t, w, ResReturned None);
  side_error w err := HandleEmitterError (A := A) w err;
|}.

(** The emitter has computed its turn and still has to do the pending events; the result and
    error channels are open until it shuts down. *)
Record loops (T W : Type) : Type := mkLoops {
  lp_emitter : emitterState;
  lp_pending : list event;
  lp_open : bool;
  lp_results : resultsLoop;
  lp_errors : errorsLoop;
  lp_engine : T;
  lp_world : W;
}.
Arguments mkLoops {T W}.
Arguments lp_emitter {T W}.
Arguments lp_pending {T W}.
Arguments lp_open {T W}.
Arguments lp_results {T W}.
Arguments lp_errors {T W}.
Arguments lp_engine {T W}.
Arguments lp_world {T W}.

Section loops.
Context `{HashText} `{EthUtil} `{Gsl} `{EmitterEnv W} `{!EngineSide T W}.

(** A handler runs from its receive to its next channel operation without interruption. *)
Inductive loop_step (e : emitter) (ctxErr : error) : loops T W → loops T W → Prop :=
  | loop_emitter st st' evs o r h t w w' :
      emitter_step e ctxErr st w evs st' w' →
      loop_step e ctxErr (mkLoops st [] o r h t w) (mkLoops st' evs o r h t w')
  | loop_internal st ev evs o r h t w :
      (ev = EvSleep ∨ ∃ from to, ev = EvPoll from to) →
      loop_step e ctxErr (mkLoops st (ev :: evs) o r h t w) (mkLoops st evs o r h t w)
  | loop_result st res evs h t t' w w' err :
      side_result (conf e) t w res = Ret (t', w', err) →
      loop_step e ctxErr (mkLoops st (EvResult res :: evs) true ResReceives h t w)
        (mkLoops st evs true (after_result err) h t' w')
  | loop_sync st evs o h t w :
      loop_step e ctxErr (mkLoops st (EvSync :: evs) o ResSyncs h t w)
        (mkLoops st evs o ResReceives h t w)
  | loop_sync_closed st evs o err h t w :
      loop_step e ctxErr (mkLoops st (EvSync :: evs) o (ResReturned err) h t w)
        (mkLoops st evs o (ResReturned err) h t w)
  | loop_error st err evs r t w w' err' :
      side_error (T := T) w err = Ret (w', err') →
      loop_step e ctxErr (mkLoops st (EvError err :: evs) true r ErrReceives t w)
        (mkLoops st evs true r
          (match err' with None => ErrReceives | Some _ => ErrReturned (errors_Wrap err'
             "serviceEngine.HandleEmitterError returned non-nil error") end) t w')
  | loop_shutdown st evs r h t w :
      loop_step e ctxErr (mkLoops st (EvShutdown :: evs) true r h t w)
        (mkLoops st evs false r h t w)
  | loop_results_closed st evs r h t t' w w' :
      side_closed t w = Ret (t', w', r) →
      loop_step e ctxErr (mkLoops st evs false ResReceives h t w) (mkLoops st evs false r h t' w')
  | loop_errors_closed st evs r t w :
      loop_step e ctxErr (mkLoops st evs false r ErrReceives t w)
        (mkLoops st evs false r (ErrReturned None) t w).

Inductive loop_steps (e : emitter) (ctxErr : error) : loops T W → loops T W → Prop :=
  | steps_refl s : loop_steps e ctxErr s s
  | steps_more s1 s2 s3 :
      loop_steps e ctxErr s1 s2 → loop_step e ctxErr s2 s3 → loop_steps e ctxErr s1 s3.

(** superWatcher.Run returns what engine.Loop does, wrapped. *)
Definition run_returns (s : loops T W) : option (option error) :=
  match lp_errors s with
  | ErrReturned err => Some (errors_Wrap err "engine.Loop exited")
  | ErrReceives => None
  end.

(** ** Reference: the loops one after the other *)

(** What a turn's events do, in order: results are handled and then synced, errors are given
    to the service. *)
Fixpoint run_events (e : emitter) (evs : list event) (r : resultsLoop) (h : errorsLoop)
    (t : T) (w : W) :
    outcome (resultsLoop * errorsLoop * T * W) :=
  match evs with
  | [] => Ret (r, h, t, w)
  | EvResult res :: evs =>
      match r with
      | ResReceives =>
          '(t, w, err) ← side_result (conf e) t w res;
          run_events e evs (after_result err) h t w
      | _ => Diverge
      end
  | EvSync :: evs =>
      match r with
      | ResSyncs => run_events e evs ResReceives h t w
      | ResReturned _ => run_events e evs r h t w
      | ResReceives => Diverge
      end
  | EvError err :: evs =>
      match h with
      | ErrReceives =>
          '(w, err') ← side_error (T := T) w err;
          run_events e evs r (match err' with None => ErrReceives
            | Some _ => ErrReturned (errors_Wrap err'
                "serviceEngine.HandleEmitterError returned non-nil error") end) t w
      | ErrReturned _ => Diverge
      end
  | _ :: evs => run_events e evs r h t w
  end.

(** Turns of the emitter, each followed by what its events do. *)
Inductive turn_steps (e : emitter) (ctxErr : error) :
    emitterState → resultsLoop → errorsLoop → T → W →
    emitterState → resultsLoop → errorsLoop → T → W → Prop :=
  | turns_refl st r h t w : turn_steps e ctxErr st r h t w st r h t w
  | turns_more st r h t w st1 r1 h1 t1 w1 evs st2 w2 r3 h3 t3 w3 :
      turn_steps e ctxErr st r h t w st1 r1 h1 t1 w1 →
      emitter_step e ctxErr st1 w1 evs st2 w2 → EvShutdown ∉ evs →
      run_events e evs r1 h1 t1 w2 = Ret (r3, h3, t3, w3) →
      turn_steps e ctxErr st r h t w st2 r3 h3 t3 w3.

(** A watcher at a turn boundary. *)
Definition at_boundary (st : emitterState) (r : resultsLoop) (h : errorsLoop)
    (t : T) (w : W) : loops T W := mkLoops st [] true r h t w.

(** * Lemmas *)

Lemma loop_steps_trans e ctxErr s1 s2 s3 :
  loop_steps e ctxErr s1 s2 → loop_steps e ctxErr s2 s3 → loop_steps e ctxErr s1 s3.
Proof. intros H12 H23. induction H23 as [|s2 s3 s4 _ IH Hs]; [done|]. eapply steps_more; [by apply IH|done]. Qed.

Lemma loop_steps_one e ctxErr s1 s2 : loop_step e ctxErr s1 s2 → loop_steps e ctxErr s1 s2.
Proof. intros. by eapply steps_more; [apply steps_refl|]. Qed.

Lemma run_events_snoc e evs ev r h t w r1 h1 t1 w1 :
  run_events e evs r h t w = Ret (r1, h1, t1, w1) →
  run_events e (evs ++ [ev]) r h t w = run_events e [ev] r1 h1 t1 w1.
Proof.
  revert r h t w. induction evs as [|ev0 evs IH]; intros r h t w Hrun; [by simplify_eq/=|].
  cbn [app run_events] in *. destruct ev0; try (by apply IH).
  - destruct r; try done. apply bind_Ret_inv in Hrun as ([[t2 w2] err] & Hr & Hrun).
    rewrite Hr. simpl. by apply IH.
  - destruct r; try done; by apply IH.
  - destruct h; try done. apply bind_Ret_inv in Hrun as ([w2 err'] & Hr & Hrun).
    rewrite Hr. simpl. by apply IH.
Qed.

(** A reachable state with open channels is in the middle of a turn that follows a number of
    whole turns. *)
Definition mid_turn e ctxErr st0 r0 h0 t0 w0 (s : loops T W) : Prop :=
  (∃ st1, turn_steps e ctxErr st0 r0 h0 t0 w0 st1 (lp_results s) (lp_errors s) (lp_engine s)
     (lp_world s) ∧ lp_emitter s = st1 ∧ lp_pending s = []) ∨
  (∃ st1 r1 h1 t1 w1 evs w2 pre, turn_steps e ctxErr st0 r0 h0 t0 w0 st1 r1 h1 t1 w1 ∧
     emitter_step e ctxErr st1 w1 evs (lp_emitter s) w2 ∧ evs = pre ++ lp_pending s ∧
     (EvShutdown ∉ pre) ∧
     run_events e pre r1 h1 t1 w2 = Ret (lp_results s, lp_errors s, lp_engine s, lp_world s)).

(** Doing the next event of the middle of a turn. *)
Lemma mid_turn_event e ctxErr st0 r0 h0 t0 w0 st ev evs r h t w r' h' t' w' :
  mid_turn e ctxErr st0 r0 h0 t0 w0 (mkLoops st (ev :: evs) true r h t w) →
  ev ≠ EvShutdown → run_events e [ev] r h t w = Ret (r', h', t', w') →
  mid_turn e ctxErr st0 r0 h0 t0 w0 (mkLoops st evs true r' h' t' w').
Proof.
  intros [(st1 & _ & _ & Hp)|(st1 & r1 & h1 & t1 & w1 & evs0 & w2 & pre & Ht & Hs & -> & Hn & Hr)]
    Hev Hrun; simpl in *; [done|].
  right. exists st1, r1, h1, t1, w1, (pre ++ ev :: evs), w2, (pre ++ [ev]). simpl.
  split; [done|]. split; [done|]. split; [by rewrite <-app_assoc|]. split; [set_solver|].
  by rewrite (run_events_snoc _ _ _ _ _ _ _ _ _ _ _ Hr).
Qed.

Lemma mid_turn_done e ctxErr st0 r0 h0 t0 w0 st r h t w :
  mid_turn e ctxErr st0 r0 h0 t0 w0 (mkLoops st [] true r h t w) →
  turn_steps e ctxErr st0 r0 h0 t0 w0 st r h t w.
Proof.
  intros [(st1 & Ht & <- & _)|(st1 & r1 & h1 & t1 & w1 & evs0 & w2 & pre & Ht & Hs & -> & Hn & Hr)];
    simpl in *; [done|].
  rewrite app_nil_r in Hs. by eapply turns_more.
Qed.

Lemma loop_steps_mid e ctxErr st0 r0 h0 t0 w0 s :
  loop_steps e ctxErr (at_boundary st0 r0 h0 t0 w0) s → lp_open s = true →
  mid_turn e ctxErr st0 r0 h0 t0 w0 s.
Proof.
  remember (at_boundary st0 r0 h0 t0 w0) as s0 eqn:Hs0.
  induction 1 as [s|s1 s2 s3 Hsteps IH Hstep]; intros Hopen; subst.
  { left. exists st0. split; [apply turns_refl|done]. }
  assert (lp_open s2 = true) as Hopen2 by (destruct Hstep; simpl in *; congruence).
  specialize (IH eq_refl Hopen2). clear Hsteps. destruct Hstep; simpl in *; subst; try done.
  - right. eexists _, _, _, _, _, _, _, []. split; [by apply mid_turn_done|].
    split; [done|]. split; [done|]. split; [set_solver|done].
  - match goal with Hev : _ ∨ _ |- _ => destruct Hev as [->|(from & to & ->)] end;
      by eapply mid_turn_event.
  - eapply mid_turn_event; [done|done|]. simpl.
    match goal with Hr : side_result _ _ _ _ = _ |- _ => by rewrite Hr end.
  - by eapply mid_turn_event.
  - by eapply mid_turn_event.
  - eapply mid_turn_event; [done|done|]. simpl.
    match goal with Hr : side_error _ _ = _ |- _ => by rewrite Hr end.
Qed.

(** ** Turns that send a result *)

Definition internal (ev : event) : Prop := ev = EvSleep ∨ ∃ from to, ev = EvPoll from to.

Lemma loop_turn_result e s w w' evs s' :
  hasResultChan e = true → loop_turn e s w = Ret (w', (evs, inl s')) →
  (∃ res, EvResult res ∈ evs) →
  ∃ pre res, evs = pre ++ [EvResult res; EvSync] ∧ Forall internal pre.
Proof.
  intros Hc Hrun [res0 Hres]. unfold loop_turn in Hrun.
  set (slept := if st_GoBackFirstStart (sv_get s) then [] else [EvSleep]) in *.
  assert (Forall internal slept) as Hslept.
  { unfold slept. case_match; [done|]. apply Forall_singleton. by left. }
  apply bind_Ret_inv in Hrun as ([w1 [prev [new err]]] & _ & Hrun). simpl in Hrun.
  destruct (if _ : bool then _ else err) as [err'|].
  { destruct (errors_Is _ _); [|done]. injection Hrun as <- <- <-.
    apply (proj1 (Forall_forall _ _) Hslept) in Hres as [?|(? & ? & ?)]; done. }
  apply bind_Ret_inv in Hrun as ([w2 [result perr]] & _ & Hrun).
  assert (∀ r sent, emitFilterResult e r = Ret sent → ∃ res, sent = [EvResult res]) as Hsent.
  { unfold emitFilterResult. rewrite Hc. intros [r|] sent; [|done]. intros [= <-]. by exists r. }
  set (polled := slept ++ [EvPoll (st_FromBlock (default prev new)) (st_ToBlock (default prev new))]) in *.
  assert (Forall internal polled) as Hpolled.
  { apply Forall_app. split; [done|]. apply Forall_singleton. right. by eexists _, _. }
  destruct perr as [err'|].
  - destruct (errors_Is _ _); [|done]. apply bind_Ret_inv in Hrun as (sent & Hs & Hrun).
    apply Hsent in Hs as [res ->]. injection Hrun as <- <- <-. by exists polled, res.
  - destruct result as [r|]; [|done]. apply bind_Ret_inv in Hrun as (sent & Hs & Hrun).
    apply Hsent in Hs as [res ->]. injection Hrun as <- <- <-. by exists polled, res.
Qed.

(** A turn that fails sends nothing. *)
Lemma loop_turn_error e s w w' evs r :
  loop_turn e s w = Ret (w', (evs, inr r)) → Forall internal evs.
Proof.
  intros Hrun. unfold loop_turn in Hrun.
  set (slept := if st_GoBackFirstStart (sv_get s) then [] else [EvSleep]) in *.
  assert (Forall internal slept) as Hslept.
  { unfold slept. case_match; [done|]. apply Forall_singleton. by left. }
  apply bind_Ret_inv in Hrun as ([w1 [prev [new err]]] & _ & Hrun). simpl in Hrun.
  destruct (if _ : bool then _ else err) as [err'|].
  { destruct (errors_Is _ _); [done|]. by injection Hrun as <- <- _. }
  apply bind_Ret_inv in Hrun as ([w2 [result perr]] & _ & Hrun).
  destruct perr as [err'|].
  - destruct (errors_Is _ _); [by apply bind_Ret_inv in Hrun as (sent & _ & ?)|].
    injection Hrun as <- <- _. apply Forall_app. split; [done|]. apply Forall_singleton. right. by eexists _, _.
  - destruct result as [res|]; [|done]. by apply bind_Ret_inv in Hrun as (sent & _ & ?).
Qed.

Lemma internal_steps e ctxErr st pre evs o r h t w :
  Forall internal pre →
  loop_steps e ctxErr (mkLoops st (pre ++ evs) o r h t w) (mkLoops st evs o r h t w).
Proof.
  induction 1 as [|ev pre Hev _ IH]; [apply steps_refl|].
  eapply loop_steps_trans; [apply loop_steps_one|exact IH]. by constructor.
Qed.

(** * Properties *)


(** C9: An error of the service hangs the watcher, with either engine: when handleResults returns an error, its
    goroutine ends and closes the sync channel, but engine.Loop goes on waiting for the
    emitter's errors.  If the emitter's next turn has a result, the emitter is then stuck in
    sending it: no goroutine can make a step any more, whether or not the context is done, and
    Run has not returned. *)
Theorem engine_failure_hangs e ctxErr sv res t w t' w' err sv' w2 evs2 :
  hasResultChan e = true →
  side_result (conf e) t w res = Ret (t', w', Some err) →
  loop_turn e sv w' = Ret (w2, (evs2, inl sv')) → (∃ res2, EvResult res2 ∈ evs2) →
  ∃ s, loop_steps e ctxErr
      (mkLoops (InLoopEmit sv) [EvResult res; EvSync] true ResReceives ErrReceives t w) s ∧
    lp_results s = ResReturned (Some err) ∧ run_returns s = None ∧
    ∀ s', ¬ loop_step e ctxErr s s'.
Proof.
  intros Hc Hh Hturn Hres.
  destruct (loop_turn_result e sv w' w2 evs2 sv' Hc Hturn Hres) as (pre & res2 & -> & Hpre).
  exists (mkLoops (InLoopEmit sv') [EvResult res2; EvSync] true (ResReturned (Some err))
    ErrReceives t' w2). split; [|split; [done|split; [done|]]].
  - eapply loop_steps_trans; [apply loop_steps_one, (loop_result _ _ _ _ _ _ _ _ _ _ _ Hh)|].
    eapply loop_steps_trans; [apply loop_steps_one, loop_sync_closed|].
    eapply loop_steps_trans; [apply loop_steps_one, loop_emitter, step_turn, Hturn|].
    by apply internal_steps.
  - intros s' Hstep. inversion Hstep; subst; naive_solver.
Qed.
End loops.
