(* ===== verification/System.v ===== *)
(** The whole watcher: emitter, poller, client, gateway, engine and service, composed as
    their channels and shared objects compose them. *)

From S2P Require Import Prelude GoErrors Types Externals SortedSet EthClient Batch BlockTracker PollUtils.
From S2P Require Import PollPolicy Poller PollerSpec PollRun PollHonest DataGateway EmitterBlocks Emitter EmitterProps.
From S2P Require Import EngineStates MetadataTracker Engine EngineSpec EngineProps EngineRuns Watcher.

(** * Definitions *)

(** The engine's world is the service and the gateway that the emitter reads. *)
#[export] Instance paired_service {S G A} `{ServiceEngine S A} : ServiceEngine (S * G) A := {|
  HandleGoodBlocks w bs arts :=
    '(s, r) ← HandleGoodBlocks w.1 bs arts; Ret ((s, w.2), r);
  HandleReorgedBlocks w bs arts :=
    '(s, r) ← HandleReorgedBlocks w.1 bs arts; Ret ((s, w.2), r);
  HandleEmitterError w err :=
    '(s, r) ← HandleEmitterError (A := A) w.1 err; Ret ((s, w.2), r);
|}.
#[export] Instance paired_gateway {S G} `{SetStateDataGateway G} : SetStateDataGateway (S * G) := {|
  SetLastRecordedBlock w n := '(g, r) ← SetLastRecordedBlock w.2 n; Ret ((w.1, g), r);
|}.

(** The emitter inside loopEmit, what it reads, and the engine. *)
Record system (SS : Type → Type) (C G S A : Type) : Type := mkSystem {
  sy_status : statusVar;
  sy_watcher : watcherWorld SS C G;
  sy_tracker : metadataTracker SS A;
  sy_service : S;
}.
Arguments mkSystem {SS C G S A}.
Arguments sy_status {SS C G S A}.
Arguments sy_watcher {SS C G S A}.
Arguments sy_tracker {SS C G S A}.
Arguments sy_service {SS C G S A}.

(** How a turn ends: both loops go on, loopEmit returns, or handleResults returns. *)
Inductive turnEnd : Set :=
  | TurnOk
  | EmitterReturns (err : error)
  | EngineReturns (err : error).

(** What a turn puts into the result channel. *)
Definition results_of (evs : list event) : list PollerResult :=
  omap (λ ev, match ev with EvResult r => Some r | _ => None end) evs.

Section system.
Context `{SortedSet SS} `{HashText} `{EthUtil} `{Gsl} `{EthClient C}.
Context `{!GetStateDataGateway G} `{!SetStateDataGateway G} {S A : Type} `{!ServiceEngine S A}.
Implicit Types (y : system SS C G S A) (e : emitter).

Definition sy_poller y : poller SS := ww_poller (sy_watcher y).

(** One turn of loopEmit with the turn of the engine that it waits for: the emitter blocks
    on the result channel and then on the sync channel, until the engine has handled the
    result and calls SyncsEmitter. *)
Definition system_turn (logsFirst : bool) e y :
    outcome (system SS C G S A * (list event * list (engineEvent A) * turnEnd)) :=
  '(w, (evs, next)) ← @loop_turn _ _ (watcher_env logsFirst) e (sy_status y) (sy_watcher y);
  '(t, (s, g), (calls, err)) ←
    handleResults (conf e) (sy_tracker y) (sy_service y, ww_gateway w) (results_of evs);
  let w := mkWorld (ww_poller w) (ww_client w) g in
  match next with
  | inl status =>
      Ret (mkSystem status w t s, (evs, calls,
        match err with None => TurnOk | Some x => EngineReturns x end))
  | inr (status, x) => Ret (mkSystem status w t s, (evs, calls, EmitterReturns x))
  end.

(** Turns one after the other, for as long as both loops go on. *)
Fixpoint system_run (logsFirst : bool) e y (turns : nat) :
    outcome (system SS C G S A * list (engineEvent A)) :=
  match turns with
  | O => Ret (y, [])
  | Datatypes.S turns =>
      '(y, (_, calls, how)) ← system_turn logsFirst e y;
      match how with
      | TurnOk => '(y, calls') ← system_run logsFirst e y turns; Ret (y, calls ++ calls')
      | _ => Ret (y, calls)
      end
  end.

(** The service and the gateway answer without errors. *)
Definition env_succeeds (W A' : Type) `{ServiceEngine W A'} `{SetStateDataGateway W} : Prop :=
  (∀ w bs (arts : goslice (goslice A')), ∃ w' m, HandleGoodBlocks w bs arts = Ret (w', (m, None))) ∧
  (∀ w bs (arts : goslice (goslice A')), ∃ w' m, HandleReorgedBlocks w bs arts = Ret (w', (m, None))) ∧
  (∀ w n, ∃ w', SetLastRecordedBlock w n = Ret (w', None)).

(** ** What holds between turns *)

(** [number_of] is the number of the block that has a hash: a hash determines it. *)
Context (number_of : Hash → Z).

(** The hashes of a range of a view of the chain have their blocks' numbers. *)
Definition numbered (header_of : Z → BlockHeader) (from to : Z) : Prop :=
  ∀ n, (from ≤ n ≤ to)%Z → number_of (header_Hash (header_of n)) = n.

(** The client's answers agree on such a view of the chain. *)
Record chain_view (I : C → Prop) (logs_of : FilterQuery → list Log)
    (header_of : Z → BlockHeader) : Prop := {
  view_honest : honest I logs_of header_of;
  view_number : numbered header_of 0 (two63 - 1);
}.

(** The poller's configuration is the emitter's. *)
Definition poller_conf (c : Config) (p : poller SS) : Prop :=
  policy_ok (policy p) ∧ doReorg p = true ∧ is_Some (tracker p) ∧
  filterRange p = FilterRange c.

(** The configurations for which the engine remembers what the poller remembers. *)
Definition engine_conf_ok (c : Config) : Prop :=
  (1 ≤ MaxGoBackRetries c ∧ 1 ≤ FilterRange c ∧ FilterRange c * MaxGoBackRetries c < two63)%Z.

Record system_ok e y : Prop := {
  ok_poller : poller_wf (sy_poller y);
  ok_conf : poller_conf (conf e) (sy_poller y);
  ok_status : var_ok (conf e) (sy_status y);
  ok_tracker : mt_wf (sy_tracker y);
  ok_known n b : is_u64 n → known_of (sy_poller y) n = Some b → number_of (BHash b) = n;
  ok_meta h m : meta_of (sy_tracker y) (StringerToLowerString h) = Some m →
    blockNumber m = number_of h;
  ok_engine_knows n b : is_u64 n → remembered (sy_poller y) n = Some b →
    is_Some (meta_of (sy_tracker y) (Block_String b));
}.
End system.

(** * Lemmas *)

Lemma paired_returns {S G A} `{!ServiceEngine S A} `{!SetStateDataGateway G} :
  (∀ s bs (arts : goslice (goslice A)), returns (HandleGoodBlocks s bs arts)) →
  (∀ s bs (arts : goslice (goslice A)), returns (HandleReorgedBlocks s bs arts)) →
  (∀ (g : G) n, returns (SetLastRecordedBlock g n)) →
  env_returns (S * G) A.
Proof.
  intros Hg Hr Hs. split; [|split].
  - intros [s g] bs arts. simpl. destruct (Hg s bs arts) as [[s' r] ->]. by eexists.
  - intros [s g] bs arts. simpl. destruct (Hr s bs arts) as [[s' r] ->]. by eexists.
  - intros [s g] n. simpl. destruct (Hs g n) as [[g' r] ->]. by eexists.
Qed.
