(* ===== verification/SystemLemmas.v ===== *)
(** What a turn of the whole watcher keeps: the poller's results are results that the
    engine can handle, and the engine remembers what the poller remembers. *)

From S2P Require Import Prelude GoErrors Types Externals SortedSet EthClient Batch BlockTracker PollUtils.
From S2P Require Import PollPolicy Poller PollerSpec PollRun PollHonest DataGateway EmitterBlocks Emitter EmitterProps.
From S2P Require Import EngineStates MetadataTracker Engine EngineSpec EngineProps EngineRuns Watcher System.

(** * Lemmas *)

(** ** Arithmetic of the two bounds *)

Lemma to_int64_sub a b :
  (0 ≤ a < two63)%Z → (0 ≤ b < two63)%Z → to_int64 (a -₆₄ b) = (a - b)%Z.
Proof.
  intros Ha Hb. destruct (Z_le_gt_dec b a).
  - rewrite u64_sub_small by (unfold is_u64; lia). apply to_int64_small. lia.
  - rewrite u64_sub_under by lia. unfold to_int64.
    destruct (Z.ltb_spec (a - b + two64) two63); lia.
Qed.

(** With at least one retry the engine does not forget before the poller does. *)
Lemma forget_bound_le c r :
  engine_conf_ok c → (0 ≤ LastGood r < two63)%Z →
  (to_int64 (forget_bound c r) ≤ to_int64 (LastGood r -₆₄ FilterRange c))%Z.
Proof.
  intros (Hm & Hf & Hfm) HL. unfold forget_bound.
  rewrite u64_mul_small by (unfold is_u64; nia).
  rewrite !to_int64_sub by nia. nia.
Qed.

Section results.
Context `{HashText} (number_of : Hash → Z).
Implicit Types (known : Z → option Block) (logs : list Log).

(** Blocks of different numbers have different hash texts. *)
Lemma distinct_numbers blocks :
  NoDup ((λ b, number_of (BHash b)) <$> blocks) → distinct blocks.
Proof.
  intros Hnd. unfold distinct. apply (NoDup_fmap_1 (λ k, number_of (HexToHash k))).
  rewrite <-list_fmap_compose. erewrite list_fmap_ext; [exact Hnd|].
  intros i b _. simpl. unfold Block_String. by rewrite HexToHash_String.
Qed.

Context (header_of : Z → BlockHeader).

Lemma report_good_numbers known logs exp l :
  (∀ n, n ∈ l → number_of (header_Hash (header_of n)) = n) →
  (λ b, number_of (BHash b)) <$> report_good known header_of logs exp l =
    filter (reported known logs exp) l.
Proof.
  intros Hnum. unfold report_good. rewrite <-list_fmap_compose.
  rewrite <-(list_fmap_id (filter _ l)) at 2. apply list_fmap_ext. intros i n Hn.
  apply Hnum. by apply list_elem_of_lookup_2, list_elem_of_filter in Hn as [_ Hn].
Qed.

Lemma report_reorged_numbers known logs l :
  Forall (λ n, 0 ≤ n < two63)%Z l → (∀ n b, is_u64 n → known n = Some b → number_of (BHash b) = n) →
  (λ b, number_of (BHash b)) <$> report_reorged known header_of logs l =
    filter (λ n, changed known header_of logs n = true) l.
Proof.
  intros Hl Hk. unfold report_reorged. induction Hl as [|n l Hn Hl IH]; [done|].
  simpl. rewrite filter_cons. destruct (changed known header_of logs n) eqn:Ec.
  - rewrite decide_True by done. unfold changed in Ec. destruct (known n) as [b|] eqn:Eb; [|done].
    rewrite fmap_cons. f_equal; [apply Hk; [unfold is_u64; lia|done]|exact IH].
  - rewrite decide_False by done. apply IH.
Qed.

End results.

Section reports.
Context `{HashText} (header_of : Z → BlockHeader).
Implicit Types (known : Z → option Block) (logs : list Log).

Lemma elem_of_report_good known logs exp l b :
  b ∈ report_good known header_of logs exp l ↔
    ∃ n, n ∈ l ∧ reported known logs exp n ∧ b = fresh_block known header_of logs exp n.
Proof.
  unfold report_good. rewrite list_elem_of_fmap. setoid_rewrite list_elem_of_filter. naive_solver.
Qed.

Lemma elem_of_report_reorged known logs l b :
  b ∈ report_reorged known header_of logs l ↔
    ∃ n, n ∈ l ∧ changed known header_of logs n = true ∧ known n = Some b.
Proof.
  unfold report_reorged. rewrite list_elem_of_omap. split.
  - intros (n & Hn & Hx). exists n. by destruct (changed known header_of logs n).
  - intros (n & Hn & Hc & Hk). exists n. by rewrite Hc.
Qed.

(** What is known next is what was known or what was reported. *)
Lemma known_next_cases known logs exp pol n b :
  known_next known header_of logs exp pol n = Some b →
  known n = Some b ∨ reported known logs exp n ∧ b = fresh_block known header_of logs exp n.
Proof.
  unfold known_next. case_decide as Hr; [|done].
  destruct (_ && bool_decide (logs_at n logs = [])); [|intros [= <-]; by right].
  destruct (_ && LogsMigrated _); [done|by left].
Qed.
End reports.

Section system_lemmas.
Context `{SortedSet SS} `{HashText} `{EthUtil} `{Gsl} `{EthClient C}.
Context `{!GetStateDataGateway G} `{!SetStateDataGateway G} {S A : Type} `{!ServiceEngine S A}.
Context (number_of : Hash → Z) (header_of : Z → BlockHeader) (from to : Z).
Context (Hnum : numbered number_of header_of from to).
Implicit Types (y : system SS C G S A) (e : emitter) (p : poller SS) (t : metadataTracker SS A).

Lemma range_small : range_ok from to → Forall (λ n, 0 ≤ n < two63)%Z (block_range from to).
Proof.
  intros Hr. apply Forall_forall. intros n Hn%elem_of_block_range. unfold range_ok in Hr. lia.
Qed.

Lemma remembered_number p n b :
  (∀ n b, is_u64 n → known_of p n = Some b → number_of (BHash b) = n) →
  is_u64 n → remembered p n = Some b → number_of (BHash b) = n.
Proof. intros Hk Hn. unfold remembered. case_decide; [|done]. by apply Hk. Qed.

(** The poller's reference result is one that the engine can handle. *)
Lemma spec_result_ok p t logs :
  range_ok from to →
  (∀ n b, is_u64 n → known_of p n = Some b → number_of (BHash b) = n) →
  (∀ n b, is_u64 n → remembered p n = Some b → is_Some (meta_of t (Block_String b))) →
  result_ok t (spec_result p header_of logs from to).
Proof.
  intros Hr Hk He. pose proof (range_small Hr) as Hu.
  split_and!; simpl.
  - apply (distinct_numbers number_of). rewrite report_reorged_numbers; [|done|].
    + apply NoDup_filter, NoDup_block_range.
    + intros n b. by apply remembered_number.
  - apply (distinct_numbers number_of). rewrite report_good_numbers by (intros n Hn%elem_of_block_range; by apply Hnum).
    apply NoDup_filter, NoDup_block_range.
  - intros b (n & Hn & _ & Hb)%elem_of_report_reorged. apply (He n); [|done].
    apply elem_of_block_range in Hn. unfold range_ok, is_u64 in *. lia.
Qed.

Lemma spec_known_number p logs n b :
  (∀ n b, is_u64 n → known_of p n = Some b → number_of (BHash b) = n) →
  is_u64 n → spec_known p header_of logs from to n = Some b → number_of (BHash b) = n.
Proof.
  intros Hk Hn. unfold spec_known. destruct (tracker p); [|done].
  case_decide; [|by apply remembered_number].
  intros [?|[_ ->]]%known_next_cases; [by apply (remembered_number p)|].
  by apply Hnum.
Qed.

(** Every hash that the engine knows after a result has the number of its block. *)
Lemma known_done_number c p t logs h x :
  (∀ h m, meta_of t (StringerToLowerString h) = Some m → blockNumber m = number_of h) →
  known_done c t (spec_result p header_of logs from to) (StringerToLowerString h) = Some x →
  x.1 = number_of h.
Proof.
  intros Hm. unfold known_done. intros (n & Hn & Hx)%bind_Some. case_decide; simplify_eq/=.
  unfold number_known in Hn.
  destruct (meta_of t _) as [m|] eqn:Em; [injection Hn as <-; by apply Hm|].
  destruct (filter _ _) as [|b l] eqn:E; simplify_eq/=.
  assert (b ∈ filter (λ b, Block_String b = StringerToLowerString h)
    (report_good (remembered p) header_of logs (expensive p) (block_range from to)))
    as [Hb Hin]%list_elem_of_filter by (rewrite E; by left).
  apply elem_of_report_good in Hin as (n & Hn & _ & ->).
  apply (inj StringerToLowerString) in Hb as <-. simpl. symmetry.
  by apply Hnum, elem_of_block_range.
Qed.

(** What the poller remembers after a result is not forgotten by the engine. *)
Lemma known_done_remembered c p p' t logs n b :
  engine_conf_ok c → range_ok from to → filterRange p' = FilterRange c →
  let r := spec_result p header_of logs from to in
  lastRecordedBlock p' = LastGood r → (0 ≤ LastGood r < two63)%Z →
  (∀ n b, is_u64 n → known_of p n = Some b → number_of (BHash b) = n) →
  (∀ h m, meta_of t (StringerToLowerString h) = Some m → blockNumber m = number_of h) →
  (∀ n b, is_u64 n → remembered p n = Some b → is_Some (meta_of t (Block_String b))) →
  (∀ n, is_u64 n → known_of p' n = spec_known p header_of logs from to n) →
  is_u64 n → remembered p' n = Some b → is_Some (known_done c t r (Block_String b)).
Proof.
  intros Hc Hr Hfr r Hl HL Hk Hm He Hk' Hn Hb. unfold remembered in Hb.
  case_decide as Hd; [|done]. rewrite Hl, Hfr in Hd.
  pose proof (forget_bound_le c r Hc HL) as Hfb.
  assert (number_known t r (Block_String b) = Some n) as Hnk.
  { rewrite Hk' in Hb by done. pose proof (spec_known_number _ _ _ _ Hk Hn Hb) as Hnb.
    unfold number_known. destruct (meta_of t (Block_String b)) as [m|] eqn:Em;
      [f_equal; rewrite <-Hnb; by apply Hm|].
    assert (b ∈ GoodBlocks r ∧ Number b = n) as [Hin <-].
    { unfold spec_known in Hb. destruct (tracker p); [|done].
      case_decide as Hrng; [|apply He in Hb as [? ?]; [congruence|done]].
      apply known_next_cases in Hb as [Hb|[Hrep ->]]; [apply He in Hb as [? ?]; [congruence|done]|].
      split; [|done]. apply elem_of_report_good. exists n. split; [|done].
      by apply elem_of_block_range. }
    rewrite head_filter_key; [done| |done]. apply (spec_result_ok p t logs Hr Hk He). }
  unfold known_done. rewrite Hnk. simpl. rewrite decide_False; [by eexists|].
  unfold forgotten. lia.
Qed.
End system_lemmas.

(** ** A turn of the engine on one result *)

Section one_result.
Context `{SortedSet SS} `{HashText} {W A : Type} `{!ServiceEngine W A} `{!SetStateDataGateway W}.

Lemma handleResults_one c (t : metadataTracker SS A) (w : W) r t' w' evs err :
  handle_result c t w r = Ret (t', w', (evs, err)) →
  handleResults c t w [r] = Ret (t', w', (evs, err)).
Proof. intros Hh. simpl. rewrite Hh. simpl. destruct err; [done|]. by rewrite app_nil_r. Qed.

(** The conditional calls of a turn only fail if the service does. *)
Lemma conditional_call_ok (b : bool) (call : outcome (W * (gmap Z (goslice A) * option error)))
    (w w' : W) (evs evs' : list (engineEvent A)) m err ev :
  (∃ w1 m1, call = Ret (w1, (m1, None))) →
  (if b then '(w, r) ← call; Ret (w, evs ++ [ev], r) else Ret (w, evs, (∅, None)))
    = Ret (w', evs', (m, err)) → err = None.
Proof. intros (w1 & m1 & ->). destruct b; simpl; by intros [= _ _ _ <-]. Qed.

Lemma handle_result_succeeds c (t : metadataTracker SS A) (w : W) r t' w' evs err :
  env_succeeds W A → handle_result c t w r = Ret (t', w', (evs, err)) → err = None.
Proof.
  intros (Hg & Hr & Hs) Hh. unfold handle_result in Hh.
  apply bind_Ret_inv in Hh as ([t1 rb] & _ & Hh).
  apply bind_Ret_inv in Hh as ([[w1 evs1] [m1 err1]] & Hc1 & Hh).
  apply (conditional_call_ok _ _ w w1 [] evs1) in Hc1 as ->; [|apply Hr].
  apply bind_Ret_inv in Hh as (t2 & _ & Hh).
  apply bind_Ret_inv in Hh as ([[t3 rb'] gb] & _ & Hh).
  apply bind_Ret_inv in Hh as ([[w2 evs2] [m2 err2]] & Hc2 & Hh).
  apply conditional_call_ok in Hc2 as ->; [|apply Hg].
  apply bind_Ret_inv in Hh as (t4 & _ & Hh). apply bind_Ret_inv in Hh as (t5 & _ & Hh).
  apply bind_Ret_inv in Hh as ([w3 err3] & Hset & Hh).
  destruct (Hs w2 (LastGood r)) as [w4 Hs2]. rewrite Hs2 in Hset. injection Hset as <- <-.
  by injection Hh.
Qed.
End one_result.

Section gateway_after.
Context `{SortedSet SS} `{HashText} {S A G : Type} `{!ServiceEngine S A} `{!SetStateDataGateway G}.

Lemma conditional_call_gateway (b : bool) (call : outcome (S * (gmap Z (goslice A) * option error)))
    s g (w' : S * G) (evs evs' : list (engineEvent A)) r ev :
  (if b then '(w, r) ← ('(s, r) ← call; Ret ((s, g), r)); Ret (w, evs ++ [ev], r)
   else Ret ((s, g), evs, (∅, None))) = Ret (w', evs', r) → w'.2 = g.
Proof. destruct b; simpl; [|by intros [= <- _ _]]. destruct call as [[s1 r1]| |]; simpl; [|done..]. by intros [= <- _ _]. Qed.

(** A turn without an error has set the last good block. *)
Lemma handle_result_gateway c (t : metadataTracker SS A) (s : S) (g : G) r t' w' evs :
  handle_result c t (s, g) r = Ret (t', w', (evs, None)) →
  SetLastRecordedBlock g (LastGood r) = Ret (w'.2, None).
Proof.
  intros Hh. unfold handle_result in Hh.
  apply bind_Ret_inv in Hh as ([t1 rb] & _ & Hh).
  apply bind_Ret_inv in Hh as ([[[s1 g1] evs1] [m1 err1]] & Hc1 & Hh).
  apply (conditional_call_gateway _ _ s g (s1, g1) []) in Hc1. simpl in Hc1. subst g1.
  destruct err1; [done|].
  apply bind_Ret_inv in Hh as (t2 & _ & Hh).
  apply bind_Ret_inv in Hh as ([[t3 rb'] gb] & _ & Hh).
  apply bind_Ret_inv in Hh as ([[[s2 g2] evs2] [m2 err2]] & Hc2 & Hh).
  apply (conditional_call_gateway _ _ s1 g (s2, g2)) in Hc2. simpl in Hc2. subst g2.
  destruct err2; [done|].
  apply bind_Ret_inv in Hh as (t4 & _ & Hh). apply bind_Ret_inv in Hh as (t5 & _ & Hh).
  apply bind_Ret_inv in Hh as ([w3 err3] & Hset & Hh). destruct err3; [done|].
  injection Hh as _ <- _. simpl in Hset.
  apply bind_Ret_inv in Hset as ([g3 r3] & -> & Hset). by injection Hset as <- ->.
Qed.
End gateway_after.

Lemma results_of_turn (s : statusVar) e from to r :
  hasResultChan e = true →
  results_of (slept s ++ [EvPoll from to] ++ sent e r ++ [EvSync]) = [r].
Proof. intros Hc. unfold results_of, slept, sent. rewrite Hc. by case_match. Qed.

Lemma sent_open e r : hasResultChan e = true → sent e r = [EvResult r].
Proof. unfold sent. by intros ->. Qed.
