(* ===== verification/SystemProps.v ===== *)
(** The properties of the whole watcher: every turn is handled, what the service has done
    agrees with the chain, and how deep a reorg is noticed. *)

From S2P Require Import Prelude GoErrors Types Externals SortedSet EthClient Batch BlockTracker PollUtils.
From S2P Require Import PollPolicy Poller PollerSpec PollRun PollHonest PollerProps PollerMemory PollerFailures.
From S2P Require Import DataGateway EmitterBlocks Emitter EmitterProps EngineStates MetadataTracker Engine EngineSpec.
From S2P Require Import EngineProps EngineRuns Watcher System SystemLemmas.

(** * Definitions *)

Section plans.
Context `{SortedSet SS} `{HashText} `{EthUtil} `{Gsl} `{EthClient C}.
Context `{!GetStateDataGateway G} `{!SetStateDataGateway G} {S A : Type} `{!ServiceEngine S A}.
Implicit Types (y : system SS C G S A) (e : emitter).

(** The range of a turn, with what the emitter has read by then. *)
Definition turn_range lf e y w2 v (last current from to : Z) : Prop :=
  @answers _ (watcher_env lf) e (sy_status y) (sy_watcher y) w2 v last current ∧
  numbers_ok e last current ∧ next_plan (conf e) v last current = PlanPoll from to ∧
  range_ok from to ∧ (from ≤ to)%Z.

(** The same with a client that has the invariant of an honest one. *)
Definition turn_plan (I : C → Prop) lf e y w2 v (last current from to : Z) : Prop :=
  turn_range lf e y w2 v last current from to ∧ I (ww_client w2).

(** What the turns of a working watcher need: an open result channel, a configuration with
    a retry, and errors that are not the emitter's own. *)
Definition system_works lf e : Prop :=
  hasResultChan e = true ∧ engine_conf_ok (conf e) ∧
  @foreign_errors _ (@watcher_env SS _ _ _ _ C _ G _ lf) ∧ env_returns (S * G) A.

Context (logs_of : FilterQuery → list Log) (header_of : Z → BlockHeader).

(** The reference result of the poll of a turn. *)
Definition turn_logs y (from to : Z) : list Log :=
  logs_of (filter_query from to (addresses (sy_poller y)) (topics (sy_poller y))).
Definition turn_result y (from to : Z) : PollerResult :=
  spec_result (sy_poller y) header_of (turn_logs y from to) from to.

(** The poll of a turn is the reference poll, with [y'] after it. *)
Definition turn_polled lf y (w2 : watcherWorld SS C G) (from to : Z) y' : Prop :=
  polled lf (sy_poller y) (ww_client w2) from to (turn_logs y from to) header_of
    (sy_poller y') (ww_client (sy_watcher y')).
End plans.

(** * Lemmas *)

Section turn.
Context `{SortedSet SS} `{HashText} `{EthUtil} `{Gsl} `{EthClient C}.
Context `{!GetStateDataGateway G} `{!SetStateDataGateway G} {S A : Type} `{!ServiceEngine S A}.
Context (number_of : Hash → Z) (logs_of : FilterQuery → list Log) (header_of : Z → BlockHeader).
Context (from to : Z) (Hnum : numbered number_of header_of from to).
Implicit Types (y : system SS C G S A) (e : emitter) (p : poller SS) (t : metadataTracker SS A).

(** The engine can handle what the poller of a watcher makes. *)
Lemma turn_result_ok e y :
  system_ok number_of e y → range_ok from to →
  result_ok (sy_tracker y) (turn_result logs_of header_of y from to).
Proof.
  intros Hok Hr. by eapply (spec_result_ok number_of header_of from to Hnum);
    [|apply (ok_known _ _ _ Hok)|apply (ok_engine_knows _ _ _ Hok)].
Qed.

(** The state after a turn is again one of a watcher. *)
Lemma turn_keeps_ok e y y' (w2 : watcherWorld SS C G) lf :
  system_ok number_of e y → engine_conf_ok (conf e) → range_ok from to → (from ≤ to)%Z →
  turn_polled logs_of header_of lf y w2 from to y' → var_ok (conf e) (sy_status y') →
  turn_ends (conf e) (sy_tracker y) (turn_result logs_of header_of y from to) (sy_tracker y')
    (service_calls (sy_tracker y) (turn_result logs_of header_of y from to) ++
      [RecordBlock (LastGood (turn_result logs_of header_of y from to)); SyncsEmitter]) None →
  system_ok number_of e y'.
Proof.
  intros Hok Hcf Hr Hle [Hpoll Hwf' Htr' Hl' (_ & _ & Hcp & Hcr & Hcd & _) Hk'] Hst (_ & Hwft & Hkd).
  fold (turn_result logs_of header_of y from to) in *.
  pose proof (ok_conf _ _ _ Hok) as (Hpol & Hdo & Htr & Hfr).
  assert (0 ≤ LastGood (turn_result logs_of header_of y from to) < two63)%Z as HL.
  { destruct (Poll_last_good_bounds _ _ _ _ _ _ _ _ _ (ok_poller _ _ _ Hok) Hr Hpoll) as (_ & Hb & _).
    unfold range_ok in Hr. lia. }
  constructor; [done| |done|done| | |].
  - unfold poller_conf. rewrite Hcp, Hcr, Hcd, Htr'. done.
  - intros n b Hnu Hb. rewrite Hk' in Hb by done.
    eapply (spec_known_number number_of header_of from to Hnum); [apply (ok_known _ _ _ Hok)|done..].
  - intros h m Hm. specialize (Hkd (StringerToLowerString h)). rewrite Hm in Hkd. symmetry in Hkd.
    by eapply (known_done_number number_of header_of from to Hnum) in Hkd; [|apply (ok_meta _ _ _ Hok)].
  - intros n b Hnu Hb. apply (fmap_is_Some number_state). rewrite Hkd.
    eapply (known_done_remembered number_of header_of from to Hnum _ (sy_poller y) (sy_poller y'));
      [done|done|congruence|done|done|apply (ok_known _ _ _ Hok)|apply (ok_meta _ _ _ Hok)
      |apply (ok_engine_knows _ _ _ Hok)|done|done|done].
Qed.

(** One turn, with the state of the watcher after it. *)
Lemma system_turn_polled lf e y w2 v last current p' c' :
  system_works (SS:=SS) (C:=C) (G:=G) (S:=S) (A:=A) lf e → system_ok number_of e y →
  turn_range lf e y w2 v last current from to →
  polled lf (sy_poller y) (ww_client w2) from to (turn_logs logs_of y from to) header_of p' c' →
  let r := turn_result logs_of header_of y from to in
  let reorged := changed (remembered (sy_poller y)) header_of (turn_logs logs_of y from to) from in
  ∃ y' calls how,
    system_turn lf e y = Ret (y', (slept (sy_status y) ++ [EvPoll from to; EvResult r; EvSync],
      calls, how)) ∧
    match how with
    | TurnOk =>
        calls = service_calls (sy_tracker y) r ++ [RecordBlock (LastGood r); SyncsEmitter] ∧
        system_ok number_of e y' ∧
        sv_get (sy_status y') = mkStatus from to current last false reorged
          (if reorged then st_RetriesCount v + 1 else 0)%Z ∧
        turn_polled logs_of header_of lf y w2 from to y' ∧ ww_client (sy_watcher y') = c' ∧
        (∀ h, number_state <$> meta_of (sy_tracker y') h = known_done (conf e) (sy_tracker y) r h) ∧
        SetLastRecordedBlock (ww_gateway w2) (LastGood r) = Ret (ww_gateway (sy_watcher y'), None)
    | EngineReturns _ =>
        calls `prefix_of` (service_calls (sy_tracker y) r ++ [RecordBlock (LastGood r)]) ∧
        ¬ env_succeeds (S * G) A
    | EmitterReturns _ => False
    end.
Proof.
  intros (Hch & Hcf & Hfe & Henv) Hok (Ha & Hn & Hplan & Hr & Hle) Hpd r reorged.
  pose proof (ok_conf _ _ _ Hok) as (_ & Hdo & _ & _).
  destruct (watcher_turn lf header_of (turn_logs logs_of y from to) e (sy_status y) (sy_watcher y)
    w2 v last current from to p' c') as (s' & Ht & Hst); [done|done|apply (ok_status _ _ _ Hok)|done..|].
  fold (sy_poller y) in *. fold (turn_result logs_of header_of y from to) in *. fold r in Ht.
  fold reorged in Hst.
  destruct (handle_result_ends (conf e) (sy_tracker y) (sy_service y, ww_gateway w2) r)
    as (t' & [sv' g'] & calls & err & Hh & Hends);
    [done|apply (ok_tracker _ _ _ Hok)|by apply (turn_result_ok e)|].
  unfold system_turn. rewrite Ht. cbn [mbind outcome_bind]. rewrite (results_of_turn _ _ _ _ _ Hch).
  cbn [ww_gateway]. rewrite (handleResults_one _ _ _ _ _ _ _ _ Hh). cbn [mbind outcome_bind].
  rewrite (sent_open _ _ Hch). cbn [app]. eexists _, calls, _. split; [done|].
  destruct err as [err|].
  { split; [apply Hends|]. intros Hsucc. by apply (handle_result_succeeds _ _ _ _ _ _ _ _ Hsucc) in Hh. }
  apply handle_result_gateway in Hh as Hset. pose proof Hends as (-> & _ & Hkd).
  destruct Hn as [Hcok _].
  split; [done|]. split; [|by repeat (split; [done|])].
  eapply turn_keeps_ok; [done..|exact Hpd| |exact Hends].
  by destruct (@loop_turn_ok _ _ (watcher_env lf) _ _ _ _ _ _ Hfe Hcok (ok_status _ _ _ Hok) Ht).
Qed.
End turn.

Section system_props.
Context `{SortedSet SS} `{HashText} `{EthUtil} `{Gsl} `{EthClient C}.
Context `{!GetStateDataGateway G} `{!SetStateDataGateway G} {S A : Type} `{!ServiceEngine S A}.
Context (number_of : Hash → Z).
Context (I : C → Prop) (logs_of : FilterQuery → list Log) (header_of : Z → BlockHeader).
Context (Hview : chain_view number_of I logs_of header_of).
Implicit Types (y : system SS C G S A) (e : emitter) (p : poller SS) (t : metadataTracker SS A).

Lemma view_numbered from to : range_ok from to → numbered number_of header_of from to.
Proof. intros Hr n Hn. apply (view_number _ _ _ _ Hview). unfold range_ok in Hr. lia. Qed.

(** The poll of a turn on an honest client. *)
Lemma plan_polled lf e y w2 v last current from to :
  system_ok number_of e y → turn_plan I lf e y w2 v last current from to →
  ∃ p' c', polled lf (sy_poller y) (ww_client w2) from to (turn_logs logs_of y from to) header_of
    p' c' ∧ I c'.
Proof.
  intros Hok [(_ & _ & _ & Hr & Hle) HI].
  pose proof (ok_conf _ _ _ Hok) as (Hpol & _ & Htr & _).
  apply (honest_polled (λ _, True) I); [apply (view_honest _ _ _ _ Hview)|done|done
    |apply (ok_poller _ _ _ Hok)|done..|by left].
Qed.

(** One turn on an honest client, with the state of the watcher after it. *)
Lemma system_turn_run lf e y w2 v last current from to :
  system_works (SS:=SS) (C:=C) (G:=G) (S:=S) (A:=A) lf e → system_ok number_of e y →
  turn_plan I lf e y w2 v last current from to →
  let r := turn_result logs_of header_of y from to in
  let reorged := changed (remembered (sy_poller y)) header_of (turn_logs logs_of y from to) from in
  ∃ y' calls how,
    system_turn lf e y = Ret (y', (slept (sy_status y) ++ [EvPoll from to; EvResult r; EvSync],
      calls, how)) ∧
    match how with
    | TurnOk =>
        calls = service_calls (sy_tracker y) r ++ [RecordBlock (LastGood r); SyncsEmitter] ∧
        system_ok number_of e y' ∧ I (ww_client (sy_watcher y')) ∧
        sv_get (sy_status y') = mkStatus from to current last false reorged
          (if reorged then st_RetriesCount v + 1 else 0)%Z ∧
        turn_polled logs_of header_of lf y w2 from to y' ∧
        (∀ h, number_state <$> meta_of (sy_tracker y') h = known_done (conf e) (sy_tracker y) r h) ∧
        SetLastRecordedBlock (ww_gateway w2) (LastGood r) = Ret (ww_gateway (sy_watcher y'), None)
    | EngineReturns _ =>
        calls `prefix_of` (service_calls (sy_tracker y) r ++ [RecordBlock (LastGood r)]) ∧
        ¬ env_succeeds (S * G) A
    | EmitterReturns _ => False
    end.
Proof.
  intros Hw Hok Hplan r reorged. pose proof Hplan as [(_ & _ & _ & Hr & _) _].
  destruct (plan_polled _ _ _ _ _ _ _ _ _ Hok Hplan) as (p' & c' & Hpd & HI').
  destruct (system_turn_polled number_of logs_of header_of from to (view_numbered _ _ Hr) lf e y w2 v
    last current p' c') as (y' & calls & how & Ht & Hend); [done..|apply Hplan|done|].
  exists y', calls, how. split; [exact Ht|]. destruct how; [|done..].
  destruct Hend as (? & ? & ? & ? & <- & ?). done.
Qed.

(** The reorged blocks of a turn are remembered blocks of its range. *)
Lemma turn_reorged e y from to b :
  system_ok number_of e y → range_ok from to → b ∈ ReorgedBlocks (turn_result logs_of header_of y from to) →
  (from ≤ Number b ≤ to)%Z ∧ remembered (sy_poller y) (Number b) = Some b ∧
  changed (remembered (sy_poller y)) header_of (turn_logs logs_of y from to) (Number b) = true.
Proof.
  intros Hok Hr (n & Hn%elem_of_block_range & Hc & Hb)%elem_of_report_reorged.
  assert (is_u64 n) as Hu by (unfold range_ok, is_u64 in *; lia).
  assert (Number b = n) as ->; [|done]. apply remembered_known in Hb. unfold known_of in Hb.
  destruct (tracker (sy_poller y)) as [t|] eqn:Et; [|done].
  by eapply getTrackerBlock_Number; [by apply (ok_poller _ _ _ Hok)| |exact Hb].
Qed.

(** C4: The whole watcher, one turn: when the client has one view of the chain and service
    and gateway return, neither poller, emitter nor engine panics; the emitter sends the
    reference result of its planned range, the engine makes the reference calls for it and
    releases the emitter, and the watcher is again in a state in which this holds, the
    engine knowing every block that the poller remembers.  Only an error of the service or
    the gateway ends it, after a prefix of the calls. *)
Theorem system_turn_handled lf e y w2 v last current from to :
  system_works (SS:=SS) (C:=C) (G:=G) (S:=S) (A:=A) lf e → system_ok number_of e y → turn_plan I lf e y w2 v last current from to →
  let r := turn_result logs_of header_of y from to in
  ∃ y' calls how,
    system_turn lf e y = Ret (y', (slept (sy_status y) ++ [EvPoll from to; EvResult r; EvSync],
      calls, how)) ∧
    match how with
    | TurnOk =>
        calls = service_calls (sy_tracker y) r ++ [RecordBlock (LastGood r); SyncsEmitter] ∧
        system_ok number_of e y' ∧ lastRecordedBlock (sy_poller y') = LastGood r
    | EngineReturns _ =>
        calls `prefix_of` (service_calls (sy_tracker y) r ++ [RecordBlock (LastGood r)])
    | EmitterReturns _ => False
    end.
Proof.
  intros Hw Hok Hp r.
  destruct (system_turn_run lf e y w2 v last current from to) as (y' & calls & how & Ht & Hend);
    [done..|]. exists y', calls, how. split; [exact Ht|].
  destruct how; [|done|by destruct Hend]. destruct Hend as (? & ? & _ & _ & Hpd & _).
  split; [done|]. split; [done|]. apply (polled_recorded _ _ _ _ _ _ _ _ _ Hpd).
Qed.
End system_props.

Section reorg_depth.
Context `{SortedSet SS} `{HashText} `{EthUtil} `{Gsl} `{EthClient C}.
Context `{!GetStateDataGateway G} `{!SetStateDataGateway G} {S A : Type} `{!ServiceEngine S A}.
Context (number_of : Hash → Z).
Context (I : C → Prop) (logs_of : FilterQuery → list Log) (header_of : Z → BlockHeader).
Context (Hview : chain_view number_of I logs_of header_of).
Context (I' : C → Prop) (logs_of' : FilterQuery → list Log) (header_of' : Z → BlockHeader).
Context (Hview' : chain_view number_of I' logs_of' header_of').
Implicit Types (y : system SS C G S A) (e : emitter).

(** The range of a normal turn starts at the oldest block that the poller remembers, or at
    the start block. *)
Lemma normal_plan_from e v last current from to n :
  numbers_ok e last current → next_plan (conf e) v last current = PlanPoll from to →
  st_GoBackFirstStart v = false → st_IsReorging v = false →
  (to_int64 (last -₆₄ FilterRange (conf e)) < to_int64 n)%Z → is_u64 n → (n < two63)%Z →
  from = StartBlock (conf e) ∨ (from ≤ n)%Z.
Proof.
  intros ((Hs & Hf & _) & Hc & Hl & _) Hplan Hg Hi Hd Hu Hn.
  unfold next_plan in Hplan. rewrite Hg, Hi in Hplan. unfold block_ok, is_u64 in *.
  case_match; simplify_eq. rewrite to_int64_sub, to_int64_small in Hd by lia. lia.
Qed.

(** The range of the turn after a reorged one. *)
Lemma reorg_plan_from e v last current from' to' :
  next_plan (conf e) v last current = PlanPoll from' to' →
  st_GoBackFirstStart v = false → st_IsReorging v = true →
  from' = Z.max (StartBlock (conf e)) (st_FromBlock v - FilterRange (conf e)).
Proof.
  intros Hplan Hg Hi. unfold next_plan in Hplan. rewrite Hg, Hi in Hplan.
  by repeat case_match; simplify_eq.
Qed.

(** What the poller remembers after a turn was polled in it or is not older than what it
    remembered before. *)
Lemma remembered_after e y p' from to n b :
  system_ok number_of e y → range_ok from to → is_u64 n →
  (∀ n, is_u64 n → known_of p' n =
     spec_known (sy_poller y) header_of (turn_logs logs_of y from to) from to n) →
  remembered p' n = Some b →
  (from ≤ n ≤ to)%Z ∨ remembered (sy_poller y) n = Some b.
Proof.
  intros Hok Hr Hu Hk Hb%remembered_known. rewrite Hk in Hb by done. unfold spec_known in Hb.
  destruct (tracker (sy_poller y)); [|done]. case_decide; [by left|by right].
Qed.

Lemma remembered_newer (p : poller SS) n b :
  remembered p n = Some b →
  (to_int64 (lastRecordedBlock p -₆₄ filterRange p) < to_int64 n)%Z.
Proof. unfold remembered. by case_decide. Qed.

(** After a reorged normal turn the poller remembers nothing below the range of that turn,
    as far as the next turn goes back. *)
Lemma nothing_below e y p' v last current from to n b :
  system_ok number_of e y → numbers_ok e last current →
  next_plan (conf e) v last current = PlanPoll from to → range_ok from to →
  st_GoBackFirstStart v = false → st_IsReorging v = false →
  lastRecordedBlock (sy_poller y) = last →
  (∀ n, is_u64 n → known_of p' n =
     spec_known (sy_poller y) header_of (turn_logs logs_of y from to) from to n) →
  is_u64 n → (n < two63)%Z → (StartBlock (conf e) ≤ n)%Z → remembered p' n = Some b → (from ≤ n)%Z.
Proof.
  intros Hok Hn Hplan Hr Hg Hi Hl Hk Hu Hn63 Hst Hb.
  destruct (remembered_after e y p' from to n b Hok Hr Hu Hk Hb) as [?|Hb']; [lia|].
  apply remembered_newer in Hb'. pose proof (ok_conf _ _ _ Hok) as (_ & _ & _ & Hfr).
  rewrite Hl, Hfr in Hb'.
  destruct (normal_plan_from e v last current from to n Hn Hplan Hg Hi Hb') as [->|?]; [done..|].
  done.
Qed.

(** C14: Reorgs deeper than a filter range are missed: when a normal turn finds its first
    block reorged, the next turn goes back by a filter range, as designed, but it reports
    no reorged block below the first turn's range, whatever has become of the chain there,
    because the poller has forgotten these blocks; unless the start block is reached, the
    going back ends with this turn, whatever MaxGoBackRetries allows. *)
Theorem deep_reorg_missed lf lf' e y w2 v last current from to y1 evs calls
    w2' v' last' current' from' to' :
  system_works (SS:=SS) (C:=C) (G:=G) (S:=S) (A:=A) lf e →
  system_works (SS:=SS) (C:=C) (G:=G) (S:=S) (A:=A) lf' e → system_ok number_of e y →
  turn_plan I lf e y w2 v last current from to →
  st_GoBackFirstStart v = false → st_IsReorging v = false →
  lastRecordedBlock (sy_poller y) = last →
  system_turn lf e y = Ret (y1, (evs, calls, TurnOk)) →
  st_IsReorging (sv_get (sy_status y1)) = true →
  turn_plan I' lf' e y1 w2' v' last' current' from' to' →
  let r := turn_result logs_of' header_of' y1 from' to' in
  from' = Z.max (StartBlock (conf e)) (from - FilterRange (conf e)) ∧
  ∃ y2 calls2 how,
    system_turn lf' e y1 = Ret (y2, (slept (sy_status y1) ++
      [EvPoll from' to'; EvResult r; EvSync], calls2, how)) ∧
    (∀ b, b ∈ ReorgedBlocks r → (from ≤ Number b)%Z) ∧
    ((StartBlock (conf e) < from)%Z → how = TurnOk →
       st_IsReorging (sv_get (sy_status y2)) = false ∧
       st_RetriesCount (sv_get (sy_status y2)) = 0%Z).
Proof.
  intros Hw Hw' Hok Hp1 Hg Hi Hl Ht Hre Hp2 r.
  destruct (system_turn_run number_of I logs_of header_of Hview lf e y w2 v last current from to)
    as (y1' & calls' & how & Ht' & Hend); [done..|].
  rewrite Ht in Ht'. injection Ht' as <- -> <- <-.
  destruct Hend as (_ & Hok1 & _ & Hst & Hpd & _). rewrite Hst in Hre. simpl in Hre.
  pose proof (polled_known _ _ _ _ _ _ _ _ _ Hpd) as Hk.
  destruct (system_turn_run number_of I' logs_of' header_of' Hview' lf' e y1 w2' v' last' current'
    from' to') as (y2 & calls2 & how & Ht2 & Hend2); [done..|].
  destruct Hp1 as [(_ & Hn & Hplan & Hr & _) _]. pose proof Hp2 as [(Ha2 & Hn2 & Hplan2 & Hr2 & _) _].
  assert (st_GoBackFirstStart v' = false ∧ st_IsReorging v' = true ∧ st_FromBlock v' = from)
    as (Hg' & Hi' & Hf').
  { destruct Ha2 as (_ & _ & err & _ & _ & -> & _). unfold turn_status.
    destruct err; simpl; by rewrite Hst. }
  assert (from' = Z.max (StartBlock (conf e)) (from - FilterRange (conf e))) as Hfrom
    by (rewrite <-Hf'; by eapply reorg_plan_from).
  assert (∀ n b, (from' ≤ n)%Z → (n ≤ to')%Z → remembered (sy_poller y1) n = Some b → (from ≤ n)%Z)
    as Hno.
  { intros n b Hn1 Hn3 Hb. unfold range_ok in Hr2.
    apply (nothing_below e y (sy_poller y1) v last current from to n b); try done;
      [..|lia]; unfold is_u64; lia. }
  split; [done|]. exists y2, calls2, how. split; [exact Ht2|]. split.
  - intros b Hb. destruct (turn_reorged number_of logs_of' header_of' e y1 from' to' b Hok1 Hr2 Hb)
      as (? & Hrem & _). by apply (Hno _ b); lia || done.
  - intros Hstart ->. destruct Hend2 as (_ & _ & _ & Hst2 & _). rewrite Hst2. simpl.
    destruct (remembered (sy_poller y1) from') as [b|] eqn:Eb.
    + destruct Hn as ((_ & Hfr & _) & _). apply Hno in Eb; unfold range_ok in *; destruct Hp2 as [(_ & _ & _ & _ & ?) _]; lia.
    + unfold changed. by rewrite Eb.
Qed.
End reorg_depth.
