(* ===== verification/SystemRuns.v ===== *)
(** Histories of the whole watcher: turns on any views of the chain, with anything
    happening around them, and what the service has done by then. *)

From S2P Require Import Prelude GoErrors Types Externals SortedSet EthClient Batch BlockTracker PollUtils.
From S2P Require Import PollPolicy Poller PollerSpec PollRun PollHonest PollerProps PollerMemory PollerFailures.
From S2P Require Import DataGateway EmitterBlocks Emitter EmitterProps EngineStates MetadataTracker Engine EngineSpec.
From S2P Require Import EngineProps EngineRuns Watcher System SystemLemmas SystemProps.

(** * Definitions *)

Section history.
Context `{SortedSet SS} `{HashText} `{EthUtil} `{Gsl} `{EthClient C}.
Context `{!GetStateDataGateway G} `{!SetStateDataGateway G} {S A : Type} `{!ServiceEngine S A}.
Context (number_of : Hash → Z).
Implicit Types (y : system SS C G S A) (e : emitter) (calls : list (engineEvent A)).

(** A turn of the watcher whose poll is the reference poll of a view of the chain. *)
Record polled_turn (e : emitter) y y' (logs_of : FilterQuery → list Log)
    (header_of : Z → BlockHeader) (from to : Z) (evs : list event) calls : Prop := {
  turn_polls : ∃ lf w2 v last current p' c',
    numbered number_of header_of from to ∧ system_works (SS:=SS) (C:=C) (G:=G) (S:=S) (A:=A) lf e ∧
    turn_range lf e y w2 v last current from to ∧
    polled lf (sy_poller y) (ww_client w2) from to (turn_logs logs_of y from to) header_of p' c' ∧
    system_turn lf e y = Ret (y', (evs, calls, TurnOk));
}.

(** A turn on a client that is honest about a view of the chain. *)
Record viewed_turn (e : emitter) y y' (logs_of : FilterQuery → list Log)
    (header_of : Z → BlockHeader) (from to : Z) (evs : list event) calls : Prop := {
  turn_view : ∃ lf I w2 v last current,
    chain_view number_of I logs_of header_of ∧ system_works (SS:=SS) (C:=C) (G:=G) (S:=S) (A:=A) lf e ∧
    turn_plan I lf e y w2 v last current from to ∧
    system_turn lf e y = Ret (y', (evs, calls, TurnOk));
}.

(** The watchers that a new one can become, with all calls of their engine.  Between turns
    the chain, the gateway and the service may change in any way, and loopEmit may return
    and start again. *)
Inductive history (e : emitter) : system SS C G S A → list (engineEvent A) → Prop :=
  | history_new y :
      poller_wf (sy_poller y) → poller_conf (conf e) (sy_poller y) →
      (∀ n, is_u64 n → known_of (sy_poller y) n = None) →
      sy_tracker y = newMetadataTracker → var_ok (conf e) (sy_status y) → history e y []
  | history_turn y y' logs_of header_of from to evs calls calls' :
      history e y calls → polled_turn e y y' logs_of header_of from to evs calls' →
      history e y' (calls ++ calls')
  | history_world y status client gateway service calls :
      history e y calls → var_ok (conf e) status →
      history e (mkSystem status (mkWorld (sy_poller y) client gateway) (sy_tracker y) service)
        calls.

(** What the states of the hashes say about the calls. *)
Definition ledger (t : metadataTracker SS A) calls : Prop :=
  ∀ h, match meta_of t h with
  | None => True
  | Some m =>
      match state m with
      | stateHandled => 1 ≤ times_done h calls
      | stateHandledReorg | stateInvalid => 1 ≤ times_undone h calls
      | _ => False
      end
  end.
End history.

(** * Lemmas *)

Section history_lemmas.
Context `{SortedSet SS} `{HashText} `{EthUtil} `{Gsl} `{EthClient C}.
Context `{!GetStateDataGateway G} `{!SetStateDataGateway G} {S A : Type} `{!ServiceEngine S A}.
Context (number_of : Hash → Z).
Implicit Types (y : system SS C G S A) (e : emitter) (calls : list (engineEvent A)).
Implicit Types (t : metadataTracker SS A).

Lemma meta_of_new h : meta_of (newMetadataTracker : metadataTracker SS A) h = None.
Proof. unfold meta_of, ref_of. simpl. by rewrite ss_New_spec. Qed.

Lemma to_do_new t r h :
  result_ok t r → h ∈ keys (GoodBlocks r) → meta_of t h = None → h ∈ keys (to_do t r).
Proof.
  intros (_ & _ & Hk) (b & Hb & <-)%elem_of_keys Hm. unfold to_do. rewrite elem_of_keys_filter.
  exists b. split; [done|]. split; [done|]. unfold state_undone, state_of. rewrite Hm.
  rewrite decide_False; [done|]. intros (b' & Hb' & Hkb)%elem_of_keys.
  destruct (Hk b' Hb') as [? ?]. congruence.
Qed.

Lemma number_known_good t r h n :
  number_known t r h = Some n → meta_of t h = None → h ∈ keys (GoodBlocks r).
Proof.
  unfold number_known. intros Hn Hm. rewrite Hm in Hn.
  destruct (filter _ _) as [|b l] eqn:E; [done|].
  assert (b ∈ filter (λ b, Block_String b = h) (GoodBlocks r)) as [Hb ?]%list_elem_of_filter
    by (rewrite E; by left). apply elem_of_keys. by exists b.
Qed.

(** The engine's turn keeps the ledger. *)
Lemma ledger_turn c t t' r calls evs :
  result_ok t r → ledger t calls → turn_ends c t r t' evs None → ledger t' (calls ++ evs).
Proof.
  intros Hok Hl Hends h. destruct (turn_times c t r t' evs None h Hok Hends) as (_ & _ & Hd & Hu).
  specialize (Hd eq_refl). specialize (Hu eq_refl). rewrite times_done_app, times_undone_app, Hd, Hu.
  destruct Hends as (_ & _ & Hk). specialize (Hk h). specialize (Hl h).
  destruct (meta_of t' h) as [m'|] eqn:Em'; [|done]. simpl in Hk. unfold known_done in Hk.
  destruct (number_known t r h) as [n|] eqn:En; [|done]. simpl in Hk.
  destruct (decide (forgotten c r n)); [done|]. injection Hk as _ Hst. rewrite Hst.
  pose proof (turn_budget t r h) as (Bdo & _).
  destruct (decide (h ∈ keys (to_do t r))) as [Hdo|Hdo]; [rewrite (Bdo Hdo); lia|].
  destruct (meta_of t h) as [m|] eqn:Em.
  2:{ destruct Hdo. apply to_do_new; [done| |done]. by eapply number_known_good. }
  assert (state_of t h = state m) as Hsm by (unfold state_of; by rewrite Em).
  assert (h ∈ keys (ReorgedBlocks r) → state m = stateHandled → h ∈ keys (to_undo t r)) as Hund.
  { intros (b & Hb & <-)%elem_of_keys Hs. unfold to_undo. rewrite elem_of_keys_filter.
    exists b. by rewrite Hsm. }
  unfold state_done, state_undone. rewrite Hsm.
  destruct (state m) eqn:Es; try done;
    destruct (decide (h ∈ keys (ReorgedBlocks r))) as [Hr|Hr];
    destruct (decide (h ∈ keys (GoodBlocks r))); try lia;
    rewrite (decide_True (P := h ∈ keys (to_undo t r))) by auto; lia.
Qed.

(** The turns on honest clients are among these. *)
Lemma viewed_polled e y y' logs_of header_of from to evs calls :
  system_ok number_of e y → viewed_turn number_of e y y' logs_of header_of from to evs calls →
  polled_turn number_of e y y' logs_of header_of from to evs calls.
Proof.
  intros Hok [(lf & I & w2 & v & last & current & Hview & Hw & Hp & Ht)].
  destruct (plan_polled _ _ _ _ Hview _ _ _ _ _ _ _ _ _ Hok Hp) as (p' & c' & Hpd & _).
  constructor. exists lf, w2, v, last, current, p', c'.
  pose proof Hp as [(_ & _ & _ & Hr & _) _].
  split; [by apply (view_numbered _ _ _ _ Hview)|]. split; [done|]. split; [apply Hp|]. by split.
Qed.

(** Such a turn, with the state after it. *)
Lemma polled_turn_run e y y' logs_of header_of from to evs calls :
  system_ok number_of e y →
  polled_turn number_of e y y' logs_of header_of from to evs calls →
  let r := turn_result logs_of header_of y from to in
  range_ok from to ∧ result_ok (sy_tracker y) r ∧ system_ok number_of e y' ∧
  turn_ends (conf e) (sy_tracker y) r (sy_tracker y') calls None.
Proof.
  intros Hok [(lf & w2 & v & last & current & p' & c' & Hnum & Hw & Hp & Hpd & Ht)] r.
  destruct (system_turn_polled number_of logs_of header_of from to Hnum lf e y w2 v last current p' c')
    as (y1 & calls1 & how & Ht1 & Hend); [done..|].
  rewrite Ht in Ht1. injection Ht1 as <- -> <- <-.
  destruct Hp as (_ & _ & _ & Hr & _). split; [done|].
  split; [by eapply (turn_result_ok number_of logs_of header_of from to Hnum)|].
  destruct Hend as (Hc & Hok' & _ & _ & _ & Hk & _). split; [done|].
  split; [done|]. split; [apply (ok_tracker _ _ _ Hok')|done].
Qed.

Lemma history_ok e y calls :
  history number_of e y calls → system_ok number_of e y ∧ ledger (sy_tracker y) calls.
Proof.
  induction 1 as [y Hwf Hc Hk Ht Hs|y y' logs_of header_of from to evs calls calls' _ [Hok Hl] Hturn
    |y status client gateway service calls _ [Hok Hl] Hs].
  - split; [|intros h; by rewrite Ht, meta_of_new]. constructor; try done.
    + rewrite Ht. apply newMetadataTracker_wf.
    + intros n b Hn. by rewrite Hk.
    + intros h m. by rewrite Ht, meta_of_new.
    + intros n b Hn Hb%remembered_known. by rewrite Hk in Hb.
  - destruct (polled_turn_run _ _ _ _ _ _ _ _ _ Hok Hturn) as (_ & Hres & Hok' & Hends).
    split; [done|]. by eapply ledger_turn.
  - split; [|done]. destruct Hok. by constructor.
Qed.

(** What the ledger and the turn say about a hash that the result reports. *)
Lemma reported_done t t' c r h calls evs :
  result_ok t r → ledger t calls → turn_ends c t r t' evs None → h ∈ keys (GoodBlocks r) →
  times_undone h (calls ++ evs) = 0 → 1 ≤ times_done h (calls ++ evs).
Proof.
  intros Hok Hl Hends Hg. destruct (turn_times c t r t' evs None h Hok Hends) as (_ & _ & Hd & _).
  specialize (Hd eq_refl). rewrite times_done_app, times_undone_app, Hd. intros Hu.
  destruct (meta_of t h) as [m|] eqn:Em; [|rewrite decide_True by (by apply to_do_new); lia].
  specialize (Hl h). rewrite Em in Hl. destruct (state m); try done; lia.
Qed.

Lemma reported_undone t t' c r h calls evs :
  result_ok t r → ledger t calls → turn_ends c t r t' evs None → h ∈ keys (ReorgedBlocks r) →
  1 ≤ times_undone h (calls ++ evs).
Proof.
  intros Hok Hl Hends (b & Hb & <-)%elem_of_keys.
  destruct (turn_times c t r t' evs None (Block_String b) Hok Hends) as (_ & _ & _ & Hu).
  specialize (Hu eq_refl). rewrite times_undone_app, Hu.
  destruct Hok as (_ & _ & Hk). destruct (Hk b Hb) as [m Em]. specialize (Hl (Block_String b)).
  rewrite Em in Hl. destruct (state m) eqn:Es; try done; [|lia..].
  rewrite decide_True; [lia|]. unfold to_undo. rewrite elem_of_keys_filter. exists b.
  split; [done|]. split; [done|]. unfold state_of. by rewrite Em.
Qed.

(** What a turn leaves done and undone, after any history. *)
Lemma polled_turn_follows e y y' logs_of header_of from to evs calls calls' :
  history number_of e y calls →
  polled_turn number_of e y y' logs_of header_of from to evs calls' →
  (∀ n, (from ≤ n ≤ to)%Z → logs_at n (turn_logs logs_of y from to) ≠ [] →
     let h := StringerToLowerString (header_Hash (header_of n)) in
     times_undone h (calls ++ calls') = 0 → 1 ≤ times_done h (calls ++ calls')) ∧
  (∀ n b, (from ≤ n ≤ to)%Z → remembered (sy_poller y) n = Some b →
     BHash b ≠ header_Hash (header_of n) → 1 ≤ times_undone (Block_String b) (calls ++ calls')).
Proof.
  intros Hh Hturn. destruct (history_ok _ _ _ Hh) as [Hok Hl].
  destruct (polled_turn_run _ _ _ _ _ _ _ _ _ Hok Hturn) as (Hr & Hres & _ & Hends). split.
  - intros n Hn Hlogs h. eapply reported_done; [done..|].
    apply elem_of_keys. exists (fresh_block (remembered (sy_poller y)) header_of
      (turn_logs logs_of y from to) (expensive (sy_poller y)) n). split; [|done].
    apply elem_of_report_good. exists n. split; [by apply elem_of_block_range|]. split; [by left|done].
  - intros n b Hn Hb Hne. eapply reported_undone; [done..|]. apply elem_of_keys.
    exists b. split; [|done]. apply elem_of_report_reorged. exists n.
    split; [by apply elem_of_block_range|]. split; [|done]. unfold changed. rewrite Hb.
    by rewrite bool_decide_false.
Qed.

(** * Properties *)

(** C1: The service follows the chain: after any history of turns on any views of the
    chain, a turn over a range leaves every block of the range that has logs done, unless its
    hash was once undone, and every block that the poller remembered in the range and that
    the chain has replaced undone. *)
Theorem service_follows_chain e y y' logs_of header_of from to evs calls calls' :
  history number_of e y calls →
  viewed_turn number_of e y y' logs_of header_of from to evs calls' →
  (∀ n, (from ≤ n ≤ to)%Z → logs_at n (turn_logs logs_of y from to) ≠ [] →
     let h := StringerToLowerString (header_Hash (header_of n)) in
     times_undone h (calls ++ calls') = 0 → 1 ≤ times_done h (calls ++ calls')) ∧
  (∀ n b, (from ≤ n ≤ to)%Z → remembered (sy_poller y) n = Some b →
     BHash b ≠ header_Hash (header_of n) → 1 ≤ times_undone (Block_String b) (calls ++ calls')).
Proof.
  intros Hh Hturn. eapply polled_turn_follows; [done|]. apply viewed_polled; [|done].
  by apply (history_ok _ _ _ Hh).
Qed.
End history_lemmas.
