(* ===== verification/SystemLive.v ===== *)
(** The watcher on a chain that has come to rest: it catches up with the head. *)

From S2P Require Import Prelude GoErrors Types Externals SortedSet EthClient Batch BlockTracker PollUtils.
From S2P Require Import PollPolicy Poller PollerSpec PollRun PollHonest PollerProps PollerMemory PollerFailures.
From S2P Require Import DataGateway EmitterBlocks Emitter EmitterProps EngineStates MetadataTracker Engine EngineSpec.
From S2P Require Import EngineProps EngineRuns Watcher System SystemLemmas SystemProps SystemRuns.

(** * Definitions *)

Section live.
Context `{SortedSet SS} `{HashText} `{EthUtil} `{Gsl} `{EthClient C}.
Context `{!GetStateDataGateway G} `{!SetStateDataGateway G} {S A : Type} `{!ServiceEngine S A}.
Context (number_of : Hash → Z).
Context (I : C → Prop) (logs_of : FilterQuery → list Log) (header_of : Z → BlockHeader).
Implicit Types (y : system SS C G S A) (e : emitter).

(** A chain with a fixed head; the logs of a block do not depend on the range asked for. *)
Record stable_chain (head : Z) (block_logs : Z → list Log) (addrs : goslice Address)
    (tops : goslice (list Hash)) : Prop := {
  stable_view : chain_view number_of I logs_of header_of;
  stable_head c : I c → ∃ c', BlockNumber c = Ret (c', (head, None)) ∧ I c';
  stable_logs from to n : range_ok from to → (from ≤ n ≤ to)%Z →
    logs_at n (logs_of (filter_query from to addrs tops)) = block_logs n;
}.

(** The watcher is in a normal status, its gateway gives [last], and what its poller
    remembers is what the chain says. *)
Record at_block (e : emitter) (block_logs : Z → list Log) (addrs : goslice Address)
    (tops : goslice (list Hash)) y (last : Z) : Prop := {
  at_ok : system_ok number_of e y;
  at_client : I (ww_client (sy_watcher y));
  at_last : ∃ g rec err, GetLastRecordedBlock (ww_gateway (sy_watcher y)) = Ret (g, (rec, err)) ∧
    recorded (conf e) rec err = Some last ∧
    st_GoBackFirstStart (turn_status (sy_status y) err) = false ∧
    st_IsReorging (turn_status (sy_status y) err) = false;
  at_query : addresses (sy_poller y) = addrs ∧ topics (sy_poller y) = tops;
  at_settled n b : is_u64 n → remembered (sy_poller y) n = Some b →
    BHash b = header_Hash (header_of n) ∧ length (Logs b) = length (block_logs n);
}.

(** The hash text of block [n]. *)
Definition chain_key (n : Z) : string := StringerToLowerString (header_Hash (header_of n)).
End live.

(** * Lemmas *)

Section live_lemmas.
Context `{SortedSet SS} `{HashText} `{EthUtil} `{Gsl} `{EthClient C}.
Context `{!GetStateDataGateway G} `{!SetStateDataGateway G} `{!StateDataGateway G}.
Context {S A : Type} `{!ServiceEngine S A}.
Context (number_of : Hash → Z).
Context (I : C → Prop) (logs_of : FilterQuery → list Log) (header_of : Z → BlockHeader).
Context (head : Z) (block_logs : Z → list Log).
Context (addrs : goslice Address) (tops : goslice (list Hash)).
Context (Hst : stable_chain number_of I logs_of header_of head block_logs addrs tops).
Context (lf : bool) (e : emitter) (Hw : system_works (SS:=SS) (C:=C) (G:=G) (S:=S) (A:=A) lf e).
Context (Hsucc : env_succeeds (S * G) A).
Context (Hstart : (1 ≤ StartBlock (conf e))%Z) (Hconf : config_ok (conf e)).
Context (Hhead : (head + FilterRange (conf e) < two63 - 1)%Z).
Implicit Types (y : system SS C G S A).
Abbreviation at_block := (at_block number_of I header_of e block_logs addrs tops).
Abbreviation key := (chain_key header_of).

Lemma chain_key_inj n n' : (0 ≤ n < two63)%Z → (0 ≤ n' < two63)%Z → key n = key n' → n = n'.
Proof.
  intros Hn Hn' Heq%(inj StringerToLowerString). pose proof (view_number _ _ _ _ (stable_view _ _ _ _ _ _ _ _ Hst)) as Hnum.
  by rewrite <-(Hnum n), <-(Hnum n'), Heq by lia.
Qed.

(** The plan of a turn below the head. *)
Lemma catch_up_plan y last :
  at_block y last → (StartBlock (conf e) ≤ last + 1)%Z → (0 ≤ last < head)%Z →
  let from := Z.max (StartBlock (conf e)) (last + 1 - FilterRange (conf e)) in
  let to := Z.min head (last + FilterRange (conf e)) in
  ∃ w2 v, turn_plan I lf e y w2 v last head from to ∧
    (1 ≤ from ≤ last + 1)%Z ∧ (last < to ≤ head)%Z.
Proof.
  intros [Hok HI (g & rec & err & Hget & Hrec & Hf & Hr) _ _] Hs Hl from to.
  destruct (stable_head _ _ _ _ _ _ _ _ Hst _ HI) as (c' & Hbn & HI').
  destruct Hconf as (Hc1 & Hc2 & Hc3).
  exists (mkWorld (sy_poller y) c' g), (turn_status (sy_status y) err).
  split; [|split; lia].
  split; [|exact HI']. split; [|split; [|split; [|split]]].
  - exists (mkWorld (sy_poller y) (ww_client (sy_watcher y)) g), rec, err. simpl.
    unfold watcher_GetLastRecordedBlock, watcher_BlockNumber. rewrite Hget. simpl. by rewrite Hbn.
  - unfold numbers_ok, config_ok, block_ok. lia.
  - unfold next_plan. rewrite Hf, Hr. destruct (Z.eqb_spec last head); [lia|].
    f_equal; subst from to; lia.
  - unfold range_ok. lia.
  - lia.
Qed.

(** A poller that remembers the chain's blocks reports no reorg. *)
Lemma settled_unchanged y last from to n :
  at_block y last → range_ok from to → (from ≤ n ≤ to)%Z → is_u64 n →
  changed (remembered (sy_poller y)) header_of (turn_logs logs_of y from to) n = false.
Proof.
  intros Hy Hr Hn Hu. unfold changed. destruct (remembered (sy_poller y) n) as [b|] eqn:Eb; [|done].
  destruct (at_settled _ _ _ _ _ _ _ _ _ Hy n b Hu Eb) as [Hh Hl].
  destruct (at_query _ _ _ _ _ _ _ _ _ Hy) as [Ha Ht].
  unfold turn_logs. rewrite Ha, Ht, (stable_logs _ _ _ _ _ _ _ _ Hst) by done.
  by rewrite !bool_decide_true.
Qed.

Lemma settled_result y last from to :
  at_block y last → range_ok from to →
  ReorgedBlocks (turn_result logs_of header_of y from to) = [] ∧
  LastGood (turn_result logs_of header_of y from to) = to.
Proof.
  intros Hy Hr. assert (ReorgedBlocks (turn_result logs_of header_of y from to) = []) as Hno.
  { apply report_reorged_nil. intros n Hn. eapply settled_unchanged; [done|done|by apply elem_of_block_range|].
    apply elem_of_block_range in Hn. unfold range_ok, is_u64 in *. lia. }
  split; [done|]. unfold turn_result, spec_result in *. simpl in *.
  by rewrite LastGoodBlock_no_reorg.
Qed.

(** What the poller remembers after the turn is still what the chain says. *)
Lemma settled_after y y' last from to n b :
  at_block y last → range_ok from to →
  (∀ n, is_u64 n → known_of (sy_poller y') n =
     spec_known (sy_poller y) header_of (turn_logs logs_of y from to) from to n) →
  is_u64 n → remembered (sy_poller y') n = Some b →
  BHash b = header_Hash (header_of n) ∧ length (Logs b) = length (block_logs n).
Proof.
  intros Hy Hr Hk Hn Hb%remembered_known. rewrite Hk in Hb by done. unfold spec_known in Hb.
  destruct (tracker (sy_poller y)); [|done].
  case_decide; [|by apply (at_settled _ _ _ _ _ _ _ _ _ Hy n b)].
  apply known_next_settled in Hb as [? Hlen]. split; [done|]. rewrite Hlen.
  destruct (at_query _ _ _ _ _ _ _ _ _ Hy) as [Ha Ht].
  unfold turn_logs. by rewrite Ha, Ht, (stable_logs _ _ _ _ _ _ _ _ Hst).
Qed.

(** A block of the range with logs that the engine does not know is done. *)
Lemma catch_up_done y y' last from to calls n :
  at_block y last → range_ok from to → (from ≤ n ≤ to)%Z → block_logs n ≠ [] →
  meta_of (sy_tracker y) (key n) = None →
  turn_ends (conf e) (sy_tracker y) (turn_result logs_of header_of y from to) (sy_tracker y')
    calls None →
  1 ≤ times_done (key n) calls.
Proof.
  intros Hy Hr Hn Hlogs Hm Hends.
  assert (result_ok (sy_tracker y) (turn_result logs_of header_of y from to)) as Hres.
  { eapply (turn_result_ok number_of);
      [by apply (view_numbered _ _ _ _ (stable_view _ _ _ _ _ _ _ _ Hst))| |done].
    apply (at_ok _ _ _ _ _ _ _ _ _ Hy). }
  destruct (turn_times _ _ _ _ _ _ (key n) Hres Hends) as (_ & _ & Hd & _).
  rewrite Hd, decide_True; [done| |done]. apply to_do_new; [done| |done].
  apply elem_of_keys. exists (fresh_block (remembered (sy_poller y)) header_of
    (turn_logs logs_of y from to) (expensive (sy_poller y)) n). split; [|done].
  apply elem_of_report_good. exists n. split; [by apply elem_of_block_range|].
  split; [|done]. left. destruct (at_query _ _ _ _ _ _ _ _ _ Hy) as [Ha Ht].
  unfold turn_logs. by rewrite Ha, Ht, (stable_logs _ _ _ _ _ _ _ _ Hst).
Qed.

(** A block above the range stays unknown. *)
Lemma catch_up_unknown c y y' from to n :
  range_ok from to → (to < n < two63)%Z → meta_of (sy_tracker y) (key n) = None →
  number_state <$> meta_of (sy_tracker y') (key n) =
    known_done c (sy_tracker y) (turn_result logs_of header_of y from to) (key n) →
  meta_of (sy_tracker y') (key n) = None.
Proof.
  intros Hr Hn Hm Hk.
  enough (number_known (sy_tracker y) (turn_result logs_of header_of y from to) (key n) = None)
    as Hnk by (unfold known_done in Hk; rewrite Hnk in Hk; by apply fmap_None in Hk).
  destruct (number_known _ _ _) as [m|] eqn:En; [|done].
  apply number_known_good in En; [|done].
  apply elem_of_keys in En as (b & (n' & Hn'%elem_of_block_range & _ & ->)%elem_of_report_good & Hkey).
  assert (n' = n) as ->; [|lia]. apply chain_key_inj; [unfold range_ok in *; lia|unfold range_ok in *; lia|done].
Qed.

(** One turn of catching up. *)
Lemma catch_up_turn y last :
  at_block y last → (StartBlock (conf e) ≤ last + 1)%Z → (0 ≤ last < head)%Z →
  let to := Z.min head (last + FilterRange (conf e)) in
  ∃ y' evs calls, system_turn lf e y = Ret (y', (evs, calls, TurnOk)) ∧ at_block y' to ∧
    (∀ n, (last < n ≤ to)%Z → block_logs n ≠ [] → meta_of (sy_tracker y) (key n) = None →
       1 ≤ times_done (key n) calls) ∧
    (∀ n, (to < n < two63)%Z → meta_of (sy_tracker y) (key n) = None →
       meta_of (sy_tracker y') (key n) = None).
Proof.
  intros Hy Hs Hl to. destruct (catch_up_plan y last Hy Hs Hl) as (w2 & v & Hplan & Hf & Ht).
  fold to in Hplan, Ht. set (from := Z.max _ _) in *.
  pose proof (at_ok _ _ _ _ _ _ _ _ _ Hy) as Hok.
  destruct (system_turn_run number_of I logs_of header_of (stable_view _ _ _ _ _ _ _ _ Hst)
    lf e y w2 v last head from to) as (y' & calls & how & Hrun & Hend); [done..|].
  pose proof Hplan as [(_ & _ & _ & Hr & _) _].
  destruct (settled_result y last from to Hy Hr) as [_ HLG].
  destruct how; [|done|by destruct Hend as [_ []]].
  destruct Hend as (Hc & Hok' & HI' & Hsv & Hpd & Hkd & Hset).
  destruct (polled_config _ _ _ _ _ _ _ _ _ Hpd) as (Ha & Htp & _).
  rewrite HLG in Hset.
  exists y', (slept (sy_status y) ++ [EvPoll from to;
    EvResult (turn_result logs_of header_of y from to); EvSync]), calls.
  split; [exact Hrun|]. split; [|split].
  - assert (is_u64 to) as Hu by (unfold range_ok in Hr; unfold is_u64; lia).
    destruct (gateway_get_set _ _ _ Hu Hset) as [g Hg].
    constructor; [done|done| | |].
    + exists g, to, None. split; [done|]. split; [done|]. simpl. rewrite Hsv. simpl.
      split; [done|]. eapply settled_unchanged; [done|done|lia|]. unfold range_ok, is_u64 in *. lia.
    + rewrite Ha, Htp. apply (at_query _ _ _ _ _ _ _ _ _ Hy).
    + intros n b Hn Hb. by eapply settled_after; [| |apply (polled_known _ _ _ _ _ _ _ _ _ Hpd)|..].
  - intros n Hn Hlogs Hm. eapply catch_up_done; [done|done| |done|done|].
    + lia.
    + split; [done|]. split; [apply (ok_tracker _ _ _ Hok')|done].
  - intros n Hn Hm. by eapply catch_up_unknown.
Qed.

(** * Properties *)

(** C3: Catching up: on a chain that has come to rest, with a service and a gateway that
    answer without errors, a watcher in a normal status reaches the head in exactly as many turns as
    the blocks after its last recorded block have filter ranges, and by then every one of
    these blocks that has logs and that the engine did not know has been done. *)
Theorem watcher_catches_up y last (k : nat) :
  at_block y last → (StartBlock (conf e) ≤ last + 1)%Z → (0 ≤ last ≤ head)%Z →
  Z.of_nat k = ((head - last + FilterRange (conf e) - 1) / FilterRange (conf e))%Z →
  ∃ y' calls, system_run lf e y k = Ret (y', calls) ∧ at_block y' head ∧
    ∀ n, (last < n ≤ head)%Z → block_logs n ≠ [] → meta_of (sy_tracker y) (key n) = None →
      1 ≤ times_done (key n) calls.
Proof.
  destruct Hconf as (_ & Hfr & _).
  revert y last. induction k as [|k IH]; intros y last Hy Hs Hl Hk.
  { assert (head = last) as -> by (pose proof (Z.div_str_pos (head - last + FilterRange (conf e) - 1)
      (FilterRange (conf e))); lia).
    exists y, []. split; [done|]. split; [done|]. lia. }
  assert (last < head)%Z as Hlt.
  { destruct (Z.eq_dec last head) as [->|]; [|lia].
    rewrite Z.div_small in Hk; lia. }
  destruct (catch_up_turn y last Hy Hs) as (y1 & evs & calls1 & Ht & Hy1 & Hdone & Hunk); [lia|].
  set (to := Z.min head (last + FilterRange (conf e))) in *.
  destruct (IH y1 to Hy1) as (y' & calls2 & Hrun & Hy' & Hdone'); [lia|lia| |].
  { destruct (Z.le_gt_cases (head - last) (FilterRange (conf e))).
    - assert (to = head) as -> by lia. rewrite Z.sub_diag, Z.div_small by lia.
      rewrite <-(Z.div_unique _ (FilterRange (conf e)) 1 (head - last - 1)) in Hk by lia. lia.
    - replace (head - last + FilterRange (conf e) - 1)%Z with
        ((head - to + FilterRange (conf e) - 1) + 1 * FilterRange (conf e))%Z in Hk by lia.
      rewrite Z.div_add in Hk by lia. lia. }
  exists y', (calls1 ++ calls2). split; [cbn [system_run]; rewrite Ht; cbn [mbind outcome_bind]; by rewrite Hrun|].
  split; [done|]. intros n Hn Hlogs Hm. rewrite times_done_app.
  destruct (Z.le_gt_cases n to).
  - specialize (Hdone n ltac:(lia) Hlogs Hm). lia.
  - specialize (Hdone' n ltac:(lia) Hlogs (Hunk n ltac:(lia) Hm)). lia.
Qed.
End live_lemmas.
