(* ===== verification/SystemExamples.v ===== *)
(** The theorems of the whole watcher at concrete inputs: a chain that forks at block 11
    between two turns. *)

From S2P Require Import Prelude GoErrors Types Externals SortedSet EthClient Batch BlockTracker PollUtils.
From S2P Require Import PollPolicy Poller PollerSpec PollRun PollHonest DemoChain PollerProps PollerMemory PollerFailures.
From S2P Require Import PollerExamples DataGateway EmitterBlocks Emitter EmitterProps EngineStates MetadataTracker.
From S2P Require Import Engine EngineSpec EngineProps EngineRuns Watcher EmitterExamples EngineExamples.
From S2P Require Import System SystemLemmas SystemProps SystemRuns SystemLive.

(** * Definitions *)

(** Hashes that determine the number: even ones before the fork, odd ones after it. *)
Definition chain_old (head : Z) : DemoChain :=
  mkDemo head (λ n, 2 * n)%Z [(9, 1); (15, 2); (21, 3)]%Z.
Definition chain_new (head : Z) : DemoChain :=
  mkDemo head (λ n, if (n <? 11)%Z then 2 * n else 2 * n + 1)%Z [(9, 1); (16, 2); (22, 3)]%Z.
Definition demo_number (h : Hash) : Z := ((h / 2) mod two64)%Z.

Abbreviation demo_system := (system MapSet DemoChain fakeRedisMem demoService nat).

Definition new_system (c : DemoChain) (g : fakeRedisMem) : demo_system :=
  mkSystem normal_var (mkWorld (demo_poller true PolicyFast) c g) newMetadataTracker demo_service.

(** The state after a turn, and the same watcher over another chain. *)
Definition after_turn (y : demo_system) : demo_system :=
  match system_turn true demo_emitter y with Ret (y', _) => y' | _ => y end.
Definition over (c : DemoChain) (y : demo_system) : demo_system :=
  mkSystem (sy_status y) (mkWorld (sy_poller y) c (ww_gateway (sy_watcher y)))
    (sy_tracker y) (sy_service y).

(** Blocks 11 to 30 of the old chain, then 21 to 40 of the new one. *)
Definition sys0 : demo_system := new_system (chain_old 30) (mkMem 20 true).
Definition sys1 : demo_system := over (chain_new 40) (after_turn sys0).
Definition sys2 : demo_system := after_turn sys1.

(** * Lemmas *)

Lemma demo_header_number c n :
  (∀ k, demo_hash c k = 2 * k ∨ demo_hash c k = 2 * k + 1)%Z →
  (0 ≤ n < two63)%Z → demo_number (header_Hash (demo_header c n)) = n.
Proof.
  intros Hc Hn. unfold demo_number, demo_header. simpl.
  assert (demo_hash c (to_int64 n) / 2 = to_int64 n)%Z as ->.
  { destruct (Hc (to_int64 n)) as [-> | ->]; [rewrite Z.mul_comm; by apply Z.div_mul|].
    rewrite Z.mul_comm, Z.div_add_l by lia. by rewrite Z.add_0_r. }
  rewrite to_int64_small by done. apply Z.mod_small. lia.
Qed.

Lemma demo_view c :
  (∀ k, demo_hash c k = 2 * k ∨ demo_hash c k = 2 * k + 1)%Z →
  chain_view demo_number (eq c) (demo_logs c) (demo_header c).
Proof. intros Hc. split; [apply demo_honest|]. intros n Hn. apply demo_header_number; [done|lia]. Qed.

Lemma old_view head :
  chain_view demo_number (eq (chain_old head)) (demo_logs (chain_old head))
    (demo_header (chain_old head)).
Proof. apply demo_view. intros k. by left. Qed.

Lemma new_view head :
  chain_view demo_number (eq (chain_new head)) (demo_logs (chain_new head))
    (demo_header (chain_new head)).
Proof. apply demo_view. intros k. simpl. destruct (k <? 11)%Z; auto. Qed.

Lemma demo_works : system_works (SS:=MapSet) (C:=DemoChain) (G:=fakeRedisMem)
  (S:=demoService) (A:=nat) true demo_emitter.
Proof.
  split; [done|]. split; [unfold engine_conf_ok; simpl; lia|]. split; [|].
  - split.
    + intros w w' n err. simpl. unfold watcher_GetLastRecordedBlock. simpl.
      unfold mem_GetLastRecordedBlock. destruct (mem_ok _); [done|]. by intros [= <- _ <-].
    + intros w w' n err. simpl. done.
  - apply paired_returns; intros; by eexists.
Qed.

Lemma new_history c g :
  history demo_number demo_emitter (new_system c g) [].
Proof.
  apply history_new; [apply New_wf| |done|done|apply normal_var_ok].
  split; [apply demo_policies; auto|]. split; [done|]. split; [by eexists|done].
Qed.

(** Whether a turn goes well, by evaluation. *)
Definition turn_ok (y : demo_system) : bool :=
  match system_turn true demo_emitter y with Ret (_, (_, TurnOk)) => true | _ => false end.

Lemma turn_ok_run y :
  turn_ok y = true →
  ∃ evs calls, system_turn true demo_emitter y = Ret (after_turn y, (evs, calls, TurnOk)).
Proof.
  unfold turn_ok, after_turn. destruct (system_turn true demo_emitter y) as [[y' [[evs calls] []]]| |];
    try done. intros _. by exists evs, calls.
Qed.

Lemma plan0 :
  turn_plan (eq (chain_old 30)) true demo_emitter sys0 (sy_watcher sys0) new_emitterStatus 20 30 11 30.
Proof.
  split; [|reflexivity]. split; [by exists (sy_watcher sys0), 20%Z, None|].
  split; [apply demo_numbers; lia|]. split; [reflexivity|]. split; [unfold range_ok; lia|lia].
Qed.

Lemma sys0_ok : system_ok demo_number demo_emitter sys0.
Proof. exact (proj1 (history_ok _ _ _ _ (new_history _ _))). Qed.

(** The first turn on the old chain belongs to a history. *)
Lemma turn0 : ∃ evs calls,
  viewed_turn demo_number demo_emitter sys0 (after_turn sys0) (demo_logs (chain_old 30))
    (demo_header (chain_old 30)) 11 30 evs calls ∧
  system_turn true demo_emitter sys0 = Ret (after_turn sys0, (evs, calls, TurnOk)).
Proof.
  destruct (turn_ok_run sys0) as (evs & calls & Ht); [by vm_compute|]. exists evs, calls.
  split; [|done]. constructor.
  exists true, (eq (chain_old 30)), (sy_watcher sys0), new_emitterStatus, 20%Z, 30%Z.
  split; [apply old_view|]. split; [apply demo_works|]. split; [apply plan0|done].
Qed.

Lemma status0 : sv_get (sy_status (after_turn sys0)) = mkStatus 11 30 30 20 false false 0.
Proof. by vm_compute. Qed.

Lemma sys1_history : ∃ calls, history demo_number demo_emitter sys1 calls.
Proof.
  destruct turn0 as (evs & calls & Hv & _). exists ([] ++ calls). apply history_world.
  - eapply history_turn; [apply new_history|exact (viewed_polled _ _ _ _ _ _ _ _ _ _ sys0_ok Hv)].
  - destruct (polled_turn_run _ _ _ _ _ _ _ _ _ _ sys0_ok (viewed_polled _ _ _ _ _ _ _ _ _ _ sys0_ok Hv))
      as (_ & _ & Hok & _).
    apply (ok_status _ _ _ Hok).
Qed.

Lemma sys1_ok : system_ok demo_number demo_emitter sys1.
Proof. destruct sys1_history as [calls Hh]. exact (proj1 (history_ok _ _ _ _ Hh)). Qed.

Lemma plan1 :
  turn_plan (eq (chain_new 40)) true demo_emitter sys1 (sy_watcher sys1)
    (mkStatus 11 30 30 20 false false 0) 30 40 21 40.
Proof.
  split; [|reflexivity]. split; [|split; [apply demo_numbers; lia|]].
  - exists (sy_watcher sys1), 30%Z, None. split; [by vm_compute|]. split; [done|].
    split; [by vm_compute|by vm_compute].
  - split; [reflexivity|]. split; [unfold range_ok; lia|lia].
Qed.

(** The second turn finds block 21 reorged, and the third one goes back to block 11. *)
Lemma turn1 : ∃ evs calls,
  system_turn true demo_emitter sys1 = Ret (sys2, (evs, calls, TurnOk)).
Proof. apply turn_ok_run. by vm_compute. Qed.

Lemma status1 : sv_get (sy_status sys2) = mkStatus 21 40 40 30 false true 1.
Proof. by vm_compute. Qed.

Lemma sys2_gateway : watcher_GetLastRecordedBlock (sy_watcher sys2) = Ret (sy_watcher sys2, (20%Z, None)).
Proof. by vm_compute. Qed.

Lemma sys2_client : watcher_BlockNumber (sy_watcher sys2) = Ret (sy_watcher sys2, (40%Z, None)).
Proof. by vm_compute. Qed.

Lemma plan2 :
  turn_plan (eq (chain_new 40)) true demo_emitter sys2 (sy_watcher sys2)
    (mkStatus 21 40 40 30 false true 1) 20 40 11 40.
Proof.
  split; [|by vm_compute]. split; [|split; [apply demo_numbers; lia|]].
  - exists (sy_watcher sys2), 20%Z, None. split; [exact sys2_gateway|]. split; [done|].
    split; [by rewrite <-status1|exact sys2_client].
  - split; [reflexivity|]. split; [unfold range_ok; lia|lia].
Qed.

(** The old chain has come to rest at block 30. *)
Definition old_logs (n : Z) : list Log :=
  demo_log (chain_old 30) <$> filter (λ ev, ev.1 = n) (demo_events (chain_old 30)).

Lemma demo_logs_at c (P : Z * Z → Prop) `{∀ ev, Decision (P ev)} n evs :
  (∀ ev, ev.1 = n → P ev) →
  logs_at n (demo_log c <$> filter P evs) = demo_log c <$> filter (λ ev, ev.1 = n) evs.
Proof.
  intros HP. unfold logs_at. induction evs as [|ev evs IH]; [done|]. rewrite !filter_cons.
  destruct (decide (ev.1 = n)) as [Hn|Hn].
  - rewrite decide_True by auto. rewrite !fmap_cons, filter_cons, decide_True by done. by f_equal.
  - destruct (decide (P ev)); [|exact IH]. rewrite fmap_cons, filter_cons, decide_False by done.
    exact IH.
Qed.

Lemma old_stable :
  stable_chain demo_number (eq (chain_old 30)) (demo_logs (chain_old 30))
    (demo_header (chain_old 30)) 30 old_logs None None.
Proof.
  split; [apply old_view|intros c <-; by eexists|].
  intros from to n Hr Hn. apply demo_logs_at. intros ev Hev. simpl.
  unfold range_ok in Hr. rewrite !to_int64_small by lia. lia.
Qed.

Lemma new_at_start :
  at_block demo_number (eq (chain_old 30)) (demo_header (chain_old 30)) demo_emitter old_logs None None
    (new_system (chain_old 30) (mkMem 0 false)) 1.
Proof.
  destruct (history_ok _ _ _ _ (new_history (chain_old 30) (mkMem 0 false))) as [Hok _].
  constructor; [done|done| |done|].
  - eexists _, _, _. split; [reflexivity|]. split; [by vm_compute|]. by vm_compute.
  - intros n b Hn Hb%remembered_known. done.
Qed.

(** Two descriptions of one turn. *)
Lemma same_turn (y1 y2 : demo_system) (evs1 evs2 : list event) calls1 calls2 how1 how2 :
  Ret (y1, (evs1, calls1 : list (engineEvent nat), how1 : turnEnd)) = Ret (y2, (evs2, calls2, how2)) →
  y1 = y2 ∧ calls1 = calls2 ∧ how1 = how2.
Proof. by intros [= -> _ -> ->]. Qed.

(** * Witnesses *)

Lemma system_turn_handled_witness :
  ∃ calls, system_turn true demo_emitter sys1 = Ret (sys2, ([EvSleep; EvPoll 21 40;
    EvResult (turn_result (demo_logs (chain_new 40)) (demo_header (chain_new 40)) sys1 21 40);
    EvSync], calls, TurnOk)) ∧ system_ok demo_number demo_emitter sys2.
Proof.
  destruct turn1 as (evs1 & calls1 & Ht1).
  destruct (system_turn_handled demo_number (eq (chain_new 40)) (demo_logs (chain_new 40))
    (demo_header (chain_new 40)) (new_view 40) true demo_emitter sys1 (sy_watcher sys1)
    (mkStatus 11 30 30 20 false false 0) 30 40 21 40) as (y' & calls & how & Ht & Hend);
    [apply demo_works|apply sys1_ok|apply plan1|].
  rewrite Ht in Ht1. destruct (same_turn _ _ _ _ _ _ _ _ Ht1) as (-> & -> & ->).
  exists calls1. split; [|apply Hend].
  assert (slept (sy_status sys1) = [EvSleep]) as Hs by (vm_compute; reflexivity).
  rewrite Hs in Ht. exact Ht.
Defined.

Lemma deep_reorg_missed_witness :
  ∃ y calls how r, system_turn true demo_emitter sys2 =
      Ret (y, ([EvSleep; EvPoll 11 40; EvResult r; EvSync], calls, how)) ∧
    (∀ b, b ∈ ReorgedBlocks r → (21 ≤ Number b)%Z) ∧
    demo_hash (chain_old 30) 15 ≠ demo_hash (chain_new 40) 15.
Proof.
  destruct turn1 as (evs1 & calls1 & Ht1).
  destruct (deep_reorg_missed demo_number (eq (chain_new 40)) (demo_logs (chain_new 40))
    (demo_header (chain_new 40)) (new_view 40) (eq (chain_new 40)) (demo_logs (chain_new 40))
    (demo_header (chain_new 40)) (new_view 40) true true demo_emitter sys1 (sy_watcher sys1)
    (mkStatus 11 30 30 20 false false 0) 30 40 21 40 sys2 evs1 calls1 (sy_watcher sys2)
    (mkStatus 21 40 40 30 false true 1) 20 40 11 40) as (_ & y & calls & how & Ht & Hr & _);
    [apply demo_works|apply demo_works|apply sys1_ok|apply plan1|reflexivity|reflexivity
    |vm_compute; reflexivity|exact Ht1|rewrite status1; reflexivity|apply plan2|].
  eexists y, calls, how, _. split; [|split; [exact Hr|vm_compute; discriminate]].
  assert (slept (sy_status sys2) = [EvSleep]) as Hs by (vm_compute; reflexivity).
  rewrite Hs in Ht. exact Ht.
Defined.

Lemma service_follows_chain_witness :
  ∃ evs calls, viewed_turn demo_number demo_emitter sys0 (after_turn sys0)
      (demo_logs (chain_old 30)) (demo_header (chain_old 30)) 11 30 evs calls ∧
    (times_undone (Z_text 42) ([] ++ calls) = 0 → 1 ≤ times_done (Z_text 42) ([] ++ calls))%nat.
Proof.
  destruct turn0 as (evs & calls & Hv & _). exists evs, calls. split; [exact Hv|].
  destruct (service_follows_chain demo_number demo_emitter sys0 (after_turn sys0)
    (demo_logs (chain_old 30)) (demo_header (chain_old 30)) 11 30 evs [] calls) as [Hd _];
    [apply new_history|exact Hv|].
  apply (Hd 21%Z); [lia|vm_compute; discriminate].
Defined.

Lemma watcher_catches_up_witness :
  ∃ y' calls, system_run true demo_emitter (new_system (chain_old 30) (mkMem 0 false)) 3 =
      Ret (y', calls) ∧ (1 ≤ times_done (Z_text 42) calls)%nat.
Proof.
  destruct (watcher_catches_up demo_number (eq (chain_old 30)) (demo_logs (chain_old 30))
    (demo_header (chain_old 30)) 30 old_logs None None old_stable true demo_emitter demo_works)
    with (y := new_system (chain_old 30) (mkMem 0 false)) (last := 1%Z) (k := 3%nat)
    as (y' & calls & Hrun & _ & Hd);
    [split; [|split]; intros; by eexists _, _ || by eexists|simpl; lia|apply demo_conf_ok
    |vm_compute; reflexivity|apply new_at_start|simpl; lia|lia|vm_compute; reflexivity|].
  exists y', calls. split; [exact Hrun|].
  apply (Hd 21%Z); [lia|vm_compute; discriminate|apply meta_of_new].
Defined.
