(* ===== verification/Components.v ===== *)
(** pkg/components: the options and constructors that wire the parts together, and the
    SuperWatcher made of an emitter and an engine. *)

From S2P Require Import Prelude GoErrors Types Externals SortedSet BlockTracker PollUtils.
From S2P Require Import PollPolicy Poller MetadataTracker.

(** * Definitions *)

(** Channels and the objects that users pass are compared by identity only; [C], [Gg], [Gs]
    and [E] are the types of the client, the two gateways and the service engine.  nil is
    [None]. *)
Definition chanRef : Type := nat.

Record componentConfig (C Gg Gs E : Type) : Type := mkComponents {
  cc_config : option Config;
  cc_serviceEngine : option E;
  cc_ethClient : option C;
  cc_addresses : goslice Address;
  cc_topics : goslice (list Hash);
  cc_doReorg : bool;
  cc_doHeader : bool;
  cc_filterRange : Z;
  cc_policy : Z;
  cc_logLevel : Z;
  cc_syncChan : option chanRef;
  cc_pollResultChan : option chanRef;
  cc_errChan : option chanRef;
  cc_getStateDataGateway : option Gg;
  cc_setStateDataGateway : option Gs;
}.
Arguments mkComponents {C Gg Gs E}.
Arguments cc_config {C Gg Gs E}.
Arguments cc_serviceEngine {C Gg Gs E}.
Arguments cc_ethClient {C Gg Gs E}.
Arguments cc_addresses {C Gg Gs E}.
Arguments cc_topics {C Gg Gs E}.
Arguments cc_doReorg {C Gg Gs E}.
Arguments cc_doHeader {C Gg Gs E}.
Arguments cc_filterRange {C Gg Gs E}.
Arguments cc_policy {C Gg Gs E}.
Arguments cc_logLevel {C Gg Gs E}.
Arguments cc_syncChan {C Gg Gs E}.
Arguments cc_pollResultChan {C Gg Gs E}.
Arguments cc_errChan {C Gg Gs E}.
Arguments cc_getStateDataGateway {C Gg Gs E}.
Arguments cc_setStateDataGateway {C Gg Gs E}.

(** A poller with its client, an emitter, an emitter client and an engine: their fields. *)
Record pollerObj (SS : Type → Type) (C : Type) : Type := mkPollerObj {
  po_poller : poller SS;
  po_client : option C;
}.
Arguments mkPollerObj {SS C}.
Arguments po_poller {SS C}.
Arguments po_client {SS C}.

Record emitterObj (SS : Type → Type) (C Gg : Type) : Type := mkEmitterObj {
  eo_conf : Config;
  eo_client : option C;
  eo_stateDataGateway : option Gg;
  eo_poller : pollerObj SS C;
  eo_syncChan : option chanRef;
  eo_pollResultChan : option chanRef;
  eo_errChan : option chanRef;
}.
Arguments mkEmitterObj {SS C Gg}.
Arguments eo_conf {SS C Gg}.
Arguments eo_client {SS C Gg}.
Arguments eo_stateDataGateway {SS C Gg}.
Arguments eo_poller {SS C Gg}.
Arguments eo_syncChan {SS C Gg}.
Arguments eo_pollResultChan {SS C Gg}.
Arguments eo_errChan {SS C Gg}.

Record emitterClientObj : Type := mkClientObj {
  co_emitterConfig : Config;
  co_emitterSyncChan : option chanRef;
  co_pollResultChan : option chanRef;
  co_errChan : option chanRef;
}.

Record engineObj (SS : Type → Type) (Gs E A : Type) : Type := mkEngineObj {
  go_emitterClient : emitterClientObj;
  go_serviceEngine : option E;
  go_stateDataGateway : option Gs;
  go_metadataTracker : metadataTracker SS A;
}.
Arguments mkEngineObj {SS Gs E A}.
Arguments go_emitterClient {SS Gs E A}.
Arguments go_serviceEngine {SS Gs E A}.
Arguments go_stateDataGateway {SS Gs E A}.
Arguments go_metadataTracker {SS Gs E A}.

(** superWatcher. *)
Record superWatcher (SS : Type → Type) (C Gg Gs E A : Type) : Type := mkSuperWatcher {
  sw_emitter : emitterObj SS C Gg;
  sw_engine : engineObj SS Gs E A;
}.
Arguments mkSuperWatcher {SS C Gg Gs E A}.
Arguments sw_emitter {SS C Gg Gs E A}.
Arguments sw_engine {SS C Gg Gs E A}.

(** ** Options (option.go) *)

Section options.
Context {C Gg Gs E : Type}.
Abbreviation comp := (componentConfig C Gg Gs E).
Implicit Types (c : comp).

Definition zero_componentConfig : comp :=
  mkComponents None None None None None false false 0 0 0 None None None None None.

Definition Option : Type := comp → comp.

Definition WithConfig (conf : Config) : Option := λ c,
  mkComponents (Some conf) (cc_serviceEngine c) (cc_ethClient c) (cc_addresses c) (cc_topics c)
    (cc_doReorg c) (cc_doHeader c) (cc_filterRange c) (cc_policy c) (cc_logLevel c)
    (cc_syncChan c) (cc_pollResultChan c) (cc_errChan c) (cc_getStateDataGateway c)
    (cc_setStateDataGateway c).
Definition WithEthClient (client : C) : Option := λ c,
  mkComponents (cc_config c) (cc_serviceEngine c) (Some client) (cc_addresses c) (cc_topics c)
    (cc_doReorg c) (cc_doHeader c) (cc_filterRange c) (cc_policy c) (cc_logLevel c)
    (cc_syncChan c) (cc_pollResultChan c) (cc_errChan c) (cc_getStateDataGateway c)
    (cc_setStateDataGateway c).
Definition WithSyncChan (syncChan : option chanRef) : Option := λ c,
  mkComponents (cc_config c) (cc_serviceEngine c) (cc_ethClient c) (cc_addresses c) (cc_topics c)
    (cc_doReorg c) (cc_doHeader c) (cc_filterRange c) (cc_policy c) (cc_logLevel c)
    syncChan (cc_pollResultChan c) (cc_errChan c) (cc_getStateDataGateway c)
    (cc_setStateDataGateway c).
Definition WithFilterResultChan (resultChan : option chanRef) : Option := λ c,
  mkComponents (cc_config c) (cc_serviceEngine c) (cc_ethClient c) (cc_addresses c) (cc_topics c)
    (cc_doReorg c) (cc_doHeader c) (cc_filterRange c) (cc_policy c) (cc_logLevel c)
    (cc_syncChan c) resultChan (cc_errChan c) (cc_getStateDataGateway c)
    (cc_setStateDataGateway c).
Definition WithErrChan (errChan : option chanRef) : Option := λ c,
  mkComponents (cc_config c) (cc_serviceEngine c) (cc_ethClient c) (cc_addresses c) (cc_topics c)
    (cc_doReorg c) (cc_doHeader c) (cc_filterRange c) (cc_policy c) (cc_logLevel c)
    (cc_syncChan c) (cc_pollResultChan c) errChan (cc_getStateDataGateway c)
    (cc_setStateDataGateway c).
Definition WithServiceEngine (service : E) : Option := λ c,
  mkComponents (cc_config c) (Some service) (cc_ethClient c) (cc_addresses c) (cc_topics c)
    (cc_doReorg c) (cc_doHeader c) (cc_filterRange c) (cc_policy c) (cc_logLevel c)
    (cc_syncChan c) (cc_pollResultChan c) (cc_errChan c) (cc_getStateDataGateway c)
    (cc_setStateDataGateway c).
Definition WithGetStateDataGateway (gateway : Gg) : Option := λ c,
  mkComponents (cc_config c) (cc_serviceEngine c) (cc_ethClient c) (cc_addresses c) (cc_topics c)
    (cc_doReorg c) (cc_doHeader c) (cc_filterRange c) (cc_policy c) (cc_logLevel c)
    (cc_syncChan c) (cc_pollResultChan c) (cc_errChan c) (Some gateway)
    (cc_setStateDataGateway c).
Definition WithSetStateDataGateway (gateway : Gs) : Option := λ c,
  mkComponents (cc_config c) (cc_serviceEngine c) (cc_ethClient c) (cc_addresses c) (cc_topics c)
    (cc_doReorg c) (cc_doHeader c) (cc_filterRange c) (cc_policy c) (cc_logLevel c)
    (cc_syncChan c) (cc_pollResultChan c) (cc_errChan c) (cc_getStateDataGateway c)
    (Some gateway).
Definition WithLogLevel (level : Z) : Option := λ c,
  mkComponents (cc_config c) (cc_serviceEngine c) (cc_ethClient c) (cc_addresses c) (cc_topics c)
    (cc_doReorg c) (cc_doHeader c) (cc_filterRange c) (cc_policy c) level
    (cc_syncChan c) (cc_pollResultChan c) (cc_errChan c) (cc_getStateDataGateway c)
    (cc_setStateDataGateway c).
Definition WithFilterRange (filterRange : Z) : Option := λ c,
  mkComponents (cc_config c) (cc_serviceEngine c) (cc_ethClient c) (cc_addresses c) (cc_topics c)
    (cc_doReorg c) (cc_doHeader c) filterRange (cc_policy c) (cc_logLevel c)
    (cc_syncChan c) (cc_pollResultChan c) (cc_errChan c) (cc_getStateDataGateway c)
    (cc_setStateDataGateway c).
Definition WithAddresses (addresses : list Address) : Option := λ c,
  mkComponents (cc_config c) (cc_serviceEngine c) (cc_ethClient c) (variadic addresses) (cc_topics c)
    (cc_doReorg c) (cc_doHeader c) (cc_filterRange c) (cc_policy c) (cc_logLevel c)
    (cc_syncChan c) (cc_pollResultChan c) (cc_errChan c) (cc_getStateDataGateway c)
    (cc_setStateDataGateway c).
Definition WithTopics (topics : list (list Hash)) : Option := λ c,
  mkComponents (cc_config c) (cc_serviceEngine c) (cc_ethClient c) (cc_addresses c) (variadic topics)
    (cc_doReorg c) (cc_doHeader c) (cc_filterRange c) (cc_policy c) (cc_logLevel c)
    (cc_syncChan c) (cc_pollResultChan c) (cc_errChan c) (cc_getStateDataGateway c)
    (cc_setStateDataGateway c).
Definition WithDoReorg (doReorg : bool) : Option := λ c,
  mkComponents (cc_config c) (cc_serviceEngine c) (cc_ethClient c) (cc_addresses c) (cc_topics c)
    doReorg (cc_doHeader c) (cc_filterRange c) (cc_policy c) (cc_logLevel c)
    (cc_syncChan c) (cc_pollResultChan c) (cc_errChan c) (cc_getStateDataGateway c)
    (cc_setStateDataGateway c).
Definition WithDoHeader (doHeader : bool) : Option := λ c,
  mkComponents (cc_config c) (cc_serviceEngine c) (cc_ethClient c) (cc_addresses c) (cc_topics c)
    (cc_doReorg c) doHeader (cc_filterRange c) (cc_policy c) (cc_logLevel c)
    (cc_syncChan c) (cc_pollResultChan c) (cc_errChan c) (cc_getStateDataGateway c)
    (cc_setStateDataGateway c).
Definition WithPolicy (level : Z) : Option := λ c,
  mkComponents (cc_config c) (cc_serviceEngine c) (cc_ethClient c) (cc_addresses c) (cc_topics c)
    (cc_doReorg c) (cc_doHeader c) (cc_filterRange c) level (cc_logLevel c)
    (cc_syncChan c) (cc_pollResultChan c) (cc_errChan c) (cc_getStateDataGateway c)
    (cc_setStateDataGateway c).

(** The loop at the start of every constructor that takes options. *)
Definition apply_options (options : list Option) : comp :=
  foldl (λ c opt, opt c) zero_componentConfig options.

(** c.config.Field. *)
Definition config_of c : outcome Config :=
  match cc_config c with Some conf => Ret conf | None => Panic "nil pointer dereference" end.
End options.
Arguments Option C Gg Gs E : clear implicits.

(** ** Constructors (poller.go, emitter.go, emitterclient.go, engine.go, superwatcher.go) *)

Section constructors.
Context `{SortedSet SS} `{Gsl} {C Gg Gs E A : Type}.
Abbreviation comp := (componentConfig C Gg Gs E).
Abbreviation emitterO := (emitterObj SS C Gg).
Abbreviation engineO := (engineObj SS Gs E A).
Abbreviation watcher := (superWatcher SS C Gg Gs E A).

Definition NewPoller (addresses : goslice Address) (topics : goslice (list Hash))
    (doReorg doHeader : bool) (filterRange : Z) (client : option C) (policy : Z) : pollerObj SS C :=
  mkPollerObj (New addresses topics doReorg doHeader filterRange policy) client.

Definition NewPollerOptions (options : list (Option C Gg Gs E)) : outcome (pollerObj SS C) :=
  let c := apply_options options in
  conf ← config_of c;
  Ret (NewPoller (cc_addresses c) (cc_topics c) (cc_doReorg c) (cc_doHeader c)
    (cc_filterRange c) (cc_ethClient c) (gsl_Max (cc_policy c) (cfg_Policy conf))).

Definition NewEmitter (conf : Config) (client : option C) (stateDataGateway : option Gg)
    (poller : pollerObj SS C) (syncChan pollResultChan errChan : option chanRef) : emitterO :=
  mkEmitterObj conf client stateDataGateway poller syncChan pollResultChan errChan.

Definition NewEmitterWithPoller (conf : Config) (client : option C) (stateDataGateway : option Gg)
    (addresses : goslice Address) (topics : goslice (list Hash))
    (syncChan pollResultChan errChan : option chanRef) : emitterO :=
  NewEmitter conf client stateDataGateway
    (NewPoller addresses topics (cfg_DoReorg conf) (cfg_DoHeader conf) (FilterRange conf) client
      (cfg_Policy conf)) syncChan pollResultChan errChan.

Definition NewEmitterOptions (options : list (Option C Gg Gs E)) : outcome emitterO :=
  let c := apply_options options in
  conf ← config_of c;
  Ret (NewEmitter conf (cc_ethClient c) (cc_getStateDataGateway c)
    (NewPoller (cc_addresses c) (cc_topics c) (cc_doReorg c) (cc_doHeader c) (cc_filterRange c)
      (cc_ethClient c) (cc_policy c))
    (cc_syncChan c) (cc_pollResultChan c) (cc_errChan c)).

Definition NewEmitterClient (conf : Config) (syncChan pollResultChan errChan : option chanRef) :
    emitterClientObj := mkClientObj conf syncChan pollResultChan errChan.

Definition NewEmitterClientOptions (options : list (Option C Gg Gs E)) : outcome emitterClientObj :=
  let c := apply_options options in
  conf ← config_of c;
  Ret (NewEmitterClient conf (cc_syncChan c) (cc_pollResultChan c) (cc_errChan c)).

(** engine.New, whose metadata tracker is new. *)
Definition NewEngine (emitterClient : emitterClientObj) (serviceEngine : option E)
    (stateDataGateway : option Gs) : engineO :=
  mkEngineObj emitterClient serviceEngine stateDataGateway newMetadataTracker.

Definition NewEngineWithEmitterClient (conf : Config) (serviceEngine : option E)
    (stateDataGateway : option Gs) (syncChan pollResultChan errChan : option chanRef) : engineO :=
  NewEngine (NewEmitterClient conf syncChan pollResultChan errChan) serviceEngine stateDataGateway.

Definition NewEngineOptions (options : list (Option C Gg Gs E)) : outcome engineO :=
  let c := apply_options options in
  conf ← config_of c;
  Ret (NewEngine (NewEmitterClient conf (cc_syncChan c) (cc_pollResultChan c) (cc_errChan c))
    (cc_serviceEngine c) (cc_setStateDataGateway c)).

(** make(chan ...) gives the next unused channel. *)
Definition NewDefault (next : chanRef) (conf : Config) (ethClient : option C)
    (getStateDataGateway : option Gg) (setStateDataGateway : option Gs) (serviceEngine : option E)
    (addresses : goslice Address) (topics : goslice (list Hash)) : chanRef * (emitterO * engineO) :=
  let syncChan := Some next in
  let pollResultChan := Some (S next) in
  let errChan := Some (S (S next)) in
  (S (S (S next)),
   (NewEmitterWithPoller conf ethClient getStateDataGateway addresses topics
      syncChan pollResultChan errChan,
    NewEngineWithEmitterClient conf serviceEngine setStateDataGateway
      syncChan pollResultChan errChan)).

Definition NewSuperWatcher (emitter : emitterO) (engine : engineO) : watcher :=
  mkSuperWatcher emitter engine.

Definition NewSuperWatcherDefault (next : chanRef) (conf : Config) (ethClient : option C)
    (getStateDataGateway : option Gg) (setStateDataGateway : option Gs) (serviceEngine : option E)
    (addresses : goslice Address) (topics : goslice (list Hash)) : chanRef * watcher :=
  let '(next, (emitter, engine)) := NewDefault next conf ethClient getStateDataGateway
    setStateDataGateway serviceEngine addresses topics in
  (next, NewSuperWatcher emitter engine).

Definition NewSuperWatcherOptions (options : list (Option C Gg Gs E)) : outcome watcher :=
  let c := apply_options options in
  conf ← config_of c;
  let poller := NewPoller (cc_addresses c) (cc_topics c) (cfg_DoReorg conf || cc_doReorg c)
    (cfg_DoHeader conf || cc_doHeader c) (cc_filterRange c) (cc_ethClient c)
    (gsl_Max (cc_policy c) (cfg_Policy conf)) in
  let emitter := NewEmitter conf (cc_ethClient c) (cc_getStateDataGateway c) poller
    (cc_syncChan c) (cc_pollResultChan c) (cc_errChan c) in
  let emitterClient := NewEmitterClient conf (cc_syncChan c) (cc_pollResultChan c) (cc_errChan c) in
  let engine := NewEngine emitterClient (cc_serviceEngine c) (cc_setStateDataGateway c) in
  Ret (NewSuperWatcher emitter engine).

(** thin_engine.go: an engine without a tracker. *)
Record thinEngineObj (Gs' E' : Type) : Type := mkThinObj {
  to_emitterClient : emitterClientObj;
  to_serviceEngine : option E';
  to_stateDataGateway : option Gs';
}.

Definition NewThinEngine (emitterClient : emitterClientObj) (serviceEngine : option E)
    (stateDataGateway : option Gs) : thinEngineObj Gs E :=
  mkThinObj _ _ emitterClient serviceEngine stateDataGateway.

Definition NewThinEngineWithEmitter (next : chanRef) (conf : Config)
    (getStateDataGateway : option Gg) (setStateDataGateway : option Gs)
    (addresses : goslice Address) (topics : goslice (list Hash)) (client : option C) (policy : Z)
    (serviceEngine : option E) : chanRef * (emitterO * thinEngineObj Gs E) :=
  let poller := NewPoller addresses topics (cfg_DoReorg conf) (cfg_DoHeader conf)
    (FilterRange conf) client policy in
  let syncChan := Some next in
  let resultChan := Some (S next) in
  let errChan := Some (S (S next)) in
  (S (S (S next)),
   (NewEmitter conf client getStateDataGateway poller syncChan resultChan errChan,
    NewThinEngine (NewEmitterClient conf syncChan resultChan errChan) serviceEngine
      setStateDataGateway)).

(** ** SuperWatcher (superwatcher_impl.go): the Controller's methods act on the poller *)

Definition sw_poller (spw : watcher) : poller SS := po_poller (eo_poller (sw_emitter spw)).

Definition SetPoller (e : emitterO) (p : pollerObj SS C) : emitterO :=
  mkEmitterObj (eo_conf e) (eo_client e) (eo_stateDataGateway e) p (eo_syncChan e)
    (eo_pollResultChan e) (eo_errChan e).

Definition with_poller (spw : watcher) (p : poller SS) : watcher :=
  let e := sw_emitter spw in
  mkSuperWatcher (SetPoller e (mkPollerObj p (po_client (eo_poller e)))) (sw_engine spw).

Definition sw_SetDoReorg (spw : watcher) (doReorg : bool) : outcome watcher :=
  with_poller spw <$> SetDoReorg (sw_poller spw) doReorg.
Definition sw_DoReorg (spw : watcher) : bool := doReorg (sw_poller spw).
Definition sw_SetDoHeader (spw : watcher) (doHeader : bool) : watcher :=
  with_poller spw (SetDoHeader (sw_poller spw) doHeader).
Definition sw_DoHeader (spw : watcher) : bool := doHeader (sw_poller spw).
Definition sw_Addresses (spw : watcher) : goslice Address := addresses (sw_poller spw).
Definition sw_Topics (spw : watcher) : goslice (list Hash) := topics (sw_poller spw).
Definition sw_AddAddresses (spw : watcher) (l : list Address) : watcher :=
  with_poller spw (AddAddresses (sw_poller spw) l).
Definition sw_AddTopics (spw : watcher) (l : list (list Hash)) : watcher :=
  with_poller spw (AddTopics (sw_poller spw) l).
Definition sw_SetAddresses (spw : watcher) (l : goslice Address) : watcher :=
  with_poller spw (SetAddresses (sw_poller spw) l).
Definition sw_SetTopics (spw : watcher) (l : goslice (list Hash)) : watcher :=
  with_poller spw (SetTopics (sw_poller spw) l).
End constructors.
