(* ===== verification/ComponentsProps.v ===== *)
(** What the constructors make: parts that are wired to each other, the start of a history of
    the whole watcher, and, from options without a filter range, a poller that never reports
    a reorg. *)

From S2P Require Import Prelude GoErrors Types Externals SortedSet EthClient Batch BlockTracker PollUtils.
From S2P Require Import PollPolicy Poller PollerSpec PollRun PollHonest PollerFailures DataGateway EmitterBlocks.
From S2P Require Import Emitter EmitterProps EngineStates MetadataTracker Engine EngineSpec EngineProps EngineRuns.
From S2P Require Import Watcher System SystemLemmas SystemProps SystemRuns Components.

(** * Definitions *)

Section made.
Context `{SortedSet SS} `{HashText} `{EthUtil} `{Gsl} `{EthClient C}.
Context `{!GetStateDataGateway G} `{!SetStateDataGateway G} {S A : Type} `{!ServiceEngine S A}.
Abbreviation watcher := (superWatcher SS C G G S A).

(** The emitter and the engine have the same configuration and share their channels. *)
Definition wired (sw : watcher) : Prop :=
  let client := go_emitterClient (sw_engine sw) in
  eo_conf (sw_emitter sw) = co_emitterConfig client ∧
  eo_syncChan (sw_emitter sw) = co_emitterSyncChan client ∧
  eo_pollResultChan (sw_emitter sw) = co_pollResultChan client ∧
  eo_errChan (sw_emitter sw) = co_errChan client ∧
  po_client (eo_poller (sw_emitter sw)) = eo_client (sw_emitter sw).

(** The emitter of Emitter.v and the system of System.v that the parts are. *)
Definition emitter_of (sw : watcher) : emitter :=
  mkEmitter (eo_conf (sw_emitter sw)) (bool_decide (is_Some (eo_pollResultChan (sw_emitter sw)))).
Definition system_of (sw : watcher) (status : statusVar) (client : C) (gateway : G) (service : S) :
    system SS C G S A :=
  mkSystem status (mkWorld (sw_poller sw) client gateway) (go_metadataTracker (sw_engine sw)) service.

(** A poller that looks back over no block and knows none up to the last recorded one. *)
Definition blind (p : poller SS) : Prop :=
  filterRange p = 0%Z ∧ (0 ≤ lastRecordedBlock p < two63)%Z ∧ poller_wf p ∧
  is_Some (tracker p) ∧
  ∀ n, is_u64 n → is_Some (known_of p n) → (n ≤ lastRecordedBlock p)%Z.

(** * Lemmas *)

Lemma omap_none {B B'} (f : B → option B') l : (∀ x, x ∈ l → f x = None) → omap f l = [].
Proof.
  induction l as [|x l IH]; intros Hf; simpl; [done|]. rewrite Hf by left. apply IH.
  intros. apply Hf. by right.
Qed.

Lemma blind_remembers p n : blind p → is_u64 n → remembered p n = None.
Proof.
  intros (Hr & Hl & _ & _ & Hk) Hn. unfold remembered. rewrite Hr.
  assert (lastRecordedBlock p -₆₄ 0 = lastRecordedBlock p)%Z as ->.
  { rewrite u64_sub_small; [lia|]. unfold is_u64. lia. }
  case_decide as Hlt; [|done]. destruct (known_of p n) as [b|] eqn:E; [|done].
  assert (n ≤ lastRecordedBlock p)%Z as Hle by (apply Hk; [done|by rewrite E]).
  rewrite to_int64_small in Hlt by lia. rewrite to_int64_small in Hlt by (unfold is_u64 in Hn; lia). lia.
Qed.

Lemma blind_reports_none p header_of logs from to :
  blind p → range_ok from to → (from ≤ to)%Z →
  ReorgedBlocks (spec_result p header_of logs from to) = [] ∧
  LastGood (spec_result p header_of logs from to) = to.
Proof.
  intros Hb Hr Hle. unfold range_ok in Hr.
  assert (report_reorged (remembered p) header_of logs (block_range from to) = []) as Hnone.
  { unfold report_reorged. apply omap_none. intros n Hn%elem_of_block_range.
    unfold changed. rewrite blind_remembers; [done..|]. unfold is_u64. lia. }
  unfold spec_result, finish_result. simpl. rewrite Hnone. by split.
Qed.

Lemma New_known addrs tops dr dh range pol n :
  known_of (New addrs tops dr dh range pol : poller SS) n = None.
Proof. unfold known_of. simpl. destruct dr; simpl; [|done]. apply getTrackerBlock_new. Qed.

Lemma New_blind addrs tops dh pol : blind (New addrs tops true dh 0 pol : poller SS).
Proof.
  split; [done|]. split; [simpl; lia|]. split; [apply New_wf|]. split; [by eexists|].
  intros n _ [b Hb]. by rewrite New_known in Hb.
Qed.

(** * Properties *)

(** C10: NewSuperWatcherDefault wires a watcher: the emitter and the engine get the same
    configuration and the same three new, distinct channels, and the poller the emitter's
    client; and with reorg detection and an implemented policy in the configuration, the new
    watcher is one from which the histories of the whole watcher start, whatever its client,
    gateway and service. *)
Theorem NewSuperWatcherDefault_starts next conf client gget gset service addrs tops next'
    (sw : watcher) :
  NewSuperWatcherDefault next conf client gget gset service addrs tops = (next', sw) →
  wired sw ∧
  (∃ s r e, eo_syncChan (sw_emitter sw) = Some s ∧ eo_pollResultChan (sw_emitter sw) = Some r ∧
     eo_errChan (sw_emitter sw) = Some e ∧ NoDup [s; r; e] ∧
     ∀ c, c ∈ [s; r; e] → next ≤ c < next') ∧
  conf = eo_conf (sw_emitter sw) ∧
  (cfg_DoReorg conf = true → policy_ok (cfg_Policy conf) →
   ∀ status c g sv number_of, var_ok conf status →
     history number_of (emitter_of sw) (system_of sw status c g sv) []).
Proof.
  intros [= <- <-]. split; [done|]. split.
  { exists next, (Datatypes.S next), (Datatypes.S (Datatypes.S next)). do 3 (split; [done|]). split.
    - repeat constructor; set_solver by lia.
    - intros c. rewrite !elem_of_cons, elem_of_nil. lia. }
  split; [done|]. intros Hdr Hpol status c g sv number_of Hst.
  apply history_new; [apply New_wf| |intros; apply New_known|done|done].
  unfold poller_conf, sy_poller. simpl. rewrite Hdr. by repeat (split; [done|]); eauto.
Qed.

(** C11: Options that leave out WithFilterRange make a blind watcher, although the
    configuration has a filter range: NewSuperWatcherOptions gives the poller the range of the
    options only, and a poller with range 0 forgets every block that it has recorded.  Whatever
    the views of the chain that such a poller is given, one after the other, none of its polls
    reports a reorged block. *)
Theorem options_without_range_never_report options (sw : watcher) :
  NewSuperWatcherOptions options = Ret sw → cc_filterRange (apply_options options) = 0%Z →
  sw_DoReorg sw = true →
  blind (sw_poller sw) ∧
  ∀ Q I logs_of header_of lf p c from to,
    honest_on Q I logs_of header_of → Q (filter_query from to (addresses p) (topics p)) → I c →
    blind p → range_ok from to → (from ≤ to)%Z → policy_ok (policy p) →
    ∃ p' c' res, Poll lf p c from to = Ret (p', c', (Some res, None)) ∧
      ReorgedBlocks res = [] ∧ blind p' ∧ policy p' = policy p ∧ I c'.
Proof.
  intros Hnew Hzero Hdr. split.
  - unfold NewSuperWatcherOptions in Hnew. apply bind_Ret_inv in Hnew as (conf & _ & [= <-]).
    unfold sw_DoReorg, sw_poller in *. simpl in *. rewrite Hzero, Hdr. apply New_blind.
  - intros Q I logs_of header_of lf p c from to Hhon Hq HI Hb Hr Hle Hpol.
    pose proof Hb as (Hz & Hl & Hwf & Htr & Hk).
    destruct (Poll_reference_on Q I logs_of header_of Hhon lf p c from to)
      as (p' & c' & Hp & HI' & Hwf' & Htr' & Hlast & (_ & _ & Hpol' & Hrange & _) & Hk');
      [try done; by left..|].
    destruct (blind_reports_none p header_of
      (logs_of (filter_query from to (addresses p) (topics p))) from to Hb Hr Hle) as [Hnone HLG].
    rewrite HLG in Hlast. unfold range_ok in Hr.
    assert (spec_error p header_of (logs_of (filter_query from to (addresses p) (topics p))) from
      = None) as Herr.
    { unfold spec_error, changed. rewrite blind_remembers; [done..|]. unfold is_u64. lia. }
    exists p', c', (spec_result p header_of
      (logs_of (filter_query from to (addresses p) (topics p))) from to).
    rewrite Herr in Hp. split; [exact Hp|]. split; [done|]. split; [|done].
    split; [congruence|]. rewrite Hlast. split; [lia|]. split; [done|].
    split; [by apply Htr'|].
    intros n Hn. rewrite Hk' by done. unfold spec_known.
    destruct (tracker p); [|by intros [? ?]]. case_decide; [lia|].
    rewrite blind_remembers by done. by intros [? ?].
Qed.
End made.
