(* ===== verification/ComponentsExamples.v ===== *)
(** Witnesses for the constructors and for the goroutines of a watcher: a service that
    fails. *)

From S2P Require Import Prelude GoErrors Types Externals SortedSet EthClient Batch BlockTracker PollUtils.
From S2P Require Import PollPolicy Poller PollerSpec PollRun PollHonest DemoChain PollerProps PollerFailures PollerExamples.
From S2P Require Import DataGateway EmitterBlocks Emitter EmitterProps EmitterExamples EngineStates MetadataTracker.
From S2P Require Import Engine EngineSpec EngineProps EngineRuns EngineExamples Watcher System SystemLemmas SystemProps.
From S2P Require Import SystemRuns EngineLoop Components ComponentsProps.

(** * Definitions *)

(** A world in which every poll gives one block and the service fails on it. *)
Record failWorld : Set := mkFail {}.

Definition fail_result (from to : Z) : PollerResult :=
  mkResult from to to [mkBlock false to to None []] [].

#[export] Instance fail_EmitterEnv : EmitterEnv failWorld := {|
  env_GetLastRecordedBlock w := Ret (w, (20%Z, None));
  env_BlockNumber w := Ret (w, (30%Z, None));
  env_Poll w from to := Ret (w, (Some (fail_result from to), None));
  env_DoReorg w := true;
|}.
#[export] Instance fail_Service : ServiceEngine failWorld nat := {|
  HandleGoodBlocks w bs arts := Ret (w, (∅, new_error "service failed"));
  HandleReorgedBlocks w bs arts := Ret (w, (∅, None));
  HandleEmitterError w err := Ret (w, Some err);
|}.
#[export] Instance fail_Gateway : SetStateDataGateway failWorld := {|
  SetLastRecordedBlock w n := Ret (w, None);
|}.

Abbreviation fail_tracker := (newMetadataTracker : metadataTracker MapSet nat).

Abbreviation demo_option := (Option DemoChain fakeRedisMem fakeRedisMem demoService).
Abbreviation built_watcher :=
  (superWatcher MapSet DemoChain fakeRedisMem fakeRedisMem demoService nat).

(** * Witnesses *)

Lemma NewSuperWatcherDefault_starts_witness :
  ∃ (sw : built_watcher) next,
    NewSuperWatcherDefault 0 demo_conf (Some demo_old) (Some (mkMem 0 false))
      (Some (mkMem 0 false)) (Some demo_service) None None = (next, sw) ∧
    wired sw ∧
    history (λ h, h) (emitter_of sw)
      (system_of (G := fakeRedisMem) sw normal_var demo_old (mkMem 0 false) demo_service) [].
Proof.
  destruct (NewSuperWatcherDefault 0 demo_conf (Some demo_old) (Some (mkMem 0 false))
      (Some (mkMem 0 false)) (Some demo_service) None None) as [next sw] eqn:E.
  exists sw, next. split; [reflexivity|].
  destruct (NewSuperWatcherDefault_starts (SS := MapSet) (G := fakeRedisMem) 0 demo_conf
    (Some demo_old) (Some (mkMem 0 false)) (Some (mkMem 0 false)) (Some demo_service) None None
    next sw E) as (Hw & _ & _ & Hh).
  split; [exact Hw|]. apply Hh; [reflexivity|apply demo_policies; auto|apply normal_var_ok].
Defined.

(** Everything but the filter range. *)
Definition demo_options : list demo_option :=
  [WithConfig demo_conf; WithEthClient demo_old; WithServiceEngine demo_service;
   WithGetStateDataGateway (mkMem 0 false); WithSetStateDataGateway (mkMem 0 false);
   WithSyncChan (Some 0); WithFilterResultChan (Some 1); WithErrChan (Some 2)].

Lemma options_without_range_never_report_witness :
  ∃ sw : built_watcher, NewSuperWatcherOptions demo_options = Ret sw ∧ blind (sw_poller sw) ∧
    ∃ p1 c1 r1 p2 c2 r2, Poll true (sw_poller sw) demo_old 1 15 = Ret (p1, c1, (Some r1, None)) ∧
      Poll true p1 demo_new 6 16 = Ret (p2, c2, (Some r2, None)) ∧ ReorgedBlocks r2 = [].
Proof.
  destruct (NewSuperWatcherOptions demo_options) as [sw| |] eqn:E; [|discriminate..].
  destruct (options_without_range_never_report (G := fakeRedisMem) demo_options (sw : built_watcher) E)
    as [Hb Hp]; [reflexivity|revert E; intros [= <-]; reflexivity|].
  exists sw. split; [reflexivity|]. split; [exact Hb|].
  assert (policy_ok (policy (sw_poller sw))) as Hpol
    by (revert E; intros [= <-]; unfold policy_ok; vm_compute; split; discriminate).
  destruct (Hp (λ _, True) _ _ _ true _ _ 1%Z 15%Z (demo_honest demo_old) I eq_refl Hb)
    as (p1 & c1 & r1 & Hp1 & _ & Hb1 & Hpol1 & _); [unfold range_ok; lia|lia|exact Hpol|].
  destruct (Hp (λ _, True) _ _ _ true _ _ 6%Z 16%Z (demo_honest demo_new) I eq_refl Hb1)
    as (p2 & c2 & r2 & Hp2 & Hn & _); [unfold range_ok; lia|lia|rewrite Hpol1; exact Hpol|].
  exists p1, c1, r1, p2, c2, r2. split; [exact Hp1|]. split; [exact Hp2|exact Hn].
Defined.


Lemma engine_failure_hangs_witness :
  ∃ s err, loop_steps demo_emitter (ENew "done")
      (mkLoops (InLoopEmit normal_var) [EvResult (fail_result 11 30); EvSync] true ResReceives
        ErrReceives fail_tracker mkFail) s ∧
    lp_results s = ResReturned (Some err) ∧ run_returns s = None ∧
    ∀ s', ¬ loop_step demo_emitter (ENew "done") s s'.
Proof.
  destruct (side_result demo_conf fail_tracker mkFail (fail_result 11 30))
    as [[[t' w'] [err|]]| |] eqn:Eh; try (exfalso; revert Eh; vm_compute; discriminate).
  destruct (loop_turn demo_emitter normal_var w') as [[w2 [evs2 [sv'|]]]| |] eqn:Et;
    try (exfalso; revert Et; destruct w'; vm_compute; discriminate).
  destruct (engine_failure_hangs demo_emitter (ENew "done") normal_var (fail_result 11 30)
    fail_tracker mkFail t' w' err sv' w2 evs2) as (s & Hs & Hr & Hn & Hstuck);
    [reflexivity|exact Eh|exact Et| |].
  - revert Et. destruct w'. vm_compute. intros Et. injection Et as <- <- <-.
    eexists. right. right. left.
  - exists s, err. split; [exact Hs|]. split; [exact Hr|]. split; [exact Hn|exact Hstuck].
Defined.
