(* ===== verification/ReorgBlocks.v ===== *)
(** pkg/reorgsim, block.go, hash.go, chain.go and reorgsim_param.go: the blocks of the
    simulated chains, forking them and moving logs between their blocks. *)

From S2P Require Import Prelude GoErrors Types Externals.

(** * Definitions *)

(** common.BigToHash takes the bytes of the absolute value and keeps the last 32;
    rand.NewSource(seed).Int63() is a fixed function of the seed; gsl.FilterSlice keeps the
    elements that the predicate accepts. *)
Class SimUtil : Type := {
  BigToHash : Z → Hash;
  seed_Int63 : Z → Z;
  gsl_FilterSlice : ∀ {A}, list A → (A → bool) → list A;
  BigToHash_spec : ∀ z, BigToHash z = (Z.abs z mod 2 ^ 256)%Z;
  seed_Int63_range : ∀ s, (0 ≤ seed_Int63 s < two63)%Z;
  gsl_FilterSlice_spec : ∀ {A} (l : list A) f, gsl_FilterSlice l f = filter (λ x, f x = true) l;
}.

Definition NoReorg : Z := 0.

(** reorgsim.Block. *)
Record simBlock : Set := mkSim {
  sb_blockNumber : Z;
  sb_hash : Hash;
  sb_logs : list Log;
  sb_reorgedHere : bool;
  sb_toBeForked : bool;
}.

Definition set_sb_logs (b : simBlock) (logs : list Log) : simBlock :=
  mkSim (sb_blockNumber b) (sb_hash b) logs (sb_reorgedHere b) (sb_toBeForked b).

(** The block as a superwatcher.BlockHeader. *)
Definition sim_header (b : simBlock) : BlockHeader :=
  mkHeader (sb_blockNumber b) (sb_hash b) (sb_blockNumber b) (sb_blockNumber b)
    (sb_blockNumber b) (sb_blockNumber b).

Definition set_BlockHash (h : Hash) (l : Log) : Log :=
  mkLog (log_Address l) (log_Topics l) (log_Data l) (log_BlockNumber l) (log_TxHash l) h.
Definition set_place (n : Z) (h : Hash) (l : Log) : Log :=
  mkLog (log_Address l) (log_Topics l) (log_Data l) n (log_TxHash l) h.

(** MoveLogs and ReorgEvent.  A map that the code ranges over is a list of its entries in
    the order in which the range visits them. *)
Record MoveLogs : Set := mkMove { NewBlock : Z; TxHashes : list Hash }.
Record ReorgEvent : Set := mkEvent {
  ReorgTrigger : Z;
  ReorgBlock : Z;
  MovedLogs : list (Z * list MoveLogs);
}.

(** A BlockChain maps numbers to *Block; the blocks live in a heap, since chains share
    them and moveLogs writes to them. *)
Abbreviation blockHeap := (list simBlock).
Abbreviation BlockChain := (gmap Z nat).

Section chain.
Context `{Gsl} `{SimUtil}.

Definition PRandomHash (i : Z) : Hash := BigToHash (to_int64 i).
Definition ReorgHash (blockNumber reorgIndex : Z) : Hash :=
  PRandomHash (blockNumber +₆₄ seed_Int63 reorgIndex).

(** The methods reorg and removeLogs of *Block. *)
Definition block_reorg (b : simBlock) (reorgIndex : Z) : simBlock :=
  let reorgedHash := ReorgHash (sb_blockNumber b) reorgIndex in
  mkSim (sb_blockNumber b) reorgedHash (set_BlockHash reorgedHash <$> sb_logs b)
    (sb_reorgedHere b) true.

Definition removeLogs (b : simBlock) (txHashes : list Hash) : outcome simBlock :=
  if decide (length (sb_logs b) = 0)%nat then
    Panic ("block " +:+ pretty (sb_blockNumber b) +:+ " has no logs")
  else
    Ret (set_sb_logs b
      (gsl_FilterSlice (sb_logs b) (λ log, negb (gsl_Contains txHashes (log_TxHash log))))).

Definition block_at (hp : blockHeap) (ref : nat) : outcome simBlock :=
  match hp !! ref with
  | Some b => Ret b
  | None => Panic "nil pointer dereference"
  end.

(** The method reorg of BlockChain; the order of the range does not matter, since every
    entry is replaced on its own. *)
Definition chain_reorg (hp : blockHeap) (chain : BlockChain) (reorgedBlock reorgIndex : Z) :
    outcome (blockHeap * BlockChain) :=
  foldM (λ '(number, ref) '(hp, chain),
    if (reorgedBlock <=? number)%Z then
      b ← block_at hp ref;
      Ret (hp ++ [block_reorg b reorgIndex], <[number := length hp]> chain)
    else Ret (hp, chain)) (map_to_list chain) (hp, chain).

(** The turn of moveLogs for one entry of moves out of the block at [ref]. *)
Definition move_one (chain : BlockChain) (ref : nat) (move : MoveLogs)
    (s : blockHeap * list Z) : outcome (blockHeap * list Z) :=
  let '(hp, moveToBlocks) := s in
  match chain !! NewBlock move with
  | None => Panic ("logs moved to non-existent block " +:+ pretty (NewBlock move))
  | Some target =>
      let moveToBlocks := if gsl_Contains moveToBlocks (NewBlock move) then moveToBlocks
                          else moveToBlocks ++ [NewBlock move] in
      b ← block_at hp ref;
      let logsToMove := filter (λ log, gsl_Contains (TxHashes move) (log_TxHash log) = true)
                          (sb_logs b) in
      b ← removeLogs b (TxHashes move);
      let hp := <[ref := b]> hp in
      targetBlock ← block_at hp target;
      let logsToMove := set_place (sb_blockNumber targetBlock) (sb_hash targetBlock)
                          <$> logsToMove in
      Ret (<[target := set_sb_logs targetBlock (sb_logs targetBlock ++ logsToMove)]> hp,
           moveToBlocks)
  end.

(** moveLogs; the numbers of the source blocks come in the order of the range. *)
Definition moveLogs (hp : blockHeap) (chain : BlockChain) (movedLogs : list (Z * list MoveLogs)) :
    outcome (blockHeap * (list Z * list Z)) :=
  foldM (λ '(moveFromBlock, moves) '(hp, (moveFromBlocks, moveToBlocks)),
    match chain !! moveFromBlock with
    | None => Panic ("logs moved from non-existent block " +:+ pretty moveFromBlock)
    | Some ref =>
        '(hp, moveToBlocks) ← foldM (move_one chain ref) moves (hp, moveToBlocks);
        Ret (hp, (moveFromBlocks ++ [moveFromBlock], moveToBlocks))
    end) movedLogs (hp, ([], [])).

(** The block that newBlockChain makes of the logs of a number. *)
Definition new_block (reorgedBlock blockNumber : Z) (logs : list Log) : outcome simBlock :=
  let toBeForked := negb (reorgedBlock =? NoReorg)%Z && (reorgedBlock <=? blockNumber)%Z in
  match logs with
  | [] => Panic "index out of range"
  | l0 :: rest =>
      if forallb (λ l, (log_BlockHash l =? log_BlockHash l0)%Z) rest then
        Ret (mkSim blockNumber (log_BlockHash l0) logs (blockNumber =? reorgedBlock)%Z toBeForked)
      else Panic ("logs blockHashes on block " +:+ pretty blockNumber +:+ " do not match")
  end.

Definition newBlockChain (hp : blockHeap) (mappedLogs : gmap Z (list Log)) (reorgedBlock : Z) :
    outcome (blockHeap * BlockChain) :=
  foldM (λ '(blockNumber, logs) '(hp, chain),
    b ← new_block reorgedBlock blockNumber logs;
    Ret (hp ++ [b], <[blockNumber := length hp]> chain)) (map_to_list mappedLogs) (hp, ∅).

(** The two loops of NewBlockChain that make missing blocks, of which the reorg's result
    is dropped. *)
Definition fill_from (prevChain : BlockChain) (event : ReorgEvent) (moveFromBlocks : list Z)
    (s : blockHeap * BlockChain) : outcome (blockHeap * BlockChain) :=
  foldM (λ prevFrom '(hp, forkedChain),
    match prevChain !! prevFrom with
    | None => Panic ("moved from non-existent block " +:+ pretty prevFrom +:+ " in the old chain")
    | Some _ =>
        match (forkedChain : BlockChain) !! prevFrom with
        | Some _ => Ret (hp, forkedChain)
        | None => Ret (hp ++ [mkSim prevFrom 0 [] (prevFrom =? ReorgBlock event)%Z true],
                       <[prevFrom := length hp]> forkedChain)
        end
    end) moveFromBlocks s.

Definition fill_to (forkedChain : BlockChain) (event : ReorgEvent) (moveToBlocks : list Z)
    (s : blockHeap * BlockChain) : outcome (blockHeap * BlockChain) :=
  foldM (λ forkedTo '(hp, prevChain),
    match forkedChain !! forkedTo with
    | None => Panic ("moved to non-existent block " +:+ pretty forkedTo +:+ " in the new chain")
    | Some _ =>
        match (prevChain : BlockChain) !! forkedTo with
        | Some _ => Ret (hp, prevChain)
        | None => Ret (hp ++ [mkSim forkedTo 0 [] (forkedTo =? ReorgBlock event)%Z true],
                       <[forkedTo := length hp]> prevChain)
        end
    end) moveToBlocks s.

(** One turn of the loop over the events: the chain before it, which fill_to may extend,
    and the forked chain.  copyBlockChain copies the references. *)
Definition fork_event (hp : blockHeap) (prevChain : BlockChain) (i : Z) (event : ReorgEvent) :
    outcome (blockHeap * (BlockChain * BlockChain)) :=
  let forkedChain := prevChain in
  '(hp, forkedChain) ← chain_reorg hp forkedChain (ReorgBlock event) i;
  '(hp, (moveFromBlocks, moveToBlocks)) ← moveLogs hp forkedChain (MovedLogs event);
  '(hp, forkedChain) ← fill_from prevChain event moveFromBlocks (hp, forkedChain);
  '(hp, prevChain) ← fill_to forkedChain event moveToBlocks (hp, prevChain);
  Ret (hp, (prevChain, forkedChain)).

(** The loop: the previous chain is a Go map, so what a turn adds to it shows in the list
    of chains. *)
Fixpoint fork_events (hp : blockHeap) (chains : list BlockChain) (prevChain : BlockChain)
    (i : Z) (events : list ReorgEvent) : outcome (blockHeap * list BlockChain) :=
  match events with
  | [] => Ret (hp, chains ++ [prevChain])
  | event :: events =>
      '(hp, (prevChain, forkedChain)) ← fork_event hp prevChain i event;
      fork_events hp (chains ++ [prevChain]) forkedChain (i + 1) events
  end.

Definition NewBlockChain (logs : gmap Z (list Log)) (events : list ReorgEvent) :
    outcome (blockHeap * (BlockChain * list BlockChain)) :=
  match events with
  | [] => '(hp, chain) ← newBlockChain [] logs NoReorg; Ret (hp, (chain, []))
  | event :: _ =>
      '(hp, chain) ← newBlockChain [] logs (ReorgBlock event);
      '(hp, chains) ← fork_events hp [] chain 0 events;
      match chains with
      | chain :: reorgedChains => Ret (hp, (chain, reorgedChains))
      | [] => Panic "no chain"
      end
  end.

(** validateReorgEvent: the events with their triggers set, or an error. *)
Fixpoint validateReorgEvent (events : list ReorgEvent) : list ReorgEvent + error :=
  match events with
  | [] => inl []
  | event :: events =>
      let event := mkEvent (if (ReorgTrigger event =? 0)%Z then ReorgBlock event
                            else ReorgTrigger event) (ReorgBlock event) (MovedLogs event) in
      match filter (λ m, m.1 < ReorgBlock event)%Z (MovedLogs event) with
      | (from, _) :: _ => inr (EWrap (ENew "invalid reorg events")
          ("logs moved from " +:+ pretty from +:+ ", which is before reorgBlock "
           +:+ pretty (ReorgBlock event)))
      | [] =>
          match validateReorgEvent events with
          | inl events => inl (event :: events)
          | inr err => inr err
          end
      end
  end.

(** ** What a chain says *)

(** The block of a number. *)
Definition block_of (hp : blockHeap) (chain : BlockChain) (n : Z) : option simBlock :=
  ref ← chain !! n; hp !! ref.

(** A block whose logs carry its number and hash. *)
Definition block_ok (n : Z) (b : simBlock) : Prop :=
  sb_blockNumber b = n ∧
  ∀ l, l ∈ sb_logs b → log_BlockNumber l = n ∧ log_BlockHash l = sb_hash b.

(** The references of a chain are blocks of the heap, one each, and these are well formed. *)
Record chain_ok (hp : blockHeap) (chain : BlockChain) : Prop := {
  chain_block n ref : chain !! n = Some ref → ∃ b, hp !! ref = Some b ∧ block_ok n b;
}.
End chain.
