(* ===== verification/ReorgChains.v ===== *)
(** What forking and moving logs do to the simulated chains: every block's logs keep
    carrying its number and hash, and no log is lost. *)

From S2P Require Import Prelude GoErrors Types Externals ReorgBlocks.

(** * Definitions *)

(** The blocks of a chain, by number, away from the heap that holds them. *)
Definition pure_chain (hp : blockHeap) (chain : BlockChain) : gmap Z simBlock :=
  omap (λ ref, hp !! ref) chain.

(** The logs that a chain is made of: none of the lists is empty, and the logs of a number
    carry it and one hash. *)
Definition mapped_ok (mappedLogs : gmap Z (list Log)) : Prop :=
  ∀ n logs, mappedLogs !! n = Some logs → logs ≠ [] ∧
    (∀ l, l ∈ logs → log_BlockNumber l = n) ∧
    ∀ l l', l ∈ logs → l' ∈ logs → log_BlockHash l = log_BlockHash l'.

(** ** The reference: chains as values

    The same operations on maps of blocks, which nothing shares. *)
Section reference.
Context `{Gsl} `{SimUtil}.

Definition ref_block (rb n : Z) (logs : list Log) : simBlock :=
  mkSim n (from_option log_BlockHash 0%Z (head logs)) logs (n =? rb)%Z
    (negb (rb =? NoReorg)%Z && (rb <=? n)%Z).

Definition ref_start (mappedLogs : gmap Z (list Log)) (rb : Z) : gmap Z simBlock :=
  map_imap (λ n logs, Some (ref_block rb n logs)) mappedLogs.

Definition ref_reorg (m : gmap Z simBlock) (reorgedBlock reorgIndex : Z) : gmap Z simBlock :=
  map_imap (λ n b, Some (if (reorgedBlock <=? n)%Z then block_reorg b reorgIndex else b)) m.

Definition ref_remove (txHashes : list Hash) (b : simBlock) : simBlock :=
  set_sb_logs b (filter (λ l, log_TxHash l ∉ txHashes) (sb_logs b)).
Definition ref_add (logs : list Log) (b : simBlock) : simBlock :=
  set_sb_logs b (sb_logs b ++ (set_place (sb_blockNumber b) (sb_hash b) <$> logs)).

(** The logs of a move leave their block and join the block they move to. *)
Definition ref_move (from : Z) (m : gmap Z simBlock) (move : MoveLogs) : gmap Z simBlock :=
  match m !! from with
  | None => m
  | Some b =>
      alter (ref_add (filter (λ l, log_TxHash l ∈ TxHashes move) (sb_logs b))) (NewBlock move)
        (alter (ref_remove (TxHashes move)) from m)
  end.

Definition ref_moves (m : gmap Z simBlock) (movedLogs : list (Z * list MoveLogs)) :
    gmap Z simBlock :=
  foldl (λ m '(from, moves), foldl (ref_move from) m moves) m movedLogs.

Definition ref_fork (m : gmap Z simBlock) (i : Z) (event : ReorgEvent) : gmap Z simBlock :=
  ref_moves (ref_reorg m (ReorgBlock event) i) (MovedLogs event).

(** The chain before the events and the one after each of them. *)
Fixpoint ref_chains (m : gmap Z simBlock) (i : Z) (events : list ReorgEvent) :
    list (gmap Z simBlock) :=
  match events with
  | [] => [m]
  | event :: events => m :: ref_chains (ref_fork m i event) (i + 1) events
  end.
End reference.

(** The transactions of the logs of a chain. *)
Definition block_txs (b : simBlock) : list Hash := log_TxHash <$> sb_logs b.
Definition chain_txs (m : gmap Z simBlock) : list Hash := map_to_list m ≫= λ p, block_txs p.2.

(** The first event's reorg block, which tags the blocks of the first chain. *)
Definition first_reorg (events : list ReorgEvent) : Z :=
  match events with event :: _ => ReorgBlock event | [] => NoReorg end.

(** An event that moves logs only from and to blocks of the part that it forks. *)
Definition moves_high (rb : Z) (movedLogs : list (Z * list MoveLogs)) : bool :=
  forallb (λ '(from, moves), (rb <=? from)%Z && forallb (λ move, (rb <=? NewBlock move)%Z) moves) movedLogs.
Definition event_high (event : ReorgEvent) : bool := moves_high (ReorgBlock event) (MovedLogs event).

(** Whether the moves find what they need: sources and targets that exist, and logs in the
    source when a move takes some away. *)
Definition has_block (m : gmap Z simBlock) (n : Z) : bool := bool_decide (is_Some (m !! n)).
Definition has_logs (m : gmap Z simBlock) (n : Z) : bool :=
  match m !! n with Some b => negb (length (sb_logs b) =? 0)%nat | None => false end.

Fixpoint source_fits (m : gmap Z simBlock) (from : Z) (moves : list MoveLogs) : bool :=
  match moves with
  | [] => true
  | move :: moves => has_block m (NewBlock move) && has_logs m from &&
      source_fits (ref_move from m move) from moves
  end.
Fixpoint moves_fit (m : gmap Z simBlock) (movedLogs : list (Z * list MoveLogs)) : bool :=
  match movedLogs with
  | [] => true
  | (from, moves) :: movedLogs => has_block m from && source_fits m from moves &&
      moves_fit (foldl (ref_move from) m moves) movedLogs
  end.
Definition event_fits `{SimUtil} (m : gmap Z simBlock) (i : Z) (event : ReorgEvent) : bool :=
  moves_fit (ref_reorg m (ReorgBlock event) i) (MovedLogs event).
Fixpoint events_fit `{SimUtil} (m : gmap Z simBlock) (i : Z) (events : list ReorgEvent) : bool :=
  match events with
  | [] => true
  | event :: events => event_fits m i event && events_fit (ref_fork m i event) (i + 1) events
  end.

(** The events of a simulation of logs that can be made. *)
Definition events_ok `{SimUtil} (mapped : gmap Z (list Log)) (events : list ReorgEvent) : bool :=
  forallb event_high events && events_fit (ref_start mapped (first_reorg events)) 0 events.

(** * Lemmas *)

Section chains.
Context `{Gsl} `{SimUtil}.
Implicit Types (hp : blockHeap) (chain : BlockChain).

Lemma chain_ok_inj hp chain n1 n2 ref :
  chain_ok hp chain → chain !! n1 = Some ref → chain !! n2 = Some ref → n1 = n2.
Proof.
  intros Hok H1 H2. destruct (chain_block _ _ Hok _ _ H1) as (b1 & Hb1 & <- & _).
  destruct (chain_block _ _ Hok _ _ H2) as (b2 & Hb2 & <- & _). by simplify_eq.
Qed.

Lemma chain_ok_block hp chain n b :
  chain_ok hp chain → block_of hp chain n = Some b → block_ok n b.
Proof.
  intros Hok (ref & Hr & Hb)%bind_Some. destruct (chain_block _ _ Hok _ _ Hr) as (b' & ? & ?).
  by simplify_eq.
Qed.

Lemma chain_ok_of hp chain n ref :
  chain_ok hp chain → chain !! n = Some ref →
  ∃ b, hp !! ref = Some b ∧ block_of hp chain n = Some b ∧ block_ok n b.
Proof.
  intros Hok Hr. destruct (chain_block _ _ Hok _ _ Hr) as (b & Hb & Hbo).
  exists b. split; [done|]. split; [|done]. unfold block_of. by rewrite Hr.
Qed.

(** A chain on a heap that has grown. *)
Lemma chain_ok_grow hp hp' chain :
  chain_ok hp chain → (∀ r b, hp !! r = Some b → hp' !! r = Some b) →
  chain_ok hp' chain ∧ ∀ n, block_of hp' chain n = block_of hp chain n.
Proof.
  intros Hok Hgrow. split.
  - constructor. intros n ref Hr. destruct (chain_block _ _ Hok _ _ Hr) as (b & Hb & ?).
    exists b. split; [by apply Hgrow|done].
  - intros n. unfold block_of. destruct (chain !! n) as [ref|] eqn:E; simpl; [|done].
    destruct (chain_block _ _ Hok _ _ E) as (b & Hb & _). by rewrite Hb, (Hgrow _ _ Hb).
Qed.

Lemma block_reorg_ok n b i : block_ok n b → block_ok n (block_reorg b i).
Proof.
  intros [Hn Hl]. split; [done|]. intros l (l' & -> & Hin)%list_elem_of_fmap.
  by destruct (Hl l' Hin) as [Hb _].
Qed.

(** ** Making a chain *)

Lemma new_block_ok rb n logs :
  logs ≠ [] → (∀ l, l ∈ logs → log_BlockNumber l = n) →
  (∀ l l', l ∈ logs → l' ∈ logs → log_BlockHash l = log_BlockHash l') →
  new_block rb n logs = Ret (ref_block rb n logs) ∧ block_ok n (ref_block rb n logs).
Proof.
  intros Hne Hnum Hh. unfold new_block. destruct logs as [|l0 rest]; [done|].
  replace (forallb _ rest) with true.
  - split; [done|]. split; [done|]. simpl. intros l Hl.
    split; [by apply Hnum|]. apply Hh; [done|left].
  - symmetry. apply forallb_forall. intros l Hl. apply Z.eqb_eq, Hh; [|left].
    right. by apply list_elem_of_In.
Qed.

(** The state of the loop of newBlockChain after a part of the map. *)
Definition built (rb : Z) (pre : list (Z * list Log)) (hp : blockHeap) (chain : BlockChain) : Prop :=
  chain_ok hp chain ∧
  ∀ n, block_of hp chain n = ref_block rb n <$> (list_to_map pre : gmap Z (list Log)) !! n.

Lemma built_turn rb pre n logs b hp chain :
  NoDup (pre ++ [(n, logs)]).*1 → b = ref_block rb n logs → block_ok n b →
  built rb pre hp chain → built rb (pre ++ [(n, logs)]) (hp ++ [b]) (<[n := length hp]> chain).
Proof.
  intros Hnd Hb Hbo [Hok Hl].
  destruct (chain_ok_grow hp (hp ++ [b]) chain Hok) as [Hok' Hbof];
    [intros; by apply lookup_app_l_Some|].
  assert ((hp ++ [b]) !! length hp = Some b) as Hnew by by apply list_lookup_middle.
  split.
  - constructor. intros k ref [[<- <-]|[Hk Hr]]%lookup_insert_Some; [by exists b|].
    by apply (chain_block _ _ Hok').
  - intros k. destruct (decide (n = k)) as [<-|Hk].
    + unfold block_of. rewrite lookup_insert_eq. simpl. rewrite Hnew.
      rewrite (elem_of_list_to_map_1 _ n logs); [by rewrite Hb|done|].
      apply elem_of_snoc. by right.
    + transitivity (block_of (hp ++ [b]) chain k).
      { unfold block_of. by rewrite lookup_insert_ne. }
      rewrite Hbof, Hl. f_equal. symmetry. rewrite list_to_map_app, lookup_union.
      simpl. rewrite lookup_insert_ne, lookup_empty by done. by destruct (_ !! k).
Qed.

Lemma newBlockChain_ok mapped rb :
  mapped_ok mapped →
  ∃ hp chain, newBlockChain [] mapped rb = Ret (hp, chain) ∧ chain_ok hp chain ∧
    ∀ n, block_of hp chain n = ref_start mapped rb !! n.
Proof.
  intros Hm. unfold newBlockChain.
  match goal with |- context [foldM ?f _ _] => set (body := f) end.
  destruct (foldM_ind (λ pre s, built rb pre s.1 s.2) body (map_to_list mapped) ([], ∅))
    as ([hp chain] & Hrun & Hok & Hl).
  - split; [constructor; simpl; intros n ref Hr; by rewrite lookup_empty in Hr|].
    intros n. unfold block_of. simpl. by rewrite !lookup_empty.
  - intros pre [n logs] post [hp chain] Heq Hb. simpl in *.
    assert (mapped !! n = Some logs) as Hn.
    { apply elem_of_map_to_list. rewrite Heq. set_solver. }
    destruct (Hm n logs Hn) as (Hne & Hnum & Hh).
    destruct (new_block_ok rb n logs Hne Hnum Hh) as [Hnew Hbo].
    unfold body. rewrite Hnew. simpl. eexists. split; [done|]. apply built_turn; [|done..].
    pose proof (NoDup_fst_map_to_list mapped) as Hnd.
    rewrite Heq, (cons_middle (n, logs)), (app_assoc pre), fmap_app in Hnd. by apply NoDup_app in Hnd as (? & _).
  - exists hp, chain. split; [exact Hrun|]. split; [done|]. intros n. rewrite Hl.
    unfold ref_start. rewrite map_lookup_imap, list_to_map_to_list. by destruct (mapped !! n).
Qed.

(** ** Chains as values *)

Lemma pure_lookup hp chain n : pure_chain hp chain !! n = block_of hp chain n.
Proof. unfold pure_chain. by rewrite lookup_omap. Qed.

Lemma pure_insert hp chain n ref b :
  chain_ok hp chain → chain !! n = Some ref →
  pure_chain (<[ref := b]> hp) chain = <[n := b]> (pure_chain hp chain).
Proof.
  intros Hok Hr. destruct (chain_block _ _ Hok _ _ Hr) as (b0 & Hb0 & _).
  apply map_eq. intros k. rewrite pure_lookup. destruct (decide (n = k)) as [<-|Hk].
  - rewrite lookup_insert_eq. unfold block_of. rewrite Hr. simpl.
    apply list_lookup_insert_eq. by eapply lookup_lt_Some.
  - rewrite lookup_insert_ne, pure_lookup by done. unfold block_of.
    destruct (chain !! k) as [r|] eqn:E; [simpl|done].
    apply list_lookup_insert_ne. intros <-. apply Hk. by eapply chain_ok_inj.
Qed.

Lemma chain_ok_insert hp chain n ref b :
  chain_ok hp chain → chain !! n = Some ref → block_ok n b → chain_ok (<[ref := b]> hp) chain.
Proof.
  intros Hok Hr Hb. destruct (chain_block _ _ Hok _ _ Hr) as (b0 & Hb0 & _). constructor.
  intros k r Hk. destruct (decide (ref = r)) as [<-|Hne].
  - exists b. assert (k = n) as -> by by eapply chain_ok_inj. split; [|done].
    apply list_lookup_insert_eq. by eapply lookup_lt_Some.
  - rewrite list_lookup_insert_ne by done. by apply (chain_block _ _ Hok).
Qed.

(** A chain none of whose references is written. *)
Lemma chain_ok_agree hp hp' chain :
  chain_ok hp chain → (∀ n ref, chain !! n = Some ref → hp' !! ref = hp !! ref) →
  chain_ok hp' chain ∧ pure_chain hp' chain = pure_chain hp chain.
Proof.
  intros Hok Hag. split.
  - constructor. intros n ref Hr. rewrite (Hag _ _ Hr). by apply (chain_block _ _ Hok).
  - apply map_eq. intros n. rewrite !pure_lookup. unfold block_of.
    destruct (chain !! n) as [r|] eqn:E; [simpl|done]. by eapply Hag.
Qed.

Lemma ref_remove_ok n b txs : block_ok n b → block_ok n (ref_remove txs b).
Proof.
  intros [Hn Hl]. split; [done|]. simpl. intros l [_ Hin]%list_elem_of_filter. by apply Hl.
Qed.

Lemma ref_add_ok n b logs : block_ok n b → block_ok n (ref_add logs b).
Proof.
  intros [Hn Hl]. split; [done|]. simpl.
  intros l [Hin|(l' & -> & _)%list_elem_of_fmap]%elem_of_app; [by apply Hl|done].
Qed.

(** ** Forking *)

(** The state of the loop of reorg after the numbers [pre]. *)
Record reorged_upto hp chain (rb i : Z) (pre : list Z) (hp1 : blockHeap)
    (chain1 : BlockChain) : Prop := {
  upto_ok : chain_ok hp1 chain1;
  upto_grow r b : hp !! r = Some b → hp1 !! r = Some b;
  upto_length : length hp ≤ length hp1;
  upto_in n : n ∈ pre → (rb ≤ n)%Z → ∃ b ref, chain1 !! n = Some ref ∧ length hp ≤ ref ∧
    block_of hp chain n = Some b ∧ hp1 !! ref = Some (block_reorg b i);
  upto_out n : n ∉ pre ∨ (n < rb)%Z → chain1 !! n = chain !! n;
}.

Lemma reorged_skip hp chain rb i pre n hp1 chain1 :
  (n < rb)%Z → reorged_upto hp chain rb i pre hp1 chain1 →
  reorged_upto hp chain rb i (pre ++ [n]) hp1 chain1.
Proof.
  intros Hlt [Hok Hg Hlen Hin Hout]. constructor; [done..| |].
  - intros k [Hk| ->]%elem_of_snoc Hb; [by apply Hin|lia].
  - intros k Hk. apply Hout. rewrite elem_of_snoc in Hk. naive_solver.
Qed.

Lemma reorged_turn hp chain rb i pre n ref b hp1 chain1 :
  chain !! n = Some ref → hp !! ref = Some b → block_ok n b → (rb ≤ n)%Z →
  reorged_upto hp chain rb i pre hp1 chain1 →
  reorged_upto hp chain rb i (pre ++ [n])
    (hp1 ++ [block_reorg b i]) (<[n := length hp1]> chain1).
Proof.
  intros Hn Hb Hbo Hle [Hok1 Hg Hlen Hin Hout].
  assert ((hp1 ++ [block_reorg b i]) !! length hp1 = Some (block_reorg b i)) as Hnew
    by by apply list_lookup_middle.
  constructor.
  - constructor. intros k r [[<- <-]|[Hk Hr]]%lookup_insert_Some.
    + exists (block_reorg b i). split; [done|]. by apply block_reorg_ok.
    + destruct (chain_block _ _ Hok1 _ _ Hr) as (b' & ? & ?). exists b'.
      split; [by apply lookup_app_l_Some|done].
  - intros r b' Hr. apply lookup_app_l_Some. by apply Hg.
  - rewrite length_app. lia.
  - intros k Hk Hb'. destruct (decide (n = k)) as [<-|Hne].
    + exists b, (length hp1). rewrite lookup_insert_eq. split_and!; [done|done| |done].
      unfold block_of. by rewrite Hn.
    + apply elem_of_snoc in Hk as [Hk|Hk]; [|done].
      destruct (Hin k Hk Hb') as (b1 & r & Hr & ? & ? & ?). exists b1, r.
      rewrite lookup_insert_ne by done. split_and!; [done..|]. by apply lookup_app_l_Some.
  - intros k Hk. rewrite elem_of_snoc in Hk. assert (n ≠ k) by (intros <-; destruct Hk; [naive_solver|lia]).
    rewrite lookup_insert_ne by done. apply Hout. naive_solver.
Qed.

Lemma elem_of_entry_keys chain n : n ∈ (map_to_list chain).*1 ↔ is_Some (chain !! n).
Proof.
  rewrite list_elem_of_fmap. split.
  - intros ([k r] & -> & Hr%elem_of_map_to_list). by exists r.
  - intros [r Hr]. exists (n, r). split; [done|]. by apply elem_of_map_to_list.
Qed.

Lemma reorged_all hp chain rb i hp' chain' :
  chain_ok hp chain → reorged_upto hp chain rb i (map_to_list chain).*1 hp' chain' →
  pure_chain hp' chain' = ref_reorg (pure_chain hp chain) rb i ∧
  ∀ n ref, chain' !! n = Some ref → (rb ≤ n)%Z → length hp ≤ ref.
Proof.
  intros Hok [_ Hg _ Hin Hout].
  assert (∀ n, (rb ≤ n)%Z → chain !! n = None → chain' !! n = None) as Hnone.
  { intros n _ E. rewrite Hout; [done|]. left. rewrite elem_of_entry_keys, E. by intros [? ?]. }
  split.
  - apply map_eq. intros n. rewrite pure_lookup. unfold ref_reorg.
    rewrite map_lookup_imap, pure_lookup. unfold block_of at 1.
    destruct (Z.leb_spec rb n) as [Hle|Hlt].
    + destruct (chain !! n) as [ref|] eqn:E.
      * destruct (Hin n) as (b & r & Hr & _ & Hb & Hbr); [by apply elem_of_entry_keys|done|].
        by rewrite Hr, Hb.
      * rewrite Hnone by done. unfold block_of. by rewrite E.
    + rewrite Hout by by right. unfold block_of.
      destruct (chain !! n) as [ref|] eqn:E; [simpl|done].
      destruct (chain_block _ _ Hok _ _ E) as (b & Hb & _). rewrite Hb. simpl. by apply Hg.
  - intros n ref Hr Hle. destruct (chain !! n) as [r0|] eqn:E; [|by rewrite Hnone in Hr].
    destruct (Hin n) as (b & r & Hr' & ? & _); [by apply elem_of_entry_keys|done|]. by simplify_eq.
Qed.

Lemma chain_reorg_run hp chain rb i :
  chain_ok hp chain →
  ∃ hp' chain', chain_reorg hp chain rb i = Ret (hp', chain') ∧ chain_ok hp' chain' ∧
    pure_chain hp' chain' = ref_reorg (pure_chain hp chain) rb i ∧
    (∀ r b, hp !! r = Some b → hp' !! r = Some b) ∧
    (∀ n ref, chain' !! n = Some ref → (rb ≤ n)%Z → length hp ≤ ref).
Proof.
  intros Hok. unfold chain_reorg.
  match goal with |- context [foldM ?f _ _] => set (body := f) end.
  destruct (foldM_ind (λ pre s, reorged_upto hp chain rb i pre.*1 s.1 s.2)
    body (map_to_list chain) (hp, chain)) as ([hp' chain'] & Hrun & Hall).
  - constructor; [done..| |done]. intros n Hn. by apply not_elem_of_nil in Hn.
  - intros pre [n ref] post [hp1 chain1] Heq Hup. rewrite fmap_app. simpl in *.
    assert (chain !! n = Some ref) as Hn.
    { apply elem_of_map_to_list. rewrite Heq. set_solver. }
    destruct (Z.leb_spec rb n) as [Hle|Hlt]; simpl.
    + destruct (chain_block _ _ Hok _ _ Hn) as (b & Hb & Hbo). unfold block_at.
      rewrite (upto_grow _ _ _ _ _ _ _ Hup _ _ Hb). simpl. eexists. split; [done|].
      by eapply reorged_turn.
    + exists (hp1, chain1). split; [done|]. by apply reorged_skip.
  - exists hp', chain'. split; [exact Hrun|]. simpl in *.
    destruct (reorged_all _ _ _ _ _ _ Hok Hall) as [? ?].
    split_and!; [by apply Hall|done|by apply (upto_grow _ _ _ _ _ _ _ Hall)|done].
Qed.
End chains.
