(* ===== verification/ReorgMoves.v ===== *)
(** Moving logs between the blocks of a forked chain, and NewBlockChain: on events that
    keep to the part of the chain that they fork, the chains in the heap are those of the
    reference, and every chain has the transactions of the first. *)

From S2P Require Import Prelude GoErrors Types Externals ReorgBlocks ReorgChains.

(** Altering a key that is there is inserting the altered value. *)
Lemma alter_Some_insert {A} (f : A → A) (m : gmap Z A) i x :
  m !! i = Some x → alter f i m = <[i := f x]> m.
Proof.
  intros Hi. apply map_eq. intros j. destruct (decide (i = j)) as [<-|?].
  - by rewrite lookup_alter_eq, lookup_insert_eq, Hi.
  - by rewrite lookup_alter_ne, lookup_insert_ne.
Qed.

Section moves.
Context `{Gsl} `{SimUtil}.
Implicit Types (hp : blockHeap) (chain : BlockChain).

Lemma removeLogs_run b txs :
  sb_logs b ≠ [] → removeLogs b txs = Ret (ref_remove txs b).
Proof.
  intros Hne. unfold removeLogs. rewrite decide_False by by destruct (sb_logs b).
  unfold ref_remove. f_equal. f_equal. rewrite gsl_FilterSlice_spec. apply list_filter_iff.
  intros l. rewrite negb_true_iff. apply gsl_Contains_false.
Qed.

Lemma moved_logs_eq (logs : list Log) txs :
  filter (λ log, gsl_Contains txs (log_TxHash log) = true) logs =
  filter (λ l, log_TxHash l ∈ txs) logs.
Proof. apply list_filter_iff. intros l. apply gsl_Contains_spec. Qed.

Lemma block_at_Some hp ref b : hp !! ref = Some b → block_at hp ref = Ret b.
Proof. unfold block_at. by intros ->. Qed.

(** One move, from the block of a number to that of another or to itself. *)
Lemma move_one_run hp chain from ref b move to mtb :
  chain_ok hp chain → chain !! from = Some ref → hp !! ref = Some b → sb_logs b ≠ [] →
  chain !! NewBlock move = Some to →
  ∃ hp' mtb', move_one chain ref move (hp, mtb) = Ret (hp', mtb') ∧ chain_ok hp' chain ∧
    pure_chain hp' chain = ref_move from (pure_chain hp chain) move ∧
    (∀ r, r ≠ ref → r ≠ to → hp' !! r = hp !! r) ∧
    (∀ n, n ∈ mtb' → n ∈ mtb ∨ n = NewBlock move).
Proof.
  intros Hok Hr Hb Hne Ht. unfold move_one. rewrite Ht, (block_at_Some _ _ _ Hb). simpl.
  rewrite (removeLogs_run _ _ Hne). simpl. rewrite moved_logs_eq.
  destruct (chain_ok_of _ _ _ _ Hok Hr) as (b0 & Hb0 & Hpb & Hbo). simplify_eq.
  set (hp1 := <[ref := ref_remove (TxHashes move) b]> hp).
  assert (chain_ok hp1 chain) as Hok1.
  { eapply chain_ok_insert; [done..|]. by apply ref_remove_ok. }
  destruct (chain_ok_of _ _ _ _ Hok1 Ht) as (t & Htb & Hpt & Hto).
  rewrite (block_at_Some _ _ _ Htb). simpl.
  eexists _, _. split; [done|]. split_and!.
  - eapply chain_ok_insert; [done..|]. by apply (ref_add_ok _ _ (filter _ _)).
  - erewrite pure_insert by done. unfold ref_move. rewrite pure_lookup, Hpb.
    assert (pure_chain hp1 chain = alter (ref_remove (TxHashes move)) from (pure_chain hp chain))
      as Hp1.
    { unfold hp1. erewrite pure_insert by done. symmetry. apply alter_Some_insert.
      by rewrite pure_lookup. }
    rewrite <-Hp1. symmetry. apply (alter_Some_insert (ref_add _)). by rewrite pure_lookup.
  - intros r Hr1 Hr2. unfold hp1. by rewrite !list_lookup_insert_ne by done.
  - intros n. destruct (gsl_Contains mtb (NewBlock move)); [by left|]. apply elem_of_snoc.
Qed.

Lemma move_one_panics hp chain from ref move mtb :
  chain_ok hp chain → chain !! from = Some ref →
  has_block (pure_chain hp chain) (NewBlock move) && has_logs (pure_chain hp chain) from = false →
  ∃ msg, move_one chain ref move (hp, mtb) = Panic msg.
Proof.
  intros Hok Hr Hf. unfold move_one. destruct (chain !! NewBlock move) as [to|] eqn:Ht; [|by eexists].
  destruct (chain_ok_of _ _ _ _ Hok Hr) as (b & Hb & Hpb & _).
  destruct (chain_ok_of _ _ _ _ Hok Ht) as (bt & _ & Hpt & _).
  rewrite (block_at_Some _ _ _ Hb). simpl. unfold has_block, has_logs in Hf.
  rewrite !pure_lookup, Hpb, Hpt, bool_decide_true in Hf by by eexists. simpl in Hf.
  apply negb_false_iff, Nat.eqb_eq in Hf. unfold removeLogs. rewrite decide_True by done. by eexists.
Qed.

Lemma block_txs_reorg b i : block_txs (block_reorg b i) = block_txs b.
Proof.
  unfold block_txs. simpl. rewrite <-list_fmap_compose. apply list_fmap_ext. by intros ? [] ?.
Qed.

Lemma block_txs_add logs b : block_txs (ref_add logs b) = block_txs b ++ (log_TxHash <$> logs).
Proof.
  unfold block_txs. simpl. rewrite fmap_app, <-(list_fmap_compose (set_place _ _)).
  done.
Qed.

(** ** The loops of moveLogs *)

(** The blocks that no number from [rb] on refers to are as before. *)
Definition untouched chain (rb : Z) hp hp' : Prop :=
  ∀ r, (∀ n, chain !! n = Some r → (n < rb)%Z) → hp' !! r = hp !! r.

(** What a loop of moves makes of a heap. *)
Record moved chain (rb : Z) hp hp' (m' : gmap Z simBlock) : Prop := {
  moved_ok : chain_ok hp' chain;
  moved_pure : pure_chain hp' chain = m';
  moved_frame : untouched chain rb hp hp';
}.

Lemma moved_step chain rb hp1 hp2 hp3 m2 m3 :
  moved chain rb hp1 hp2 m2 → moved chain rb hp2 hp3 m3 → moved chain rb hp1 hp3 m3.
Proof.
  intros [_ _ Hf] [? ? Hf']. constructor; [done..|]. intros r Hr. rewrite Hf' by done. by apply Hf.
Qed.

Lemma chain_ref hp chain n b :
  pure_chain hp chain !! n = Some b → ∃ ref, chain !! n = Some ref ∧ hp !! ref = Some b.
Proof. rewrite pure_lookup. by intros (ref & ? & ?)%bind_Some; exists ref. Qed.

(** The moves out of one block: they go as on plain maps, or panic. *)
Lemma source_moves_run rb chain from ref moves : chain !! from = Some ref → (rb ≤ from)%Z →
  forallb (λ move, (rb <=? NewBlock move)%Z) moves = true → ∀ hp mtb, chain_ok hp chain →
  if source_fits (pure_chain hp chain) from moves then
    ∃ hp' mtb', foldM (move_one chain ref) moves (hp, mtb) = Ret (hp', mtb') ∧
      moved chain rb hp hp' (foldl (ref_move from) (pure_chain hp chain) moves) ∧
      ∀ n, n ∈ mtb' → n ∈ mtb ∨ is_Some (chain !! n)
  else ∃ msg, foldM (move_one chain ref) moves (hp, mtb) = Panic msg.
Proof.
  intros Hr Hrb. induction moves as [|move moves IH]; intros Hhigh hp mtb Hok;
    cbn [foldM source_fits foldl forallb] in *.
  { exists hp, mtb. split; [done|]. split; [by constructor|]. by left. }
  apply andb_true_iff in Hhigh as [Hge%Z.leb_le Hhigh].
  destruct (has_block _ _ && has_logs _ _) eqn:Ef; cbn [andb].
  2: { destruct (move_one_panics hp chain from ref move mtb Hok Hr Ef) as [msg ->]. by exists msg. }
  apply andb_true_iff in Ef as [[t Ht]%bool_decide_eq_true Hl].
  destruct (chain_ref _ _ _ _ Ht) as (to & Hto & _).
  destruct (chain_ok_of _ _ _ _ Hok Hr) as (b & Hb & Hpb & _). unfold has_logs in Hl.
  rewrite pure_lookup, Hpb in Hl. apply negb_true_iff, Nat.eqb_neq in Hl.
  destruct (move_one_run hp chain from ref b move to mtb) as
    (hp2 & mtb2 & Hrun & Hok2 & Hp2 & Hf2 & Hmt2); [done..|by intros Hn; rewrite Hn in Hl|done|].
  specialize (IH Hhigh hp2 mtb2 Hok2). rewrite Hp2 in IH. rewrite Hrun. simpl.
  destruct (source_fits _ from moves); [|done].
  destruct IH as (hp' & mtb' & -> & Hm & Hmt). exists hp', mtb'. split; [done|]. split.
  - eapply moved_step; [|exact Hm]. constructor; [done..|].
    intros r Hnot. apply Hf2; intros ->; [apply Hnot in Hr|apply Hnot in Hto]; lia.
  - intros n [[Hn| ->]%Hmt2|Hn]%Hmt; [by left|right; by exists to|by right].
Qed.

Lemma moveLogs_run rb chain movedLogs hp :
  moves_high rb movedLogs = true → chain_ok hp chain →
  if moves_fit (pure_chain hp chain) movedLogs then
    ∃ hp' froms tos, moveLogs hp chain movedLogs = Ret (hp', (froms, tos)) ∧
      moved chain rb hp hp' (ref_moves (pure_chain hp chain) movedLogs) ∧
      ∀ n, n ∈ froms ∨ n ∈ tos → is_Some (chain !! n)
  else ∃ msg, moveLogs hp chain movedLogs = Panic msg.
Proof.
  unfold moveLogs. match goal with |- context [foldM ?f _ _] => set (body := f) end.
  enough (∀ hp froms tos, moves_high rb movedLogs = true → chain_ok hp chain →
    (∀ n, n ∈ froms ∨ n ∈ tos → is_Some (chain !! n)) →
    if moves_fit (pure_chain hp chain) movedLogs then
      ∃ hp' froms' tos', foldM body movedLogs (hp, (froms, tos)) = Ret (hp', (froms', tos')) ∧
        moved chain rb hp hp' (ref_moves (pure_chain hp chain) movedLogs) ∧
        ∀ n, n ∈ froms' ∨ n ∈ tos' → is_Some (chain !! n)
    else ∃ msg, foldM body movedLogs (hp, (froms, tos)) = Panic msg) as Hgen
    by (intros; apply Hgen; [done..|set_solver]).
  clear hp. induction movedLogs as [|[from moves] movedLogs IH]; intros hp froms tos Hhigh Hok Hin; simpl.
  { exists hp, froms, tos. by split; [|split; [constructor|]]. }
  simpl in Hhigh. apply andb_true_iff in Hhigh as [[Hge%Z.leb_le Hmoves]%andb_true_iff Hhigh].
  unfold has_block. destruct (chain !! from) as [ref|] eqn:Hr; simpl.
  2: { rewrite bool_decide_false; [by eexists|]. intros [b Hb]. destruct (chain_ref _ _ _ _ Hb) as (ref & ? & _).
       congruence. }
  destruct (chain_ok_of _ _ _ _ Hok Hr) as (b & Hb & Hpb & _).
  rewrite bool_decide_true by (rewrite pure_lookup, Hpb; by eexists). simpl.
  pose proof (source_moves_run rb chain from ref moves Hr Hge Hmoves hp tos Hok) as Hrun.
  destruct (source_fits _ from moves); simpl.
  2: { destruct Hrun as [msg ->]. by exists msg. }
  destruct Hrun as (hp2 & tos2 & -> & Hm2 & Hmt2). simpl.
  specialize (IH hp2 (froms ++ [from]) tos2 Hhigh (moved_ok _ _ _ _ _ Hm2)).
  rewrite (moved_pure _ _ _ _ _ Hm2) in IH. destruct (moves_fit _ movedLogs).
  - destruct IH as (hp' & froms' & tos' & -> & Hm & Hall).
    { intros n [[Hn| ->]%elem_of_snoc|[Hn|Hn]%Hmt2]; [apply Hin; by left|by exists ref|apply Hin; by right|done]. }
    exists hp', froms', tos'. split; [done|]. split; [by eapply moved_step|done].
  - apply IH. intros n [[Hn| ->]%elem_of_snoc|[Hn|Hn]%Hmt2]; [apply Hin; by left|by exists ref|apply Hin; by right|done].
Qed.
End moves.
