(* ===== verification/ReorgForks.v ===== *)
(** NewBlockChain: the chains it makes in the heap are those of the reference, every
    block's logs carry its number and hash, and no chain loses or gains a transaction. *)

From S2P Require Import Prelude GoErrors Types Externals ReorgBlocks ReorgChains ReorgMoves.

(** * Lemmas *)

Section reference.
Context `{Gsl} `{SimUtil}.
Implicit Types (m : gmap Z simBlock).

(** ** Transactions *)

Lemma chain_txs_split m n b :
  m !! n = Some b → chain_txs m ≡ₚ block_txs b ++ chain_txs (delete n m).
Proof. intros Hn. unfold chain_txs. by rewrite <-(map_to_list_delete m n b Hn). Qed.

Lemma chain_txs_alter f m n b :
  m !! n = Some b → chain_txs (alter f n m) ≡ₚ block_txs (f b) ++ chain_txs (delete n m).
Proof.
  intros Hn. rewrite (chain_txs_split _ n (f b)) by by rewrite lookup_alter_eq, Hn.
  by rewrite (alter_Some_insert _ _ _ _ Hn), delete_insert_eq.
Qed.

Lemma chain_txs_reorg m rb i : chain_txs (ref_reorg m rb i) ≡ₚ chain_txs m.
Proof.
  induction m as [|n b m Hn IH] using map_ind.
  - unfold chain_txs, ref_reorg. by rewrite map_imap_empty.
  - unfold ref_reorg. erewrite map_imap_insert_Some by done. fold (ref_reorg m rb i).
    assert (ref_reorg m rb i !! n = None) as Hn'.
    { unfold ref_reorg. by rewrite map_lookup_imap, Hn. }
    unfold chain_txs in *. rewrite !map_to_list_insert by done. simpl. rewrite IH.
    by destruct (_ <=? _)%Z; rewrite ?block_txs_reorg.
Qed.

Lemma chain_txs_move from m move :
  is_Some (m !! NewBlock move) → chain_txs (ref_move from m move) ≡ₚ chain_txs m.
Proof.
  intros [t Ht]. unfold ref_move. destruct (m !! from) as [b|] eqn:Hb; [|done].
  set (m1 := alter (ref_remove (TxHashes move)) from m).
  set (gone := filter (λ l, log_TxHash l ∈ TxHashes move) (sb_logs b)).
  assert (is_Some (m1 !! NewBlock move)) as [t1 Ht1].
  { apply elem_of_dom. unfold m1. rewrite dom_alter_L. by apply elem_of_dom_2 in Ht. }
  rewrite (chain_txs_alter _ _ _ _ Ht1), block_txs_add, <-app_assoc.
  rewrite (Permutation_app_comm (log_TxHash <$> gone)), app_assoc.
  rewrite <-(chain_txs_split _ _ _ Ht1). unfold m1.
  rewrite (chain_txs_alter _ _ _ _ Hb), (chain_txs_split _ _ _ Hb).
  rewrite <-app_assoc, (Permutation_app_comm (chain_txs _)), app_assoc. f_equiv.
  unfold block_txs, gone. simpl. rewrite <-fmap_app, Permutation_app_comm.
  by rewrite filter_app_complement.
Qed.

(** ** Well-formed maps of blocks *)

Definition blocks_ok m : Prop := ∀ n b, m !! n = Some b → block_ok n b.

Lemma blocks_ok_reorg m rb i : blocks_ok m → blocks_ok (ref_reorg m rb i).
Proof.
  intros Hm n b. unfold ref_reorg. rewrite map_lookup_imap.
  intros (b0 & Hb & [= <-])%bind_Some. apply Hm in Hb. case_match; [by apply block_reorg_ok|done].
Qed.

Lemma blocks_ok_alter f m k :
  (∀ b, block_ok k b → block_ok k (f b)) → blocks_ok m → blocks_ok (alter f k m).
Proof. intros Hf Hm n b. rewrite lookup_alter_Some. intros [(<- & b0 & Hb & ->)|[_ Hb]]; auto. Qed.

Lemma blocks_ok_move from m move : blocks_ok m → blocks_ok (ref_move from m move).
Proof.
  intros Hm. unfold ref_move. destruct (m !! from); [|done].
  apply blocks_ok_alter; [intros; by apply ref_add_ok|].
  apply blocks_ok_alter; [intros; by apply ref_remove_ok|done].
Qed.

(** ** What an event does to the reference chain *)

(** Blocks below the reorg block stay, the transactions are the same, the blocks are well
    formed and have the same numbers. *)
Record same_chain (rb : Z) m m' : Prop := {
  same_below n : (n < rb)%Z → m' !! n = m !! n;
  same_txs : chain_txs m' ≡ₚ chain_txs m;
  same_ok : blocks_ok m → blocks_ok m';
  same_dom : dom m' = dom m;
}.

Lemma same_chain_refl rb m : same_chain rb m m.
Proof. by constructor. Qed.

Lemma same_chain_trans rb m1 m2 m3 :
  same_chain rb m1 m2 → same_chain rb m2 m3 → same_chain rb m1 m3.
Proof.
  intros [Hb Ht Ho Hd] [Hb' Ht' Ho' Hd']. constructor; [|by rewrite Ht'|auto|congruence].
  intros n Hn. by rewrite Hb', Hb.
Qed.

Lemma same_chain_reorg rb m i : same_chain rb m (ref_reorg m rb i).
Proof.
  constructor; [|apply chain_txs_reorg|apply blocks_ok_reorg|].
  - intros n Hn. unfold ref_reorg. rewrite map_lookup_imap. rewrite (proj2 (Z.leb_gt _ _)) by lia.
    by destruct (m !! n).
  - apply set_eq. intros n. rewrite !elem_of_dom. unfold ref_reorg. rewrite map_lookup_imap.
    destruct (m !! n); simpl; [done|]. by split; intros [? ?].
Qed.

Lemma same_chain_move rb from m move :
  (rb ≤ from)%Z → (rb ≤ NewBlock move)%Z → is_Some (m !! NewBlock move) →
  same_chain rb m (ref_move from m move).
Proof.
  intros Hf Ht Hs. constructor; [|by apply chain_txs_move|apply blocks_ok_move|].
  - intros n Hn. unfold ref_move. destruct (m !! from); [|done].
    by rewrite !lookup_alter_ne by lia.
  - unfold ref_move. destruct (m !! from); [|done]. by rewrite !dom_alter_L.
Qed.

Lemma same_chain_source rb from moves : (rb ≤ from)%Z →
  forallb (λ move, (rb <=? NewBlock move)%Z) moves = true → ∀ m, source_fits m from moves = true →
  same_chain rb m (foldl (ref_move from) m moves).
Proof.
  intros Hrb. induction moves as [|move moves IH]; intros Hhigh m Hfit; simpl in *; [apply same_chain_refl|].
  apply andb_true_iff in Hhigh as [Hge%Z.leb_le Hhigh].
  apply andb_true_iff in Hfit as [[Hb%bool_decide_eq_true _]%andb_true_iff Hfit].
  apply (same_chain_trans _ _ (ref_move from m move)); [by apply same_chain_move|by apply IH].
Qed.

(** An event that fits keeps what it must. *)
Lemma ref_fork_same m i event :
  event_high event = true → event_fits m i event = true →
  same_chain (ReorgBlock event) m (ref_fork m i event).
Proof.
  unfold event_fits, event_high, ref_fork, ref_moves. intros Hhigh Hfit.
  eapply same_chain_trans; [apply (same_chain_reorg _ _ i)|]. revert Hhigh Hfit.
  generalize (ref_reorg m (ReorgBlock event) i). generalize (MovedLogs event) as movedLogs.
  induction movedLogs as [|[from moves] movedLogs IH]; intros m' Hhigh Hfit; simpl in *; [apply same_chain_refl|].
  apply andb_true_iff in Hhigh as [[Hge%Z.leb_le Hmoves]%andb_true_iff Hhigh].
  apply andb_true_iff in Hfit as [[_ Hs]%andb_true_iff Hfit].
  apply (same_chain_trans _ _ (foldl (ref_move from) m' moves)); [by apply same_chain_source|by apply IH].
Qed.

(** ** The chains in the heap *)

Implicit Types (hp : blockHeap) (chain : BlockChain).

Lemma chain_dom hp chain n :
  chain_ok hp chain → is_Some (chain !! n) ↔ is_Some (pure_chain hp chain !! n).
Proof.
  intros Hok. rewrite pure_lookup. unfold block_of. split.
  - intros [r Hr]. destruct (chain_block _ _ Hok _ _ Hr) as (b & Hb & _). exists b. by rewrite Hr.
  - intros [b (r & ? & _)%bind_Some]. by exists r.
Qed.

(** The loops that make missing blocks find none: moveLogs has panicked on them before. *)
Lemma fill_from_same prev event froms hp chain :
  (∀ n, n ∈ froms → is_Some (prev !! n) ∧ is_Some (chain !! n)) →
  fill_from prev event froms (hp, chain) = Ret (hp, chain).
Proof.
  unfold fill_from. induction froms as [|n froms IH]; intros Hin; simpl; [done|].
  destruct (Hin n) as [[? ->] [? ->]]; [left|]. simpl. apply IH. intros. apply Hin. by right.
Qed.

Lemma fill_to_same forked event tos hp chain :
  (∀ n, n ∈ tos → is_Some (forked !! n) ∧ is_Some (chain !! n)) →
  fill_to forked event tos (hp, chain) = Ret (hp, chain).
Proof.
  unfold fill_to. induction tos as [|n tos IH]; intros Hin; simpl; [done|].
  destruct (Hin n) as [[? ->] [? ->]]; [left|]. simpl. apply IH. intros. apply Hin. by right.
Qed.

Lemma chain_ok_grown hp hp' chain :
  chain_ok hp chain → (∀ r b, hp !! r = Some b → hp' !! r = Some b) →
  chain_ok hp' chain ∧ pure_chain hp' chain = pure_chain hp chain.
Proof.
  intros Hok Hg. apply chain_ok_agree; [done|]. intros n ref Hr.
  destruct (chain_block _ _ Hok _ _ Hr) as (b & Hb & _). rewrite Hb. by apply Hg.
Qed.

Lemma fork_event_run hp prev i event :
  chain_ok hp prev → event_high event = true →
  if event_fits (pure_chain hp prev) i event then
    ∃ hp' chain, fork_event hp prev i event = Ret (hp', (prev, chain)) ∧ chain_ok hp' chain ∧
      pure_chain hp' chain = ref_fork (pure_chain hp prev) i event ∧
      (∀ r b, hp !! r = Some b → hp' !! r = Some b)
  else ∃ msg, fork_event hp prev i event = Panic msg.
Proof.
  intros Hok Hhigh. unfold fork_event, event_fits.
  destruct (chain_reorg_run hp prev (ReorgBlock event) i Hok)
    as (hp1 & chain & -> & Hok1 & Hp1 & Hg1 & Hfresh). simpl.
  pose proof (moveLogs_run (ReorgBlock event) chain (MovedLogs event) hp1 Hhigh Hok1) as Hrun. rewrite Hp1 in Hrun.
  destruct (moves_fit _ _); [|by destruct Hrun as [msg ->]; exists msg].
  destruct Hrun as (hp2 & froms & tos & -> & [Hok2 Hp2 Hf] & Hin).
  assert (∀ n, is_Some (chain !! n) → is_Some (prev !! n)) as Hdom.
  { intros n. rewrite (chain_dom hp1), Hp1, (chain_dom hp) by done. rewrite <-!elem_of_dom.
    by rewrite (same_dom _ _ _ (same_chain_reorg (ReorgBlock event) (pure_chain hp prev) i)). }
  simpl. rewrite fill_from_same by (intros; split; [apply Hdom|]; apply Hin; by left). simpl.
  rewrite fill_to_same by (intros; split; [|apply Hdom]; apply Hin; by right). simpl.
  exists hp2, chain. split_and!; [done..|].
  intros r b Hr. rewrite Hf; [by apply Hg1|]. intros n Hn.
  destruct (Z.lt_ge_cases n (ReorgBlock event)) as [|Hge]; [done|].
  pose proof (Hfresh n r Hn Hge). apply lookup_lt_Some in Hr. lia.
Qed.

Lemma fork_events_run events : forallb event_high events = true → ∀ hp chains prev i,
  chain_ok hp prev →
  if events_fit (pure_chain hp prev) i events then
    ∃ hp' l, fork_events hp chains prev i events = Ret (hp', chains ++ l) ∧
      Forall (chain_ok hp') l ∧
      pure_chain hp' <$> l = ref_chains (pure_chain hp prev) i events ∧
      (∀ r b, hp !! r = Some b → hp' !! r = Some b)
  else ∃ msg, fork_events hp chains prev i events = Panic msg.
Proof.
  induction events as [|event events IH]; intros Hhigh hp chains prev i Hok; simpl.
  { exists hp, [prev]. split_and!; [done| |done..]. by constructor. }
  simpl in Hhigh. apply andb_true_iff in Hhigh as [Hh Hhigh].
  pose proof (fork_event_run hp prev i event Hok Hh) as Hrun.
  destruct (event_fits _ _ _); simpl; [|by destruct Hrun as [msg ->]; exists msg].
  destruct Hrun as (hp1 & chain & -> & Hok1 & Hp1 & Hg1). simpl.
  specialize (IH Hhigh hp1 (chains ++ [prev]) chain (i + 1)%Z Hok1). rewrite Hp1 in IH.
  destruct (events_fit _ _ events); [|done].
  destruct IH as (hp2 & l & -> & Hl & Hp2 & Hg2).
  exists hp2, (prev :: l). rewrite <-app_assoc. split; [done|].
  destruct (chain_ok_grown hp hp2 prev Hok) as [Hok2 Hp]; [auto|].
  split_and!; [by constructor| |auto]. rewrite fmap_cons, Hp. by rewrite Hp2.
Qed.

Lemma NewBlockChain_runs mapped events :
  mapped_ok mapped → forallb event_high events = true →
  if events_fit (ref_start mapped (first_reorg events)) 0 events then
    ∃ hp chain rs, NewBlockChain mapped events = Ret (hp, (chain, rs)) ∧
      Forall (chain_ok hp) (chain :: rs) ∧
      pure_chain hp <$> chain :: rs = ref_chains (ref_start mapped (first_reorg events)) 0 events
  else ∃ msg, NewBlockChain mapped events = Panic msg.
Proof.
  intros Hm Hhigh. unfold NewBlockChain, first_reorg.
  destruct events as [|event events].
  - destruct (newBlockChain_ok mapped NoReorg Hm) as (hp & chain & -> & Hok & Hb). simpl.
    exists hp, chain, []. split_and!; [done|by constructor|]. simpl. f_equal.
    apply map_eq. intros n. by rewrite pure_lookup.
  - destruct (newBlockChain_ok mapped (ReorgBlock event) Hm) as (hp & chain & -> & Hok & Hb).
    assert (pure_chain hp chain = ref_start mapped (ReorgBlock event)) as Hp.
    { apply map_eq. intros n. by rewrite pure_lookup. }
    pose proof (fork_events_run (event :: events) Hhigh hp [] chain 0 Hok) as Hrun. rewrite Hp in Hrun.
    destruct (events_fit _ _ _); [|destruct Hrun as [msg Hrun]; exists msg; by rewrite bind_Ret, Hrun].
    destruct Hrun as (hp' & l & Hrun & Hl & Hpl & _).
    rewrite bind_Ret, Hrun, bind_Ret.
    destruct l as [|c rs]; [by simpl in Hpl|]. simpl. by exists hp', c, rs.
Qed.

Lemma NewBlockChain_run mapped events :
  mapped_ok mapped → events_ok mapped events = true →
  ∃ hp chain rs, NewBlockChain mapped events = Ret (hp, (chain, rs)) ∧
    Forall (chain_ok hp) (chain :: rs) ∧
    pure_chain hp <$> chain :: rs = ref_chains (ref_start mapped (first_reorg events)) 0 events.
Proof.
  intros Hm [Hhigh Hfit]%andb_true_iff. pose proof (NewBlockChain_runs mapped events Hm Hhigh) as Hrun.
  by rewrite Hfit in Hrun.
Qed.

(** ** All chains of the reference *)

Lemma ref_chains_same events : forallb event_high events = true → ∀ m i,
  events_fit m i events = true → blocks_ok m →
  length (ref_chains m i events) = S (length events) ∧
  Forall (λ m', blocks_ok m' ∧ chain_txs m' ≡ₚ chain_txs m ∧ dom m' = dom m) (ref_chains m i events).
Proof.
  induction events as [|event events IH]; intros Hhigh m i Hfit Hok; simpl.
  { split; [done|]. by apply Forall_singleton. }
  simpl in Hhigh, Hfit. apply andb_true_iff in Hhigh as [Hh Hhigh]. apply andb_true_iff in Hfit as [Hf Hfit].
  destruct (ref_fork_same m i event Hh Hf) as [_ Ht Ho Hd].
  destruct (IH Hhigh (ref_fork m i event) (i + 1)%Z Hfit) as [Hlen Hall]; [auto|].
  split; [by rewrite Hlen|]. constructor; [done|].
  eapply Forall_impl; [done|]. intros m' (? & Ht' & ?). split_and!; [done|by rewrite Ht'|congruence].
Qed.

Lemma ref_start_ok mapped rb : mapped_ok mapped → blocks_ok (ref_start mapped rb).
Proof.
  intros Hm n b. unfold ref_start. rewrite map_lookup_imap.
  intros (logs & Hl & [= <-])%bind_Some. destruct (Hm _ _ Hl) as (? & ? & ?).
  by apply (new_block_ok rb n logs).
Qed.
End reference.
