(* ===== verification/ReorgProps.v ===== *)
(** The theorems on NewBlockChain. *)

From S2P Require Import Prelude GoErrors Types Externals ReorgBlocks ReorgChains ReorgMoves.
From S2P Require Import ReorgForks.

(** * Lemmas *)

Section forks.
Context `{Gsl} `{SimUtil}.
Implicit Types (m : gmap Z simBlock).

Lemma alter_hash f m k n :
  (∀ b, sb_hash (f b) = sb_hash b) → sb_hash <$> (alter f k m !! n) = sb_hash <$> (m !! n).
Proof.
  intros Hf. rewrite lookup_alter. case_decide; [subst|done]. destruct (m !! n); simpl; by rewrite ?Hf.
Qed.

Lemma ref_move_hash from m move n : sb_hash <$> (ref_move from m move !! n) = sb_hash <$> (m !! n).
Proof. unfold ref_move. destruct (m !! from); [|done]. by rewrite !alter_hash. Qed.

Lemma ref_moves_hash m moved n : sb_hash <$> (ref_moves m moved !! n) = sb_hash <$> (m !! n).
Proof.
  unfold ref_moves. revert m. induction moved as [|[from moves] moved IH]; intros m; simpl; [done|].
  rewrite IH. clear IH. revert m. induction moves as [|move moves IH]; intros m; simpl; [done|].
  by rewrite IH, ref_move_hash.
Qed.

(** A reorged block has the hash of its number and of the event. *)
Lemma ref_fork_hash m i event n :
  blocks_ok m → (ReorgBlock event ≤ n)%Z →
  sb_hash <$> (ref_fork m i event !! n) = (λ _, ReorgHash n i) <$> (m !! n).
Proof.
  intros Hok Hn. unfold ref_fork. rewrite ref_moves_hash. unfold ref_reorg.
  rewrite map_lookup_imap, (proj2 (Z.leb_le _ _)) by done.
  destruct (m !! n) as [b|] eqn:E; [simpl|done]. by destruct (Hok _ _ E) as [<- _].
Qed.

Lemma ref_chains_head m i events : ref_chains m i events !! 0 = Some m.
Proof. by destruct events. Qed.

Lemma ref_chains_step events : forallb event_high events = true → ∀ m i k event m1 m2,
  events_fit m i events = true → blocks_ok m →
  events !! k = Some event → ref_chains m i events !! k = Some m1 →
  ref_chains m i events !! S k = Some m2 →
  m2 = ref_fork m1 (i + Z.of_nat k) event ∧ same_chain (ReorgBlock event) m1 m2 ∧ blocks_ok m1.
Proof.
  induction events as [|e events IH]; intros Hhigh m i k event m1 m2 Hfit Hok He H1 H2; [done|].
  simpl in Hhigh, Hfit. apply andb_true_iff in Hhigh as [Hh Hhigh]. apply andb_true_iff in Hfit as [Hf Hfit].
  pose proof (ref_fork_same m i e Hh Hf) as Hs. destruct k as [|k].
  - simpl in He, H1, H2. rewrite ref_chains_head in H2. simplify_eq. by rewrite Z.add_0_r.
  - destruct (IH Hhigh (ref_fork m i e) (i + 1)%Z k event m1 m2) as (-> & ? & ?); [done|by apply Hs|done..|].
    split; [f_equal; lia|done].
Qed.
End forks.

(** * Properties *)

Section properties.
Context `{Gsl} `{SimUtil}.

(** C15: NewBlockChain is equivalent to its reference on values.  On logs grouped by block
    and events whose moves keep to the part of the chain that they fork, it returns exactly
    when on plain maps every source and every target of a move exists and the source has
    logs at that time, and panics otherwise; and when it returns, the chains that it builds
    in the shared heap are, block by block, those that forking and moving make on plain
    maps: nothing that one event writes shows in an older chain. *)
Theorem NewBlockChain_matches_reference mapped events :
  mapped_ok mapped → forallb event_high events = true →
  if events_fit (ref_start mapped (first_reorg events)) 0 events then
    ∃ hp chain rs, NewBlockChain mapped events = Ret (hp, (chain, rs)) ∧
      pure_chain hp <$> chain :: rs = ref_chains (ref_start mapped (first_reorg events)) 0 events
  else ∃ msg, NewBlockChain mapped events = Panic msg.
Proof.
  intros Hm Hhigh. pose proof (NewBlockChain_runs mapped events Hm Hhigh) as Hrun.
  destruct (events_fit _ _ _); [|done]. destruct Hrun as (hp & chain & rs & Hrun & _ & Href).
  by exists hp, chain, rs.
Qed.

End properties.
