(* ===== verification/ReorgSim.v ===== *)
(** pkg/reorgsim, reorgsim.go, reorgsim_reorg.go, reorgsim_ethclient_impl.go and utils.go:
    the simulated client, which serves one of several chains and forks to the next one when
    the block that triggers a reorg has been queried twice. *)

From S2P Require Import Prelude GoErrors Types Externals EthClient Batch ReorgBlocks.

(** * Definitions *)

(** Param, without its debug flag. *)
Record Param : Set := mkSimParam {
  p_StartBlock : Z;
  p_BlockProgress : Z;
  p_ExitBlock : Z;
}.
Definition DefaultParam : Param := mkSimParam 0 20 0.

(** ReorgSim; the heap holds the blocks of its chains.  The lock makes FilterLogs and
    BlockNumber atomic. *)
Record ReorgSim : Type := mkReorgSim {
  sim_heap : blockHeap;
  sim_param : Param;
  sim_events : list ReorgEvent;
  currentReorgEvent : Z;
  triggered : Z;
  forked : Z;
  currentChain : BlockChain;
  reorgedChains : list BlockChain;
  currentBlock : Z;
}.

Definition set_currentBlock (r : ReorgSim) (n : Z) : ReorgSim :=
  mkReorgSim (sim_heap r) (sim_param r) (sim_events r) (currentReorgEvent r) (triggered r)
    (forked r) (currentChain r) (reorgedChains r) n.
Definition set_triggered (r : ReorgSim) (i : Z) : ReorgSim :=
  mkReorgSim (sim_heap r) (sim_param r) (sim_events r) (currentReorgEvent r) i
    (forked r) (currentChain r) (reorgedChains r) (currentBlock r).

(** What a chain holds at a number: Go's two-valued map access. *)
Definition chain_block_at (hp : blockHeap) (chain : BlockChain) (n : Z) : outcome (option simBlock) :=
  match chain !! n with
  | Some ref => b ← block_at hp ref; Ret (Some b)
  | None => Ret None
  end.

Section reorgsim.
Context `{Gsl} `{SimUtil}.

(** NewReorgSim returns the simulator or an error. *)
Definition NewReorgSim (hp : blockHeap) (param : Param) (events : list ReorgEvent)
    (chain : BlockChain) (reorgedChains : list BlockChain) : ReorgSim + error :=
  match validateReorgEvent events with
  | inr err => inr (EWrap err "invalid events")
  | inl validatedEvents =>
      inl (mkReorgSim hp param validatedEvents 0 (-1) (-1) chain reorgedChains 0)
  end.

Definition NewReorgSimFromLogs (param : Param) (events : list ReorgEvent)
    (logs : gmap Z (list Log)) : outcome (ReorgSim + error) :=
  '(hp, (chain, reorgedChains)) ← NewBlockChain logs events;
  Ret (NewReorgSim hp param events chain reorgedChains).

(** ** Forking (reorgsim_reorg.go) *)

Definition forkChain (r : ReorgSim) : outcome ReorgSim :=
  event ← index_at (sim_events r) (currentReorgEvent r);
  chain ← index_at (reorgedChains r) (currentReorgEvent r);
  Ret (mkReorgSim (sim_heap r) (sim_param r) (sim_events r) (currentReorgEvent r + 1)
    (triggered r) (triggered r) chain (reorgedChains r) (ReorgBlock event)).

Definition triggerForkChain (r : ReorgSim) (rangeStart rangeEnd : Z) : outcome ReorgSim :=
  let l := Z.of_nat (length (sim_events r)) in
  if (l =? 0)%Z || (l <=? currentReorgEvent r)%Z then Ret r
  else
    event ← index_at (sim_events r) (currentReorgEvent r);
    if (rangeStart <=? ReorgTrigger event)%Z && (ReorgTrigger event <=? rangeEnd)%Z then
      if (triggered r <? currentReorgEvent r)%Z then
        Ret (set_triggered r (currentReorgEvent r))
      else if (forked r <? triggered r)%Z && (forked r <? currentReorgEvent r)%Z then
        forkChain r
      else Ret r
    else Ret r.

(** ** The client (reorgsim_ethclient_impl.go, utils.go) *)

(** The conditions of appendFilterLogs for one log, or the panic of an empty slice. *)
Definition keeps_log (addresses : goslice Address) (topics : goslice (list Hash)) (log : Log) :
    outcome bool :=
  match addresses, topics with
  | None, None => Ret true
  | None, Some _ => Ret false
  | Some addrs, None => Ret (gsl_Contains addrs (log_Address log))
  | Some addrs, Some ts =>
      match ts, log_Topics log with
      | t0 :: _, lt0 :: _ =>
          Ret (gsl_Contains t0 lt0 || gsl_Contains addrs (log_Address log))
      | _, _ => Panic "index out of range"
      end
  end.

Definition appendFilterLogs (src dst : list Log) (addresses : goslice Address)
    (topics : goslice (list Hash)) : outcome (list Log) :=
  foldM (λ log dst, keep ← keeps_log addresses topics log;
    Ret (if keep : bool then dst ++ [log] else dst)) src dst.

Definition sim_FilterLogs (r : ReorgSim) (query : FilterQuery) :
    outcome (ReorgSim * (list Log * option error)) :=
  match q_FromBlock query, q_ToBlock query with
  | None, _ => Ret (r, ([], new_error "nil query.FromBlock"))
  | Some _, None => Ret (r, ([], new_error "nil query.ToBlock"))
  | Some fromBlock, Some toBlock =>
      let from := big_Uint64 fromBlock in
      let to := big_Uint64 toBlock in
      let to := if (to <? from)%Z then from else to in
      r ← triggerForkChain r from to;
      res ← for_up (R := False) (range_fuel from to) from to (λ number logs,
        b ← chain_block_at (sim_heap r) (currentChain r) number;
        match b with
        | None => Ret (inl logs)
        | Some b =>
            if decide (length (sb_logs b) = 0)%nat then Ret (inl logs)
            else logs ← appendFilterLogs (sb_logs b) logs (q_Addresses query) (q_Topics query);
                 Ret (inl logs)
        end) [];
      match res with
      | inl logs => Ret (r, (logs, None))
      | inr v => match v : False with end
      end
  end.

Definition sim_BlockNumber (r : ReorgSim) : outcome (ReorgSim * (Z * option error)) :=
  if (currentBlock r =? 0)%Z then
    let r := set_currentBlock r (p_StartBlock (sim_param r)) in
    Ret (r, (currentBlock r, None))
  else if (p_ExitBlock (sim_param r) <=? currentBlock r)%Z then
    Ret (r, (currentBlock r, wrap_sentinel ErrExitBlockReached
      ("exit block " +:+ pretty (p_ExitBlock (sim_param r)) +:+ " reached")))
  else
    Ret (set_currentBlock r (currentBlock r +₆₄ p_BlockProgress (sim_param r)),
         (currentBlock r, None)).

(** The block made up for a number that the chain does not have: its hash changes with the
    events from the reorg block of [event] on. *)
Definition missing_block (event : ReorgEvent) (reorgIndex number : Z) : simBlock :=
  let toBeForked := (ReorgBlock event <=? number)%Z in
  mkSim number (if toBeForked then ReorgHash number reorgIndex else PRandomHash number) []
    (number =? ReorgBlock event)%Z toBeForked.

Definition sim_HeaderByNumber (r : ReorgSim) (number : Z) :
    outcome (ReorgSim * (option BlockHeader * option error)) :=
  let blockNumber := big_Uint64 number in
  b ← chain_block_at (sim_heap r) (currentChain r) blockNumber;
  match b with
  | Some b => Ret (r, (Some (sim_header b), None))
  | None =>
      event ← index_at (sim_events r) (currentReorgEvent r);
      Ret (r, (Some (sim_header (missing_block event (currentReorgEvent r) blockNumber)), None))
  end.

(** The block that BatchCallContext puts into an element. *)
Definition batch_block (r : ReorgSim) (number : Z) : outcome simBlock :=
  b ← chain_block_at (sim_heap r) (currentChain r) number;
  match b with
  | Some b => Ret b
  | None =>
      let lenEvents := Z.of_nat (length (sim_events r)) in
      let eventIndex := if (lenEvents <=? currentReorgEvent r)%Z then (lenEvents - 1)%Z
                        else currentReorgEvent r in
      event ← index_at (sim_events r) eventIndex;
      Ret (missing_block event (currentReorgEvent r) number)
  end.

(** elem.Args[0].(string). *)
Definition first_string (args : list RpcArg) : outcome string :=
  match args with
  | ArgString s :: _ => Ret s
  | ArgBool _ :: _ => Panic "interface conversion"
  | [] => Panic "index out of range"
  end.

Definition set_Result (elem : BatchElem) (res : RpcResult) : BatchElem :=
  mkElem (Method elem) (Args elem) res (ElemError elem).

Context `{EthUtil}.

Definition sim_BatchCallContext (r : ReorgSim) (elems : list BatchElem) :
    outcome (ReorgSim * (list BatchElem * option error)) :=
  res ← for_each (imap pair elems) (λ '(i, elem) elems,
    if negb (bool_decide (Method elem = MethodGetBlockByNumber)) then Ret (inl elems)
    else
      s ← first_string (Args elem);
      match DecodeBig s with
      | None => Ret (inr (elems, errors_Wrap (new_error "invalid hex string")
          ("elems[" +:+ pretty i +:+ "] has invalid argument for method "
           +:+ MethodGetBlockByNumber)))
      | Some bn =>
          b ← batch_block r (big_Uint64 bn);
          Ret (inl (<[i := set_Result elem (ResBlockHeader (sim_header b))]> elems))
      end) elems;
  match res with
  | inl elems => Ret (r, (elems, None))
  | inr (elems, err) => Ret (r, (elems, err))
  end.

#[export] Instance Sim_EthClient : EthClient ReorgSim := {|
  BlockNumber := sim_BlockNumber;
  FilterLogs := sim_FilterLogs;
  HeaderByNumber := sim_HeaderByNumber;
  BatchCallContext := sim_BatchCallContext;
  client_TypeOf := "*reorgsim.ReorgSim";
|}.
End reorgsim.
