(* ===== verification/ReorgSimStates.v ===== *)
(** The states of the simulator: after p triggering queries it serves chain p / 2.  The
    calls of the client as functions of that count, and how many block numbers it gives. *)

From S2P Require Import Prelude GoErrors Types Externals EthClient Batch ReorgBlocks ReorgChains.
From S2P Require Import ReorgForks ReorgSim.

#[local] Arguments Nat.div : simpl never.
#[local] Arguments Nat.mul : simpl never.

(** * Definitions *)

(** Conversion of a number that fits. *)
Lemma big_Uint64_small n : (0 ≤ n < two64)%Z → big_Uint64 n = n.
Proof. intros. unfold big_Uint64. rewrite Z.abs_eq by lia. by apply wrap64_small. Qed.

Section states.
Context `{Gsl} `{SimUtil}.
Context (hp : blockHeap) (param : Param) (events : list ReorgEvent).
Context (chain : BlockChain) (rs : list BlockChain).

(** The chain that is served after [k] forks. *)
Definition chain_no (k : nat) : BlockChain := default ∅ ((chain :: rs) !! k).

(** The simulator after [p] triggering queries: each event needs two. *)
Definition sim_state (p : nat) (block : Z) : ReorgSim :=
  mkReorgSim hp param events (Z.of_nat (p / 2)) (Z.of_nat (S p / 2) - 1) (Z.of_nat (p / 2) - 1)
    (chain_no (p / 2)) rs block.

(** Whether a query of the range triggers. *)
Definition triggers (p : nat) (from to : Z) : bool :=
  match events !! (p / 2) with
  | Some event => (from <=? ReorgTrigger event)%Z && (ReorgTrigger event <=? to)%Z
  | None => false
  end.

(** The next count, and the block number that a fork sets. *)
Definition next_count (p : nat) (from to : Z) : nat := if triggers p from to then S p else p.
Definition next_block (p : nat) (from to block : Z) : Z :=
  if triggers p from to && Nat.odd p
  then from_option ReorgBlock 0%Z (events !! (p / 2)) else block.

(** The logs of a chain that a query keeps. *)
Definition kept_log (addresses : goslice Address) (topics : goslice (list Hash)) (log : Log) : bool :=
  match keeps_log addresses topics log with Ret b => b | _ => false end.
Definition logs_between (c : BlockChain) (addresses : goslice Address)
    (topics : goslice (list Hash)) (from to : Z) : list Log :=
  block_range from to ≫= λ n,
    filter (λ l, kept_log addresses topics l = true) (from_option sb_logs [] (block_of hp c n)).

(** A query over uint64 numbers that no log of the chains makes panic. *)
Record query_fits (q : FilterQuery) (from to : Z) : Prop := {
  fits_from : q_FromBlock q = Some from;
  fits_to : q_ToBlock q = Some to;
  fits_range : (0 ≤ from ≤ to ∧ to < two64 - 1)%Z;
  fits_logs k n b l : block_of hp (chain_no k) n = Some b → l ∈ sb_logs b →
    returns (keeps_log (q_Addresses q) (q_Topics q) l);
}.

(** The header that a batch call gives for a number, when there is an event: that of the
    chain's block, or of one made up. *)
Definition served_block (k : nat) (n : Z) : simBlock :=
  match block_of hp (chain_no k) n with
  | Some b => b
  | None =>
      missing_block (default (mkEvent 0 0 []) (events !! Nat.min k (length events - 1)))
        (Z.of_nat k) n
  end.
Definition served_header (k : nat) (n : Z) : BlockHeader := sim_header (served_block k n).

(** ** Calls in sequence *)

Inductive simCall : Type :=
  | CallBlockNumber
  | CallFilterLogs (q : FilterQuery)
  | CallHeaderByNumber (n : Z)
  | CallBatchCallContext (elems : list BatchElem).

Context `{EthUtil}.

(** The state after a call, and 1 for a block number without an error. *)
Definition sim_call (r : ReorgSim) (call : simCall) : outcome (ReorgSim * nat) :=
  match call with
  | CallBlockNumber => '(r, (_, err)) ← sim_BlockNumber r;
      Ret (r, match err : option error with None => 1 | Some _ => 0 end)
  | CallFilterLogs q => '(r, _) ← sim_FilterLogs r q; Ret (r, 0)
  | CallHeaderByNumber n => '(r, _) ← sim_HeaderByNumber r n; Ret (r, 0)
  | CallBatchCallContext elems => '(r, _) ← sim_BatchCallContext r elems; Ret (r, 0)
  end.

Fixpoint sim_calls (r : ReorgSim) (calls : list simCall) : outcome (ReorgSim * nat) :=
  match calls with
  | [] => Ret (r, 0)
  | call :: calls =>
      '(r, k) ← sim_call r call; '(r, k') ← sim_calls r calls; Ret (r, k + k')
  end.

(** * Lemmas *)

Lemma half_even k : (2 * k) / 2 = k.
Proof. rewrite Nat.mul_comm. by apply Nat.div_mul. Qed.
Lemma half_odd k : S (2 * k) / 2 = k.
Proof. symmetry. apply (Nat.div_unique _ _ _ 1); lia. Qed.
Lemma half_next k : S (S (2 * k)) / 2 = S k.
Proof. replace (S (S (2 * k))) with (2 * S k) by lia. apply half_even. Qed.
Lemma half_cases p : (p = 2 * (p / 2) ∧ Nat.odd p = false) ∨ (p = S (2 * (p / 2)) ∧ Nat.odd p = true).
Proof.
  destruct (Nat.Even_or_Odd p) as [[k ->]|[k ->]].
  - left. rewrite half_even. split; [done|]. by rewrite Nat.odd_mul.
  - right. rewrite Nat.add_1_r, half_odd. split; [done|].
    by rewrite Nat.odd_succ, Nat.even_mul.
Qed.

Context (Hlen : length rs = length events) (Hchains : Forall (chain_ok hp) (chain :: rs)).

Lemma chain_no_next k event :
  events !! k = Some event → rs !! k = Some (chain_no (S k)).
Proof.
  intros He. apply lookup_lt_Some in He. rewrite <-Hlen in He.
  apply lookup_lt_is_Some in He as [c Hc]. unfold chain_no. simpl. by rewrite Hc.
Qed.

Lemma trigger_state p block from to :
  triggerForkChain (sim_state p block) from to =
    Ret (sim_state (next_count p from to) (next_block p from to block)).
Proof.
  unfold triggerForkChain, next_count, next_block, triggers. cbn [sim_events currentReorgEvent sim_state].
  destruct (events !! (p / 2)) as [event|] eqn:E; simpl; cycle 1.
  { apply lookup_ge_None in E. destruct (Z.leb_spec (Z.of_nat (length events)) (Z.of_nat (p / 2)));
      [|lia]. by rewrite orb_true_r. }
  pose proof (lookup_lt_Some _ _ _ E) as Hlt.
  destruct (Z.eqb_spec (Z.of_nat (length events)) 0); [lia|].
  destruct (Z.leb_spec (Z.of_nat (length events)) (Z.of_nat (p / 2))); [lia|]. simpl.
  rewrite (index_at_nat _ _ _ E). simpl.
  destruct (_ && _) eqn:Ht; [simpl|done].
  destruct (half_cases p) as [[Hp ->]|[Hp ->]]; revert E Hlt Hp;
    generalize (p / 2) as k; intros k E Hlt ->.
  - rewrite half_odd. destruct (Z.ltb_spec (Z.of_nat k - 1) (Z.of_nat k)); [|lia].
    unfold set_triggered, sim_state. simpl sim_heap. rewrite half_even, half_odd, half_next.
    simpl. do 2 f_equal. lia.
  - rewrite half_next. destruct (Z.ltb_spec (Z.of_nat (S k) - 1) (Z.of_nat k)); [lia|].
    destruct (Z.ltb_spec (Z.of_nat k - 1) (Z.of_nat (S k) - 1)); [|lia].
    destruct (Z.ltb_spec (Z.of_nat k - 1) (Z.of_nat k)); [|lia]. simpl.
    assert (S (S (S (2 * k))) / 2 = S k) as Hhalf.
    { replace (S (S (S (2 * k)))) with (S (2 * S k)) by lia. apply half_odd. }
    unfold forkChain. cbn [sim_events currentReorgEvent sim_state reorgedChains].
    rewrite half_odd, (index_at_nat _ _ _ E). simpl.
    rewrite (index_at_nat _ _ _ (chain_no_next _ _ E)). simpl.
    unfold sim_state. rewrite half_next, Hhalf. do 2 f_equal; lia.
Qed.

Lemma chain_no_ok k : chain_ok hp (chain_no k).
Proof.
  unfold chain_no. destruct ((chain :: rs) !! k) as [c|] eqn:E; simpl.
  - eapply Forall_lookup_1 in Hchains; done.
  - constructor. intros n ref Hr. by rewrite lookup_empty in Hr.
Qed.

Lemma chain_block_at_of c n : chain_ok hp c → chain_block_at hp c n = Ret (block_of hp c n).
Proof.
  intros Hok. unfold chain_block_at, block_of. destruct (c !! n) as [ref|] eqn:E; [|done].
  destruct (chain_block _ _ Hok _ _ E) as (b & Hb & _). unfold block_at. simpl. by rewrite Hb.
Qed.

Lemma appendFilterLogs_kept src dst addrs tops :
  (∀ l, l ∈ src → returns (keeps_log addrs tops l)) →
  appendFilterLogs src dst addrs tops = Ret (dst ++ filter (λ l, kept_log addrs tops l = true) src).
Proof.
  unfold appendFilterLogs. revert dst. induction src as [|l src IH]; intros dst Hret; simpl.
  { by rewrite app_nil_r. }
  destruct (Hret l) as [b Hb]; [left|]. rewrite Hb. simpl. rewrite IH by (intros; apply Hret; by right).
  rewrite filter_cons. assert (kept_log addrs tops l = b) as -> by (unfold kept_log; by rewrite Hb).
  by destruct b; simpl; rewrite <-?app_assoc.
Qed.

Lemma FilterLogs_state p block q from to :
  query_fits q from to →
  let p' := next_count p from to in
  sim_FilterLogs (sim_state p block) q =
    Ret (sim_state p' (next_block p from to block),
         (logs_between (chain_no (p' / 2)) (q_Addresses q) (q_Topics q) from to, None)).
Proof.
  intros [Hf Ht Hr Hl] p'. unfold sim_FilterLogs. rewrite Hf, Ht, !big_Uint64_small by lia.
  destruct (Z.ltb_spec to from); [lia|]. rewrite trigger_state, bind_Ret. fold p'.
  rewrite for_up_range by lia. cbn [sim_heap currentChain sim_state].
  match goal with |- context [for_each _ ?f _] => set (body := f) end.
  destruct (for_each_ind (λ pre logs, logs = pre ≫= λ n,
      filter (λ l, kept_log (q_Addresses q) (q_Topics q) l = true)
        (from_option sb_logs [] (block_of hp (chain_no (p' / 2)) n)))
    (λ _ : False, False) (block_range from to) body [])
    as ([logs|[]] & -> & Hlogs); [done| |by rewrite Hlogs].
  intros pre n post logs _ ->. unfold body. rewrite chain_block_at_of by apply chain_no_ok.
  simpl. rewrite bind_app. simpl. rewrite app_nil_r.
  destruct (block_of hp (chain_no (p' / 2)) n) as [b|] eqn:Eb; simpl; cycle 1.
  { eexists. split; [done|]. simpl. by rewrite app_nil_r. }
  case_decide as Hlb.
  - apply nil_length_inv in Hlb. rewrite Hlb. eexists. split; [done|]. simpl. by rewrite app_nil_r.
  - rewrite appendFilterLogs_kept by (intros; by eapply Hl). simpl. by eexists.
Qed.

Lemma served_run k block n :
  events ≠ [] → batch_block (sim_state k block) n = Ret (served_block (k / 2) n).
Proof.
  intros Hev. unfold batch_block, served_block. cbn [sim_heap currentChain sim_state].
  rewrite chain_block_at_of by apply chain_no_ok. simpl.
  destruct (block_of _ _ _) as [b|]; [done|].
  assert (0 < length events) as Hpos by (destruct events; [done|simpl; lia]).
  assert (Nat.min (k / 2) (length events - 1) < length events) as Hlt by lia.
  apply lookup_lt_is_Some in Hlt as [event He]. rewrite He. simpl.
  replace (if (Z.of_nat (length events) <=? Z.of_nat (k / 2))%Z then _ else _)
    with (Z.of_nat (Nat.min (k / 2) (length events - 1))).
  - by rewrite (index_at_nat _ _ _ He).
  - destruct (Z.leb_spec (Z.of_nat (length events)) (Z.of_nat (k / 2))); lia.
Qed.
End states.
