(* ===== verification/ReorgSimProps.v ===== *)
(** The simulator as a whole: it serves the reference chains in order, two triggering
    queries for each, and its block numbers end with ErrExitBlockReached. *)

From S2P Require Import Prelude GoErrors Types Externals EthClient Batch ReorgBlocks ReorgChains.
From S2P Require Import ReorgMoves ReorgForks ReorgSim ReorgSimStates.

#[local] Arguments Nat.div : simpl never.
#[local] Arguments Nat.mul : simpl never.

(** * Definitions *)

(** The events with their triggers set. *)
Definition set_trigger (event : ReorgEvent) : ReorgEvent :=
  mkEvent (if (ReorgTrigger event =? 0)%Z then ReorgBlock event else ReorgTrigger event)
    (ReorgBlock event) (MovedLogs event).

Section queries.
Context `{Gsl} `{SimUtil}.

(** A list of queries to the simulator, and its answers. *)
Fixpoint run_queries (r : ReorgSim) (qs : list FilterQuery) :
    outcome (ReorgSim * list (list Log * option error)) :=
  match qs with
  | [] => Ret (r, [])
  | q :: qs =>
      '(r, answer) ← sim_FilterLogs r q;
      '(r, answers) ← run_queries r qs;
      Ret (r, answer :: answers)
  end.

(** The reference: a count of triggering queries over a list of chains. *)
Definition ref_logs (m : gmap Z simBlock) (q : FilterQuery) (from to : Z) : list Log :=
  block_range from to ≫= λ n, filter (λ l, kept_log (q_Addresses q) (q_Topics q) l = true)
    (from_option sb_logs [] (m !! n)).

Fixpoint ref_answers (events : list ReorgEvent) (chains : list (gmap Z simBlock)) (p : nat)
    (qs : list FilterQuery) : list (list Log) :=
  match qs with
  | [] => []
  | q :: qs =>
      let from := default 0%Z (q_FromBlock q) in
      let to := default 0%Z (q_ToBlock q) in
      let p := next_count events p from to in
      ref_logs (default ∅ (chains !! (p / 2))) q from to :: ref_answers events chains p qs
  end.

(** A query with both ends that no log of the chains makes panic. *)
Record ref_query_fits (chains : list (gmap Z simBlock)) (q : FilterQuery) : Prop := {
  ref_fits_range : ∃ from to, q_FromBlock q = Some from ∧ q_ToBlock q = Some to ∧
    (0 ≤ from ≤ to ∧ to < two64 - 1)%Z;
  ref_fits_logs m n b l : m ∈ chains → m !! n = Some b → l ∈ sb_logs b →
    returns (keeps_log (q_Addresses q) (q_Topics q) l);
}.

(** * Lemmas *)

Lemma validate_high events :
  forallb event_high events = true → validateReorgEvent events = inl (set_trigger <$> events).
Proof.
  induction events as [|event events IH]; intros Hhigh; simpl; [done|].
  simpl in Hhigh. apply andb_true_iff in Hhigh as [Hh Hhigh].
  destruct (filter _ (MovedLogs event)) as [|[from moves] l] eqn:E; [by rewrite IH|].
  assert ((from, moves) ∈ filter (λ m, m.1 < ReorgBlock event)%Z (MovedLogs event)) as Hin
    by (rewrite E; left).
  apply list_elem_of_filter in Hin as [Hlt Hin]. simpl in Hlt.
  unfold event_high, moves_high in Hh. rewrite forallb_forall in Hh.
  apply list_elem_of_In, Hh, andb_true_iff in Hin as [Hge%Z.leb_le _]. lia.
Qed.

Section made.
Context (hp : blockHeap) (param : Param) (events : list ReorgEvent).
Context (chain : BlockChain) (rs : list BlockChain) (chains : list (gmap Z simBlock)).
Context (Hlen : length rs = length events) (Hok : Forall (chain_ok hp) (chain :: rs)).
Context (Hpure : pure_chain hp <$> chain :: rs = chains).

Lemma pure_no k : pure_chain hp (chain_no chain rs k) = default ∅ (chains !! k).
Proof.
  rewrite <-Hpure, list_lookup_fmap. unfold chain_no. destruct (_ !! k); [done|].
  apply map_eq. intros n. rewrite pure_lookup. unfold block_of. simpl. by rewrite !lookup_empty.
Qed.

Lemma ref_logs_between k q from to :
  logs_between hp (chain_no chain rs k) (q_Addresses q) (q_Topics q) from to =
  ref_logs (default ∅ (chains !! k)) q from to.
Proof.
  unfold logs_between, ref_logs. apply list_bind_ext; [|done]. intros n.
  by rewrite <-pure_no, pure_lookup.
Qed.

Lemma ref_query_fits_query q :
  ref_query_fits chains q → ∃ from to, query_fits hp chain rs q from to.
Proof.
  intros [(from & to & Hf & Ht & Hr) Hl]. exists from, to. constructor; [done..|].
  intros k n b l Hb Hin. rewrite <-pure_lookup, pure_no in Hb.
  destruct (chains !! k) as [m|] eqn:E; simpl in Hb; [|by rewrite lookup_empty in Hb].
  eapply Hl; [|done..]. by eapply list_elem_of_lookup_2.
Qed.

Lemma run_queries_state qs : ∀ p block,
  Forall (ref_query_fits chains) qs →
  ∃ r, run_queries (sim_state hp param events chain rs p block) qs =
    Ret (r, (λ logs, (logs, None)) <$> ref_answers events chains p qs).
Proof.
  induction qs as [|q qs IH]; intros p block Hq; simpl; [by eexists|].
  apply Forall_cons in Hq as [Hq Hqs].
  destruct (ref_query_fits_query q Hq) as (from & to & Hfit).
  rewrite (FilterLogs_state hp param events chain rs Hlen Hok p block q from to Hfit). simpl.
  rewrite (fits_from _ _ _ _ _ _ Hfit), (fits_to _ _ _ _ _ _ Hfit). simpl.
  destruct (IH (next_count events p from to) (next_block events p from to block) Hqs) as [r ->].
  simpl. rewrite ref_logs_between. by exists r.
Qed.
End made.

Lemma NewReorgSimFromLogs_run param mapped events :
  mapped_ok mapped → events_ok mapped events = true →
  ∃ hp chain rs, NewReorgSimFromLogs param events mapped =
      Ret (inl (sim_state hp param (set_trigger <$> events) chain rs 0 0)) ∧
    Forall (chain_ok hp) (chain :: rs) ∧ length rs = length (set_trigger <$> events) ∧
    pure_chain hp <$> chain :: rs = ref_chains (ref_start mapped (first_reorg events)) 0 events.
Proof.
  intros Hm Hfit. pose proof (andb_prop _ _ Hfit) as [Hhigh Hfits]. destruct (NewBlockChain_run mapped events Hm Hfit)
    as (hp & chain & rs & Hrun & Hok & Hp).
  exists hp, chain, rs. split_and!; [|done| |done].
  - unfold NewReorgSimFromLogs. rewrite Hrun, bind_Ret. unfold NewReorgSim.
    by rewrite (validate_high _ Hhigh).
  - apply (f_equal length) in Hp. rewrite length_fmap in Hp. rewrite length_fmap. simpl in Hp.
    destruct (ref_chains_same events Hhigh _ 0 Hfits (ref_start_ok _ _ Hm)) as [Hl _].
    rewrite Hl in Hp. lia.
Qed.
End queries.

(** * Properties *)

(** C21: The simulator refines its reference: on logs grouped by block and events that fit, it
    is made without an error, and every answer to a list of log queries is that of a counter
    over the reference chains, which each event advances with its second query over the
    trigger block and which stays at the last chain after the last event. *)
Theorem simulator_serves_reference `{Gsl} `{SimUtil} param mapped events qs :
  mapped_ok mapped → events_ok mapped events = true →
  let chains := ref_chains (ref_start mapped (first_reorg events)) 0 events in
  Forall (ref_query_fits chains) qs →
  ∃ r r', NewReorgSimFromLogs param events mapped = Ret (inl r) ∧
    run_queries r qs =
      Ret (r', (λ logs, (logs, None)) <$> ref_answers (set_trigger <$> events) chains 0 qs).
Proof.
  intros Hm Hfit chains Hqs.
  destruct (NewReorgSimFromLogs_run param mapped events Hm Hfit)
    as (hp & chain & rs & Hrun & Hok & Hlen & Hp).
  destruct (run_queries_state hp param (set_trigger <$> events) chain rs chains Hlen Hok Hp
    qs 0 0 Hqs) as [r' Hr']. by eexists _, r'.
Qed.
