(* ===== verification/ReorgSimExit.v ===== *)
(** The simulator ends: however its calls are mixed, BlockNumber gives a bounded number of
    block numbers before it only reports ErrExitBlockReached. *)

From S2P Require Import Prelude GoErrors Types Externals EthClient Batch ReorgBlocks ReorgChains.
From S2P Require Import ReorgForks ReorgSim ReorgSimStates.

#[local] Arguments Nat.div : simpl never.
#[local] Arguments Nat.mul : simpl never.

(** * Definitions *)

(** Calls of BlockNumber that succeed from a block on, when nothing forks: one from block 0,
    which is replaced with the start block, and one for every step below the exit block. *)
Definition steps_from_start (param : Param) : Z :=
  Z.max 0 ((p_ExitBlock param + p_BlockProgress param - 2) / p_BlockProgress param).
Definition steps_left (param : Param) (block : Z) : Z :=
  if (block =? 0)%Z then steps_from_start param + 1
  else if (p_ExitBlock param <=? block)%Z then 0
  else (p_ExitBlock param - block + p_BlockProgress param - 1) / p_BlockProgress param.

(** Parameters that lead to the exit block without overflow. *)
Definition param_ok (param : Param) : Prop :=
  (1 ≤ p_StartBlock param < two64 ∧ 1 ≤ p_BlockProgress param ∧ 0 ≤ p_ExitBlock param ∧
   p_ExitBlock param + p_BlockProgress param < two64)%Z.

(** * Lemmas *)

(** Validating keeps the events and their reorg blocks. *)
Lemma validate_events events : ∀ valid,
  validateReorgEvent events = inl valid →
  length valid = length events ∧ ReorgBlock <$> valid = ReorgBlock <$> events.
Proof.
  induction events as [|event events IH]; simpl; intros valid; [by intros [= <-]|].
  destruct (filter _ _) as [|[? ?] ?]; [|done].
  destruct (validateReorgEvent events) as [l|]; [|done]. intros [= <-].
  destruct (IH l eq_refl) as [Hl Hb]. split; [simpl; by rewrite Hl|]. by rewrite !fmap_cons, Hb.
Qed.

Section exit.
Local Open Scope Z_scope.
Context `{Gsl} `{SimUtil} `{EthUtil}.
Context (hp : blockHeap) (param : Param) (events : list ReorgEvent).
Context (chain : BlockChain) (rs : list BlockChain) (Hlen : length rs = length events).
Context (Hparam : param_ok param).
Context (Hevents : Forall (λ event, 0 ≤ ReorgBlock event < two64) events).
Let sim := sim_state hp param events chain rs.

Lemma steps_left_bound block : 0 ≤ block → 0 ≤ steps_left param block ≤ steps_from_start param + 1.
Proof.
  destruct Hparam as (Hs & Hp & Hx & _). intros Hb. unfold steps_left, steps_from_start.
  destruct (Z.eqb_spec block 0); [lia|].
  destruct (Z.leb_spec (p_ExitBlock param) block); [lia|]. split; [apply Z.div_pos; lia|].
  assert ((p_ExitBlock param - block + p_BlockProgress param - 1) / p_BlockProgress param ≤
    (p_ExitBlock param + p_BlockProgress param - 2) / p_BlockProgress param)
    by (apply Z.div_le_mono; lia). lia.
Qed.

Lemma steps_left_positive block :
  1 ≤ block → steps_left param block ≤ steps_from_start param.
Proof.
  destruct Hparam as (Hs & Hp & Hx & _). intros Hb. unfold steps_left, steps_from_start.
  destruct (Z.eqb_spec block 0); [lia|].
  destruct (Z.leb_spec (p_ExitBlock param) block); [lia|].
  etrans; [apply (Z.div_le_mono _ (p_ExitBlock param + p_BlockProgress param - 2)); lia|lia].
Qed.

Lemma steps_left_next block :
  1 ≤ block < p_ExitBlock param →
  steps_left param (block + p_BlockProgress param) + 1 ≤ steps_left param block.
Proof.
  destruct Hparam as (Hs & Hp & Hx & _). intros Hb. unfold steps_left.
  rewrite (proj2 (Z.eqb_neq block 0)), (proj2 (Z.eqb_neq (block + _) 0)) by lia.
  rewrite (proj2 (Z.leb_gt _ block)) by lia.
  destruct (Z.leb_spec (p_ExitBlock param) (block + p_BlockProgress param)).
  - apply Z.div_le_lower_bound; lia.
  - replace (p_ExitBlock param - block + p_BlockProgress param - 1) with
      (p_ExitBlock param - (block + p_BlockProgress param) + p_BlockProgress param - 1 +
       1 * p_BlockProgress param) by lia.
    rewrite Z.div_add by lia. lia.
Qed.

(** What is left: a full count for every chain to come, and the steps on this one. *)
Definition numbers_left (p : nat) (block : Z) : Z :=
  (Z.of_nat (length events) - Z.of_nat (p / 2)) * (steps_from_start param + 1) +
  steps_left param block.

Definition sim_at (r : ReorgSim) (left : Z) : Prop :=
  ∃ p block, r = sim p block ∧ 0 ≤ block < two64 ∧ (p / 2 ≤ length events)%nat ∧
    numbers_left p block ≤ left.

Lemma trigger_left p block from to r :
  0 ≤ block < two64 → (p / 2 ≤ length events)%nat →
  triggerForkChain (sim p block) from to = Ret r → sim_at r (numbers_left p block).
Proof.
  intros Hb Hp. unfold sim. rewrite (trigger_state hp param events chain rs Hlen). intros [= <-].
  assert (0 ≤ block < two64 ∧ (p / 2 ≤ length events)%nat ∧
    numbers_left p block ≤ numbers_left p block) as Hkeep by (split_and!; lia).
  eexists _, _. split; [done|]. unfold next_count, next_block, triggers.
  destruct (events !! (p / 2)%nat) as [event|] eqn:E; [|done].
  pose proof (lookup_lt_Some _ _ _ E) as Hlt. pose proof (Forall_lookup_1 _ _ _ _ Hevents E) as He.
  simpl in He.
  destruct ((from <=? ReorgTrigger event) && (ReorgTrigger event <=? to)); [simpl|done]. unfold numbers_left.
  pose proof (steps_left_bound block) as Hs. pose proof (steps_left_bound (ReorgBlock event)) as Hs'.
  destruct (half_cases p) as [[Hp2 ->]|[Hp2 ->]]; revert Hp Hlt Hp2;
    generalize (p / 2)%nat as k; intros k Hp Hlt ->; simpl.
  - rewrite half_odd. split_and!; lia.
  - rewrite half_next. rewrite Nat2Z.inj_succ. split_and!; [lia..|]. specialize (Hs ltac:(lia)). specialize (Hs' ltac:(lia)). nia.
Qed.

Lemma BlockNumber_left p block r n err :
  0 ≤ block < two64 → (p / 2 ≤ length events)%nat →
  sim_BlockNumber (sim p block) = Ret (r, (n, err)) →
  sim_at r (numbers_left p block - (match err with Some _ => 0 | None => 1 end)).
Proof.
  intros Hb Hp. destruct Hparam as (Hs & Hpr & Hx & Hov).
  unfold sim_BlockNumber, sim. cbn [currentBlock sim_param sim_state].
  destruct (Z.eqb_spec block 0) as [->|Hne]; [|destruct (Z.leb_spec (p_ExitBlock param) block)];
    intros [= <- <- <-]; eexists p, _; (split; [done|]); unfold numbers_left; cbn [p_StartBlock].
  - split_and!; [lia..|]. pose proof (steps_left_positive (p_StartBlock param)).
    change (steps_left param 0) with (steps_from_start param + 1). lia.
  - cbn [wrap_sentinel]. split_and!; lia.
  - rewrite u64_add_small by (unfold is_u64; lia). split_and!; [lia..|].
    pose proof (steps_left_next block). lia.
Qed.

Lemma sim_call_left r left call r' k :
  sim_at r left → sim_call r call = Ret (r', k) → sim_at r' (left - Z.of_nat k).
Proof.
  intros (p & block & -> & Hb & Hp & Hleft).
  enough (sim_call (sim p block) call = Ret (r', k) →
    sim_at r' (numbers_left p block - Z.of_nat k)) as Hgen.
  { intros Hrun. destruct (Hgen Hrun) as (p' & block' & ? & ? & ? & ?).
    exists p', block'. split_and!; [done|lia..]. }
  assert (sim_at (sim p block) (numbers_left p block - 0)) as Hsame.
  { exists p, block. split_and!; [done|lia..]. }
  destruct call as [|q|n|elems]; simpl.
  - destruct (sim_BlockNumber (sim p block)) as [[r0 [n err]]| |] eqn:E; [|done..].
    simpl. intros [= -> <-]. apply BlockNumber_left in E; [|done..]. by destruct err.
  - unfold sim_FilterLogs.
    destruct (q_FromBlock q) as [from|], (q_ToBlock q) as [to|];
      [|by intros [= <- <-]..]. intros (x & Hq & Hr)%bind_Ret_inv. destruct x as [r0 a].
    injection Hr as -> <-. apply bind_Ret_inv in Hq as (r0 & Ht & Hq).
    apply bind_Ret_inv in Hq as ([logs|[]] & _ & Hq). injection Hq as -> _.
    apply trigger_left in Ht; [|done..]. by rewrite Z.sub_0_r.
  - unfold sim_HeaderByNumber. intros (x & Hq & Hr)%bind_Ret_inv. destruct x as [r0 a].
    injection Hr as -> <-. apply bind_Ret_inv in Hq as ([b|] & _ & Hq).
    + by injection Hq as <- _.
    + apply bind_Ret_inv in Hq as (event & _ & Hq). by injection Hq as <- _.
  - unfold sim_BatchCallContext. intros (x & Hq & Hr)%bind_Ret_inv. destruct x as [r0 a].
    injection Hr as -> <-. apply bind_Ret_inv in Hq as ([?|[? ?]] & _ & Hq);
      by injection Hq as <- _.
Qed.

Lemma sim_calls_left calls : ∀ r left r' k,
  sim_at r left → sim_calls r calls = Ret (r', k) → sim_at r' (left - Z.of_nat k).
Proof.
  induction calls as [|call calls IH]; intros r left r' k Hr; simpl.
  - intros [= <- <-]. by rewrite Z.sub_0_r.
  - intros ([r1 k1] & Hc1 & ([r2 k2] & Hc2 & [= <- <-])%bind_Ret_inv)%bind_Ret_inv.
    apply (sim_call_left r left) in Hc1; [|done]. apply (IH _ _ _ _ Hc1) in Hc2.
    by rewrite Nat2Z.inj_add, Z.sub_add_distr.
Qed.

Lemma sim_at_nonneg r left : sim_at r left → 0 ≤ left.
Proof.
  intros (p & block & _ & Hb & Hp & Hl). unfold numbers_left in Hl.
  pose proof (steps_left_bound block). assert (0 ≤ steps_from_start param + 1) by (unfold steps_from_start; lia).
  nia.
Qed.
End exit.

(** * Properties *)

(** C26: Whatever calls a test makes of the simulator, in any order, BlockNumber succeeds at
    most once for the start and once for every step to the exit block, on each of the chains;
    every other call of it reports the exit block. *)
Theorem simulator_exits `{Gsl} `{SimUtil} `{EthUtil} hp param events chain rs r calls r' k :
  NewReorgSim hp param events chain rs = inl r →
  param_ok param → length rs = length events →
  Forall (λ event, 0 ≤ ReorgBlock event < two64)%Z events →
  sim_calls r calls = Ret (r', k) →
  (Z.of_nat k ≤ (Z.of_nat (length events) + 1) * (steps_from_start param + 1))%Z ∧
  ∀ r0, ∃ r1 n err, sim_BlockNumber r0 = Ret (r1, (n, err)) ∧
    (err = None ∨ errors_Is err ErrExitBlockReached = true).
Proof.
  intros Hnew Hparam Hlen Hev Hrun. split.
  - unfold NewReorgSim in Hnew.
    destruct (validateReorgEvent events) as [valid|] eqn:Hv; [|done]. injection Hnew as <-.
    destruct (validate_events events valid Hv) as [Hl Hb].
    assert (Forall (λ event, 0 ≤ ReorgBlock event < two64)%Z valid) as Hev'.
    { apply (Forall_fmap ReorgBlock (λ b, 0 ≤ b < two64)%Z). rewrite Hb. by apply Forall_fmap. }
    rewrite <-Hl in Hlen |- *.
    pose proof (sim_calls_left hp param valid chain rs Hlen Hparam Hev' calls) as Hleft.
    eapply Hleft in Hrun; [apply sim_at_nonneg in Hrun; [|done..]|].
    2: { exists 0, 0%Z. split; [done|]. split; [done|]. split; [change (0 / 2) with 0; lia|]. done. }
    unfold numbers_left in Hrun. change (0 / 2) with 0 in Hrun.
    change (steps_left param 0) with (steps_from_start param + 1)%Z in Hrun. lia.
  - intros r0. unfold sim_BlockNumber. repeat case_match; eexists _, _, _;
      (split; [done|]); [by left..| |by left]. by right.
Qed.
