(* ===== verification/ReorgSimPoll.v ===== *)
(** The poller on the simulator: whatever the query triggers, a poll compares what the poller
    knows with the chain that is served after the query. *)

From S2P Require Import Prelude GoErrors Types Externals SortedSet EthClient Batch BlockTracker PollUtils.
From S2P Require Import PollPolicy Poller PollerSpec PollRun PollHonest ReorgBlocks ReorgChains.
From S2P Require Import ReorgForks ReorgSim ReorgSimStates.

#[local] Arguments Nat.div : simpl never.
#[local] Arguments Nat.mul : simpl never.

(** * Lemmas *)

(** ** Polls that ask for the logs first *)

Section frozen.
Context `{SortedSet SS} `{HashText} `{EthUtil} `{Gsl} `{EthClient C}.

(** The client whose answer to the first query is already known. *)
Definition frozen (logs : list Log) : EthClient C := {|
  BlockNumber := BlockNumber;
  FilterLogs c _ := Ret (c, (logs, None));
  HeaderByNumber := HeaderByNumber;
  BatchCallContext := BatchCallContext;
  client_TypeOf := client_TypeOf;
|}.

Lemma pollCheap_frozen c c1 logs from to addrs tops m :
  FilterLogs c (filter_query from to addrs tops) = Ret (c1, (logs, None)) →
  pollCheap c from to addrs tops m =
    @pollCheap _ _ _ (frozen logs) c1 from to addrs tops m.
Proof. intros Hq. unfold pollCheap. rewrite Hq. reflexivity. Qed.

Lemma clear_tracker_config (p p0 : poller SS) :
  clear_tracker p = Ret p0 → addresses p0 = addresses p ∧ topics p0 = topics p ∧ policy p0 = policy p.
Proof.
  unfold clear_tracker. repeat case_match; try (by intros [= <-]); try done.
  intros (t & _ & [= <-])%bind_Ret_inv. done.
Qed.

(** The policies that fetch logs first. *)
Definition cheap_policy (pol : Z) : Prop := (0 ≤ pol ≤ PolicyNormal)%Z.

Lemma Poll_frozen lf (p : poller SS) c c1 logs from to :
  cheap_policy (policy p) →
  FilterLogs c (filter_query from to (addresses p) (topics p)) = Ret (c1, (logs, None)) →
  Poll lf p c from to = @Poll _ _ _ _ _ _ (frozen logs) lf p c1 from to.
Proof.
  intros [Hp0 Hp] Hq. unfold Poll.
  destruct (clear_tracker p) as [p0| |] eqn:E; [simpl|done..].
  destruct (clear_tracker_config _ _ E) as (Ha & Ht & Hpol). rewrite Ha, Ht, Hpol.
  unfold poll. simpl. unfold PolicyExpensiveBlock, PolicyExpensive, PolicyNormal in *.
  destruct (Z.leb_spec 3 (policy p)); [lia|]. destruct (Z.eqb_spec (policy p) 2); [lia|].
  destruct (Z.leb_spec (policy p) 1); [|lia].
  by rewrite (pollCheap_frozen _ _ _ _ _ _ _ _ Hq).
Qed.
End frozen.

(** ** The headers of the simulator *)

Section headers.
Context `{SortedSet SS} `{HashText} `{EthUtil} `{Gsl} `{SimUtil}.
Context (hp : blockHeap) (param : Param) (events : list ReorgEvent).
Context (chain : BlockChain) (rs : list BlockChain).
Context (Hlen : length rs = length events) (Hok : Forall (chain_ok hp) (chain :: rs)).
Context (Hev : events ≠ []).
Let sim := sim_state hp param events chain rs.
Let header_of := served_header hp events chain rs.

(** The element that a batch call fills for a number. *)
Definition filled (k : nat) (n : Z) : BatchElem :=
  set_Result (header_elem client_TypeOf n) (ResBlockHeader (header_of k n)).

Lemma header_elem_sim n :
  header_elem client_TypeOf n = mkElem MethodGetBlockByNumber
    [ArgString (EncodeBig (to_int64 n)); ArgBool false] (ResBlockHeader (mkHeader 0 0 0 0 0 0)) None.
Proof. done. Qed.

Lemma sim_batch_run p block ns :
  (∀ n, n ∈ ns → (0 ≤ n < two63)%Z) →
  sim_BatchCallContext (sim p block) (header_elem client_TypeOf <$> ns) =
    Ret (sim p block, (filled (p / 2) <$> ns, None)).
Proof.
  intros Hns. unfold sim_BatchCallContext.
  match goal with |- context [for_each _ ?f _] => set (body := f) end.
  set (elems := header_elem client_TypeOf <$> ns).
  destruct (for_index_ind (λ i s, s = (filled (p / 2) <$> take i ns) ++ drop i elems)
    (λ _ : list BatchElem * option error, False) elems body elems) as ([s|] & -> & Hs);
    [done| | |done].
  - intros i e s He ->. unfold elems in He. rewrite list_lookup_fmap in He.
    destruct (ns !! i) as [n|] eqn:En; [|done]. injection He as <-.
    unfold body. rewrite header_elem_sim. simpl.
    destruct (Hns n) as [Hn0 Hn1]; [by eapply list_elem_of_lookup_2|].
    rewrite to_int64_small, DecodeBig_EncodeBig by lia.
    rewrite big_Uint64_small by lia. unfold sim at 1.
    rewrite (served_run hp param events chain rs Hlen Hok p block n Hev). simpl.
    eexists. split; [done|]. simpl.
    pose proof (lookup_lt_Some _ _ _ En) as Hi.
    rewrite insert_app_r_alt by (rewrite length_fmap, length_take; lia).
    rewrite length_fmap, length_take, Nat.min_l, Nat.sub_diag by lia.
    rewrite (take_S_r _ _ _ En), fmap_app, <-app_assoc. f_equal.
    rewrite (drop_S elems (header_elem client_TypeOf n) i); [|unfold elems; by rewrite list_lookup_fmap, En].
    simpl. unfold filled. by rewrite header_elem_sim, to_int64_small by lia.
  - simpl. subst s. unfold elems. rewrite length_fmap, firstn_all, drop_ge by by rewrite length_fmap.
    by rewrite app_nil_r.
Qed.

(** After a query, the client whose logs are frozen agrees with the chain that is served. *)
Lemma frozen_honest p block q from to :
  let k := p / 2 in
  let logs := logs_between hp (chain_no chain rs k) (q_Addresses q) (q_Topics q) from to in
  honest_on (H := frozen logs) (λ _, True) (eq (sim p block)) (λ _, logs) (header_of k).
Proof.
  intros k logs. constructor.
  - intros c q' _ <-. by exists (sim p block).
  - intros c ns Hns <-. exists (sim p block), (filled k <$> ns).
    split; [by apply sim_batch_run|]. split; [done|].
    apply Forall2_fmap_r, Forall_Forall2_diag, Forall_forall. done.
  - intros q' l _ (n & [_ Hl]%list_elem_of_filter & _)%list_elem_of_bind.
    unfold header_of, served_header, served_block.
    destruct (block_of hp (chain_no chain rs k) n) as [b|] eqn:Eb; [|by apply not_elem_of_nil in Hl].
    destruct (chain_ok_block _ _ _ _ (chain_no_ok hp chain rs Hok k) Eb) as [_ Hb].
    destruct (Hb l Hl) as [-> ->]. by rewrite Eb.
Qed.
End headers.

Section simulated.
Context `{SortedSet SS} `{HashText} `{EthUtil} `{Gsl} `{SimUtil}.

(** What the simulator answers to a poll in its state after [p] triggering queries. *)
Definition served_after (events : list ReorgEvent) (p : nat) (from to : Z) : nat :=
  next_count events p from to / 2.

Lemma sim_polled hp param events chain rs lf (pl : poller SS) p block from to :
  length rs = length events → Forall (chain_ok hp) (chain :: rs) → events ≠ [] →
  poller_wf pl → range_ok from to → (from ≤ to)%Z → cheap_policy (policy pl) →
  is_Some (tracker pl) ∨ lastRecordedBlock pl = 0%Z →
  query_fits hp chain rs (filter_query from to (addresses pl) (topics pl)) from to →
  let k := served_after events p from to in
  ∃ pl', polled lf pl (sim_state hp param events chain rs p block) from to
    (logs_between hp (chain_no chain rs k) (addresses pl) (topics pl) from to)
    (served_header hp events chain rs k) pl'
    (sim_state hp param events chain rs (next_count events p from to)
       (next_block events p from to block)).
Proof.
  intros Hlen Hok Hev Hwf Hr Hle Hpol Htr Hq k.
  set (c1 := sim_state hp param events chain rs (next_count events p from to)
    (next_block events p from to block)).
  set (logs := logs_between hp (chain_no chain rs k) (addresses pl) (topics pl) from to).
  destruct (honest_polled (H3 := frozen logs) (λ _, True) _ _ _
    (frozen_honest hp param events chain rs Hlen Hok Hev (next_count events p from to)
      (next_block events p from to block) (filter_query from to (addresses pl) (topics pl)) from to)
    lf pl c1 from to) as (pl' & c' & Hpd & <-); [done..| |done|].
  { unfold policy_ok. destruct Hpol. unfold PolicyNormal, PolicyExpensive in *. lia. }
  exists pl'. destruct Hpd as [Hrun ? ? ? ? ?]. constructor; [|done..].
  rewrite (Poll_frozen lf pl _ c1 logs from to Hpol) by by apply FilterLogs_state. exact Hrun.
Qed.
End simulated.

(** * Properties *)

Section properties.
Context `{SortedSet SS} `{HashText} `{EthUtil} `{Gsl} `{SimUtil}.

(** A poll of the simulator, in any of its states, returns the reference result for the
    chain that is served after the poll's query: when the query is the second one over the
    trigger block, the poll already compares what the poller knows with the forked chain, and
    so reports the simulated reorg. *)
Lemma Poll_on_simulator hp param events chain rs lf (pl : poller SS) p block from to :
  length rs = length events → Forall (chain_ok hp) (chain :: rs) → events ≠ [] →
  poller_wf pl → range_ok from to → (from ≤ to)%Z → cheap_policy (policy pl) →
  is_Some (tracker pl) ∨ lastRecordedBlock pl = 0%Z →
  query_fits hp chain rs (filter_query from to (addresses pl) (topics pl)) from to →
  let p' := next_count events p from to in
  let header_of := served_header hp events chain rs (p' / 2) in
  let logs := logs_between hp (chain_no chain rs (p' / 2)) (addresses pl) (topics pl) from to in
  ∃ pl', Poll lf pl (sim_state hp param events chain rs p block) from to =
      Ret (pl', sim_state hp param events chain rs p' (next_block events p from to block),
        (Some (spec_result pl header_of logs from to), spec_error pl header_of logs from)) ∧
    poller_wf pl' ∧
    ∀ n, is_u64 n → known_of pl' n = spec_known pl header_of logs from to n.
Proof.
  intros Hlen Hok Hev Hwf Hr Hle Hpol Htr Hq p' header_of logs.
  destruct (sim_polled hp param events chain rs lf pl p block from to) as (pl' & Hpd); [done..|].
  exists pl'. split; [apply (polled_run _ _ _ _ _ _ _ _ _ Hpd)|].
  split; [apply (polled_wf _ _ _ _ _ _ _ _ _ Hpd)|apply (polled_known _ _ _ _ _ _ _ _ _ Hpd)].
Qed.
End properties.
