(* ===== verification/ReorgUtils.v ===== *)
(** pkg/reorgsim/utils.go: grouping logs by block and by transaction, and the paths that
    events give to the moved logs. *)

From S2P Require Import Prelude GoErrors Types Externals PollUtils ReorgBlocks ReorgChains.

(** * Definitions *)

(** The loop that both grouping functions run, for the key of a log. *)
Definition map_logs (key : Log → Z) (logs : list Log) : gmap Z (list Log) :=
  foldl (λ m log, <[key log := default [] (m !! key log) ++ [log]]> m) ∅ logs.

Definition MapLogsToNumber (logs : list Log) : gmap Z (list Log) := map_logs log_BlockNumber logs.
Definition mapLogsToTxHash (logs : list Log) : gmap Hash (list Log) := map_logs log_TxHash logs.

(** The moves of an event by transaction: where from and where to.  The last one in the order
    of the ranges wins. *)
Definition trackMoves (event : ReorgEvent) : gmap Hash (Z * Z) :=
  foldl (λ moved '(movedFromBlock, moves),
    foldl (λ moved move,
      foldl (λ moved txHash, <[txHash := (movedFromBlock, NewBlock move)]> moved)
        moved (TxHashes move)) moved moves) ∅ (MovedLogs event).

(** LogsReorgPaths: the moved transactions, the blocks that they leave and the block in which
    they end. *)
Record reorgPaths : Type := mkPaths {
  logsHashes : list Hash;
  logsPark : gmap Hash (list Z);
  logsDest : gmap Hash Z;
}.

Section paths.
Context `{Gsl}.

Definition path_step (paths : reorgPaths) (moved : Hash * (Z * Z)) : reorgPaths :=
  let '(txHash, (from, to)) := moved in
  let park := <[txHash := default [] (logsPark paths !! txHash) ++ [from]]> (logsPark paths) in
  let dest := <[txHash := to]> (logsDest paths) in
  if gsl_Contains (logsHashes paths) txHash then mkPaths (logsHashes paths) park dest
  else mkPaths (logsHashes paths ++ [txHash]) park dest.

Definition LogsReorgPaths (events : list ReorgEvent) : reorgPaths :=
  foldl (λ paths event, foldl path_step paths (map_to_list (trackMoves event)))
    (mkPaths [] ∅ ∅) events.

(** * Lemmas *)

Lemma map_logs_lookup key logs k :
  map_logs key logs !! k =
    match filter (λ l, key l = k) logs with [] => None | l => Some l end.
Proof.
  unfold map_logs. induction logs as [|log logs IH] using rev_ind; [done|].
  rewrite foldl_snoc, filter_app, filter_cons, filter_nil.
  destruct (decide (key log = k)) as [<-|Hne].
  - rewrite lookup_insert_eq, IH. by destruct (filter _ logs).
  - by rewrite lookup_insert_ne, IH, app_nil_r by done.
Qed.

(** The moves of a transaction, event by event. *)
Definition moves_of (events : list ReorgEvent) (tx : Hash) : list (Z * Z) :=
  omap (λ event, trackMoves event !! tx) events.

(** What the paths say of a list of moves. *)
Definition paths_say (paths : reorgPaths) (moves : Hash → list (Z * Z)) : Prop :=
  NoDup (logsHashes paths) ∧
  ∀ tx, (tx ∈ logsHashes paths ↔ moves tx ≠ []) ∧
    default [] (logsPark paths !! tx) = (moves tx).*1 ∧
    logsDest paths !! tx = snd <$> last (moves tx).

Lemma path_step_eq paths tx from to :
  path_step paths (tx, (from, to)) =
    mkPaths (if gsl_Contains (logsHashes paths) tx then logsHashes paths
             else logsHashes paths ++ [tx])
      (<[tx := default [] (logsPark paths !! tx) ++ [from]]> (logsPark paths))
      (<[tx := to]> (logsDest paths)).
Proof. unfold path_step. by destruct (gsl_Contains _ _). Qed.

Lemma path_step_says paths moves tx move :
  paths_say paths moves →
  paths_say (path_step paths (tx, move))
    (λ tx', moves tx' ++ (if decide (tx' = tx) then [move] else [])).
Proof.
  destruct move as [from to]. intros [Hnd Hsay]. rewrite path_step_eq. split; simpl.
  - destruct (gsl_Contains (logsHashes paths) tx) eqn:E; [done|].
    apply NoDup_app. split; [done|]. split; [|apply NoDup_singleton].
    apply gsl_Contains_false in E. intros x Hx ->%list_elem_of_singleton. done.
  - intros tx'. destruct (Hsay tx') as (Hin & Hpark & Hdest). case_decide as Heq; [subst tx'|].
    + rewrite !lookup_insert_eq, fmap_app, last_snoc. simpl. rewrite Hpark.
      split_and!; [|done|done]. split; [by destruct (moves tx)|]. intros _.
      destruct (gsl_Contains _ _) eqn:E; [by apply gsl_Contains_spec in E|set_solver].
    + rewrite !lookup_insert_ne, app_nil_r by done. split; [|done].
      rewrite <-Hin. destruct (gsl_Contains _ _); [done|]. set_solver.
Qed.

Lemma paths_say_ext paths moves moves' :
  (∀ tx, moves tx = moves' tx) → paths_say paths moves → paths_say paths moves'.
Proof. intros Heq [Hnd Hsay]. split; [done|]. intros tx. by rewrite <-Heq. Qed.

Lemma path_steps_say (l : list (Hash * (Z * Z))) : ∀ paths moves,
  NoDup l.*1 → paths_say paths moves →
  paths_say (foldl path_step paths l)
    (λ tx, moves tx ++ option_list ((list_to_map l : gmap Hash (Z * Z)) !! tx)).
Proof.
  induction l as [|[tx move] l IH]; intros paths moves Hnd Hsay; simpl.
  { eapply paths_say_ext; [|done]. intros tx. by rewrite lookup_empty, app_nil_r. }
  apply NoDup_cons in Hnd as [Hni Hnd].
  eapply paths_say_ext; [|apply IH; [done|by apply path_step_says]].
  intros tx'. simpl. rewrite <-app_assoc. f_equal. case_decide as Heq; [subst|].
  - rewrite lookup_insert_eq. by rewrite (not_elem_of_list_to_map_1 _ _ Hni).
  - by rewrite lookup_insert_ne.
Qed.

Lemma LogsReorgPaths_says events : paths_say (LogsReorgPaths events) (moves_of events).
Proof.
  unfold LogsReorgPaths. induction events as [|event events IH] using rev_ind.
  { split; [apply NoDup_nil_2|]. intros tx. simpl. rewrite !lookup_empty. set_solver. }
  rewrite foldl_snoc. eapply paths_say_ext; [|apply path_steps_say; [apply NoDup_fst_map_to_list|done]].
  intros tx. simpl. rewrite list_to_map_to_list. unfold moves_of. rewrite omap_app. by destruct (trackMoves event !! tx) eqn:E; simpl; rewrite E.
Qed.
End paths.

(** * Properties *)

(** MapLogsToNumber is equivalent to filtering: at a number it has the logs of the number,
    in their order, or nothing when there is none; so logs that agree on the hash of every
    block make maps that NewBlockChain takes. *)
Lemma MapLogsToNumber_filters logs :
  (∀ n, MapLogsToNumber logs !! n = match logs_at n logs with [] => None | l => Some l end) ∧
  (mapped_ok (MapLogsToNumber logs) ↔ logs_consistent logs).
Proof.
  assert (∀ n, MapLogsToNumber logs !! n = match logs_at n logs with [] => None | l => Some l end)
    as Hl by (intros n; apply map_logs_lookup).
  assert (∀ n l, l ∈ logs_at n logs ↔ log_BlockNumber l = n ∧ l ∈ logs) as Hat
    by (intros; unfold logs_at; by rewrite list_elem_of_filter).
  split; [done|]. split.
  - intros Hok l l' Hin Hin' Hn. assert (l ∈ logs_at (log_BlockNumber l) logs) as Hx by by apply Hat.
    specialize (Hl (log_BlockNumber l)). destruct (logs_at _ logs) as [|x xs] eqn:E;
      [by apply not_elem_of_nil in Hx|].
    destruct (Hok _ _ Hl) as (_ & _ & Hh). apply Hh; [done|]. rewrite <-E. by apply Hat.
  - intros Hc n ls. rewrite Hl. destruct (logs_at n logs) as [|x xs] eqn:E; [done|].
    intros [= <-]. rewrite <-E. split; [by rewrite E|]. split.
    + by intros l [? ?]%Hat.
    + intros l l' [Hn ?]%Hat [Hn' ?]%Hat. apply Hc; congruence.
Qed.

(** LogsReorgPaths follows the events in order: a transaction is listed, once, when some
    event moves it; its parks are the blocks that it is moved out of, event by event, and its
    destination is where the last of these events moves it. *)
Lemma LogsReorgPaths_follows `{Gsl} events :
  NoDup (logsHashes (LogsReorgPaths events)) ∧
  ∀ tx, let moves := omap (λ event, trackMoves event !! tx) events in
    (tx ∈ logsHashes (LogsReorgPaths events) ↔ moves ≠ []) ∧
    default [] (logsPark (LogsReorgPaths events) !! tx) = moves.*1 ∧
    logsDest (LogsReorgPaths events) !! tx = snd <$> last moves.
Proof. exact (LogsReorgPaths_says events). Qed.
