(* ===== verification/ReorgFiles.v ===== *)
(** pkg/reorgsim: reading the logs of a simulator from JSON files (utils.go, reorgsim.go), and
    the chains that a simulator shows. *)

From S2P Require Import Prelude GoErrors Types Externals SortedSet EthClient Batch BlockTracker PollUtils.
From S2P Require Import PollPolicy Poller PollerSpec PollHonest FileGateway ReorgBlocks ReorgChains ReorgForks ReorgProps.
From S2P Require Import ReorgSim ReorgSimStates ReorgSimProps ReorgUtils.

(** * Definitions *)

(** json.Unmarshal of a list of logs. *)
Class LogsJSON : Type := { unmarshal_logs : string → list Log + error }.

Section files.
Context `{OsFiles F} `{LogsJSON} (fs : F).

Definition readLogsJSON (filename : string) : outcome (list Log) :=
  match ReadFile fs filename with
  | inr err => Panic (error_Error err)
  | inl b =>
      match unmarshal_logs b with
      | inr err => Panic (error_Error err)
      | inl logs => Ret logs
      end
  end.

Definition InitLogsFromFiles (filenames : list string) : outcome (list Log) :=
  foldM (λ filename logs, fileLogs ← readLogsJSON filename; Ret (logs ++ fileLogs)) filenames [].

Definition InitMappedLogsFromFiles (filenames : list string) : outcome (gmap Z (list Log)) :=
  hardcodedLogs ← foldM (λ filename hardcodedLogs,
    logs ← readLogsJSON filename; Ret (hardcodedLogs ++ logs)) filenames [];
  Ret (MapLogsToNumber hardcodedLogs).

Definition NewReorgSimFromLogsFiles `{Gsl} `{SimUtil} (param : Param) (events : list ReorgEvent)
    (logsFiles : list string) : outcome (ReorgSim + error) :=
  logs ← InitMappedLogsFromFiles logsFiles; NewReorgSimFromLogs param events logs.
End files.

Definition sim_Chain (r : ReorgSim) : BlockChain := currentChain r.
Definition sim_ReorgedChains (r : ReorgSim) : list BlockChain := reorgedChains r.
Definition sim_ReorgedChain (r : ReorgSim) (i : Z) : outcome BlockChain := index_at (reorgedChains r) i.

(** * Lemmas *)

Lemma index_at_Ret {A} (l : list A) i x : index_at l i = Ret x ↔ (0 ≤ i)%Z ∧ l !! Z.to_nat i = Some x.
Proof.
  unfold index_at. destruct (Z.ltb_spec i 0); [split; [done|lia]|].
  destruct (l !! Z.to_nat i); naive_solver.
Qed.

Section props.
Context `{OsFiles F} `{LogsJSON} (fs : F).

(** A file that holds these logs. *)
Definition holds (filename : string) (logs : list Log) : Prop :=
  ∃ b, ReadFile fs filename = inl b ∧ unmarshal_logs b = inl logs.

Lemma readLogsJSON_holds filename logs : readLogsJSON fs filename = Ret logs ↔ holds filename logs.
Proof.
  unfold readLogsJSON, holds. split.
  - destruct (ReadFile fs filename) as [b|err]; [|done]. destruct (unmarshal_logs b) as [l|err] eqn:E; [|done].
    intros [= ->]. by exists b.
  - by intros (b & -> & ->).
Qed.

(** The logs of files, one after the other; a file that cannot be read or is no list of logs
    panics. *)
Lemma InitLogsFromFiles_holds filenames : ∀ logs,
  InitLogsFromFiles fs filenames = Ret logs ↔ ∃ lss, Forall2 holds filenames lss ∧ logs = mjoin lss.
Proof.
  unfold InitLogsFromFiles.
  enough (∀ acc logs, foldM (λ filename logs, fileLogs ← readLogsJSON fs filename; Ret (logs ++ fileLogs)) filenames acc
    = Ret logs ↔ ∃ lss, Forall2 holds filenames lss ∧ logs = acc ++ mjoin lss) as Hgen by apply Hgen.
  induction filenames as [|filename filenames IH]; intros acc logs; simpl.
  { split; [intros [= <-]; exists []; by rewrite app_nil_r|].
    intros (lss & ->%Forall2_nil_inv_l & ->). simpl. by rewrite app_nil_r. }
  split.
  - intros (l & (fl & Hread & [= <-])%bind_Ret_inv & Hrest)%bind_Ret_inv. apply IH in Hrest as (lss & Hall & ->).
    apply readLogsJSON_holds in Hread. exists (fl :: lss). split; [by constructor|]. simpl. by rewrite app_assoc.
  - intros (lss & (fl & lss' & Hf & Hall & ->)%Forall2_cons_inv_l & ->).
    apply readLogsJSON_holds in Hf. rewrite Hf. simpl. apply IH. exists lss'. split; [done|].
    by rewrite app_assoc.
Qed.
End props.

(** * Properties *)

(** A simulator from files: when the files hold logs that agree on the hashes of their blocks
    and the events fit the chain of these logs, the simulator is made, and the chains that it
    shows are those of the reference for all logs of the files. *)
Lemma simulator_from_files `{OsFiles F} `{LogsJSON} `{Gsl} `{SimUtil} (fs : F) param filenames lss events :
  let mapped := MapLogsToNumber (mjoin lss) in
  Forall2 (holds fs) filenames lss → logs_consistent (mjoin lss) →
  events_ok mapped events = true →
  ∃ sim, NewReorgSimFromLogsFiles fs param events filenames = Ret (inl sim) ∧
    pure_chain (sim_heap sim) <$> sim_Chain sim :: sim_ReorgedChains sim =
      ref_chains (ref_start mapped (first_reorg events)) 0 events ∧
    ∀ i chain, sim_ReorgedChain sim i = Ret chain ↔ (0 ≤ i)%Z ∧ sim_ReorgedChains sim !! Z.to_nat i = Some chain.
Proof.
  intros mapped Hfiles Hcons Hfit.
  assert (mapped_ok mapped) as Hm by by apply MapLogsToNumber_filters.
  destruct (NewReorgSimFromLogs_run param mapped events Hm Hfit) as (hp & chain & rs & Hrun & _ & _ & Hp).
  eexists. split.
  - unfold NewReorgSimFromLogsFiles. change (InitMappedLogsFromFiles fs filenames) with
      (logs ← InitLogsFromFiles fs filenames; Ret (MapLogsToNumber logs)).
    rewrite (proj2 (InitLogsFromFiles_holds fs filenames (mjoin lss))) by by exists lss.
    simpl. exact Hrun.
  - split; [exact Hp|]. intros i c. simpl. unfold sim_ReorgedChain. simpl. apply index_at_Ret.
Qed.
