(* ===== verification/TestUtils.v ===== *)
(** pkg/testutils: the command-line flags of the tests, and which test cases RunTestCase runs. *)

From S2P Require Import Prelude GoErrors.

(** * Definitions *)

(** ** Flags *)

(** A value with its type.  The texts of other types are what reflect gives. *)
Inductive flagVal : Type :=
  | VString (s : string)
  | VBool (b : bool)
  | VInt (z : Z)
  | VOther (type : string).
Definition TypeOf (v : flagVal) : string :=
  match v with VString _ => "string" | VBool _ => "bool" | VInt _ => "int" | VOther t => t end.

(** The command line of package flag and the variables of the program: a flag writes to the
    variable that it was registered with. *)
Record Flags : Type := mkFlags {
  fl_flags : gmap string nat;
  fl_vars : gmap nat flagVal;
}.

(** flag.BoolVar and flag.IntVar, by the type of the variables that they take. *)
Inductive flagFunc : Set := flag_BoolVar | flag_IntVar.
Definition flagFunc_type (f : flagFunc) : string :=
  match f with flag_BoolVar => "bool" | flag_IntVar => "int" end.
(** They register a new name; a name twice is a panic of package flag. *)
Definition flag_Var (fs : Flags) (p : nat) (name : string) (value : flagVal) : outcome Flags :=
  match fl_flags fs !! name with
  | Some _ => Panic "flag redefined"
  | None => Ret (mkFlags (<[name := p]> (fl_flags fs)) (<[p := value]> (fl_vars fs)))
  end.

Definition mapTypeFuncFlagVar (t : string) : option flagFunc :=
  if decide (t = "string") then Some flag_BoolVar
  else if decide (t = "bool") then Some flag_BoolVar
  else if decide (t = "int") then Some flag_IntVar
  else None.

(** RegFlagVar; the assertion that f is a func( *T, string, T, string) is a panic for any other T. *)
Definition RegFlagVar (fs : Flags) (p : nat) (name : string) (value : flagVal) : outcome Flags :=
  match fl_flags fs !! name with
  | Some _ => Ret fs
  | None =>
      let t := TypeOf value in
      match mapTypeFuncFlagVar t with
      | None => Panic ("RegFlagVar does not support type " +:+ t)
      | Some f =>
          if decide (flagFunc_type f = t) then flag_Var fs p name value
          else Panic "interface conversion"
      end
  end.

(** GetFlagVar at int and at bool: the flag's value, asserted to have the type. *)
Definition GetFlagVar {T} (as_T : flagVal → option T) (fs : Flags) (name : string) : outcome T :=
  match fl_flags fs !! name with
  | None => Panic "nil pointer dereference"
  | Some p =>
      match fl_vars fs !! p ≫= as_T with
      | Some v => Ret v
      | None => Panic "interface conversion"
      end
  end.
Definition as_int (v : flagVal) : option Z := match v with VInt z => Some z | _ => None end.
Definition as_bool (v : flagVal) : option bool := match v with VBool b => Some b | _ => None end.

(** The package's variables; they start with the zero values of their types. *)
Definition flagCase : nat := 0.
Definition flagVerbose : nat := 1.
Definition init (fs : Flags) : outcome Flags :=
  fs ← RegFlagVar fs flagCase "case" (VInt (-1));
  fs ← RegFlagVar fs flagVerbose "verbose" (VBool false);
  c ← GetFlagVar as_int fs "case";
  v ← GetFlagVar as_bool fs "verbose";
  Ret (mkFlags (fl_flags fs) (<[flagVerbose := VBool v]> (<[flagCase := VInt c]> (fl_vars fs)))).

(** The variables, as GetFlagValues reads them. *)
Definition flagCase_of (fs : Flags) : Z := default 0%Z (fl_vars fs !! flagCase ≫= as_int).
Definition flagVerbose_of (fs : Flags) : bool := default false (fl_vars fs !! flagVerbose ≫= as_bool).

Definition GetFlagValues (fs : Flags) : Z * bool :=
  let caseNumber := 1%Z in
  let caseNumber := if negb (flagCase_of fs =? 0)%Z then flagCase_of fs else caseNumber in
  let verbose := if flagVerbose_of fs then flagVerbose_of fs else false in
  (caseNumber, verbose).

(** ** Test cases *)

(** How a function of a test ends: it returns, or the test's goroutine exits (t.Skip, t.Fatal). *)
Inductive testEnd : Type :=
  | Returned (err : option error)
  | Exited (skipped : bool).

Section cases.
Context {W : Type} (testFunc : W → Z → outcome (W * testEnd)).

(** CheckTestCase: whether it exits. *)
Definition CheckTestCase (caseNumber : Z) {T} (cases : list T) : bool :=
  (Z.of_nat (length cases) <? caseNumber)%Z.

(** testFunc for one case, and how RunTestCase ends if not normally; its format is "%s case %d". *)
Definition run_case (testName : string) (w : W) (caseNumber : Z) : outcome (W * option testEnd) :=
  let testName := testName +:+ " case " +:+ pretty caseNumber in
  '(w, e) ← testFunc w caseNumber;
  Ret (w, match e with
          | Returned None => None
          | Returned err => Some (Returned (errors_Wrap err (testName +:+ " returned an error")))
          | Exited _ => Some e
          end).

Definition RunTestCase (fs : Flags) (w : W) (testName : string) {T} (testCases : list T) :
    outcome (W * testEnd) :=
  let '(caseNumber, _) := GetFlagValues fs in
  if CheckTestCase caseNumber testCases then Ret (w, Exited true)
  else if (0 <? caseNumber)%Z then
    '(w, e) ← run_case testName w caseNumber;
    Ret (w, default (Returned None) e)
  else
    r ← for_each (seq 0 (length testCases)) (λ i w,
      '(w, e) ← run_case testName w (Z.of_nat i + 1);
      Ret (match e with Some e => inr (w, e) | None => inl w end)) w;
    Ret (match r with inl w => (w, Returned None) | inr (w, e) => (w, e) end).

(** ** The specification *)

(** The cases that a case number asks for, of n. *)
Definition cases_of (caseNumber : Z) (n : nat) : list Z :=
  if (caseNumber =? 0)%Z then [1%Z]
  else if (0 <? caseNumber)%Z then [caseNumber]
  else Z.of_nat <$> seq 1 n.

(** Running cases one after the other until one does not return nil. *)
Inductive runs (testName : string) : W → list Z → W → testEnd → Prop :=
  | runs_done w : runs testName w [] w (Returned None)
  | runs_next w w1 w2 n ns e :
      testFunc w n = Ret (w1, Returned None) → runs testName w1 ns w2 e →
      runs testName w (n :: ns) w2 e
  | runs_error w w1 n ns err :
      testFunc w n = Ret (w1, Returned (Some err)) →
      runs testName w (n :: ns) w1
        (Returned (Some (EWrap err (testName +:+ " case " +:+ pretty n +:+ " returned an error"))))
  | runs_exit w w1 n ns skipped :
      testFunc w n = Ret (w1, Exited skipped) → runs testName w (n :: ns) w1 (Exited skipped).
End cases.

(** * Lemmas *)

(** After init no case is asked for, if no other package has registered the flags. *)
Lemma init_flags fs : fl_flags fs !! "case" = None → fl_flags fs !! "verbose" = None →
  ∃ fs', init fs = Ret fs' ∧ GetFlagValues fs' = ((-1)%Z, false).
Proof.
  destruct fs as [flags vars]. simpl. intros Hc Hv.
  assert (<["case" := flagCase]> flags !! "verbose" = None) as Hv' by (by rewrite lookup_insert_ne).
  unfold init, RegFlagVar, flag_Var. simpl fl_flags. rewrite Hc. simpl. rewrite Hv'. simpl.
  unfold GetFlagVar. simpl. rewrite (lookup_insert_ne _ "verbose" "case") by done. rewrite !lookup_insert_eq. simpl.
  unfold flagCase, flagVerbose. rewrite (lookup_insert_ne _ 1 0) by done. rewrite lookup_insert_eq. simpl.
  eexists. split; [reflexivity|]. unfold GetFlagValues, flagCase_of, flagVerbose_of. simpl.
  by rewrite (lookup_insert_ne _ flagVerbose flagCase), !lookup_insert_eq by done.
Qed.

(** No flag for a text can be registered. *)
Lemma string_flag_panics fs p name s : fl_flags fs !! name = None → ∃ msg, RegFlagVar fs p name (VString s) = Panic msg.
Proof. intros Hn. unfold RegFlagVar. rewrite Hn. cbn. eauto. Qed.

Section run.
Context {W : Type} (testFunc : W → Z → outcome (W * testEnd)) (testName : string).

Lemma append_assoc (a b c : string) : (a +:+ b) +:+ c = a +:+ (b +:+ c).
Proof. induction a as [|x a IH]; [done|]. exact (f_equal (String x) IH). Qed.

Lemma run_case_runs w n ns w' e : runs testFunc testName w (n :: ns) w' e ↔
  (∃ w1, run_case testFunc testName w n = Ret (w1, None) ∧ runs testFunc testName w1 ns w' e) ∨
  run_case testFunc testName w n = Ret (w', Some e).
Proof.
  unfold run_case. split.
  - inversion 1 as [|? ? ? ? ? ? Hf|? ? ? ? ? Hf|? ? ? ? ? Hf]; subst; rewrite Hf; cbn; [left; eauto|right|by right].
    by rewrite !append_assoc.
  - destruct (testFunc w n) as [[w1 [[err|]|sk]]| |] eqn:Hf; cbn; intros [(w2 & [= <-] & Hr)|[= <- <-]] || intros [(? & ? & ?)|?];
      try done; try by econstructor.
    rewrite !append_assoc. by constructor.
Qed.

(** The loop over the cases is the specification. *)
Lemma loop_runs w ns l w' e : ns = (λ i, Z.of_nat i + 1)%Z <$> l →
  (r ← for_each l (λ i w, '(w, e) ← run_case testFunc testName w (Z.of_nat i + 1);
      Ret (match e with Some e => inr (w, e) | None => inl w end)) w;
   Ret (match r with inl w => (w, Returned None) | inr (w, e) => (w, e) end)) = Ret (w', e)
  ↔ runs testFunc testName w ns w' e.
Proof.
  intros ->. revert w. induction l as [|i l IH]; intros w; cbn [for_each fmap list_fmap].
  - cbn. split; [intros [= <- <-]; constructor|by inversion 1].
  - rewrite run_case_runs. destruct (run_case testFunc testName w (Z.of_nat i + 1)) as [[w1 [e1|]]| |]; cbn.
    + naive_solver.
    + rewrite IH. naive_solver.
    + naive_solver.
    + naive_solver.
Qed.
End run.

(** * Properties *)

(** RunTestCase runs the cases that the flag asks for, one after the other and up to the first
    that does not return nil, whose error comes back wrapped with its number: all cases if the
    number is negative, as it is without the flag, the first if it is 0; it skips the test
    without running any if there is no such case. *)
Lemma RunTestCase_runs {W T} (testFunc : W → Z → outcome (W * testEnd)) fs w testName (testCases : list T) w' e :
  RunTestCase testFunc fs w testName testCases = Ret (w', e) ↔
  if (Z.of_nat (length testCases) <? (GetFlagValues fs).1)%Z then w' = w ∧ e = Exited true
  else runs testFunc testName w (cases_of (flagCase_of fs) (length testCases)) w' e.
Proof.
  unfold RunTestCase, CheckTestCase, cases_of, GetFlagValues.
  set (c := flagCase_of fs). cbn [fst snd].
  assert (∀ caseNumber,
    ('(w1, e1) ← run_case testFunc testName w caseNumber; Ret (w1, default (Returned None) e1)) = Ret (w', e) ↔
    runs testFunc testName w [caseNumber] w' e) as Hone.
  { intros caseNumber. rewrite run_case_runs.
    destruct (run_case testFunc testName w caseNumber) as [[w1 [e1|]]| |]; cbn; [naive_solver| |naive_solver..].
    split; [intros [= <- <-]; left; eexists; split; [done|constructor]|].
    intros [(w2 & [= <-] & Hr)|?]; [|done]. by inversion Hr. }
  destruct (Z.eqb_spec c 0) as [H0|H0]; cbn [negb];
    [set (c1 := 1%Z)|set (c1 := c)]; destruct (Z.ltb_spec (Z.of_nat (length testCases)) c1);
    [naive_solver|apply Hone|naive_solver|].
  destruct (Z.ltb_spec 0 c1); [apply Hone|]. apply loop_runs.
  rewrite <-fmap_S_seq, <-list_fmap_compose. apply list_fmap_ext. intros i k _. simpl. lia.
Qed.

(** The repository's own runs: without flags every case is run, in order. *)
Lemma RunTestCase_default {W T} (testFunc : W → Z → outcome (W * testEnd)) fs fs' w testName (testCases : list T) w' e :
  fl_flags fs !! "case" = None → fl_flags fs !! "verbose" = None → init fs = Ret fs' →
  RunTestCase testFunc fs' w testName testCases = Ret (w', e) ↔
  runs testFunc testName w (Z.of_nat <$> seq 1 (length testCases)) w' e.
Proof.
  intros Hc Hv Hi. destruct (init_flags fs Hc Hv) as (fs1 & Hi1 & Hg).
  rewrite Hi in Hi1. injection Hi1 as <-.
  rewrite RunTestCase_runs, Hg. cbn [fst]. destruct (Z.ltb_spec (Z.of_nat (length testCases)) (-1)); [lia|].
  unfold GetFlagValues in Hg. unfold cases_of. destruct (Z.eqb_spec (flagCase_of fs') 0); [by simplify_eq|].
  cbn in Hg. injection Hg as Hg _. by rewrite Hg.
Qed.

(** Three cases of which the second fails: with the flags' defaults it is the last to run, and
    with -case 3 only the third runs. *)
Definition failing_second (w : list Z) (n : Z) : outcome (list Z * testEnd) :=
  Ret (w ++ [n], Returned (if (n =? 2)%Z then new_error "failed" else None)).
Example RunTestCase_stops :
  (fs ← init (mkFlags ∅ ∅); RunTestCase failing_second fs [] "Test" [tt; tt; tt]) =
  Ret ([1%Z; 2%Z], Returned (Some (EWrap (ENew "failed") "Test case 2 returned an error"))).
Proof. vm_compute. reflexivity. Qed.
Example RunTestCase_third :
  RunTestCase failing_second (mkFlags ∅ {[flagCase := VInt 3]}) [] "Test" [tt; tt; tt] =
    Ret ([3%Z], Returned None) ∧
  RunTestCase failing_second (mkFlags ∅ {[flagCase := VInt 4]}) [] "Test" [tt; tt; tt] =
    Ret ([], Exited true).
Proof. split; vm_compute; reflexivity. Qed.
