(* ===== verification/TestCases.v ===== *)
(** testlogs/cases.go, cases_v1.go and cases_v2.go: the test cases of the repository, and that a
    simulator can be made of every one of them.  Of the logs of testlogs/logs_*.json the file has
    the places: block number, block hash and transaction hash; what else a log has is left open. *)

From S2P Require Import Prelude GoErrors Types Externals PollUtils FileGateway ReorgBlocks ReorgChains ReorgProps.
From S2P Require Import ReorgSim ReorgUtils ReorgFiles.

(** * Definitions *)

(** A place: block number, block hash and the transaction hashes of the logs, in order. *)
Record blockLogs : Set := mkBlockLogs { bl_number : Z; bl_hash : Hash; bl_txs : list Hash }.

(** Address, topics and data of the logs of a file are those of [rest], by position. *)
Abbreviation logRest := (nat → Address * list Hash * list Z).
Definition logs_with (rest : logRest) (places : list blockLogs) : list Log :=
  imap (λ i '(n, h, tx), mkLog (rest i).1.1 (rest i).1.2 (rest i).2 n tx h)
    (places ≫= λ p, (λ tx, (bl_number p, bl_hash p, tx)) <$> bl_txs p).

Definition logs_poolfactory : list blockLogs := [
  mkBlockLogs 15944407
    0x01ce753f3d3e875ad2222e40d17c4da1aa76329323eb8a684beab574344b717e [
      0x3f3ca02d67f0573ce9b00e6a50521efc19b8b50b2c1979c2df7e320d4010b2a9];
  mkBlockLogs 15944419
    0x8be97002abaf0e3f7e0de1e482ae88fe044d22c6dd6799bf6ca973ed97f55d67 [
      0x41e29790ca68bd08062b3ed1670216d49ef458dbe398fafda3918f2322c18068];
  mkBlockLogs 15944444
    0x91ce2b2dddeb7dc99005d89428694ffd5233a798813a916f71d20aeaee75ff88 [
      0x0a751f5d4cf37dc63043006eac4f80113066c567939e83f3ac8990e9626823fd];
  mkBlockLogs 15944455
    0x7e1ce3e23343f21a65e2866c50e996f03e58f404bb99d46113e102ce0d96dd80 [
      0x620be69b041f986127322985854d3bc785abe1dc9f4df49173409f15b7515164];
  mkBlockLogs 15944498
    0x08f2b156e327cf0dafce22443af7f79a9479b987e61320992dfd22a8c7dc9e0e [
      0x408841ec9e43cb58bfeaf1de8bb5244bf2039967178738387719ed3dc4e65795]]%Z.

Definition logs_lp : list blockLogs := [
  mkBlockLogs 15944407
    0x01ce753f3d3e875ad2222e40d17c4da1aa76329323eb8a684beab574344b717e [
      0x3f3ca02d67f0573ce9b00e6a50521efc19b8b50b2c1979c2df7e320d4010b2a9;
      0x3f3ca02d67f0573ce9b00e6a50521efc19b8b50b2c1979c2df7e320d4010b2a9;
      0x3f3ca02d67f0573ce9b00e6a50521efc19b8b50b2c1979c2df7e320d4010b2a9;
      0x3f3ca02d67f0573ce9b00e6a50521efc19b8b50b2c1979c2df7e320d4010b2a9;
      0x3f3ca02d67f0573ce9b00e6a50521efc19b8b50b2c1979c2df7e320d4010b2a9];
  mkBlockLogs 15944408
    0x53f057228b9043815dc3c2259edccd5935d82c8b0790d9f994785e1126da709f [
      0xf81d3c024ac8e4eda75486d613ea537ffd36f279b692bbdcd6a96188a4611480;
      0xf81d3c024ac8e4eda75486d613ea537ffd36f279b692bbdcd6a96188a4611480;
      0x55d2d98764cf11e42568d18e293330d7883b9c771094da4397eca179e00caa63;
      0x55d2d98764cf11e42568d18e293330d7883b9c771094da4397eca179e00caa63;
      0x0e1a083dfe626403f94644d7cadb5f754c589a0ae0a67599a8e9fd8aef254894;
      0x0e1a083dfe626403f94644d7cadb5f754c589a0ae0a67599a8e9fd8aef254894;
      0x5b3d38a9d7cae0b6374bf6aa6be4f87f321722f6a5d11ed313bce2f730d0bfbf;
      0x5b3d38a9d7cae0b6374bf6aa6be4f87f321722f6a5d11ed313bce2f730d0bfbf;
      0xe2bbea0a4789b5dad7ca7e6ecc6b9ddb84eecac533ed926cbaa66ce7e1abac35;
      0xe2bbea0a4789b5dad7ca7e6ecc6b9ddb84eecac533ed926cbaa66ce7e1abac35;
      0xd062c4cdf9f5282f133731359489a4d677728f00fb3457a8248ba20eefe8dd8c;
      0xd062c4cdf9f5282f133731359489a4d677728f00fb3457a8248ba20eefe8dd8c];
  mkBlockLogs 15944409
    0x68702e60d0d6249f99857b72b5b738b60a14bb4b11f01d1d130cde17142e2472 [
      0x8315c133805f1e1ac3650bac5b534aecdf3af376c1e5318ef734dccb8db9279c;
      0x8315c133805f1e1ac3650bac5b534aecdf3af376c1e5318ef734dccb8db9279c;
      0x06b2fcebfee1a9dbe0195642350026b0e6f2c0597e3f4faf3a06c4317afae5f2;
      0x06b2fcebfee1a9dbe0195642350026b0e6f2c0597e3f4faf3a06c4317afae5f2];
  mkBlockLogs 15944411
    0x988dd2bd3e09a0ed19054082cbe15c4dfbac3b4a0335049307bceccbc5dc3d40 [
      0x1db603684cd6c04eec3166f216ebfb86c79bf63de6d0a9b2de535c38217d673d;
      0x1db603684cd6c04eec3166f216ebfb86c79bf63de6d0a9b2de535c38217d673d];
  mkBlockLogs 15944413
    0x954faf1903b73b7b4c90daee196de61724a9ef3d8ff91846fb19801d9fd94ac1 [
      0x4f38e771f8da7f370084bbf69b850a264bf5c1eb9605e0e017c37e0384bf2c17;
      0x4f38e771f8da7f370084bbf69b850a264bf5c1eb9605e0e017c37e0384bf2c17];
  mkBlockLogs 15944415
    0x5565b8b32ca53c54b3eb9696ad80b004e09868f30d11ee96f4a309972c24a3ce [
      0xb0e82d64170d0ccfd51cccb6f12e9507501712fbde1374cd10535f7052b22004;
      0xb0e82d64170d0ccfd51cccb6f12e9507501712fbde1374cd10535f7052b22004;
      0x39fc6611b570eff6f54b0e96c5b68d591fefb2c7222c6b96d706451026401d06;
      0x39fc6611b570eff6f54b0e96c5b68d591fefb2c7222c6b96d706451026401d06;
      0x0d7bbf2c2853f86a1bed89ead9b1575ce9ce2a823537d9d385ac7ed7e2fbc3ed;
      0x0d7bbf2c2853f86a1bed89ead9b1575ce9ce2a823537d9d385ac7ed7e2fbc3ed];
  mkBlockLogs 15944419
    0x8be97002abaf0e3f7e0de1e482ae88fe044d22c6dd6799bf6ca973ed97f55d67 [
      0x951b9697af3e795bc0946409d8943e75bf080cf2f9006f364eedfafcb40f81e3;
      0x951b9697af3e795bc0946409d8943e75bf080cf2f9006f364eedfafcb40f81e3;
      0xbecbcfe6f085251255d6fa354fddbbc46a317cfdc1f025a4d20b91be289b2829;
      0xbecbcfe6f085251255d6fa354fddbbc46a317cfdc1f025a4d20b91be289b2829];
  mkBlockLogs 15944429
    0x1b6d8a755d8e6beacab2d5af3d03668c4016fd7f1d7f4c4434aa641dbec5ce59 [
      0xfd1af6911010157958a1ec97fee69ac45e84fd5c3c881c0d0e9972c5143f14f1;
      0xfd1af6911010157958a1ec97fee69ac45e84fd5c3c881c0d0e9972c5143f14f1;
      0xfd1af6911010157958a1ec97fee69ac45e84fd5c3c881c0d0e9972c5143f14f1;
      0xfd1af6911010157958a1ec97fee69ac45e84fd5c3c881c0d0e9972c5143f14f1;
      0xfd1af6911010157958a1ec97fee69ac45e84fd5c3c881c0d0e9972c5143f14f1]]%Z.

Definition logs_lp_2_1 : list blockLogs := [
  mkBlockLogs 15965717
    0x2da566a984e6936e73aa22489806422c95e0907f8bea701094966dc17df33f7a [
      0x16e2508d7ddb6b779f06fa8fff2a573a076260ba9c7fcbb9592c10bbdeedd82a;
      0x16e2508d7ddb6b779f06fa8fff2a573a076260ba9c7fcbb9592c10bbdeedd82a;
      0x16e2508d7ddb6b779f06fa8fff2a573a076260ba9c7fcbb9592c10bbdeedd82a;
      0x16e2508d7ddb6b779f06fa8fff2a573a076260ba9c7fcbb9592c10bbdeedd82a;
      0x3d04aa5d5c712c9d1dc6e9dc5adb5330f214ca5bed42157c7a4c68fcb2c8bf9b;
      0x3d04aa5d5c712c9d1dc6e9dc5adb5330f214ca5bed42157c7a4c68fcb2c8bf9b;
      0x3d04aa5d5c712c9d1dc6e9dc5adb5330f214ca5bed42157c7a4c68fcb2c8bf9b;
      0x3d04aa5d5c712c9d1dc6e9dc5adb5330f214ca5bed42157c7a4c68fcb2c8bf9b;
      0x700837b0e60fde5bcb4dd498e55bc76555410a7c31bb8a29def955084e4788f1;
      0x700837b0e60fde5bcb4dd498e55bc76555410a7c31bb8a29def955084e4788f1;
      0x700837b0e60fde5bcb4dd498e55bc76555410a7c31bb8a29def955084e4788f1;
      0x700837b0e60fde5bcb4dd498e55bc76555410a7c31bb8a29def955084e4788f1;
      0x71d1188ea6bf4b027618e14ac3bb30bc9bd6cd8e2d8dbcd0ae093e804253c396;
      0x71d1188ea6bf4b027618e14ac3bb30bc9bd6cd8e2d8dbcd0ae093e804253c396;
      0x71d1188ea6bf4b027618e14ac3bb30bc9bd6cd8e2d8dbcd0ae093e804253c396;
      0x71d1188ea6bf4b027618e14ac3bb30bc9bd6cd8e2d8dbcd0ae093e804253c396];
  mkBlockLogs 15965720
    0x3ec2dc348587b199ed4c1eff9d3aed6b1faa6cd330c490fe5ec5d0a515dc4fe5 [
      0xd4d1b4841cecab80023ab3c39ea39c8f7885409144161eac2a7e3bc57f99045a;
      0xd4d1b4841cecab80023ab3c39ea39c8f7885409144161eac2a7e3bc57f99045a];
  mkBlockLogs 15965721
    0x91874723d0076254035648c33006d65b8d32f93ea5bc179c181625833cb3831a [
      0xe2526be084e0dff82f012c158dce49da2a0864882ea6b2faabea3da18d7526d0;
      0xe2526be084e0dff82f012c158dce49da2a0864882ea6b2faabea3da18d7526d0];
  mkBlockLogs 15965723
    0x0ec68a330a6e07cbce0070f449c7c0b292fc2a877165efa57c907ae7a21938f8 [
      0x87a9e1bfda266a3be283ad1d7142262f4da41475e4cf6da07afe32700a144775;
      0x87a9e1bfda266a3be283ad1d7142262f4da41475e4cf6da07afe32700a144775]]%Z.

Definition logs_lp_2_2 : list blockLogs := [
  mkBlockLogs 15965721
    0x91874723d0076254035648c33006d65b8d32f93ea5bc179c181625833cb3831a [
      0x09af27623df92b32728184afd75832ea20eea5024388432e0fd71845ced8ad20;
      0x09af27623df92b32728184afd75832ea20eea5024388432e0fd71845ced8ad20];
  mkBlockLogs 15965722
    0x614adfb3461a9475c2adb048bf95f1a7c3cf402fc902ec3eb583e6c0cb28b6a6 [
      0x0aeca88157cd649f2510bc5b6974dfb6048130c60605042535c83a2ba9aac41a;
      0x0aeca88157cd649f2510bc5b6974dfb6048130c60605042535c83a2ba9aac41a;
      0xd57825b4797621ccc4967560c7498ff136066c12009fb35ded9f55c4e685a140;
      0xd57825b4797621ccc4967560c7498ff136066c12009fb35ded9f55c4e685a140;
      0x617030e0ebc9a1e238d9450f98d577fcc53e87c0cd6b8d39c369124e54c26534;
      0x617030e0ebc9a1e238d9450f98d577fcc53e87c0cd6b8d39c369124e54c26534];
  mkBlockLogs 15965724
    0x329345a965e2b406a6f70c9ddbd8a16c647bb1a9e63eeec0c872b604219da90f [
      0xdd54e03d7a534de8c7c09c80580339fcf5e0ce3d1d37eb7c0e163f0fd15e1fd0;
      0xdd54e03d7a534de8c7c09c80580339fcf5e0ce3d1d37eb7c0e163f0fd15e1fd0;
      0x88214fa46368b83b1cc05a83173464c94f591898da6ed8c9285bd23e7f303d42;
      0x88214fa46368b83b1cc05a83173464c94f591898da6ed8c9285bd23e7f303d42;
      0xff7f6b793e8447c1eeca4aa2350e7affa262de35ed6c97459ea42d4805e8fc11;
      0xff7f6b793e8447c1eeca4aa2350e7affa262de35ed6c97459ea42d4805e8fc11;
      0x33cd124d26ee03e3de39378a039752eaf1e954e8c89d1d1f049a4af11fea1552;
      0x33cd124d26ee03e3de39378a039752eaf1e954e8c89d1d1f049a4af11fea1552;
      0xa5aa6b5d06ee3782c75c9c98ee40dd9b70892125a05527091ce0ad444effc0b7;
      0xa5aa6b5d06ee3782c75c9c98ee40dd9b70892125a05527091ce0ad444effc0b7];
  mkBlockLogs 15965725
    0xb82b249d04f67035278f2fae9be87e32c663cf3f28f096188e4d82e706072221 [
      0xe41078dfae962bc51f825da2bfc7bec9d9266a515fcf84fb31e724f6ce1a44ab;
      0xe41078dfae962bc51f825da2bfc7bec9d9266a515fcf84fb31e724f6ce1a44ab;
      0x2e472651ad168cde58f3ef6026c0687d67b8f82568ef11b92a8eba177ad3ada8;
      0x2e472651ad168cde58f3ef6026c0687d67b8f82568ef11b92a8eba177ad3ada8;
      0xb522f7c815b8bce6998f221b23aded6ccc010a6e4e5b5c076454770ccb226d73;
      0xb522f7c815b8bce6998f221b23aded6ccc010a6e4e5b5c076454770ccb226d73;
      0xea87b4baf470dbef1dcca463cf2e095d53577bfdd01a36fb682f7928ed40bd92;
      0xea87b4baf470dbef1dcca463cf2e095d53577bfdd01a36fb682f7928ed40bd92];
  mkBlockLogs 15965727
    0xc44580cfa0323e57734f0f18d3bb3db877bb968ec0081a9839cd517caee8c02f [
      0x1cd7ec7ba4b178846a4fb6914d9668aac2c3c1254409cb1499c7efd667367a8e;
      0x1cd7ec7ba4b178846a4fb6914d9668aac2c3c1254409cb1499c7efd667367a8e;
      0x65d5927b70d95f0571031b9c1ccd430b443cd6e22640e14fba43a17ad28e5a85;
      0x65d5927b70d95f0571031b9c1ccd430b443cd6e22640e14fba43a17ad28e5a85];
  mkBlockLogs 15965728
    0x96dd4ea0494bb891fd618d27442e4bfb9a35b57e933b9b78fd3a2e4458129b3c [
      0xdb71051808f75e5e622078509700ef6f79c821ffdccb41d54dcddc911644abf7;
      0xdb71051808f75e5e622078509700ef6f79c821ffdccb41d54dcddc911644abf7];
  mkBlockLogs 15965729
    0x0c5b3de97fae2f653fe72a3b7d38511a1ccf1146c49f055d9959b91d69a98edf [
      0x4a644078019a54015b0faa7f1a8bfd57e1328b738fcf30803db6ca2f44878e68;
      0x4a644078019a54015b0faa7f1a8bfd57e1328b738fcf30803db6ca2f44878e68];
  mkBlockLogs 15965730
    0xb72caa537c251167f9380be6dbf0b84ef01b999047dcb036980ce3af7752c189 [
      0xa3b26435519c12d73d9124da1bf18b08562c43f4f98f5ac19455090e35721a71;
      0xa3b26435519c12d73d9124da1bf18b08562c43f4f98f5ac19455090e35721a71];
  mkBlockLogs 15965732
    0x0abb57c384e949ac9642479fc2eccf73fc9dab66f4c8b6d7a57b89a1661ddc08 [
      0x975bbd82b6b4e88e133d6c0549d2d9f7e63030cf3974f8c031ff02efcdfb5579;
      0x975bbd82b6b4e88e133d6c0549d2d9f7e63030cf3974f8c031ff02efcdfb5579;
      0xe20bcc5a6c9d2421385cec8d3d1bf44001b67f204d6761cbd0f8d9c5211eb41c;
      0xe20bcc5a6c9d2421385cec8d3d1bf44001b67f204d6761cbd0f8d9c5211eb41c;
      0x4b687b92add30f3e6fae219e7c0996a0f1fd293fb23017acb7aa464a1937d025;
      0x4b687b92add30f3e6fae219e7c0996a0f1fd293fb23017acb7aa464a1937d025;
      0xbe05cf11f61d779bc74e55cc4b0a3de2e4668367f61c1eb8728cfa6a0d56ec66;
      0xbe05cf11f61d779bc74e55cc4b0a3de2e4668367f61c1eb8728cfa6a0d56ec66;
      0x809102ed5a884893db3c29757e993da19dca4bee6fe6b4f630b781836d68507a;
      0x809102ed5a884893db3c29757e993da19dca4bee6fe6b4f630b781836d68507a;
      0x2619e184e1083ac5cd6ea27d98929870fcee89be8a5b37c9103f02a7f81749e8;
      0x2619e184e1083ac5cd6ea27d98929870fcee89be8a5b37c9103f02a7f81749e8;
      0x3a4dd0a1a2f639631af5181d080450f4203f58abf65ea77299416e2c6d0f5a7a;
      0x3a4dd0a1a2f639631af5181d080450f4203f58abf65ea77299416e2c6d0f5a7a];
  mkBlockLogs 15965733
    0x5b2d2e36c8fc5b8129f8a35d7d443afc2c2d744ed594837a0204983460d7959c [
      0xdb6f42e370ece89315572a90ad89e1e7979904b1d7d5c66503e18dbe45149328;
      0xdb6f42e370ece89315572a90ad89e1e7979904b1d7d5c66503e18dbe45149328;
      0xa9d2a67b50b348911282dd44c1493df2811448717f2542d6ba2f14274609955a;
      0xa9d2a67b50b348911282dd44c1493df2811448717f2542d6ba2f14274609955a];
  mkBlockLogs 15965741
    0x8671eedd0b40ba2714ec7815932f816e140c79bbd6ecac475bd195721f8af697 [
      0x6e2889a16fd2172b243621337628e4b9da8178bb97150b6da6dd5853b49a5d81;
      0x6e2889a16fd2172b243621337628e4b9da8178bb97150b6da6dd5853b49a5d81;
      0xc338999a16b29b78f89af72d196275d524049e6c8c19ed60506ab2e3f3e77259;
      0xc338999a16b29b78f89af72d196275d524049e6c8c19ed60506ab2e3f3e77259;
      0xaa0c0f3ce8bbadbdfb24c55f631d029ee4b2728cb77f8ca5b258093e40da30be;
      0xaa0c0f3ce8bbadbdfb24c55f631d029ee4b2728cb77f8ca5b258093e40da30be;
      0xf40ddfe2d7c6acd2097389a1d12ebc05a9e7f27e1b55bc3f4fa5c9ec5e07fa28;
      0xf40ddfe2d7c6acd2097389a1d12ebc05a9e7f27e1b55bc3f4fa5c9ec5e07fa28;
      0xe3fc3487b4fa934213a1075cf3903bc757adf9ee362e4564ae53900d1542ccec;
      0xe3fc3487b4fa934213a1075cf3903bc757adf9ee362e4564ae53900d1542ccec;
      0x2c5d7fca320b2edcf0ce34cf785d810e572749d01093337a5822bb6021844338;
      0x2c5d7fca320b2edcf0ce34cf785d810e572749d01093337a5822bb6021844338;
      0xc3b4b39e445ca902a5993ff8a953ddfc1bca5bfe1d18f65769c3aa0586bcc2ef;
      0xc3b4b39e445ca902a5993ff8a953ddfc1bca5bfe1d18f65769c3aa0586bcc2ef;
      0x88ee9ee83f83f9c232584fbc7a870aef7140e339cfa3fbe09e96403d2dd6f257;
      0x88ee9ee83f83f9c232584fbc7a870aef7140e339cfa3fbe09e96403d2dd6f257;
      0x6bdedbb256d16d59a80f5034e0eb4ecbaf48a4819acbb2b6657dc175e34d4598;
      0x6bdedbb256d16d59a80f5034e0eb4ecbaf48a4819acbb2b6657dc175e34d4598;
      0x7e40b19a74f83001d5c231e9a232e7387efb6ad8bf26607e8dc53b751bb1d6d4;
      0x7e40b19a74f83001d5c231e9a232e7387efb6ad8bf26607e8dc53b751bb1d6d4];
  mkBlockLogs 15965748
    0x940c7d25b45c39532bdf3a54bcc44e0542c0205993868c172ea41b3205f7e389 [
      0x9b81c774a1584899941a20cdc203d7a6c5b574fba19d320fff5b1e47426af806;
      0x9b81c774a1584899941a20cdc203d7a6c5b574fba19d320fff5b1e47426af806;
      0xc344b017016a5db5c906d11bba84c7fb46e2180414e8c31c8c4e1b45c75e04aa;
      0xc344b017016a5db5c906d11bba84c7fb46e2180414e8c31c8c4e1b45c75e04aa;
      0xc344b017016a5db5c906d11bba84c7fb46e2180414e8c31c8c4e1b45c75e04aa;
      0xc344b017016a5db5c906d11bba84c7fb46e2180414e8c31c8c4e1b45c75e04aa;
      0xc344b017016a5db5c906d11bba84c7fb46e2180414e8c31c8c4e1b45c75e04aa]]%Z.

Definition logs_lp_3_1 : list blockLogs := [
  mkBlockLogs 15965802
    0xfac330e49c99ec3c6d44b83687b5db0f20a1a462e63c749384b79e2c9f70a600 [
      0x46d39220fcddd96df098bcdec2bca201b2b78f9fe8fb4b68f9d8474b3a9204f6;
      0x46d39220fcddd96df098bcdec2bca201b2b78f9fe8fb4b68f9d8474b3a9204f6];
  mkBlockLogs 15965803
    0xfc7b0dcc43d226bfbbbbedb266d4e473728e6f03395bde430a017b06014dca76 [
      0xec295130110ee0b2c2161dc1df15acb13458e86ea2646e7a1b1a99e500c91e55;
      0xec295130110ee0b2c2161dc1df15acb13458e86ea2646e7a1b1a99e500c91e55];
  mkBlockLogs 15965811
    0xf8eb4d7615fad2dc4d2ed41bd6ce2a494197661bef68c98db094b4a0ed0a7230 [
      0x447c32b996710e3e97873905efb676cc503f513671ccd6c75e889504e83375fe;
      0x447c32b996710e3e97873905efb676cc503f513671ccd6c75e889504e83375fe];
  mkBlockLogs 15965816
    0xba952c0fdaacef255c5bd3f584ed2e8242a843a88ebbb9d19561a8404d880311 [
      0x4e9328bc0b68df58e167829c719d8e50d87191ca7271cca87547fff72f52329d;
      0x4e9328bc0b68df58e167829c719d8e50d87191ca7271cca87547fff72f52329d];
  mkBlockLogs 15965827
    0x169a200fddb78f145a03c090043ea725f686734f3347637c7db491d7a56185a6 [
      0x68229622e7025cf5c10f1efd803cf7d02bba7a6987aceec6b498bd052999b4f4;
      0x68229622e7025cf5c10f1efd803cf7d02bba7a6987aceec6b498bd052999b4f4]]%Z.

Definition logs_lp_3_2 : list blockLogs := [
  mkBlockLogs 15965803
    0xfc7b0dcc43d226bfbbbbedb266d4e473728e6f03395bde430a017b06014dca76 [
      0x7aaa4385a338b8adece301b3dc963c0d4f02b0ca53d4427adcb38cd6c87cb1f0;
      0x7aaa4385a338b8adece301b3dc963c0d4f02b0ca53d4427adcb38cd6c87cb1f0];
  mkBlockLogs 15965812
    0x3150be0d70f02dea526062ee5d3963dc65f141c0b5dc86e5f22f1ceea5f073e4 [
      0x612180d90bc20244c07dae729b7cade3d5de05d6bcecfd95de335a01ba14ab5a;
      0x612180d90bc20244c07dae729b7cade3d5de05d6bcecfd95de335a01ba14ab5a];
  mkBlockLogs 15965835
    0xd7a851edf081977f9b25805b6563ebbe8a170e6b1f92439231cf9b652b6f20e7 [
      0xff02ad8cda06586936af5e7eb0b53a0b3499b67576f6db9a3b12693530ff634d;
      0xff02ad8cda06586936af5e7eb0b53a0b3499b67576f6db9a3b12693530ff634d]]%Z.

Definition logs_lp_4 : list blockLogs := [
  mkBlockLogs 15966460
    0x3e0e61be05d22a2832f90aafd06bf185d94bb8e682539314a62a020e91a5efda [
      0xc6c47fc8d70d4313b2476eb7cf3c19c7d9d06d3ca318e8e26609956064977f85;
      0xc6c47fc8d70d4313b2476eb7cf3c19c7d9d06d3ca318e8e26609956064977f85;
      0xdedc2afdce57c7a611ab45e69add9bbbbf23d6ad40c6972c87a58dcc5c1da939;
      0xdedc2afdce57c7a611ab45e69add9bbbbf23d6ad40c6972c87a58dcc5c1da939;
      0x939cd3ac5cdb023c0c84d5d0e198889f7d3364ad823aa7f39362d4e23608f757;
      0x939cd3ac5cdb023c0c84d5d0e198889f7d3364ad823aa7f39362d4e23608f757];
  mkBlockLogs 15966463
    0x092fdeac2be9276d178b6f5ba0d0c41d98374df7c621a17e004901571e9cef31 [
      0x533eb79617ea574c4bab1d3164cb3aefd7fa35c1e8416b00185dca28a7df2dc2;
      0x533eb79617ea574c4bab1d3164cb3aefd7fa35c1e8416b00185dca28a7df2dc2];
  mkBlockLogs 15966464
    0xd6428dc5a36684cffa8f133c2041848c0e4ad0a98e574acd39b81aaf083a921b [
      0x6e23009a3f85e85fa9602382a29f74f4ca3027f4ed5c48fee3229b53c4c51e7d;
      0x6e23009a3f85e85fa9602382a29f74f4ca3027f4ed5c48fee3229b53c4c51e7d];
  mkBlockLogs 15966465
    0x8b31df356b0f06a3daabcf44dc9fbf4fccff5c383fdd4be6ce10e0a3935d97de [
      0x780d305b0b40fbbb83ea2ed03c30944c34088a543d0fa55ed94f9bf8de627f56;
      0x780d305b0b40fbbb83ea2ed03c30944c34088a543d0fa55ed94f9bf8de627f56;
      0x780d305b0b40fbbb83ea2ed03c30944c34088a543d0fa55ed94f9bf8de627f56;
      0x780d305b0b40fbbb83ea2ed03c30944c34088a543d0fa55ed94f9bf8de627f56];
  mkBlockLogs 15966466
    0x055dce0e8093777234055649747748a51678f5a45a1fef63cfeeaa021d473345 [
      0x24666c32111b752566bbfdb633dda58918a459d76adc70c2b311b97a731c604a;
      0x24666c32111b752566bbfdb633dda58918a459d76adc70c2b311b97a731c604a];
  mkBlockLogs 15966469
    0x8960597e73f9f6816433087a12b6d77a9179ed426664a55d33c9b74f02242049 [
      0x3465515a89d02e308ba87939e2af4ffad664351a163896db912737d22a10a20c;
      0x3465515a89d02e308ba87939e2af4ffad664351a163896db912737d22a10a20c];
  mkBlockLogs 15966471
    0x5f597398534756eaea1973a8e3ffeba32f64f21bee2233c1eed952fe0c575b27 [
      0x52f1e7870680fd23b576f4080e9e4c9053c4d77550377e1e65a0d1094b2a499e;
      0x52f1e7870680fd23b576f4080e9e4c9053c4d77550377e1e65a0d1094b2a499e];
  mkBlockLogs 15966472
    0x15ed08fb778b3861dead668c234fc2b32e17b01723e493cbfcc39cb34753a152 [
      0x3c9ebea2a4ab82734b01e3352731bffed5cd78c8dd931b26577d50092f77e8eb;
      0x3c9ebea2a4ab82734b01e3352731bffed5cd78c8dd931b26577d50092f77e8eb];
  mkBlockLogs 15966473
    0x3df83c213d2841f8e85ca68311a591f0f2d067dbc9e9296812a98d9f1ff42be0 [
      0x0d6ae93dc766ae8be6ae975a5a42cffe7ad6327e5cf1dc20c50d60a07f849f14;
      0x0d6ae93dc766ae8be6ae975a5a42cffe7ad6327e5cf1dc20c50d60a07f849f14];
  mkBlockLogs 15966475
    0x06a538b8c098b2a32f9eff639177c721aa2794018040fe5d53f241a60889652b [
      0x7619d75cac56d9c034849a03d71b970861acea9ab13ff58ff6a0c075d1542e62;
      0x7619d75cac56d9c034849a03d71b970861acea9ab13ff58ff6a0c075d1542e62];
  mkBlockLogs 15966477
    0x50bc9d422f44717a311924d960645d4843c70ecb93e8f94e297835835d5d09d0 [
      0xb82ebbde810310e8ebfbfba08be54e91a4ba15eb21aaadf9c1d28474edb3c762;
      0xb82ebbde810310e8ebfbfba08be54e91a4ba15eb21aaadf9c1d28474edb3c762];
  mkBlockLogs 15966479
    0x56dbbda700efbadc8eadeeefcb4ade29960ab4c5f230423d10c05ebd782c3656 [
      0x607b0ec7ce06f5a34b5d84ae802b75c1f1425980f05d9456802522491dd3bfc9;
      0x607b0ec7ce06f5a34b5d84ae802b75c1f1425980f05d9456802522491dd3bfc9]]%Z.

Definition logs_lp_5 : list blockLogs := [
  mkBlockLogs 15966500
    0x6f147a005ff7551fdc0955fc55337ee00a9648e0132ee542e3c6388447e38251 [
      0x35ca6e6bc2a3dd24654dfcc3c5324af03ee419b4225e2173da02d3a131b12824;
      0x35ca6e6bc2a3dd24654dfcc3c5324af03ee419b4225e2173da02d3a131b12824];
  mkBlockLogs 15966505
    0x5b555575c725dcafc4841b457fe9288e5ea9e8a590ad021c9846dfc3d9cf8804 [
      0xc2d9e891071b13a89cc04a97c36236e18a931e39b3eb4725876386891c4f5a86;
      0xc2d9e891071b13a89cc04a97c36236e18a931e39b3eb4725876386891c4f5a86];
  mkBlockLogs 15966508
    0x5d1c5f9daa925c852f9e68147b024b15158f5d07d0d7b7d091eb8d0bbb3d2354 [
      0xce4d791976b1d4bad1de36c36912a47137e22976633d5201ef2db665eecef0ce;
      0xce4d791976b1d4bad1de36c36912a47137e22976633d5201ef2db665eecef0ce];
  mkBlockLogs 15966510
    0x8ffc12ccc5eb4405dd086de7176aa2fe348df41c90eb26cd653bb14008a8c209 [
      0x183ae59a3f9683b052727804e99674d7fb2c4fef80d3bb216f68d9332662ac55;
      0x183ae59a3f9683b052727804e99674d7fb2c4fef80d3bb216f68d9332662ac55];
  mkBlockLogs 15966512
    0xd84ad9827ff3d39513dafadda7beb3fe36e3053a3b820c361b99c7ce1daeff87 [
      0x5c8d178b38d56dfc4447d1fc2c1191036b0bc9c6bf3cb726862d4c7a0d4551af;
      0x5c8d178b38d56dfc4447d1fc2c1191036b0bc9c6bf3cb726862d4c7a0d4551af];
  mkBlockLogs 15966517
    0x84584a3ca2aa9a9fa650cb3c4c4f322e7b26e808da27188c91d2709b628e66ba [
      0xbe35d32c05d5da7dcae3daa5b5606eed66e2313ee9cebe1a7aa9a275f82410d9;
      0xbe35d32c05d5da7dcae3daa5b5606eed66e2313ee9cebe1a7aa9a275f82410d9];
  mkBlockLogs 15966522
    0xb6ac92b53a5d8d693aa1d44029652b639fbc03a3aef70fa7df1d3021917e5b54 [
      0x53f6b4200c700208fe7bb8cb806b0ce962a75e7a31d8a523fbc4affdc22ffc44;
      0x53f6b4200c700208fe7bb8cb806b0ce962a75e7a31d8a523fbc4affdc22ffc44];
  mkBlockLogs 15966525
    0x72483bddd5fd6d65af860d2ca4298d639b64b76a1fbb19883159cd5a6473a986 [
      0xa46b7e3264f2c32789c4af8f58cb11293ac9a608fb335e9eb6f0fb08be370211;
      0xa46b7e3264f2c32789c4af8f58cb11293ac9a608fb335e9eb6f0fb08be370211];
  mkBlockLogs 15966527
    0x52d8eac05707c3f4f3c48fcf5fe7a7c7f492af689c37cefa843687228945cf47 [
      0x2f7b9f5a459b28433003090153e300c5f2793e65f60448b73b93c5bfaef693e8;
      0x2f7b9f5a459b28433003090153e300c5f2793e65f60448b73b93c5bfaef693e8];
  mkBlockLogs 15966530
    0x3a6a52d3cc29d014cb15743d8154b09bd12ef2d046e40cc8d00766565602152c [
      0x7bb7f576889cd33e92bace45433116e21b26bdbd99bc8e12d1378073cef2704e;
      0x7bb7f576889cd33e92bace45433116e21b26bdbd99bc8e12d1378073cef2704e];
  mkBlockLogs 15966532
    0xa1aac16f762551c52364331f12738debd51be4f341e1389cdf5fcbd9b11faab6 [
      0xf1ead2d704cd903038dfd75afd252b9b7928f5070e35550c8daa1a8c5c5941a7;
      0xf1ead2d704cd903038dfd75afd252b9b7928f5070e35550c8daa1a8c5c5941a7;
      0x41f48d4614c1e7333e545d3824b1ca6b19ef640fd335be990d50e4cf36b3a95d;
      0x41f48d4614c1e7333e545d3824b1ca6b19ef640fd335be990d50e4cf36b3a95d];
  mkBlockLogs 15966536
    0x74a89f1079846dba9ce6c6463df4a266fa1f8bbdc464206c75a72922637b2d87 [
      0xeef91b36ec663beac5649f61b87b6fa67bbfddd64d9dcf2992e7e6a04c31c994;
      0xeef91b36ec663beac5649f61b87b6fa67bbfddd64d9dcf2992e7e6a04c31c994]]%Z.

(** The files by the names that the test cases use. *)
Definition logs_files : list (string * list blockLogs) := [
  ("/logs_poolfactory.json", logs_poolfactory);
  ("/logs_lp.json", logs_lp);
  ("/logs_lp_2_1.json", logs_lp_2_1);
  ("/logs_lp_2_2.json", logs_lp_2_2);
  ("/logs_lp_3_1.json", logs_lp_3_1);
  ("/logs_lp_3_2.json", logs_lp_3_2);
  ("/logs_lp_4.json", logs_lp_4);
  ("/logs_lp_5.json", logs_lp_5)].
Definition places_of (file : string) : list blockLogs :=
  default [] (snd <$> find (λ x, String.eqb x.1 file) logs_files).


Record TestConfig : Type := mkTestConfig {
  tc_Param : Param;
  tc_Events : list ReorgEvent;
  tc_FromBlock : Z;
  tc_ToBlock : Z;
  tc_LogsFiles : list string;
}.

(** A literal of one field: {StartBlock: n}. *)
Definition start_at (n : Z) : Param := mkSimParam n 0 0.

Definition TestCasesV1 : list TestConfig := [
  mkTestConfig (start_at 15944390) [mkEvent 0 15944411 []] 15944400 15944500
    ["/logs_poolfactory.json"; "/logs_lp.json"];
  mkTestConfig (start_at 15965710) [mkEvent 0 15965730 []] 15965717 15965748
    ["/logs_lp_2_1.json"; "/logs_lp_2_2.json"];
  mkTestConfig (start_at 15965800) [mkEvent 0 15965811 []] 15965802 15965835
    ["/logs_lp_3_1.json"; "/logs_lp_3_2.json"];
  mkTestConfig (start_at 15966455) [mkEvent 0 15966475 []] 15966460 15966479 ["/logs_lp_4.json"];
  mkTestConfig (start_at 15966490) [mkEvent 0 15966536 []] 15966500 15966536 ["/logs_lp_5.json"];
  mkTestConfig (start_at 15966490) [
    mkEvent 0 15966512 [
      (15966522, [mkMove 15966527 [0x53f6b4200c700208fe7bb8cb806b0ce962a75e7a31d8a523fbc4affdc22ffc44]]);
      (15966525, [mkMove 15966527 [0xa46b7e3264f2c32789c4af8f58cb11293ac9a608fb335e9eb6f0fb08be370211]])]]
    15966500 15966540 ["/logs_lp_5.json"]]%Z.

Definition TestCasesV2 : list TestConfig := [
  mkTestConfig (start_at 15944390) [
    mkEvent 15944430 15944419 [
      (15944419, [mkMove 15944455 [0x41e29790ca68bd08062b3ed1670216d49ef458dbe398fafda3918f2322c18068]]);
      (15944455, [mkMove 15944498 [0x620be69b041f986127322985854d3bc785abe1dc9f4df49173409f15b7515164]])]]
    15944400 15944500 ["/logs_poolfactory.json"; "/logs_lp.json"];
  mkTestConfig (start_at 15966490) [
    mkEvent 15966515 15966512 [
      (15966522, [mkMove 15966527 [0x53f6b4200c700208fe7bb8cb806b0ce962a75e7a31d8a523fbc4affdc22ffc44]])];
    mkEvent 15966525 15966524 [
      (15966525, [mkMove 15966527 [0xa46b7e3264f2c32789c4af8f58cb11293ac9a608fb335e9eb6f0fb08be370211]])]]
    15966500 15966540 ["/logs_lp_5.json"];
  mkTestConfig (start_at 15966465) [
    mkEvent 15966466 15966464 [
      (15966464, [mkMove 15966477 [0x6e23009a3f85e85fa9602382a29f74f4ca3027f4ed5c48fee3229b53c4c51e7d]])];
    mkEvent 0 15966473 [
      (15966473, [mkMove 15966475 [0x0d6ae93dc766ae8be6ae975a5a42cffe7ad6327e5cf1dc20c50d60a07f849f14]])]]
    15966400 15966500 ["/logs_lp_4.json"]]%Z.

(** SetLogsPath; the loop writes to the cases of both lists, which are pointers. *)
Definition set_path (pathToTestLogs : string) (tc : TestConfig) : TestConfig :=
  mkTestConfig (tc_Param tc) (tc_Events tc) (tc_FromBlock tc) (tc_ToBlock tc)
    ((λ logFile, pathToTestLogs +:+ logFile) <$> tc_LogsFiles tc).
Definition SetLogsPath (pathToTestLogs : string) (cases : list TestConfig * list TestConfig) :
    string * (list TestConfig * list TestConfig) :=
  (pathToTestLogs, (set_path pathToTestLogs <$> cases.1, set_path pathToTestLogs <$> cases.2)).

(** ** All orders of the maps of moved logs *)

(** The same event, with its map ranged over in another order. *)
Definition same_event (e e' : ReorgEvent) : Prop :=
  ReorgTrigger e' = ReorgTrigger e ∧ ReorgBlock e' = ReorgBlock e ∧ MovedLogs e' ≡ₚ MovedLogs e.

Fixpoint all_orders (events : list ReorgEvent) : list (list ReorgEvent) :=
  match events with
  | [] => [[]]
  | e :: events => permutations (MovedLogs e) ≫= λ moved,
      (λ events, mkEvent (ReorgTrigger e) (ReorgBlock e) moved :: events) <$> all_orders events
  end.

(** * Lemmas *)

Lemma all_orders_spec events events' : Forall2 same_event events events' → events' ∈ all_orders events.
Proof.
  induction 1 as [|e e' events events' (Ht & Hb & Hp) _ IH]; simpl; [by left|].
  apply list_elem_of_bind. exists (MovedLogs e'). split.
  - apply list_elem_of_fmap. exists events'. split; [|done]. destruct e'; simpl in *. by subst.
  - by apply permutations_Permutation.
Qed.

Lemma ref_chains_length `{SimUtil} events : ∀ m i, length (ref_chains m i events) = S (length events).
Proof. induction events as [|event events IH]; intros m i; simpl; [done|]. by rewrite IH. Qed.

(** Logs that agree on the hash of their block. *)
Definition consistentb (logs : list Log) : bool :=
  forallb (λ l, forallb (λ l', negb (log_BlockNumber l =? log_BlockNumber l')%Z ||
    (log_BlockHash l =? log_BlockHash l')%Z) logs) logs.

Lemma consistentb_spec logs : consistentb logs = true → logs_consistent logs.
Proof.
  unfold consistentb. rewrite forallb_forall. intros Hall l l' Hl%list_elem_of_In%Hall Hl'%list_elem_of_In Hn.
  rewrite forallb_forall in Hl. apply Hl in Hl'. rewrite Hn, Z.eqb_refl in Hl'. by apply Z.eqb_eq.
Qed.

Section cases.
Context `{Gsl} `{SimUtil}.

(** The logs of a test case, and whether a simulator can be made of it in every order. *)
Definition case_logs (rest : string → logRest) (tc : TestConfig) : list (list Log) :=
  (λ file, logs_with (rest file) (places_of file)) <$> tc_LogsFiles tc.
Definition case_ok (rest : string → logRest) (tc : TestConfig) : bool :=
  let logs := mjoin (case_logs rest tc) in
  consistentb logs && forallb (events_ok (MapLogsToNumber logs)) (all_orders (tc_Events tc)).

Lemma cases_ok rest : forallb (case_ok rest) (TestCasesV1 ++ TestCasesV2) = true.
Proof. vm_compute. reflexivity. Qed.
End cases.

(** * Properties *)


(** * Witnesses *)

(** Files whose content is their name, until they are written; the logs of a name that begins
    with the path are those of the rest. *)
#[export, refine] Instance named_files : OsFiles (string → string) := {|
  ReadFile fs name := inl (fs name);
  WriteFile fs name content := (λ n, if String.eqb n name then content else fs n, None);
|}.
Proof. intros fs name content fs' [= <-]. by rewrite String.eqb_refl. Defined.

Fixpoint sdrop (n : nat) (s : string) : string :=
  match n, s with S n, String _ s => sdrop n s | _, _ => s end.
Lemma sdrop_app path file : sdrop (String.length path) (path +:+ file) = file.
Proof. induction path as [|c path IH]; [by destruct file|exact IH]. Qed.

Definition test_path : string := "../../testlogs".
#[export] Instance named_logs : LogsJSON := {|
  unmarshal_logs b := inl (logs_with (λ _, (0%Z, [], [])) (places_of (sdrop (String.length test_path) b)));
|}.
#[export, refine] Instance test_SimUtil : SimUtil := {|
  BigToHash z := (Z.abs z mod 2 ^ 256)%Z;
  seed_Int63 s := ((s + 1) * 1000 mod two63)%Z;
  gsl_FilterSlice A l f := filter (λ x, f x = true) l;
|}.
Proof.
  - done.
  - intros s. by apply Z.mod_pos_bound.
  - done.
Defined.

(** The first case of the second list, with the entries of its map the other way round. *)
Definition case_7 : TestConfig := default (mkTestConfig (start_at 0) [] 0 0 []) (head TestCasesV2).
Definition events_7 : list ReorgEvent :=
  (λ e, mkEvent (ReorgTrigger e) (ReorgBlock e) (reverse (MovedLogs e))) <$> tc_Events case_7.

