(* ===== verification/MockPoller.v ===== *)
(** pkg/components/mock/mock_poller.go: a poller of made-up blocks, for the tests of the
    emitter. *)

From S2P Require Import Prelude GoErrors Types Externals ReorgBlocks.

(** * Definitions *)

Record mockPoller : Type := mkMock {
  currentIndex : nat;
  mock_reorgedBlocks : list Z;
  seen : gmap Z Z;
}.

Definition NewMockPoller (reorgedBlocks : list Z) : mockPoller := mkMock 0 reorgedBlocks ∅.

(** How often a number was polled: a missing key of a Go map reads as 0. *)
Definition seen_of (m : gmap Z Z) (number : Z) : Z := default 0%Z (m !! number).

Section mock.
Context `{SimUtil}.

Definition mock_block (n : Z) : Block := mkBlock false n (BigToHash (to_int64 n)) None [].

(** for n := from; n <= to; n++ { blocks = append(blocks, ...) }. *)
Definition append_blocks (from to : Z) : outcome (list Block) :=
  r ← for_up (R := False) (range_fuel from to) from to
    (λ n blocks, Ret (inl (blocks ++ [mock_block n]))) [];
  match r with inl blocks => Ret blocks | inr v => match v : False with end end.

(** for n := from; n < below; n++ { ... }. *)
Fixpoint append_below (fuel : nat) (n below : Z) (blocks : list Block) : outcome (list Block) :=
  if (n <? below)%Z then
    match fuel with
    | O => Diverge
    | S fuel => append_below fuel (n +₆₄ 1) below (blocks ++ [mock_block n])
    end
  else Ret blocks.

Definition mark_seen (from to : Z) (m : gmap Z Z) : outcome (gmap Z Z) :=
  r ← for_up (R := False) (range_fuel from to) from to
    (λ n m, Ret (inl (<[n := (seen_of m n + 1)%Z]> m))) m;
  match r with inl m => Ret m | inr v => match v : False with end end.

Definition mock_Poll (p : mockPoller) (fromBlock toBlock : Z) :
    outcome (mockPoller * (option PollerResult * option error)) :=
  match mock_reorgedBlocks p !! currentIndex p with
  | None => Panic "index out of range"
  | Some reorgedBlock =>
      let noMoreReorg := bool_decide (length (mock_reorgedBlocks p) = currentIndex p + 1)%nat in
      m ← mark_seen fromBlock toBlock (seen p);
      let p := mkMock (currentIndex p) (mock_reorgedBlocks p) m in
      if (seen_of m reorgedBlock <=? 1)%Z || (3 <? seen_of m reorgedBlock)%Z then
        blocks ← append_blocks fromBlock toBlock;
        Ret (p, (Some (mkResult fromBlock toBlock toBlock blocks []), None))
      else
        let p := if noMoreReorg then p
                 else mkMock (S (currentIndex p)) (mock_reorgedBlocks p) ∅ in
        if negb (fromBlock =? reorgedBlock)%Z then
          good ← append_below (Z.to_nat (reorgedBlock - fromBlock)) fromBlock reorgedBlock [];
          reorged ← append_blocks reorgedBlock toBlock;
          let result := mkResult fromBlock toBlock 0 good reorged in
          Ret (p, (Some (mkResult fromBlock toBlock (LastGoodBlock result) good reorged), None))
        else Ret (p, (None, Some (ESentinel ErrFromBlockReorged)))
  end.

(** * Lemmas *)

Lemma append_blocks_range from to :
  (0 ≤ from)%Z → (to < two64 - 1)%Z → append_blocks from to = Ret (mock_block <$> block_range from to).
Proof.
  intros Hf Ht. unfold append_blocks. rewrite for_up_range by done.
  match goal with |- context [for_each _ ?f _] => set (body := f) end.
  destruct (for_each_ind (λ pre bs, bs = mock_block <$> pre) (λ _ : False, False)
    (block_range from to) body []) as ([bs|[]] & -> & Hbs); [done| |by rewrite Hbs].
  intros pre n post bs _ ->. eexists. split; [done|]. simpl. by rewrite fmap_app.
Qed.

Lemma append_below_range (fuel : nat) n below bs :
  (0 ≤ n)%Z → (below < two64)%Z → (below - n ≤ Z.of_nat fuel)%Z →
  append_below fuel n below bs = Ret (bs ++ (mock_block <$> block_range n (below - 1))).
Proof.
  revert n bs. induction fuel as [|fuel IH]; intros n bs Hn Hb Hf; simpl;
    destruct (Z.ltb_spec n below); [lia| | |];
    try (rewrite block_range_nil by lia; by rewrite app_nil_r).
  rewrite u64_add_small by (unfold is_u64; lia). rewrite IH by lia.
  rewrite (block_range_cons n) by lia. by rewrite <-app_assoc.
Qed.

Lemma mark_seen_run from to m :
  (0 ≤ from)%Z → (to < two64 - 1)%Z → ∃ m', mark_seen from to m = Ret m' ∧
    ∀ n, seen_of m' n = (seen_of m n + if decide (from ≤ n ≤ to)%Z then 1 else 0)%Z.
Proof.
  intros Hf Ht. unfold mark_seen. rewrite for_up_range by done.
  match goal with |- context [for_each _ ?f _] => set (body := f) end.
  destruct (for_each_ind (λ pre m', ∀ n, seen_of m' n =
      (seen_of m n + if decide (n ∈ pre) then 1 else 0)%Z) (λ _ : False, False)
    (block_range from to) body m) as ([m'|[]] & -> & Hm).
  - intros n. rewrite decide_False by set_solver. lia.
  - intros pre k post m' Heq Hm. destruct (block_range_split _ _ _ _ _ Heq) as (_ & Hk & _).
    eexists. split; [done|]. simpl. intros n. unfold seen_of at 1.
    destruct (decide (k = n)) as [<-|Hne].
    + rewrite lookup_insert_eq, decide_True by set_solver. simpl.
      rewrite Hm, decide_False by done. lia.
    + rewrite lookup_insert_ne by done. fold (seen_of m' n). rewrite Hm. f_equal.
      apply decide_ext. set_solver.
  - exists m'. split; [done|]. intros n. rewrite Hm. f_equal. apply decide_ext, elem_of_block_range.
Qed.

(** A poll of a mock with reorged blocks left returns; a result's blocks, good and then
    reorged, are those of the range up to the reorged block and from it on, and the index
    stays within the list. *)
Lemma mock_Poll_result p from to reorgedBlock :
  (0 ≤ from)%Z → (to < two64 - 1)%Z →
  mock_reorgedBlocks p !! currentIndex p = Some reorgedBlock → (0 ≤ reorgedBlock < two64)%Z →
  ∃ p' res err, mock_Poll p from to = Ret (p', (res, err)) ∧
    currentIndex p' < length (mock_reorgedBlocks p') ∧
    match res with
    | Some r => err = None ∧ FromBlock r = from ∧ ToBlock r = to ∧
        ((ReorgedBlocks r = [] ∧ LastGood r = to ∧ GoodBlocks r = mock_block <$> block_range from to) ∨
         (GoodBlocks r = mock_block <$> block_range from (reorgedBlock - 1) ∧
          ReorgedBlocks r = mock_block <$> block_range reorgedBlock to))
    | None => from = reorgedBlock ∧ errors_Is err ErrFromBlockReorged = true
    end.
Proof.
  intros Hf Ht Hi Hr. pose proof (lookup_lt_Some _ _ _ Hi) as Hlt. unfold mock_Poll. rewrite Hi.
  destruct (mark_seen_run from to (seen p) Hf Ht) as (m' & -> & _). simpl.
  destruct (_ || _).
  - rewrite append_blocks_range by done. simpl. eexists _, _, _. split; [done|].
    do 4 (split; [done|]). by left.
  - set (p1 := if bool_decide _ then _ else _).
    assert (currentIndex p1 < length (mock_reorgedBlocks p1)) as Hp1.
    { unfold p1. case_bool_decide; simpl; lia. }
    destruct (Z.eqb_spec from reorgedBlock) as [->|Hne]; simpl; [by eexists _, _, _|].
    rewrite append_below_range by lia. simpl. rewrite append_blocks_range by lia. simpl.
    eexists _, _, _. split; [done|]. split; [done|]. do 3 (split; [done|]). by right.
Qed.
End mock.
