(* ===== verification/ReorgExamples.v ===== *)
(** Witnesses of the theorems on the simulated chain, and the chain that moving logs below
    the reorg block spoils. *)

From S2P Require Import Prelude GoErrors Types Externals SortedSet EthClient Batch BlockTracker PollUtils.
From S2P Require Import PollPolicy Poller PollerSpec PollRun PollHonest DemoChain PollerProps PollerFailures ReorgBlocks.
From S2P Require Import ReorgChains ReorgMoves ReorgForks ReorgProps ReorgSim ReorgSimStates.
From S2P Require Import ReorgSimProps ReorgSimExit ReorgSimPoll ReorgUtils.

(** * Definitions *)

#[export, refine] Instance demo_SimUtil : SimUtil := {|
  BigToHash z := (Z.abs z mod 2 ^ 256)%Z;
  seed_Int63 s := ((s + 1) * 1000 mod two63)%Z;
  gsl_FilterSlice A l f := filter (λ x, f x = true) l;
|}.
Proof.
  - done.
  - intros s. by apply Z.mod_pos_bound.
  - done.
Defined.

Definition sim_log (n tx : Z) : Log := mkLog 1 [9%Z] [] n tx (100 + n).

(** Blocks 5, 6 and 7; the first event moves a log from 7 to 6, the second one back. *)
Definition demo_logs_list : list Log :=
  [sim_log 5 51; sim_log 6 61; sim_log 7 71; sim_log 7 72].
Definition demo_mapped : gmap Z (list Log) := MapLogsToNumber demo_logs_list.
Definition demo_events : list ReorgEvent :=
  [mkEvent 6 6 [(7%Z, [mkMove 6 [71%Z]])]; mkEvent 0 5 [(6%Z, [mkMove 7 [71%Z]])]].
Definition demo_sim_param : Param := mkSimParam 3 2 10.

(** An event that validateReorgEvent takes, with a target below its reorg block. *)
Definition low_events : list ReorgEvent := [mkEvent 7 7 [(7%Z, [mkMove 5 [71%Z]])]].

(** * Lemmas *)

Definition mapped_okb (m : gmap Z (list Log)) : bool :=
  forallb (λ '(n, logs), bool_decide (logs ≠ []) &&
    forallb (λ l, (log_BlockNumber l =? n)%Z &&
      forallb (λ l', (log_BlockHash l =? log_BlockHash l')%Z) logs) logs) (map_to_list m).

Lemma mapped_okb_spec m : mapped_okb m = true → mapped_ok m.
Proof.
  unfold mapped_okb. rewrite forallb_forall. intros Hm n logs Hl.
  apply elem_of_map_to_list, list_elem_of_In, Hm in Hl.
  apply andb_true_iff in Hl as [Hne%bool_decide_eq_true Hl]. rewrite forallb_forall in Hl.
  split; [done|]. split.
  - intros l Hin%list_elem_of_In%Hl. apply andb_true_iff in Hin as [?%Z.eqb_eq _]. done.
  - intros l l' Hin%list_elem_of_In%Hl Hin'%list_elem_of_In.
    apply andb_true_iff in Hin as [_ Hf]. rewrite forallb_forall in Hf. by apply Hf, Z.eqb_eq in Hin'.
Qed.

Lemma demo_mapped_ok : mapped_ok demo_mapped.
Proof. by apply mapped_okb_spec. Qed.

Definition demo_start : gmap Z simBlock := ref_start demo_mapped (first_reorg demo_events).
Definition demo_chains : list (gmap Z simBlock) := ref_chains demo_start 0 demo_events.

Lemma demo_events_fit : events_ok demo_mapped demo_events = true.
Proof. vm_compute. reflexivity. Qed.

(** A query without a filter makes no log panic. *)
Definition open_query (from to : Z) : FilterQuery := mkQuery (Some from) (Some to) None None.

Lemma open_query_ref_fits chains from to :
  (0 ≤ from ≤ to)%Z → (to < two64 - 1)%Z → ref_query_fits chains (open_query from to).
Proof.
  intros Hr Ht. constructor.
  - exists from, to. done.
  - intros. by exists true.
Qed.

Definition demo_made : ReorgSim :=
  match NewReorgSimFromLogs demo_sim_param demo_events demo_mapped with
  | Ret (inl r) => r
  | _ => mkReorgSim [] demo_sim_param [] 0 0 0 ∅ [] 0
  end.

(** * Witnesses *)

Lemma NewBlockChain_matches_reference_witness :
  ∃ hp chain rs, NewBlockChain demo_mapped demo_events = Ret (hp, (chain, rs)) ∧
    pure_chain hp <$> chain :: rs = demo_chains.
Proof.
  exact (NewBlockChain_matches_reference demo_mapped demo_events demo_mapped_ok eq_refl).
Defined.


(** Three queries over the first trigger block, then two over the second. *)
Definition demo_queries : list FilterQuery :=
  [open_query 5 7; open_query 5 7; open_query 6 7; open_query 5 7; open_query 5 7].

Lemma simulator_serves_reference_witness :
  ∃ r r', NewReorgSimFromLogs demo_sim_param demo_events demo_mapped = Ret (inl r) ∧
    run_queries r demo_queries = Ret (r', (λ logs, (logs, None)) <$>
      ref_answers (set_trigger <$> demo_events) demo_chains 0 demo_queries).
Proof.
  apply (simulator_serves_reference demo_sim_param demo_mapped demo_events demo_queries
    demo_mapped_ok demo_events_fit).
  repeat (apply Forall_cons_2; [apply open_query_ref_fits; lia|]). apply Forall_nil_2.
Defined.

(** The hashes that the five queries see: the forks come with the second and the fifth. *)
Example demo_hashes :
  ((λ ls : list Log, log_BlockHash <$> ls) <$> ref_answers (set_trigger <$> demo_events) demo_chains 0 demo_queries) =
  [[105; 106; 107; 107]; [105; 1006; 1006; 1007]; [1006; 1006; 1007];
   [105; 1006; 1006; 1007]; [2005; 2006; 2007; 2007]]%Z.
Proof. vm_compute. reflexivity. Qed.

(** A simulator of empty chains: 3, 3 (again), 5, a fork back to 6, 6, 8, and the exit. *)
Definition bare_sim : ReorgSim :=
  sim_state [] demo_sim_param (set_trigger <$> demo_events) ∅ [∅; ∅] 0 0.
Definition bare_calls : list simCall :=
  [CallBlockNumber; CallBlockNumber; CallBlockNumber; CallFilterLogs (open_query 5 7);
   CallFilterLogs (open_query 5 7); CallBlockNumber; CallBlockNumber; CallBlockNumber].

Lemma simulator_exits_witness :
  ∃ r', sim_calls bare_sim bare_calls = Ret (r', 5) ∧
    (5 ≤ (Z.of_nat (length demo_events) + 1) * (steps_from_start demo_sim_param + 1))%Z.
Proof.
  destruct (sim_calls bare_sim bare_calls) as [[r' k]| |] eqn:Hc;
    [|exfalso; revert Hc; vm_compute; discriminate..].
  assert (k = 5) as -> by (revert Hc; vm_compute; congruence).
  exists r'. split; [reflexivity|].
  destruct (simulator_exits [] demo_sim_param demo_events ∅ [∅; ∅] bare_sim bare_calls r' 5)
    as [Hle _].
  - reflexivity.
  - vm_compute. repeat split; discriminate.
  - reflexivity.
  - repeat (apply Forall_cons_2; [vm_compute; split; [discriminate|reflexivity]|]).
    apply Forall_nil_2.
  - exact Hc.
  - exact Hle.
Defined.

Lemma filter_query_fits hp chain rs from to :
  (0 ≤ from ≤ to)%Z → (to < two63)%Z → query_fits hp chain rs (filter_query from to None None) from to.
Proof.
  intros Hr Ht. constructor; simpl; rewrite ?to_int64_small by lia; [done..|lia|].
  intros. by exists true.
Qed.

(** A new poller on the simulator with the first event triggered: the poll forks it. *)
Lemma Poll_on_simulator_witness :
  ∃ hp chain rs pl', NewReorgSimFromLogs demo_sim_param demo_events demo_mapped =
      Ret (inl (sim_state hp demo_sim_param (set_trigger <$> demo_events) chain rs 0 0)) ∧
    let events := set_trigger <$> demo_events in
    Poll true (demo_poller true PolicyFast)
        (sim_state hp demo_sim_param events chain rs 1 7) 5 7 =
      Ret (pl', sim_state hp demo_sim_param events chain rs 2 6,
        (Some (spec_result (demo_poller true PolicyFast) (served_header hp events chain rs 1)
           (logs_between hp (chain_no chain rs 1) None None 5 7) 5 7),
         spec_error (demo_poller true PolicyFast) (served_header hp events chain rs 1)
           (logs_between hp (chain_no chain rs 1) None None 5 7) 5)).
Proof.
  destruct (NewReorgSimFromLogs_run demo_sim_param demo_mapped demo_events demo_mapped_ok
    demo_events_fit) as (hp & chain & rs & Hnew & Hok & Hlen & _).
  destruct (Poll_on_simulator hp demo_sim_param (set_trigger <$> demo_events) chain rs true
    (demo_poller true PolicyFast) 1 7 5 7) as (pl' & Hp & _);
    [exact Hlen|exact Hok|discriminate|apply New_wf|unfold range_ok; lia|lia
    |split; discriminate|by left; eexists|apply filter_query_fits; lia|].
  exists hp, chain, rs, pl'. split; [exact Hnew|exact Hp].
Defined.

(** * Properties *)

(** A move below the reorg block spoils the old chain.  validateReorgEvent looks at the
    sources of the moves only, and below the reorg block the forked chain shares its blocks
    with the chain before the event; so an event that moves transaction 71 from block 7 to
    block 5 and reorgs from 7 is taken, and the chain before the reorg then has it twice. *)
Lemma low_moves_spoil_old_chain :
  mapped_ok demo_mapped ∧ validateReorgEvent low_events = inl low_events ∧
  ∃ hp chain c, NewBlockChain demo_mapped low_events = Ret (hp, (chain, [c])) ∧
    count_occ Z.eq_dec (log_TxHash <$> demo_logs_list) 71%Z = 1 ∧
    count_occ Z.eq_dec (chain_txs (pure_chain hp chain)) 71%Z = 2 ∧
    count_occ Z.eq_dec (chain_txs (pure_chain hp c)) 71%Z = 1.
Proof.
  split; [exact demo_mapped_ok|]. split; [reflexivity|].
  destruct (NewBlockChain demo_mapped low_events) as [[hp [chain [|c [|? ?]]]]| |] eqn:E;
    try (exfalso; revert E; vm_compute; discriminate).
  exists hp, chain, c. revert E. vm_compute. intros E. injection E as <- <- <-.
  repeat split.
Qed.
