(* ===== verification/ServiceTest.v ===== *)
(** pkg/servicetest: the whole watcher on the simulator, as services are tested, and the
    debugging service. *)

From S2P Require Import Prelude GoErrors Types SortedSet Externals EthClient Batch BlockTracker PollUtils.
From S2P Require Import PollPolicy Poller PollerSpec PollRun PollHonest PollerFailures DataGateway EmitterBlocks Emitter.
From S2P Require Import EmitterProps EngineStates MetadataTracker Engine EngineSpec EngineProps EngineRuns Watcher EngineLoop.
From S2P Require Import System SystemLemmas SystemProps SystemRuns Components ComponentsProps ReorgBlocks ReorgChains ReorgForks.
From S2P Require Import ReorgSim ReorgSimStates ReorgSimProps ReorgSimPoll.

#[local] Arguments Nat.div : simpl never.

(** * Definitions *)

(** TestCase. *)
Record TestCase : Type := mkTestCase {
  tc_Param : Param;
  tc_Events : list ReorgEvent;
  tc_LogsFiles : list string;
  tc_DataGatewayFirstRun : bool;
  tc_Policy : Z;
}.

Definition DefaultServiceTestConfig (startBlock logLevel policy : Z) : Config :=
  mkConfig EmptyString startBlock 10 true true 2 0 logLevel policy.

(** TestComponents; dataGatewayGet and dataGatewaySet are one object, and the simulator is the
    only client. *)
Record TestComponents (S : Type) : Type := mkTestComponents {
  tst_conf : Config;
  tst_client : ReorgSim;
  tst_serviceEngine : S;
  tst_dataGateway : fakeRedisMem;
}.
Arguments mkTestComponents {S}.
Arguments tst_conf {S}.
Arguments tst_client {S}.
Arguments tst_serviceEngine {S}.
Arguments tst_dataGateway {S}.

Section servicetest.
Context `{SortedSet SS} `{HashText} `{EthUtil} `{Gsl} `{SimUtil} {S A : Type} `{!ServiceEngine S A}.
Abbreviation test_system := (system SS ReorgSim fakeRedisMem S A).

(** InitTestComponents, on the logs of the files. *)
Definition InitTestComponents (conf : Config) (serviceEngine : S) (param : Param)
    (events : list ReorgEvent) (logs : gmap Z (list Log)) (firstRun : bool) :
    outcome (TestComponents S) :=
  r ← NewReorgSimFromLogs param events logs;
  match r with
  | inr _ => Panic "failed to create ReorgSim"
  | inl sim =>
      Ret (mkTestComponents conf sim serviceEngine (NewDataGatewayMem (StartBlock conf) (negb firstRun)))
  end.

(** The watcher that RunServiceTestComponents makes with [next] unused channel, after
    RunService's SetDoHeader, and with the emitter in loopEmit. *)
Definition RunServiceTestComponents (next : chanRef) (tc : TestComponents S) :
    chanRef * superWatcher SS ReorgSim fakeRedisMem fakeRedisMem S A :=
  let '(next, (emitter, engine)) := NewDefault next (tst_conf tc) (Some (tst_client tc))
    (Some (tst_dataGateway tc)) (Some (tst_dataGateway tc)) (Some (tst_serviceEngine tc)) None None in
  (next, sw_SetDoHeader (mkSuperWatcher emitter engine) false).

Definition test_watcher (tc : TestComponents S) : superWatcher SS ReorgSim fakeRedisMem fakeRedisMem S A :=
  (RunServiceTestComponents 0 tc).2.
Definition test_start (tc : TestComponents S) : test_system :=
  system_of (test_watcher tc) (enter_loopEmit new_emitterStatus) (tst_client tc) (tst_dataGateway tc)
    (tst_serviceEngine tc).
Definition test_emitter (tc : TestComponents S) : emitter := emitter_of (test_watcher tc).
End servicetest.

(** ** RunService *)

Definition is_exit (err : option error) : bool := errors_Is err ErrExitBlockReached.

(** The two loops, and whether their context is cancelled, which only the goroutine of
    emitter.Loop does, after Loop has returned the exit error and after a second
    emitter.Shutdown; closing a closed channel panics. *)
Inductive testState (T W : Type) : Type :=
  | TestRuns (s : loops T W) (cancelled : bool)
  | TestPanics.
Arguments TestRuns {T W}.
Arguments TestPanics {T W}.

Section RunService.
Context `{HashText} `{EthUtil} `{Gsl} `{EmitterEnv W} `{!EngineSide T W}.

(** Before that no step can read ctx.Err(): it is a step for whatever error that would be. *)
Inductive test_step (e : emitter) (ctxErr : error) : testState T W → testState T W → Prop :=
  | test_open s s' :
      (∀ anyErr, loop_step e anyErr s s') → test_step e ctxErr (TestRuns s false) (TestRuns s' false)
  | test_done s s' :
      loop_step e ctxErr s s' → test_step e ctxErr (TestRuns s true) (TestRuns s' true)
  | test_cancel s err :
      lp_emitter s = Stopped err → is_exit (Some err) = true →
      test_step e ctxErr (TestRuns s false)
        (if lp_open s then TestRuns (mkLoops (lp_emitter s) (lp_pending s) false (lp_results s)
           (lp_errors s) (lp_engine s) (lp_world s)) true
         else TestPanics).

Inductive test_steps (e : emitter) (ctxErr : error) : testState T W → testState T W → Prop :=
  | tests_refl x : test_steps e ctxErr x x
  | tests_more x1 x2 x3 :
      test_steps e ctxErr x1 x2 → test_step e ctxErr x2 x3 → test_steps e ctxErr x1 x3.

(** What retErr can hold in the end: the error of the loop that assigned it last. *)
Definition retErrs (emitterErr : error) (engineErr : option error) : list error :=
  (if is_exit (Some emitterErr) then [] else [emitterErr]) ++ from_option (λ err, [err]) [] engineErr.

(** What RunService returns: it waits for the emitter unless the engine returns the exit error. *)
Inductive RunService_returns : testState T W → option error → Prop :=
  | run_exit s c err :
      lp_errors s = ErrReturned err → is_exit err = true → RunService_returns (TestRuns s c) None
  | run_assigned s c emitterErr engineErr err :
      lp_emitter s = Stopped emitterErr → lp_errors s = ErrReturned engineErr →
      is_exit engineErr = false → err ∈ retErrs emitterErr engineErr →
      RunService_returns (TestRuns s c) (Some err)
  | run_nil s c emitterErr engineErr :
      lp_emitter s = Stopped emitterErr → lp_errors s = ErrReturned engineErr →
      is_exit engineErr = false → retErrs emitterErr engineErr = [] →
      RunService_returns (TestRuns s c) None.
End RunService.

(** ** The debugging service (debug_service_engine.go): it calls functions that its user injects
    and checks where reorged logs are *)

(** DebugServiceEngine; a function that is not injected is nil.  The functions act on the
    user's state. *)
Record DebugServiceEngine (W : Type) : Type := mkDebugService {
  ReorgedAt : Z;
  EmitterFilterRange : Z;
  HandleFuncGoodLog : option (W → Log → outcome (W * option error));
  HandleFuncReorgedLog : option (W → Log → outcome (W * option error));
  HandleFuncEmitterError : option (W → error → outcome (W * option error));
}.
Arguments mkDebugService {W}.
Arguments ReorgedAt {W}.
Arguments EmitterFilterRange {W}.
Arguments HandleFuncGoodLog {W}.
Arguments HandleFuncReorgedLog {W}.
Arguments HandleFuncEmitterError {W}.

Section debug.
Context {W : Type}.
Implicit Types (e : DebugServiceEngine W) (w : W) (log : Log).

(** Calling an injected function, or nothing. *)
Definition call_injected {B} (f : option (W → B → outcome (W * option error))) w (x : B) :
    outcome (W * option error) :=
  match f with Some f => f w x | None => Ret (w, None) end.

(** Logs one after the other until a call fails: what every loop of the service does. *)
Definition each_log (f : W → Log → outcome (W * option error)) w (logs : list Log) :
    outcome (W * option error) :=
  res ← for_each logs (λ log w,
    '(w, err) ← f w log;
    Ret (match err with Some err => inr (w, err) | None => inl w end)) w;
  Ret (match res with inl w => (w, None) | inr (w, err) => (w, Some err) end).

(** HandleResult looks at the reorged blocks only. *)
Definition debug_HandleResult e w (result : PollerResult) : outcome (W * option error) :=
  each_log (call_injected (HandleFuncReorgedLog e)) w (ReorgedBlocks result ≫= Logs).

(** The artifacts that both methods return are nil. *)
Definition debug_HandleGoodLogs e w (logs : list Log) : outcome (W * option error) :=
  each_log (call_injected (HandleFuncGoodLog e)) w logs.

(** The bound that a reorged log must keep, in uint64 arithmetic. *)
Definition out_of_place e log : bool :=
  negb (log_BlockNumber log =? ReorgedAt e)%Z &&
  (ReorgedAt e +₆₄ EmitterFilterRange e <? log_BlockNumber log)%Z.

Definition debug_HandleReorgedLogs e w (logs : list Log) : outcome (W * option error) :=
  each_log (λ w log,
    '(w, err) ← call_injected (HandleFuncReorgedLog e) w log;
    Ret (w, match err with
      | Some err => Some err
      | None => if out_of_place e log
                then Some (ENew "reorgedAt is different from logs passed to HandleReorgedLogs")
                else None
      end)) w logs.

Definition debug_HandleEmitterError e w (err : error) : outcome (W * option error) :=
  match HandleFuncEmitterError e with
  | Some f => f w err
  | None => Ret (w, Some err)
  end.
End debug.

(** * Lemmas *)

Section turns.
Context `{SortedSet SS} `{HashText} `{EthUtil} `{Gsl} `{SimUtil} `{!GetStateDataGateway G}.
Context `{!SetStateDataGateway G} {S A : Type} `{!ServiceEngine S A}.
Context (hp : blockHeap) (param : Param) (events : list ReorgEvent) (chain : BlockChain) (rs : list BlockChain).
Context (Hlen : length rs = length events) (Hok : Forall (chain_ok hp) (chain :: rs)).
Implicit Types (y : system SS ReorgSim G S A) (e : emitter).
Let sim := sim_state hp param events chain rs.

(** Asking for the block number does not fork. *)
Lemma sim_BlockNumber_state p block :
  ∃ block' r, sim_BlockNumber (sim p block) = Ret (sim p block', r).
Proof. unfold sim_BlockNumber. repeat case_match; by eexists _, _. Qed.

Lemma answers_sim lf e s (w w2 : watcherWorld SS ReorgSim G) v last current p block :
  @answers _ (watcher_env lf) e s w w2 v last current → ww_client w = sim p block →
  ∃ block', ww_client w2 = sim p block'.
Proof.
  intros (w1 & rec & err & Hget & _ & _ & Hbn) Hc.
  simpl in Hget, Hbn. unfold watcher_GetLastRecordedBlock in Hget. unfold watcher_BlockNumber in Hbn.
  apply bind_Ret_inv in Hget as ([g r] & _ & [= <- _]). simpl in *.
  apply bind_Ret_inv in Hbn as ([c r'] & Hbn & Hx). rewrite Hc in Hbn.
  destruct (sim_BlockNumber_state p block) as (block' & r'' & Hs). rewrite Hs in Hbn.
  injection Hbn as <- <-. injection Hx as <- _. by exists block'.
Qed.

(** The logs of a served block that the query keeps are among those of the query. *)
Lemma served_logs k addrs tops from to n b l :
  (from ≤ n ≤ to)%Z → block_of hp (chain_no chain rs k) n = Some b → l ∈ sb_logs b →
  kept_log addrs tops l = true →
  logs_at n (logs_between hp (chain_no chain rs k) addrs tops from to) ≠ [].
Proof.
  intros Hn Hb Hl Hk.
  destruct (chain_ok_block _ _ _ _ (chain_no_ok hp chain rs Hok k) Hb) as [_ Hbl].
  destruct (Hbl l Hl) as [Hln _].
  assert (l ∈ logs_at n (logs_between hp (chain_no chain rs k) addrs tops from to)) as Hin.
  { apply elem_of_logs_at. split; [done|]. unfold logs_between. apply list_elem_of_bind.
    exists n. rewrite Hb. simpl. split; [by apply list_elem_of_filter|by apply elem_of_block_range]. }
  intros Hx. rewrite Hx in Hin. by apply not_elem_of_nil in Hin.
Qed.
End turns.

Section runs.
Context `{HashText} `{EthUtil} `{Gsl} `{EmitterEnv W} `{!EngineSide T W}.
Implicit Types (s : loops T W).

(** The turn in which the client reports the exit block ends loopEmit with its error. *)
Lemma exit_turn e sv w w1 w2 rec gerr n err :
  env_GetLastRecordedBlock w = Ret (w1, (rec, gerr)) →
  (gerr = None ∨ errors_Is gerr ErrRecordNotFound = true) →
  env_BlockNumber w1 = Ret (w2, (n, Some err)) →
  is_exit (Some err) = true → error_is err errNoNewBlock = false →
  ∃ sv' err', loop_turn e sv w = Ret (w2, (slept sv, inr (sv', err'))) ∧ is_exit (Some err') = true.
Proof.
  intros Hg Hgerr Hb He Hnn. unfold loop_turn, emitter_computeFromBlockToBlock. rewrite Hg. simpl.
  set (found := match gerr with Some _ => _ | None => _ end).
  assert (∃ v last, found = inr (v, last)) as (v & last & ->).
  { subst found. destruct Hgerr as [->|Hr]; [eexists _, _; reflexivity|].
    destruct gerr; [rewrite Hr|]; eexists _, _; reflexivity. }
  rewrite Hb. simpl. rewrite Hnn, andb_false_r. unfold errors_Is. simpl. rewrite Hnn.
  eexists _, _. split; [reflexivity|exact He].
Qed.

(** While the context is open, the emitter's Loop does not return. *)
Lemma open_step_runs e s s' :
  (∀ anyErr, loop_step e anyErr s s') → (∀ err, lp_emitter s ≠ Stopped err) →
  ∀ err, lp_emitter s' ≠ Stopped err.
Proof.
  intros Hstep Hs err Hs'.
  pose proof (Hstep (ESentinel errNoNewBlock)) as Hx.
  pose proof (Hstep (ESentinel ErrRecordNotFound)) as Hy.
  inversion Hx; subst; simpl in *; try by eapply Hs.
  inversion Hy; subst; simpl in *; try by eapply Hs.
  repeat match goal with Hz : emitter_step _ _ _ _ _ (Stopped _) _ |- _ => inversion Hz; clear Hz end.
  congruence.
Qed.

Definition test_waits (x : testState T W) : Prop :=
  ∃ s, x = TestRuns s false ∧ ∀ err, lp_emitter s ≠ Stopped err.

Lemma test_steps_wait e ctxErr x x' :
  test_steps e ctxErr x x' → test_waits x → test_waits x'.
Proof.
  induction 1 as [|x1 x2 x3 _ IH Hstep]; [done|]. intros Hw. destruct (IH Hw) as (s & -> & Hs).
  inversion Hstep as [? s' Hl| |? err He]; subst; [|by destruct (Hs err)].
  exists s'. split; [done|]. by eapply open_step_runs.
Qed.

(** What engine.Loop has returned does not change. *)
Lemma loop_step_errors e ctxErr s s' err :
  loop_step e ctxErr s s' → lp_errors s = ErrReturned err → lp_errors s' = ErrReturned err.
Proof. by inversion 1. Qed.

Lemma test_steps_errors e ctxErr x x' err :
  test_steps e ctxErr x x' → test_waits x → (∃ s, x = TestRuns s false ∧ lp_errors s = ErrReturned err) →
  ∃ s, x' = TestRuns s false ∧ lp_errors s = ErrReturned err.
Proof.
  induction 1 as [|x1 x2 x3 Hs IH Hstep]; [done|]. intros Hw He.
  destruct (IH Hw He) as (s1 & -> & He1). destruct (test_steps_wait _ _ _ _ Hs Hw) as (? & [= <-] & Hn).
  inversion Hstep as [? s' Hl| |? err' Herr]; subst; [|by destruct (Hn err')].
  exists s'. split; [done|]. by eapply (loop_step_errors e (ESentinel errNoNewBlock)).
Qed.

Lemma test_steps_trans e ctxErr x1 x2 x3 :
  test_steps e ctxErr x1 x2 → test_steps e ctxErr x2 x3 → test_steps e ctxErr x1 x3.
Proof. intros H12 H23. induction H23; [done|]. by eapply tests_more; [apply IHtest_steps|]. Qed.

Lemma test_steps_one e ctxErr s s' :
  (∀ anyErr, loop_step e anyErr s s') → test_steps e ctxErr (TestRuns s false) (TestRuns s' false).
Proof. intros Hs. by eapply tests_more; [apply tests_refl|apply test_open]. Qed.

Lemma waiting_returns x r :
  test_waits x → RunService_returns x r →
  r = None ∧ ∃ s err, x = TestRuns s false ∧ lp_errors s = ErrReturned err ∧ is_exit err = true.
Proof.
  intros (s & -> & Hs) Hr. inversion Hr; subst; try by edestruct Hs.
  split; [done|]. by eexists s, _.
Qed.
End runs.

(** ** The debugging service *)

Section lemmas.
Context {W : Type}.
Implicit Types (e : DebugServiceEngine W) (w : W).

Lemma each_log_pure (f : Log → option error) w logs :
  each_log (λ w log, Ret (w, f log)) w logs = Ret (w, head (omap f logs)).
Proof.
  unfold each_log. induction logs as [|log logs IH]; [done|]. simpl.
  destruct (f log) as [err|]; simpl; [done|]. exact IH.
Qed.

(** Without injected functions the service does nothing with good logs and results, and it
    fails on reorged logs exactly when one of them is further than a filter range above the
    block where the reorg is expected. *)
Lemma debug_service_checks reorgedAt range w logs result err :
  let e := mkDebugService reorgedAt range None None None in
  debug_HandleGoodLogs e w logs = Ret (w, None) ∧ debug_HandleResult e w result = Ret (w, None) ∧
  debug_HandleEmitterError e w err = Ret (w, Some err) ∧
  ∃ err', debug_HandleReorgedLogs e w logs = Ret (w, err') ∧
    (is_Some err' ↔ Exists (λ log, out_of_place e log = true) logs).
Proof.
  intros e. unfold debug_HandleGoodLogs, debug_HandleResult, debug_HandleReorgedLogs, call_injected. simpl.
  assert (∀ logs : list Log, omap (λ _, @None error) logs = []) as Hnone by (intros l; by induction l).
  rewrite !(each_log_pure (λ _, None)), !Hnone. do 3 (split; [done|]).
  set (f := λ log, if out_of_place e log then
    Some (ENew "reorgedAt is different from logs passed to HandleReorgedLogs") else None).
  eexists. split; [exact (each_log_pure f w logs)|].
  induction logs as [|log logs IH]; simpl; [rewrite Exists_nil; split; [by intros []|done]|].
  rewrite Exists_cons. unfold f at 1. destruct (out_of_place e log); simpl; [naive_solver|].
  rewrite IH. naive_solver.
Qed.
End lemmas.

(** * Properties *)

Section properties.
Context `{SortedSet SS} `{HashText} `{EthUtil} `{Gsl} `{SimUtil} {S A : Type} `{!ServiceEngine S A}.
Abbreviation test_system := (system SS ReorgSim fakeRedisMem S A).

(** A test starts a watcher on the simulated chain: for logs grouped by block and events
    that fit, the components are made without a panic, and for a configuration that detects
    reorgs the watcher that RunServiceTestComponents makes of them begins a history, with the
    simulator before its first query as client; events that move logs from below their reorg
    block make InitTestComponents panic. *)
Lemma service_test_starts number_of conf (service : S) param events logs firstRun :
  mapped_ok logs → cfg_DoReorg conf = true → policy_ok (cfg_Policy conf) →
  (events_ok logs events = true →
   ∃ hp chain rs tc,
     InitTestComponents conf service param events logs firstRun = Ret tc ∧
     tst_client tc = sim_state hp param (set_trigger <$> events) chain rs 0 0 ∧
     Forall (chain_ok hp) (chain :: rs) ∧ length rs = length (set_trigger <$> events) ∧
     history number_of (test_emitter (SS:=SS) (A:=A) tc) (test_start tc : test_system) []) ∧
  (∀ made err, NewBlockChain logs events = Ret made → validateReorgEvent events = inr err →
   InitTestComponents conf service param events logs firstRun = Panic "failed to create ReorgSim").
Proof.
  intros Hm Hdr Hpol. split; unfold InitTestComponents.
  - intros Hfit. destruct (NewReorgSimFromLogs_run param logs events Hm Hfit)
      as (hp & chain & rs & -> & Hok & Hlen & _).
    eexists hp, chain, rs, _. split; [reflexivity|]. do 3 (split; [done|]).
    apply history_new; [apply New_wf| |intros; apply New_known|done|done].
    unfold poller_conf, sy_poller. simpl. rewrite Hdr. by repeat (split; [done|]); eauto.
  - intros [hp [chain rs]] err Hb Hv. unfold NewReorgSimFromLogs. rewrite Hb. simpl.
    unfold NewReorgSim. by rewrite Hv.
Qed.

(** C22: The service follows the simulated reorgs: a turn of a watcher on the simulator, in any
    of its states and after any history, goes well when service and gateway do, and afterwards
    every kept log's block of the chain that is served after the turn's query is done, unless
    it was once undone, and every remembered block that this chain has replaced is undone; when
    the query is the second one over a trigger block, that chain is already the forked one. *)
Theorem service_follows_simulation `{!SetStateDataGateway G, !GetStateDataGateway G} number_of hp param
    events chain rs lf e (y : system SS ReorgSim G S A) calls w2 v last current from to p block :
  let addrs := addresses (sy_poller y) in
  let tops := topics (sy_poller y) in
  let k := served_after events p from to in
  let served := served_header hp events chain rs k in
  length rs = length events → Forall (chain_ok hp) (chain :: rs) → events ≠ [] →
  history number_of e y calls → ww_client (sy_watcher y) = sim_state hp param events chain rs p block →
  cheap_policy (policy (sy_poller y)) → query_fits hp chain rs (filter_query from to addrs tops) from to →
  numbered number_of served from to →
  system_works (SS:=SS) (C:=ReorgSim) (G:=G) (S:=S) (A:=A) lf e → env_succeeds (S * G) A →
  turn_range lf e y w2 v last current from to →
  ∃ y' evs calls' block',
    system_turn lf e y = Ret (y', (evs, calls', TurnOk)) ∧ history number_of e y' (calls ++ calls') ∧
    ww_client (sy_watcher y') = sim_state hp param events chain rs (next_count events p from to) block' ∧
    (∀ n b l, (from ≤ n ≤ to)%Z → block_of hp (chain_no chain rs k) n = Some b → l ∈ sb_logs b →
       kept_log addrs tops l = true → let h := StringerToLowerString (sb_hash b) in
       times_undone h (calls ++ calls') = 0 → 1 ≤ times_done h (calls ++ calls')) ∧
    (∀ n b, (from ≤ n ≤ to)%Z → remembered (sy_poller y) n = Some b →
       BHash b ≠ header_Hash (served n) → 1 ≤ times_undone (Block_String b) (calls ++ calls')).
Proof.
  intros addrs tops k served Hlen Hok Hev Hh Hc Hpol Hq Hnum Hw Hsucc Hrange.
  pose proof (history_ok _ _ _ _ Hh) as [Hsys _].
  pose proof Hrange as (Ha & _ & _ & Hr & Hle).
  pose proof (ok_conf _ _ _ Hsys) as (_ & _ & Htr & _).
  destruct (answers_sim hp param events chain rs lf _ _ _ _ _ _ _ p block Ha Hc) as (block1 & Hc2).
  destruct (sim_polled hp param events chain rs lf (sy_poller y) p block1 from to) as (pl' & Hpd);
    [done..|apply (ok_poller _ _ _ Hsys)|done|done|done|by left|done|].
  rewrite <-Hc2 in Hpd.
  set (logs_of := λ q, logs_between hp (chain_no chain rs k) (q_Addresses q) (q_Topics q) from to).
  destruct (system_turn_polled number_of logs_of served from to Hnum lf e y w2 v last current pl'
    (sim_state hp param events chain rs (next_count events p from to)
      (next_block events p from to block1))) as (y' & calls' & how & Ht & Hend); [done..|].
  destruct how as [| |x]; [|done|by destruct Hend]. destruct Hend as (_ & _ & _ & _ & Hc' & _).
  assert (∀ evs, system_turn lf e y = Ret (y', (evs, calls', TurnOk)) →
    polled_turn number_of e y y' logs_of served from to evs calls') as Hturn.
  { intros evs Ht'. constructor. by eexists lf, w2, v, last, current, pl', _. }
  specialize (Hturn _ Ht).
  destruct (polled_turn_follows number_of e y y' logs_of served from to _ calls calls' Hh Hturn) as [Hdo Hundo].
  eexists y', _, calls', _. split; [done|]. split; [by eapply history_turn|]. split; [done|].
  split; [|done]. intros n b l Hn Hb Hl Hk h.
  specialize (Hdo n Hn). unfold served, served_header, served_block in Hdo. rewrite Hb in Hdo.
  apply Hdo. by eapply served_logs.
Qed.
End properties.

Section run_service.
Context `{HashText} `{EthUtil} `{Gsl} `{EmitterEnv W} `{!EngineSide T W}.
Implicit Types (s : loops T W) (x : testState T W).

(** C23: RunService returns nothing but nil, and that only for the exit error: cancel is called
    by no one but the goroutine that waits for emitter.Loop, which waits for cancel.  So when
    engine.Loop returns any other error of the service, or nil, RunService waits for the
    emitter forever and the test never sees the error. *)
Theorem RunService_only_exits e ctxErr s x :
  (∀ err, lp_emitter s ≠ Stopped err) → test_steps e ctxErr (TestRuns s false) x →
  x ≠ TestPanics ∧ (∀ r, RunService_returns x r → r = None) ∧
  ∀ s1 err, x = TestRuns s1 false → lp_errors s1 = ErrReturned err → is_exit err = false →
    ∀ x' r, test_steps e ctxErr x x' → ¬ RunService_returns x' r.
Proof.
  intros Hs Hsteps. assert (test_waits x) as Hw by (eapply test_steps_wait; [done|by exists s]).
  split; [by destruct Hw as (? & -> & _)|]. split; [intros r Hr; by apply (waiting_returns x r Hw Hr)|].
  intros s1 err Hx He Hne x' r Hsteps' Hr.
  assert (test_waits x') as Hw' by by eapply test_steps_wait.
  destruct (waiting_returns x' r Hw' Hr) as (_ & s2 & err2 & -> & He2 & Hex).
  destruct (test_steps_errors e ctxErr x (TestRuns s2 false) err) as (s3 & [= <-] & He3);
    [done|done|by exists s1|]. congruence.
Qed.

End run_service.
