(* ===== verification/ServiceTestExamples.v ===== *)
(** The theorems on service tests at concrete inputs: the simulated chain of ReorgExamples.v
    watched with the default configuration of tests. *)

From S2P Require Import Prelude GoErrors Types Externals SortedSet EthClient Batch BlockTracker PollUtils.
From S2P Require Import PollPolicy Poller PollerSpec PollRun PollHonest DemoChain PollerProps PollerFailures PollerExamples.
From S2P Require Import DataGateway EmitterBlocks Emitter EmitterProps EmitterExamples EngineStates MetadataTracker.
From S2P Require Import Engine EngineSpec EngineProps EngineRuns EngineExamples Watcher System SystemLemmas SystemProps.
From S2P Require Import SystemRuns EngineLoop Components ComponentsProps ComponentsExamples.
From S2P Require Import ReorgBlocks ReorgChains ReorgForks ReorgSim ReorgSimStates ReorgSimProps ReorgSimPoll.
From S2P Require Import ReorgExamples ServiceTest.

(** * Definitions *)

Definition test_conf : Config := DefaultServiceTestConfig 5 0 PolicyFast.
Definition test_param : Param := mkSimParam 5 2 10.
Definition test_events : list ReorgEvent := set_trigger <$> demo_events.

(** The number of a block from its hash: as made up, as in the logs, or after a reorg. *)
Definition test_number (h : Hash) : Z :=
  if (h <? 100)%Z then h else if (h <? 1000)%Z then (h - 100)%Z else (h mod 1000)%Z.

Definition test_sim (hp : blockHeap) (chain : BlockChain) (rs : list BlockChain) (block : Z) : ReorgSim :=
  sim_state hp test_param test_events chain rs 0 block.

(** The watcher of a test on a host with a record. *)
Definition test_tc (sim : ReorgSim) : TestComponents demoService :=
  mkTestComponents test_conf sim demo_service (mkMem 5 true).
Definition test_system_of (sim : ReorgSim) : system MapSet ReorgSim fakeRedisMem demoService nat :=
  test_start (test_tc sim).
Definition test_e : emitter := mkEmitter test_conf true.

(** A world whose client reports the exit block, with a service that passes errors on. *)
Record exitWorld : Set := mkExit {}.
Definition exit_error : error := EWrap (ESentinel ErrExitBlockReached) "exit block 10 reached".

#[export] Instance exit_EmitterEnv : EmitterEnv exitWorld := {|
  env_GetLastRecordedBlock w := Ret (w, (20%Z, None));
  env_BlockNumber w := Ret (w, (10%Z, Some exit_error));
  env_Poll w from to := Ret (w, (Some (fail_result from to), None));
  env_DoReorg w := true;
|}.
#[export] Instance exit_Service : ServiceEngine exitWorld nat := {|
  HandleGoodBlocks w bs arts := Ret (w, (∅, None));
  HandleReorgedBlocks w bs arts := Ret (w, (∅, None));
  HandleEmitterError w err := Ret (w, Some err);
|}.
#[export] Instance exit_Gateway : SetStateDataGateway exitWorld := {|
  SetLastRecordedBlock w n := Ret (w, None);
|}.

(** * Lemmas *)

Lemma test_works : system_works (SS:=MapSet) (C:=ReorgSim) (G:=fakeRedisMem)
  (S:=demoService) (A:=nat) true test_e.
Proof.
  split; [done|]. split; [unfold engine_conf_ok; simpl; lia|]. split; [split|].
  - intros w w' n err. simpl. unfold watcher_GetLastRecordedBlock. simpl.
    unfold mem_GetLastRecordedBlock. destruct (mem_ok _); [done|]. by intros [= <- _ <-].
  - intros w w' n err. simpl. unfold watcher_BlockNumber. simpl. unfold sim_BlockNumber.
    repeat case_match; simpl; intros; simplify_eq; done.
  - apply paired_returns; intros; by eexists.
Qed.

Lemma test_env_succeeds : env_succeeds (demoService * fakeRedisMem) nat.
Proof. split; [|split]; intros; by eexists _, _ || by eexists. Qed.

(** The hashes of the range of the first turn, on the chain of the reference. *)
Lemma test_numbered hp chain rs :
  pure_chain hp <$> chain :: rs = demo_chains →
  numbered test_number (served_header hp test_events chain rs 0) 6 15.
Proof.
  intros Hp n Hn. unfold served_header, served_block. rewrite <-pure_lookup.
  rewrite (pure_no hp chain rs demo_chains Hp).
  assert (Forall (λ n, test_number (header_Hash (sim_header
    match (demo_chains !! 0%nat : option (gmap Z simBlock)) ≫= lookup n with
    | Some b => b
    | None => missing_block (default (mkEvent 0 0 []) (test_events !! 0%nat)) 0 n
    end)) = n) (block_range 6 15)) as Hall by (repeat constructor; vm_compute; reflexivity).
  rewrite Forall_forall in Hall. by apply (Hall n), elem_of_block_range.
Qed.

Lemma test_history sim : history test_number test_e (test_system_of sim) [].
Proof.
  apply history_new; [apply New_wf| |intros; apply New_known|done|repeat split; simpl; lia || done].
  split; [unfold policy_ok; simpl; split; discriminate|]. split; [done|]. split; [by eexists|done].
Qed.

(** The first turn polls blocks 6 to 15. *)
Lemma test_range hp chain rs :
  turn_range true test_e (test_system_of (test_sim hp chain rs 0))
    (mkWorld (sy_poller (test_system_of (test_sim hp chain rs 0))) (test_sim hp chain rs 5) (mkMem 5 true))
    (set_GoBackFirstStart true new_emitterStatus) 5 5 6 15.
Proof.
  split; [eexists _, 5%Z, None; repeat split; reflexivity|].
  split; [repeat split; vm_compute; reflexivity || discriminate|].
  split; [reflexivity|]. split; [unfold range_ok; lia|lia].
Qed.

(** * Witnesses *)

Lemma service_test_starts_witness :
  ∃ tc, InitTestComponents test_conf demo_service test_param demo_events demo_mapped true = Ret tc ∧
    history test_number (test_emitter (SS:=MapSet) (A:=nat) tc)
      (test_start tc : system MapSet ReorgSim fakeRedisMem demoService nat) [].
Proof.
  destruct (service_test_starts (SS:=MapSet) (A:=nat) test_number test_conf demo_service
    test_param demo_events demo_mapped true) as [Hs _];
    [exact demo_mapped_ok|reflexivity|unfold policy_ok; split; discriminate|].
  destruct (Hs demo_events_fit) as (hp & chain & rs & tc & Hi & _ & _ & _ & Hh).
  exists tc. split; [exact Hi|exact Hh].
Defined.

Lemma service_follows_simulation_witness :
  ∃ hp chain rs y' evs calls,
    NewReorgSimFromLogs test_param demo_events demo_mapped = Ret (inl (test_sim hp chain rs 0)) ∧
    system_turn true test_e (test_system_of (test_sim hp chain rs 0)) = Ret (y', (evs, calls, TurnOk)) ∧
    history test_number test_e y' ([] ++ calls).
Proof.
  destruct (NewReorgSimFromLogs_run test_param demo_mapped demo_events demo_mapped_ok
    demo_events_fit) as (hp & chain & rs & Hnew & Hok & Hlen & Hp).
  destruct (service_follows_simulation test_number hp test_param test_events chain rs true test_e
    (test_system_of (test_sim hp chain rs 0)) []
    (mkWorld (sy_poller (test_system_of (test_sim hp chain rs 0))) (test_sim hp chain rs 5) (mkMem 5 true))
    (set_GoBackFirstStart true new_emitterStatus) 5 5 6 15 0 0 Hlen Hok)
    as (y' & evs & calls & _ & Ht & Hh & _);
    [discriminate|apply test_history|reflexivity|split; discriminate|apply filter_query_fits; lia
    |exact (test_numbered hp chain rs Hp)|apply test_works|apply test_env_succeeds|apply test_range|].
  exists hp, chain, rs, y', evs, calls. split; [exact Hnew|]. split; [exact Ht|exact Hh].
Defined.

Definition exit_start : loops (metadataTracker MapSet nat) exitWorld :=
  at_boundary (InLoopEmit (enter_loopEmit new_emitterStatus)) ResReceives ErrReceives
    newMetadataTracker mkExit.

(** The engine has returned an error of the service. *)
Definition failed_loops : loops (metadataTracker MapSet nat) exitWorld :=
  mkLoops (AtLoop new_emitterStatus) [] true ResReceives (ErrReturned (new_error "service failed"))
    newMetadataTracker mkExit.

Lemma RunService_only_exits_witness :
  let ctxErr := ENew "context canceled" in
  let failed := TestRuns failed_loops false in
  failed ≠ TestPanics ∧ ¬ ∃ x r, test_steps test_e ctxErr failed x ∧ RunService_returns x r.
Proof.
  destruct (RunService_only_exits test_e (ENew "context canceled") failed_loops
    (TestRuns failed_loops false)) as (Hp & _ & Hn); [discriminate|apply tests_refl|].
  split; [exact Hp|]. intros (x & r & Hs & Hr).
  exact (Hn failed_loops _ eq_refl eq_refl eq_refl x r Hs Hr).
Defined.

