(* ===== verification/DemoData.v ===== *)
(** examples/demoservice: sub-engines, entities, artifacts, write logs, and what the example
    service uses of go-ethereum's texts and ABI decoding. *)

From Stdlib Require Import Ascii.
From S2P Require Import Prelude GoErrors Types Externals DataGateway FileGateway.

(** * Definitions *)

(** SubEngineEnum is a uint8. *)
Definition SubEngineInvalid : Z := 0.
Definition SubEngineUniswapv3Factory : Z := 1.
Definition SubEngineUniswapv3Pool : Z := 2.
Definition SubEngineOneInchLimitOrder : Z := 3.
Definition SubEngineENS : Z := 4.

Definition SubEngine_String (se : Z) : outcome string :=
  if (se =? SubEngineInvalid)%Z then Ret "SUBENGINE_INVALID"
  else if (se =? SubEngineUniswapv3Factory)%Z then Ret "SUBENGINE_UNISWAPV3POOLFACTORY"
  else if (se =? SubEngineUniswapv3Pool)%Z then Ret "SUBENGINE_UNISWAPV3POOl"
  else if (se =? SubEngineOneInchLimitOrder)%Z then Ret "SUBENGINE_ONEINCHLIMITORDER"
  else if (se =? SubEngineENS)%Z then Ret "SUBENGINE_ENS"
  else Panic "unhandled demo usecase".

(** entity.Uniswapv3PoolCreated, which is also a map key. *)
Record Uniswapv3PoolCreated : Set := mkPool {
  pool_Address : Address;
  pool_Token0 : Address;
  pool_Token1 : Address;
  pool_Fee : Z;
  pool_BlockCreated : Z;
  pool_BlockHash : Hash;
  pool_TxHash : Hash;
}.
Abbreviation Pool := Uniswapv3PoolCreated (only parsing).

#[export] Instance Pool_eq_dec : EqDecision Uniswapv3PoolCreated.
Proof. solve_decision. Defined.
#[export] Instance Pool_countable : Countable Uniswapv3PoolCreated.
Proof.
  apply (inj_countable' (λ p, (pool_Address p, pool_Token0 p, pool_Token1 p, pool_Fee p,
    pool_BlockCreated p, pool_BlockHash p, pool_TxHash p))
    (λ '(a, t0, t1, f, n, h, t), mkPool a t0 t1 f n h t)).
  by intros [].
Defined.

(** entity.ENS; the zero time is [None]. *)
Record ENS : Set := mkENS {
  ens_ID : string;
  ens_Name : string;
  ens_TLD : string;
  ens_Owner : string;
  ens_Expires : option Z;
  ens_TxHash : string;
  ens_BlockHash : string;
  ens_BlockNumber : Z;
}.

(** ENSEvent. *)
Definition NullEvent : string := "NULL".
Definition RegisteredRegistrar : string := "RegisteredRegistrar".
Definition RevertRegisterRegistrar : string := "REVERTRegisteredRegistrar".
Definition RegisteredController : string := "RegisteredController".
Definition RevertRegisterController : string := "REVERTRegisteredController".

(** ENSArtifact; BlockEvents is a map, that is a reference or nil. *)
Record ENSArtifact : Set := mkENSArtifact {
  ea_ID : string;
  ea_RegisterBlockNumber : Z;
  ea_LastEvent : string;
  ea_BlockEvents : option nat;
  ea_ENS : ENS;
}.

(** The dynamic values of superwatcher.Artifact that the example makes: nil, a slice of
    artifacts, a PoolFactoryArtifact (a map: a reference or nil), an ENSArtifact. *)
Inductive any : Type :=
  | AnyNil
  | AnySlice (l : list any)
  | AnyPool (artifact : option nat)
  | AnyENS (artifact : ENSArtifact).

(** The method ForSubEngine, for the values that have it. *)
Definition ForSubEngine (a : any) : option Z :=
  match a with
  | AnyPool _ => Some SubEngineUniswapv3Factory
  | AnyENS _ => Some SubEngineENS
  | _ => None
  end.

(** A service engine value and the world that its methods change.  Artifacts come as a slice
    of any; a nil map of results is [None]. *)
Class DemoEngine (E W : Type) : Type := {
  demo_HandleGoodBlocks : E → W → list Block → list any →
    outcome (W * (option (gmap Z (list any)) * option error));
  demo_HandleReorgedBlocks : E → W → list Block → list any →
    outcome (W * (option (gmap Z (list any)) * option error));
  demo_HandleEmitterError : E → W → error → outcome (W * option error);
}.

(** What go-ethereum's and gsl's texts of hashes and addresses are used for: the lower-case
    text of an address is a key, and neither text has a space. *)
Fixpoint no_space (s : string) : bool :=
  match s with
  | EmptyString => true
  | String c s => negb (Ascii.eqb c " "%char) && no_space s
  end.

Class EthText `{HashText} : Type := {
  HashString : Hash → string;
  AddressString : Address → string;
  HexToAddress : string → Address;
  gsl_ToLower : string → string;
  StringerToLowerString_Hash h : StringerToLowerString h = gsl_ToLower (HashString h);
  gsl_ToLower_Hash h : gsl_ToLower (HashString h) = HashString h;
  AddressLower_inj a a' :
    gsl_ToLower (AddressString a) = gsl_ToLower (AddressString a') → a = a';
  Hash_no_space h : no_space (StringerToLowerString h) = true;
  AddressLower_no_space a : no_space (gsl_ToLower (AddressString a)) = true;
}.

(** gsl.StringerToLowerString of an address. *)
Definition AddressLower `{EthText} (a : Address) : string := gsl_ToLower (AddressString a).

(** ** Contracts and their ABI *)

(** The values that unpacking puts into its map. *)
Inductive abiValue : Set :=
  | AbiAddress (a : Address)
  | AbiBig (z : Z)
  | AbiString (s : string).

(** w3utils.Contract as far as the service reads it, for any type of abi.ABI. *)
Record ContractEvent : Set := mkContractEvent { event_ID : Hash; event_Name : string }.
Record Contract (ABI : Type) : Type := mkContract {
  contract_Address : Address;
  ContractABI : ABI;
  ContractEvents : list ContractEvent;
}.
Arguments mkContract {ABI}.
Arguments contract_Address {ABI}.
Arguments ContractABI {ABI}.
Arguments ContractEvents {ABI}.

(** abi.ABI's UnpackIntoMap on an empty map. *)
Class AbiUnpack (ABI : Type) : Type := {
  UnpackIntoMap : ABI → string → list Z → gmap string abiValue + error;
}.

(** w3utils.CollectEventHashes. *)
Definition CollectEventHashes (events : list ContractEvent) : list Hash := event_ID <$> events.

(** logutils. *)
Definition UnpackLogDataIntoMap `{AbiUnpack ABI} (contractABI : ABI) (eventKey : string)
    (logData : list Z) : gmap string abiValue + error :=
  match UnpackIntoMap contractABI eventKey logData with
  | inr err => inr (EWrap err ("failed to unpack eventKey " +:+ eventKey))
  | inl unpacked => inl unpacked
  end.

(** ExtractFieldFromUnpacked; [as_type] is the type assertion. *)
Definition ExtractFieldFromUnpacked {T} (as_type : abiValue → option T)
    (unpacked : gmap string abiValue) (field : string) : T + error :=
  match unpacked !! field with
  | None => inr (ENew ("field " +:+ field +:+ " not found in unpacked"))
  | Some v =>
      match as_type v with
      | Some value => inl value
      | None => inr (ENew ("type assertion failed: field " +:+ field))
      end
  end.

Definition as_address (v : abiValue) : option Address :=
  match v with AbiAddress a => Some a | _ => None end.
Definition as_big (v : abiValue) : option Z := match v with AbiBig z => Some z | _ => None end.
Definition as_string (v : abiValue) : option string :=
  match v with AbiString s => Some s | _ => None end.

(** ** Write logs (debug_datagateway.go) *)

(** strings.Split(s, " "). *)
Fixpoint strings_Split (s : string) : list string :=
  match s with
  | EmptyString => [EmptyString]
  | String c s =>
      if Ascii.eqb c " "%char then EmptyString :: strings_Split s
      else match strings_Split s with x :: l => String c x :: l | [] => [String c EmptyString] end
  end.

(** strconv.ParseInt(s, 10, 64). *)
Definition ParseInt (s : string) : Z + error :=
  let unsigned (neg : bool) s :=
    match ParseUint s with
    | inr err => inr err
    | inl un =>
        if negb neg && (two63 <=? un)%Z then inr (ENew "strconv.ParseInt: value out of range")
        else if neg && (two63 <? un)%Z then inr (ENew "strconv.ParseInt: value out of range")
        else inl (if neg then (- un)%Z else un)
    end in
  match s with
  | String c s' =>
      if Ascii.eqb c "+"%char then unsigned false s'
      else if Ascii.eqb c "-"%char then unsigned true s'
      else unsigned false s
  | EmptyString => unsigned false s
  end.

(** WriteLog.Unmarshal: the action, the key, the block number and the hash. *)
Definition WriteLog_Unmarshal `{HashText} (s : string) : string * string * Z * Hash + error :=
  let malformed := inr (ENew ("malformed ensWriteLogs: " +:+ s)) in
  match strings_Split s with
  | s0 :: _ :: s2 :: s3 :: s4 :: s5 :: s6 :: _ =>
      if negb (String.eqb s0 "SET") && negb (String.eqb s0 "DEL") then malformed
      else if negb (String.eqb s3 "BLOCK") then malformed
      else if negb (String.eqb s5 "HASH") then malformed
      else match ParseInt s4 with
           | inr _ => malformed
           | inl blockNumber => inl (s0, s2, wrap64 blockNumber, HexToHash s6)
           end
  | _ => malformed
  end.

(** The text of a write: the action with the kind of its key, the key, and the block. *)
Definition write_log (action kind key : string) (number : Z) (hash : string) : string :=
  action +:+ " " +:+ kind +:+ " " +:+ key +:+ " BLOCK " +:+ decimal number +:+ " HASH " +:+ hash.

(** * Lemmas *)

Lemma strings_Split_word a : no_space a = true → strings_Split a = [a].
Proof.
  induction a as [|c a IH]; [done|]. simpl. intros [Hc Ha]%andb_true_iff.
  apply negb_true_iff in Hc. rewrite Hc. by rewrite IH.
Qed.

Lemma strings_Split_app a b :
  no_space a = true → strings_Split (a +:+ String " " b) = a :: strings_Split b.
Proof.
  induction a as [|c a IH]; [done|]. simpl. intros [Hc Ha]%andb_true_iff.
  apply negb_true_iff in Hc. rewrite Hc. by rewrite IH.
Qed.

(** What ParseUint reads is digits only. *)
Lemma parse_digits_no_space s : ∀ n z, parse_digits n s = inl z → no_space s = true.
Proof.
  induction s as [|c s IH]; [done|]. intros n z. simpl.
  destruct (Ascii.eqb_spec c " ") as [->|Hc]; [done|].
  destruct (digit_of c); [|done]. destruct (_ <? two64)%Z; [|done]. apply IH.
Qed.

Lemma ParseUint_no_space s z : ParseUint s = inl z → no_space s = true.
Proof. destruct s as [|c s]; [done|]. apply parse_digits_no_space. Qed.

Lemma ParseInt_ParseUint s z : ParseUint s = inl z → (z < two63)%Z → ParseInt s = inl z.
Proof.
  intros Hs Hz. unfold ParseInt. destruct s as [|c s]; [done|].
  destruct (Ascii.eqb_spec c "+") as [->|Hc]; [done|].
  destruct (Ascii.eqb_spec c "-") as [->|Hc']; [done|].
  rewrite Hs. simpl. by destruct (Z.leb_spec two63 z); [lia|].
Qed.

(** * Properties *)

(** What the tests read from a write log is what was written: action, key, number and hash
    come back from the text, for numbers below 2^63. *)
Lemma WriteLog_roundtrip `{HashText} action kind key number (hash : Hash) :
  action = "SET" ∨ action = "DEL" → no_space kind = true → no_space key = true →
  no_space (StringerToLowerString hash) = true → (0 ≤ number < two63)%Z →
  WriteLog_Unmarshal (write_log action kind key number (StringerToLowerString hash)) =
    inl (action, key, number, hash).
Proof.
  intros Ha Hkind Hkey Hhash Hn. unfold WriteLog_Unmarshal, write_log.
  pose proof (ParseUint_decimal number) as Hd. specialize (Hd ltac:(unfold is_u64; lia)).
  pose proof (ParseUint_no_space _ _ Hd) as Hds.
  change (" " +:+ kind +:+ " " +:+ ?x) with (String " " (kind +:+ String " " x)).
  change (" BLOCK " +:+ ?x) with (String " " ("BLOCK" +:+ String " " x)).
  change (" HASH " +:+ ?x) with (String " " ("HASH" +:+ String " " x)).
  rewrite strings_Split_app by (by destruct Ha as [-> | ->]).
  do 5 (rewrite strings_Split_app by done). rewrite strings_Split_word by done.
  rewrite (ParseInt_ParseUint _ _ Hd) by lia. rewrite HexToHash_String, wrap64_small by (unfold is_u64; lia).
  by destruct Ha as [-> | ->].
Qed.
