(* ===== verification/PoolGateway.v ===== *)
(** examples/demoservice/internal/domain/datagateway: where the pool factory engine keeps its
    pools, on Redis and in the memory of the tests. *)

From S2P Require Import Prelude GoErrors Types Externals DataGateway FileGateway DemoData.

(** * Definitions *)

(** The order of a range over a map changes from loop to loop; [i] numbers the loops. *)
Class MapOrder : Type := {
  map_order {K V} `{Countable K} : nat → gmap K V → list (K * V);
  map_order_perm {K V} `{Countable K} i (m : gmap K V) : map_order i m ≡ₚ map_to_list m;
}.

(** RepositoryPoolFactory; a nil pool is [None], and GetPools gets the number of its loop. *)
Class RepositoryPoolFactory (G : Type) : Type := {
  SetPool : G → Pool → outcome (G * option error);
  GetPool : G → Address → outcome (G * (option Pool * option error));
  GetPools : nat → G → outcome (G * (list (option Pool) * option error));
  DelPool : G → Pool → outcome (G * option error);
}.

(** What a repository is for: a pool that was set is found, a deleted one is not recorded. *)
Class PoolRepository (G : Type) `{RepositoryPoolFactory G} : Prop := {
  GetPool_SetPool g pool g' : SetPool g pool = Ret (g', None) →
    ∃ g'', GetPool g' (pool_Address pool) = Ret (g'', (Some pool, None));
  GetPool_DelPool g pool g' : DelPool g pool = Ret (g', None) →
    ∃ g'' err, GetPool g' (pool_Address pool) = Ret (g'', (None, err)) ∧
      errors_Is err ErrRecordNotFound = true;
}.

(** ** Redis *)

(** The hash commands of the Redis client, on the state of the server. *)
Class RedisHash (R : Type) : Type := {
  HSet : R → string → string → string → R * option error;
  HGet : R → string → string → string + error;
  HGetAll : R → string → gmap string string + error;
  HDel : R → string → string → R * option error;
  HGet_HSet r key field value r' :
    HSet r key field value = (r', None) → HGet r' key field = inl value;
  HGet_HDel r key field r' :
    HDel r key field = (r', None) →
    ∃ err, HGet r' key field = inr err ∧ error_is err redis_Nil = true;
}.

(** encoding/json on a type: what was marshalled is unmarshalled. *)
Class JSON (T : Type) : Type := {
  json_Marshal : T → string + error;
  json_Unmarshal : string → T + error;
  json_Unmarshal_Marshal x s : json_Marshal x = inl s → json_Unmarshal s = inl x;
}.

(** HandleRedisErr and handleRedisErr. *)
Definition HandleRedisErr (err : option error) (action key : string) : option error :=
  match err with
  | None => None
  | Some err' =>
      let err := if error_is err' redis_Nil then WrapErrRecordNotFound err' key else err in
      errors_Wrap err ("action: " +:+ action)
  end.

Definition PoolFactoryRedisKey : string := "demo:poolfactory".

Section redis.
Context `{EthText} `{MapOrder} `{RedisHash R} `{JSON Uniswapv3PoolCreated}.

Definition redis_SetPool (r : R) (pool : Pool) : outcome (R * option error) :=
  match json_Marshal pool with
  | inr err => Ret (r, Some (EWrap err ("failed to unmarshal pool " +:+ AddressString (pool_Address pool))))
  | inl poolJSON =>
      let addr := AddressLower (pool_Address pool) in
      let '(r, err) := HSet r PoolFactoryRedisKey addr poolJSON in
      match err with
      | Some _ => Ret (r, HandleRedisErr err "HSet pool" addr)
      | None => Ret (r, None)
      end
  end.

Definition redis_GetPool (r : R) (lpAddress : Address) : outcome (R * (option Pool * option error)) :=
  let addr := AddressLower lpAddress in
  match HGet r PoolFactoryRedisKey addr with
  | inr err => Ret (r, (None, HandleRedisErr (Some err) "HGET pool" addr))
  | inl poolJSON =>
      match json_Unmarshal poolJSON with
      | inr err => Ret (r, (None, Some (EWrap err "failed to unmarshal poolJSON")))
      | inl pool => Ret (r, (Some pool, None))
      end
  end.

Definition redis_GetPools (i : nat) (r : R) : outcome (R * (list (option Pool) * option error)) :=
  match HGetAll r PoolFactoryRedisKey with
  | inr err => Ret (r, ([], HandleRedisErr (Some err) "HGETALL pool" "null"))
  | inl resultMap =>
      res ← for_each (map_order i resultMap) (λ '(lpAddress, poolJSON) pools,
        match json_Unmarshal poolJSON with
        | inr err => Ret (inr (EWrap err ("failed to unmarshal poolJSON " +:+ lpAddress)))
        | inl pool => Ret (inl (pools ++ [Some pool]))
        end) [];
      match res with
      | inl pools => Ret (r, (pools, None))
      | inr err => Ret (r, ([], Some err))
      end
  end.

Definition redis_DelPool (r : R) (pool : Pool) : outcome (R * option error) :=
  let addr := AddressLower (pool_Address pool) in
  let '(r, err) := HDel r PoolFactoryRedisKey addr in
  match err with
  | Some _ => Ret (r, HandleRedisErr err "HDEL pool" addr)
  | None => Ret (r, None)
  end.

#[export] Instance redis_Pools : RepositoryPoolFactory R := {|
  SetPool := redis_SetPool;
  GetPool := redis_GetPool;
  GetPools := redis_GetPools;
  DelPool := redis_DelPool;
|}.
End redis.

(** ** The mock *)

(** MockDataGatewayPoolFactory; its lock makes each method atomic.  Deleting leaves a nil
    pointer in the map. *)
Record MockPools : Type := mkMockPools {
  mp_m : gmap string (option Pool);
  mp_writeLogs : list string;
}.
Definition NewMockDataGatewayPoolFactory : MockPools := mkMockPools ∅ [].

Section mock.
Context `{EthText} `{MapOrder}.
Implicit Types (s : MockPools).

Definition mock_set s (pool : Pool) : MockPools :=
  let addr := AddressLower (pool_Address pool) in
  mkMockPools (<[addr := Some pool]> (mp_m s)) (mp_writeLogs s ++
    [write_log "SET" "POOL" addr (pool_BlockCreated pool) (StringerToLowerString (pool_BlockHash pool))]).
Definition mock_SetPool s (pool : Pool) : outcome (MockPools * option error) :=
  Ret (mock_set s pool, None).

Definition mock_GetPool s (lpAddress : Address) : outcome (MockPools * (option Pool * option error)) :=
  let addr := AddressLower lpAddress in
  match mp_m s !! addr with
  | None => Ret (s, (None, wrap_sentinel ErrRecordNotFound ("lp " +:+ addr +:+ " not found")))
  | Some pool => Ret (s, (pool, None))
  end.

Definition mock_GetPools (i : nat) s : outcome (MockPools * (list (option Pool) * option error)) :=
  Ret (s, ((map_order i (mp_m s)).*2, None)).

(** The write log has the number of the pool in the map and the hash of the argument. *)
Definition mock_del s (pool saved : Pool) : MockPools :=
  let addr := AddressLower (pool_Address pool) in
  mkMockPools (<[addr := None]> (mp_m s)) (mp_writeLogs s ++
    [write_log "DEL" "POOL" addr (pool_BlockCreated saved) (StringerToLowerString (pool_BlockHash pool))]).
Definition mock_DelPool s (pool : Pool) : outcome (MockPools * option error) :=
  let addr := AddressLower (pool_Address pool) in
  match mp_m s !! addr with
  | None => Ret (s, wrap_sentinel ErrRecordNotFound ("lp " +:+ addr +:+ " not found"))
  | Some None => Panic "nil pointer dereference: pool.BlockCreated"
  | Some (Some saved) => Ret (mock_del s pool saved, None)
  end.

#[export] Instance mock_Pools : RepositoryPoolFactory MockPools := {|
  SetPool := mock_SetPool;
  GetPool := mock_GetPool;
  GetPools := mock_GetPools;
  DelPool := mock_DelPool;
|}.
End mock.

(** * Properties *)

(** The Redis repository keeps its contract: whatever the server did before, a pool that
    SetPool stored is what GetPool reads back from its JSON text, and after DelPool GetPool
    reports ErrRecordNotFound. *)
Lemma redis_pools_repository `{EthText} `{MapOrder} `{RedisHash R} `{JSON Uniswapv3PoolCreated} : PoolRepository R.
Proof.
  split.
  - intros r pool r'. simpl. unfold redis_SetPool, redis_GetPool.
    destruct (json_Marshal pool) as [s|err] eqn:Ej; [|done].
    destruct (HSet _ _ _ _) as [r1 [err|]] eqn:Eh; [by destruct (error_is err redis_Nil) eqn:E; simpl; rewrite ?E|].
    intros [= <-]. rewrite (HGet_HSet _ _ _ _ _ Eh), (json_Unmarshal_Marshal _ _ Ej). by exists r1.
  - intros r pool r'. simpl. unfold redis_DelPool, redis_GetPool.
    destruct (HDel _ _ _) as [r1 [err|]] eqn:Eh; [by destruct (error_is err redis_Nil) eqn:E; simpl; rewrite ?E|].
    intros [= <-]. destruct (HGet_HDel _ _ _ _ Eh) as (err & -> & He). eexists r1, _.
    split; [done|]. simpl. by rewrite He.
Qed.

(** The mock breaks it: a pool that was deleted is found, as nil and without an error, and
    deleting it again panics. *)
Lemma mock_pools_deleted `{EthText} `{MapOrder} (s s' : MockPools) (pool : Pool) :
  DelPool s pool = Ret (s', None) →
  GetPool s' (pool_Address pool) = Ret (s', (None, None)) ∧ ¬ returns (DelPool s' pool) ∧
  ¬ PoolRepository MockPools.
Proof.
  intros Hd.
  assert (GetPool s' (pool_Address pool) = Ret (s', (None, None)) ∧ ¬ returns (DelPool s' pool)) as [Hg Hn].
  { simpl in *. unfold mock_DelPool, mock_GetPool in *. destruct (mp_m s !! _) as [[saved|]|]; [|done..].
    injection Hd as <-. simpl. rewrite lookup_insert_eq. split; [done|]. by intros []. }
  split; [done|]. split; [done|]. intros [_ Hdel].
  destruct (Hdel s pool s' Hd) as (g'' & err & Hg' & He). rewrite Hg in Hg'. by simplify_eq.
Qed.
