(* ===== verification/RedisGateway.v ===== *)
(** examples/demoservice/internal/watcherstate: the state data gateway on Redis. *)

From S2P Require Import Prelude GoErrors Types Externals DataGateway FileGateway DemoData PoolGateway.

(** * Definitions *)

(** RedisClient: a number is stored as its decimal text, and an expiration of -1 keeps what
    the key has. *)
Class RedisClient (R : Type) : Type := {
  Redis_Set : R → string → string → Z → R * option error;
  Redis_Get : R → string → string + error;
  Redis_Close : R → R * option error;
  Redis_Get_Set r key value r' :
    Redis_Set r key value (-1) = (r', None) → Redis_Get r' key = inl value;
}.

(** watcherStateRedisCli. *)
Record watcherStateRedisCli (R : Type) : Type := mkRedisCli {
  keyBase : string;
  keyState : string;
  keyLastBlock : string;
  redisClient : R;
}.
Arguments mkRedisCli {R}.
Arguments keyBase {R}.
Arguments keyState {R}.
Arguments keyLastBlock {R}.
Arguments redisClient {R}.

Definition NewRedisWatcherStateDataGateway {R} (serviceKey : string) (redisCli : R) :
    watcherStateRedisCli R :=
  mkRedisCli ("superwatcher:" +:+ serviceKey) ("superwatcher:" +:+ serviceKey +:+ ":state")
    ("superwatcher:" +:+ serviceKey +:+ ":state" +:+ ":lastRecordedBlock") redisCli.

Definition NewRedisStateDataGateway {R} (serviceKey : string) (redisClient : option R) :
    watcherStateRedisCli R + error :=
  match redisClient with
  | None => inr (ENew "nil redisClient")
  | Some redisClient =>
      if String.eqb serviceKey EmptyString then inr (ENew "empty serviceName")
      else inl (NewRedisWatcherStateDataGateway serviceKey redisClient)
  end.

Section redis.
Context `{RedisClient R}.
Implicit Types (s : watcherStateRedisCli R).

Definition with_client s (r : R) : watcherStateRedisCli R :=
  mkRedisCli (keyBase s) (keyState s) (keyLastBlock s) r.

Definition redis_SetLastRecordedBlock s (blockNumber : Z) :
    outcome (watcherStateRedisCli R * option error) :=
  let '(r, err) := Redis_Set (redisClient s) (keyLastBlock s) (decimal blockNumber) (-1) in
  Ret (with_client s r, HandleRedisErr err "set lastRecordedBlock" (keyLastBlock s)).

Definition redis_GetLastRecordedBlock s : outcome (watcherStateRedisCli R * (Z * option error)) :=
  match Redis_Get (redisClient s) (keyLastBlock s) with
  | inr err => Ret (s, (0%Z, HandleRedisErr (Some err) "get lastRecordedBlock" (keyLastBlock s)))
  | inl val =>
      match ParseUint val with
      | inr err => Ret (s, (0%Z,
          Some (EWrap err ("failed to parse lastRecordedBlock string to uint64: " +:+ val))))
      | inl lastRecordedBlock => Ret (s, (lastRecordedBlock, None))
      end
  end.

Definition redis_Shutdown s : watcherStateRedisCli R * option error :=
  let '(r, err) := Redis_Close (redisClient s) in
  (with_client s r, errors_Wrap err "error shutting down watcherStateRedisCli").

#[export] Instance redis_GetGateway : GetStateDataGateway (watcherStateRedisCli R) := {|
  GetLastRecordedBlock := redis_GetLastRecordedBlock;
|}.
#[export] Instance redis_SetGateway : SetStateDataGateway (watcherStateRedisCli R) := {|
  SetLastRecordedBlock := redis_SetLastRecordedBlock;
|}.
End redis.

(** * Lemmas *)

Lemma HandleRedisErr_None err action key : HandleRedisErr err action key = None ↔ err = None.
Proof. destruct err as [err|]; [|done]. simpl. by destruct (error_is err redis_Nil). Qed.

Lemma HandleRedisErr_missing err action key :
  errors_Is (HandleRedisErr (Some err) action key) ErrRecordNotFound =
    error_is err redis_Nil || error_is err ErrRecordNotFound.
Proof. unfold HandleRedisErr. by destruct (error_is err redis_Nil) eqn:E; simpl. Qed.

(** * Properties *)

(** The Redis gateway keeps the contract of a state data gateway: a uint64 that was set is
    what the next get parses from its decimal text; and what the emitter takes for a first run,
    ErrRecordNotFound, is what a get gives for a key that Redis does not have. *)
Lemma redis_gateway_refines `{RedisClient R} :
  StateDataGateway (watcherStateRedisCli R) ∧
  ∀ (s : watcherStateRedisCli R) err, Redis_Get (redisClient s) (keyLastBlock s) = inr err →
    ∃ err', GetLastRecordedBlock s = Ret (s, (0%Z, err')) ∧
      (error_is err redis_Nil = true → errors_Is err' ErrRecordNotFound = true).
Proof.
  split.
  - intros s n s' Hn. simpl. unfold redis_SetLastRecordedBlock, redis_GetLastRecordedBlock.
    destruct (Redis_Set _ _ _ _) as [r err] eqn:Es.
    intros [= <- ->%HandleRedisErr_None]. simpl.
    rewrite (Redis_Get_Set _ _ _ _ Es), (ParseUint_decimal n Hn). by eexists.
  - intros s err Hg. simpl. unfold redis_GetLastRecordedBlock. rewrite Hg. eexists. split; [done|].
    intros He. by rewrite HandleRedisErr_missing, He.
Qed.
