(* ===== verification/PoolFactory.v ===== *)
(** examples/demoservice/internal/subengines/uniswapv3factoryengine: the sub-engine that keeps
    the pools that the Uniswap factory creates. *)

From S2P Require Import Prelude GoErrors Types Externals DataGateway FileGateway DemoData PoolGateway.

(** * Definitions *)

(** ** States (service_states.go); both types are a uint8, and the constants are one iota. *)

Definition PoolFactoryStateNull : Z := 0.
Definition PoolFactoryStateCreated : Z := 1.
Definition PoolFactoryEventPoolCreated : Z := 2.

Definition poolStateTransitionTable : list ((Z * Z) * Z) :=
  [((PoolFactoryStateNull, PoolFactoryEventPoolCreated), PoolFactoryStateCreated)].

Definition poolState_String (state : Z) : outcome string :=
  if (state =? PoolFactoryStateNull)%Z then Ret "NULL"
  else if (state =? PoolFactoryStateCreated)%Z then Ret "POOLCREATED"
  else Panic "invalid state".
Definition poolState_IsValid (state : Z) : bool :=
  (state =? PoolFactoryStateNull)%Z || (state =? PoolFactoryStateCreated)%Z.

Definition poolState_Fire (state event : Z) : outcome Z :=
  match filter (λ e, e.1 = (state, event)) poolStateTransitionTable with
  | (_, newState) :: _ => Ret newState
  | [] => Panic "unknown path in state transition table"
  end.

Definition poolEvent_String (event : Z) : outcome string :=
  if (event =? PoolFactoryEventPoolCreated)%Z then Ret "PoolCreated" else Panic "invalid event".
Definition poolEvent_IsValid (event : Z) : bool := (event =? PoolFactoryEventPoolCreated)%Z.

(** ** The engine *)

(** PoolFactoryArtifact is a map: a reference into a heap of maps.  The world of the example
    has that heap, the heap of the event maps of ENS artifacts, and the two repositories. *)
Abbreviation PoolFactoryArtifact := (gmap Uniswapv3PoolCreated Z) (only parsing).

Record demoWorld (GP GE : Type) : Type := mkDemoWorld {
  dw_poolMaps : list PoolFactoryArtifact;
  dw_pools : GP;
  dw_eventMaps : list (gmap string Z);
  dw_names : GE;
}.
Arguments mkDemoWorld {GP GE}.
Arguments dw_poolMaps {GP GE}.
Arguments dw_pools {GP GE}.
Arguments dw_eventMaps {GP GE}.
Arguments dw_names {GP GE}.

Definition set_poolMaps {GP GE} (w : demoWorld GP GE) maps : demoWorld GP GE :=
  mkDemoWorld maps (dw_pools w) (dw_eventMaps w) (dw_names w).
Definition set_pools {GP GE} (w : demoWorld GP GE) g : demoWorld GP GE :=
  mkDemoWorld (dw_poolMaps w) g (dw_eventMaps w) (dw_names w).

(** m[pool] = state, for a map that may be nil. *)
Definition write_poolMap {GP GE} (w : demoWorld GP GE) (artifact : option nat) (pool : Pool)
    (state : Z) : outcome (demoWorld GP GE) :=
  match artifact with
  | None => Panic "assignment to entry in nil map"
  | Some ref =>
      match dw_poolMaps w !! ref with
      | Some m => Ret (set_poolMaps w (<[ref := <[pool := state]> m]> (dw_poolMaps w)))
      | None => Panic "unreachable: dangling map"
      end
  end.

(** m[pool], which is 0 for a key that the map does not have, and for a nil map. *)
Definition read_poolMap {GP GE} (w : demoWorld GP GE) (artifact : option nat) (pool : Pool) : Z :=
  default 0%Z (artifact ≫= λ ref, dw_poolMaps w !! ref ≫= (!!) pool).

(** Appending the artifact of a log to those of its block. *)
Definition append_artifact (m : gmap Z (list any)) (hash : Hash) (a : any) : gmap Z (list any) :=
  <[hash := default [] (m !! hash) ++ [a]]> m.

Record uniswapv3PoolFactoryEngine (ABI : Type) : Type := mkPoolEngine {
  poolFactoryContract : Contract ABI;
}.
Arguments mkPoolEngine {ABI}.
Arguments poolFactoryContract {ABI}.

Section engine.
Context `{EthText} `{MapOrder} `{AbiUnpack ABI} `{RepositoryPoolFactory GP} {GE : Type}.
Abbreviation world := (demoWorld GP GE).
Implicit Types (e : uniswapv3PoolFactoryEngine ABI) (w : world) (log : Log).

Definition parsePoolCreatedUnpackedMap (unpacked : gmap string abiValue) : Pool + error :=
  match ExtractFieldFromUnpacked as_address unpacked "pool" with
  | inr err => inr (EWrap err "failed to unpack poolAddr from map")
  | inl poolAddr => inl (mkPool poolAddr 0 0 0 0 0 0)
  end.

(** common.HexToAddress of a topic's text. *)
Definition topic_address (h : Hash) : Address := HexToAddress (HashString h).

Definition mapLogToPoolCreated (contractABI : ABI) (eventName : string) (l : Log) :
    outcome (Pool + error) :=
  match UnpackLogDataIntoMap contractABI eventName (log_Data l) with
  | inr err => Ret (inr (EWrap err ("failed to unpack uniswapv3factory logs (event " +:+ eventName +:+ ")")))
  | inl unpacked =>
      match parsePoolCreatedUnpackedMap unpacked with
      | inr err => Ret (inr (EWrap err
          "failed to convert unpacked log data to *entity.Uniswapv3PoolCreated"))
      | inl poolCreated =>
          t1 ← index_at (log_Topics l) 1;
          t2 ← index_at (log_Topics l) 2;
          t3 ← index_at (log_Topics l) 3;
          Ret (inl (mkPool (pool_Address poolCreated) (topic_address t1) (topic_address t2)
            (big_Uint64 t3) (log_BlockNumber l) (log_BlockHash l) (log_TxHash l)))
      end
  end.

(** The events of the contract that a log is handled as. *)
Definition handles_event (logEventKey : Hash) (event : ContractEvent) : bool :=
  (logEventKey =? event_ID event)%Z || String.eqb (event_Name event) "PoolCreated".

Definition handleGoodLog e w log : outcome (world * (option nat * option error)) :=
  let ref := length (dw_poolMaps w) in
  let w := set_poolMaps w (dw_poolMaps w ++ [∅]) in
  logEventKey ← index_at (log_Topics log) 0;
  res ← for_each (ContractEvents (poolFactoryContract e)) (λ event w,
    if handles_event logEventKey event then
      pool ← mapLogToPoolCreated (ContractABI (poolFactoryContract e)) (event_Name event) log;
      match pool with
      | inr err => Ret (inr (w, EWrap err "failed to map PoolCreated log to domain struct"))
      | inl pool =>
          '(g, err) ← SetPool (dw_pools w) pool;
          match err with
          | Some err => Ret (inr (set_pools w g, EWrap err "failed to process poolCreated"))
          | None => w ← write_poolMap (set_pools w g) (Some ref) pool PoolFactoryStateCreated; Ret (inl w)
          end
      end
    else Ret (inl w)) w;
  match res with
  | inl w => Ret (w, (Some ref, None))
  | inr (w, err) => Ret (w, (None, Some err))
  end.

(** The bodies of the loops over the logs of all blocks. *)
Definition good_body e (log : Log) (st : world * gmap Z (list any)) :
    outcome (world * gmap Z (list any) + world * error) :=
  let '(w, retArtifacts) := st in
  '(w, (logArtifact, err)) ← handleGoodLog e w log;
  match err with
  | Some err => Ret (inr (w, EWrap err "poolfactory.HandleGoodLog failed on log txHash"))
  | None => Ret (inl (w, append_artifact retArtifacts (log_BlockHash log) (AnyPool logArtifact)))
  end.

Definition pool_HandleGoodBlocks e w (blocks : list Block) (artifacts : list any) :
    outcome (world * (option (gmap Z (list any)) * option error)) :=
  res ← for_each (blocks ≫= Logs) (good_body e) (w, ∅);
  match res with
  | inl (w, retArtifacts) => Ret (w, (Some retArtifacts, None))
  | inr (w, err) => Ret (w, (None, Some err))
  end.

(** The search of handleReorgedLog: each pool artifact replaces the one before.  The type of an
    artifact that is none is looked up for a message. *)
Definition find_in_slice (artifacts : list any) (poolArtifact : option nat) : outcome (option nat) :=
  foldM (λ artifact poolArtifact,
    match artifact with
    | AnyPool pa => Ret pa
    | AnyNil => Panic "nil pointer dereference: reflect.TypeOf(nil).String()"
    | _ => Ret poolArtifact
    end) artifacts poolArtifact.
Definition find_poolArtifact (artifacts : list any) : outcome (option nat) :=
  foldM (λ artifact poolArtifact,
    match artifact with
    | AnyPool pa => Ret pa
    | AnySlice l => find_in_slice l poolArtifact
    | _ => Panic "interface conversion: not []superwatcher.Artifact"
    end) artifacts None.

Definition handleReorgedPool w (pool : Pool) (poolArtifact : option nat) :
    outcome (world * (option nat * option error)) :=
  '(w, err) ← (if (read_poolMap w poolArtifact pool =? PoolFactoryStateCreated)%Z then
      '(g, err) ← DelPool (dw_pools w) pool;
      Ret (set_pools w g, errors_Wrap (errors_Wrap err
        ("failed to revert pool " +:+ AddressString (pool_Address pool)))
        ("failed to revert poolCreated for pool " +:+ AddressString (pool_Address pool)))
    else Ret (w, None));
  match err with
  | Some err => Ret (w, (None, Some err))
  | None =>
      w ← write_poolMap w poolArtifact pool PoolFactoryStateNull;
      Ret (w, (poolArtifact, None))
  end.

Definition handleReorgedLog e w log (artifacts : list any) :
    outcome (world * (option nat * option error)) :=
  logEventKey ← index_at (log_Topics log) 0;
  poolArtifact ← find_poolArtifact artifacts;
  res ← for_each (ContractEvents (poolFactoryContract e)) (λ event '(w, returnArtifact),
    if handles_event logEventKey event then
      pool ← mapLogToPoolCreated (ContractABI (poolFactoryContract e)) (event_Name event) log;
      match pool with
      | inr err => Ret (inr (w, EWrap err "failed to map PoolCreated log to domain struct"))
      | inl pool =>
          '(w, (artifact, err)) ← handleReorgedPool w pool poolArtifact;
          match err with
          | Some err => Ret (inr (w, EWrap err "failed to handle reorged PoolCreated"))
          | None => Ret (inl (w, artifact))
          end
      end
    else Ret (inl (w, returnArtifact))) (w, None);
  match res with
  | inl (w, returnArtifact) => Ret (w, (returnArtifact, None))
  | inr (w, err) => Ret (w, (None, Some err))
  end.

Definition reorg_body e (artifacts : list any) (log : Log) (st : world * gmap Z (list any)) :
    outcome (world * gmap Z (list any) + world * error) :=
  let '(w, retArtifacts) := st in
  '(w, (logArtifact, err)) ← handleReorgedLog e w log artifacts;
  match err with
  | Some err => Ret (inr (w, EWrap err "uniswapv3PoolFactoryEngine.handleReorgedLog failed"))
  | None => Ret (inl (w, append_artifact retArtifacts (log_BlockHash log) (AnyPool logArtifact)))
  end.

Definition pool_HandleReorgedBlocks e w (blocks : list Block) (artifacts : list any) :
    outcome (world * (option (gmap Z (list any)) * option error)) :=
  res ← for_each (blocks ≫= Logs) (reorg_body e artifacts) (w, ∅);
  match res with
  | inl (w, retArtifacts) => Ret (w, (Some retArtifacts, None))
  | inr (w, err) => Ret (w, (None, Some err))
  end.

Definition pool_HandleEmitterError e w (err : error) : outcome (world * option error) :=
  Ret (w, Some err).

#[export] Instance pool_DemoEngine : DemoEngine (uniswapv3PoolFactoryEngine ABI) world := {|
  demo_HandleGoodBlocks := pool_HandleGoodBlocks;
  demo_HandleReorgedBlocks := pool_HandleReorgedBlocks;
  demo_HandleEmitterError := pool_HandleEmitterError;
|}.
End engine.
