(* ===== verification/DemoArtifacts.v ===== *)
(** How the sub-engines group artifacts by block hash, and how they get them back: the artifacts
    of blocks, in the blocks' order. *)

From S2P Require Import Prelude GoErrors Types DemoData PoolFactory.

(** * Definitions *)

(** Blocks whose logs have the blocks' hashes, which differ. *)
Definition blocks_hashed (blocks : list Block) : Prop :=
  NoDup (BHash <$> blocks) ∧ ∀ b l, b ∈ blocks → l ∈ Logs b → log_BlockHash l = BHash b.

(** The artifacts of blocks as the engine of superwatcher passes them on. *)
Definition artifacts_of (m : gmap Z (list any)) (blocks : list Block) : list any :=
  (λ b, AnySlice (default [] (m !! BHash b))) <$> blocks.

(** Appending a list of artifacts, each to its hash. *)
Definition group_artifacts (m : gmap Z (list any)) (l : list (Hash * any)) : gmap Z (list any) :=
  foldl (λ m '(h, a), append_artifact m h a) m l.

(** The parts of a world that each sub-engine changes. *)
Definition pool_part {GP GE} (w : demoWorld GP GE) : list PoolFactoryArtifact * GP :=
  (dw_poolMaps w, dw_pools w).
Definition names_part {GP GE} (w : demoWorld GP GE) : list (gmap string Z) * GE :=
  (dw_eventMaps w, dw_names w).

(** * Lemmas *)

Lemma group_artifacts_app m l1 l2 :
  group_artifacts m (l1 ++ l2) = group_artifacts (group_artifacts m l1) l2.
Proof. apply foldl_app. Qed.

Lemma lookup_group l : ∀ m h,
  default [] (group_artifacts m l !! h) =
    default [] (m !! h) ++ (filter (λ x, x.1 = h) l).*2.
Proof.
  induction l as [|[h' a] l IH]; intros m h; simpl; [by rewrite app_nil_r|].
  unfold group_artifacts in IH. rewrite IH. unfold append_artifact. rewrite filter_cons. simpl.
  case_decide as Hd.
  - subst h'. rewrite lookup_insert_eq. simpl. by rewrite <-app_assoc.
  - by rewrite lookup_insert_ne by done.
Qed.

Lemma filter_all {A} (P : A → Prop) `{∀ x, Decision (P x)} l : Forall P l → filter P l = l.
Proof. induction 1 as [|x l Hx _ IH]; [done|]. by rewrite filter_cons_True, IH. Qed.
Lemma filter_none {A} (P : A → Prop) `{∀ x, Decision (P x)} l :
  Forall (λ x, ¬ P x) l → filter P l = [].
Proof. induction 1 as [|x l Hx _ IH]; [done|]. by rewrite filter_cons_False. Qed.

Lemma bind_ext_in {A B} (f g : A → list B) l : (∀ x, x ∈ l → f x = g x) → l ≫= f = l ≫= g.
Proof.
  induction l as [|x l IH]; [done|]. intros Hfg. simpl. rewrite (Hfg x) by by left.
  f_equal. apply IH. intros y Hy. apply Hfg. by right.
Qed.

Lemma mjoin_fmap_bind {A B} (f : A → list B) l : mjoin (f <$> l) = l ≫= f.
Proof. induction l as [|x l IH]; [done|]. simpl. f_equal. exact IH. Qed.

Lemma keys_in {A} (l : list (Z * A)) (logs : list Log) x :
  log_BlockHash <$> logs = l.*1 → x ∈ l → ∃ log, log ∈ logs ∧ x.1 = log_BlockHash log.
Proof.
  intros Hl Hx. assert (x.1 ∈ l.*1) as Hk by (apply list_elem_of_fmap; by exists x).
  rewrite <-Hl in Hk. apply list_elem_of_fmap in Hk as (log & ? & ?). by exists log.
Qed.

(** Artifacts that come block by block, grouped by hash, are the same in the blocks' order. *)
Lemma grouped_in_order {A} blocks (l : list (Hash * A)) :
  blocks_hashed blocks → l.*1 = log_BlockHash <$> (blocks ≫= Logs) →
  blocks ≫= (λ b, (filter (λ x, x.1 = BHash b) l).*2) = l.*2.
Proof.
  revert l. induction blocks as [|b blocks IH]; intros l [Hnd Hh] Hl.
  { simpl in *. by apply fmap_nil_inv in Hl as ->. }
  simpl in Hl. rewrite fmap_app in Hl. apply fmap_app_inv in Hl as (l1 & l2 & Hl1 & Hl2 & ->).
  rewrite fmap_cons in Hnd. apply NoDup_cons in Hnd as [Hb Hnd].
  assert (blocks_hashed blocks) as Hbs by (split; [done|intros; apply Hh; [by right|done]]).
  assert (∀ x, x ∈ l1 → x.1 = BHash b) as H1.
  { intros x Hx. destruct (keys_in l1 (Logs b) x) as (log & ? & ->); [done..|]. apply Hh; [by left|done]. }
  assert (∀ x, x ∈ l2 → x.1 ∈ BHash <$> blocks) as H2.
  { intros x Hx. destruct (keys_in l2 (blocks ≫= Logs) x) as (log & (b' & Hlog & Hb')%list_elem_of_bind & ->);
      [done..|]. apply list_elem_of_fmap. exists b'. split; [|done]. by apply Hbs. }
  rewrite fmap_app. simpl. rewrite filter_app, (filter_all _ l1) by by apply Forall_forall.
  rewrite (filter_none _ l2), app_nil_r by (apply Forall_forall; intros x Hx%H2 Heq; by rewrite Heq in Hx).
  f_equal. rewrite <-(IH l2) by done. apply bind_ext_in. intros b' Hb'.
  rewrite filter_app, (filter_none _ l1); [done|]. apply Forall_forall. intros x Hx%H1 Heq.
  apply Hb. rewrite <-Hx, Heq. apply list_elem_of_fmap. by exists b'.
Qed.

Lemma filter_keys {A B} (f : A → B) hashes (l : list A) (h : Hash) :
  (filter (λ x, x.1 = h) (zip hashes (f <$> l))).*2 = f <$> (filter (λ x, x.1 = h) (zip hashes l)).*2.
Proof.
  revert l. induction hashes as [|h' hashes IH]; intros [|x l]; [done..|]. simpl.
  rewrite !filter_cons. simpl. case_decide; simpl; by rewrite IH.
Qed.

(** What went into the map for the logs of blocks comes out of it for these blocks. *)
Lemma artifacts_of_group {A} (f : A → any) blocks (l : list A) :
  let hashes := log_BlockHash <$> (blocks ≫= Logs) in
  blocks_hashed blocks → length hashes = length l → ∃ ls,
    artifacts_of (group_artifacts ∅ (zip hashes (f <$> l))) blocks = (λ l, AnySlice (f <$> l)) <$> ls ∧
    mjoin ls = l.
Proof.
  intros hashes Hb Hlen. set (F := λ b, (filter (λ x, x.1 = BHash b) (zip hashes l)).*2).
  exists (F <$> blocks). split.
  - unfold artifacts_of. rewrite <-list_fmap_compose. apply list_fmap_ext. intros i b _. simpl.
    by rewrite lookup_group, lookup_empty, filter_keys.
  - rewrite mjoin_fmap_bind. unfold F.
    rewrite grouped_in_order; [|done|by rewrite fst_zip by lia]. by rewrite snd_zip by lia.
Qed.
