(* ===== verification/PoolFactoryProps.v ===== *)
(** What the pool factory engine does to its repository: the pools of good blocks are set and
    marked in a new artifact each; of reorged blocks only the pool of the last artifact is
    deleted. *)

From S2P Require Import Prelude GoErrors Types Externals DataGateway FileGateway DemoData PoolGateway PoolFactory.
From S2P Require Import DemoArtifacts.

(** * Definitions *)

Section created.
Context `{EthText} `{MapOrder} `{AbiUnpack ABI}.

(** A log from which the engine reads a pool, for a contract with one event. *)
Definition created (e : uniswapv3PoolFactoryEngine ABI) (log : Log) (pool : Pool) : Prop :=
  ∃ event topic, ContractEvents (poolFactoryContract e) = [event] ∧
    log_Topics log !! 0%nat = Some topic ∧ handles_event topic event = true ∧
    mapLogToPoolCreated (ContractABI (poolFactoryContract e)) (event_Name event) log = Ret (inl pool).
End created.

(** New references, one for each of [ps]. *)
Definition new_refs {A} (n : nat) (ps : list A) : list any :=
  AnyPool <$> (Some <$> seq n (length ps)).

(** * Lemmas *)

(** The search takes the last artifact. *)
Lemma find_in_slice_last l pa : find_in_slice (AnyPool <$> l) pa = Ret (default pa (last l)).
Proof.
  revert pa. induction l as [|x l IH]; intros pa; [done|]. unfold find_in_slice in *. simpl.
  rewrite IH, last_cons. by destruct (last l).
Qed.

Lemma find_poolArtifact_last (refs : list (list (option nat))) :
  find_poolArtifact ((λ l, AnySlice (AnyPool <$> l)) <$> refs) =
    Ret (default None (last (mjoin refs))).
Proof.
  unfold find_poolArtifact. generalize (@None nat) as pa. induction refs as [|l refs IH]; intros pa; [done|].
  rewrite fmap_cons. cbn [foldM]. rewrite find_in_slice_last. cbn [mbind outcome_bind].
  rewrite IH. simpl. rewrite last_app. by destruct (last (mjoin refs)).
Qed.

Lemma artifacts_found blocks (l : list (option nat)) :
  let hashes := log_BlockHash <$> (blocks ≫= Logs) in
  blocks_hashed blocks → length hashes = length l →
  find_poolArtifact (artifacts_of (group_artifacts ∅ (zip hashes (AnyPool <$> l))) blocks) =
    Ret (default None (last l)).
Proof.
  intros hashes Hb Hlen. destruct (artifacts_of_group AnyPool blocks l) as (ls & Heq & <-); [done..|].
  unfold hashes. rewrite Heq.
  apply find_poolArtifact_last.
Qed.

(** ** The mock repository *)

Section mock.
Context `{EthText} `{MapOrder} `{AbiUnpack ABI} {GE : Type}.
Abbreviation world := (demoWorld MockPools GE).
Implicit Types (e : uniswapv3PoolFactoryEngine ABI) (w : world).

Definition found (s : MockPools) (a : Address) : option (option Pool) := mp_m s !! AddressLower a.

Lemma mock_GetPool_found s a : mock_GetPool s a = match found s a with
  | Some p => Ret (s, (p, None))
  | None => Ret (s, (None, wrap_sentinel ErrRecordNotFound ("lp " +:+ AddressLower a +:+ " not found")))
  end.
Proof. unfold mock_GetPool, found. by destruct (mp_m s !! _). Qed.

Lemma found_insert m log (a a' : Address) x :
  found (mkMockPools (<[AddressLower a := x]> m) log) a' =
    if decide (a = a') then Some x else m !! AddressLower a'.
Proof.
  unfold found. simpl. case_decide as Ha; [subst; by rewrite lookup_insert_eq|].
  rewrite lookup_insert_ne; [done|]. by intros ?%AddressLower_inj.
Qed.

Lemma found_sets ps : ∀ s p,
  NoDup (pool_Address <$> ps) → p ∈ ps → found (foldl mock_set s ps) (pool_Address p) = Some (Some p).
Proof.
  induction ps as [|q ps IH] using rev_ind; intros s p Hnd Hp; [by apply not_elem_of_nil in Hp|].
  rewrite foldl_app. simpl. unfold mock_set at 1. rewrite found_insert.
  rewrite fmap_app in Hnd. apply NoDup_app in Hnd as (Hnd & Hq & _).
  apply elem_of_app in Hp as [Hp|Hp%list_elem_of_singleton]; [|subst; by rewrite decide_True].
  rewrite decide_False; [by apply IH|]. intros Heq. apply (Hq (pool_Address p)).
  - apply list_elem_of_fmap. by exists p.
  - simpl. rewrite Heq. by left.
Qed.

Lemma handleGoodLog_created e w log pool :
  created e log pool →
  handleGoodLog e w log = Ret (mkDemoWorld (dw_poolMaps w ++ [{[pool := PoolFactoryStateCreated]}])
    (mock_set (dw_pools w) pool) (dw_eventMaps w) (dw_names w), (Some (length (dw_poolMaps w)), None)).
Proof.
  intros (event & topic & He & Ht & Hh & Hm). unfold handleGoodLog.
  rewrite (index_at_nat _ 0 _ Ht : index_at (log_Topics log) 0 = _). simpl.
  rewrite He. simpl. rewrite Hh, Hm. simpl. unfold mock_SetPool. simpl.
  rewrite lookup_app_r, Nat.sub_diag by done. simpl. unfold set_poolMaps. simpl. do 3 f_equal.
  rewrite insert_app_r_alt, Nat.sub_diag by done. simpl. by rewrite insert_empty.
Qed.

(** The world and the artifacts after good logs. *)
Definition good_world w (ps : list Pool) : world :=
  mkDemoWorld (dw_poolMaps w ++ ((λ p, {[p := PoolFactoryStateCreated]}) <$> ps))
    (foldl mock_set (dw_pools w) ps) (dw_eventMaps w) (dw_names w).

Lemma handleReorgedLog_created e w log pool arts ref m :
  created e log pool → find_poolArtifact arts = Ret (Some ref) → dw_poolMaps w !! ref = Some m →
  let w' s := mkDemoWorld (<[ref := <[pool := PoolFactoryStateNull]> m]> (dw_poolMaps w)) s
    (dw_eventMaps w) (dw_names w) in
  (m !! pool ≠ Some PoolFactoryStateCreated →
   handleReorgedLog e w log arts = Ret (w' (dw_pools w), (Some ref, None))) ∧
  (∀ saved, m !! pool = Some PoolFactoryStateCreated →
   found (dw_pools w) (pool_Address pool) = Some (Some saved) →
   handleReorgedLog e w log arts = Ret (w' (mock_del (dw_pools w) pool saved), (Some ref, None))).
Proof.
  intros (event & topic & He & Ht & Hh & Hm) Hf Hr w'. unfold handleReorgedLog.
  rewrite (index_at_nat _ 0 _ Ht : index_at (log_Topics log) 0 = _). simpl. rewrite Hf. simpl.
  rewrite He. simpl. rewrite Hh, Hm. simpl. unfold handleReorgedPool, read_poolMap. simpl. rewrite Hr. simpl.
  split.
  - intros Hne. destruct (Z.eqb_spec (default 0%Z (m !! pool)) PoolFactoryStateCreated) as [Heq|_].
    + destruct (m !! pool); simpl in *; by subst.
    + simpl. rewrite Hr. simpl. by destruct w.
  - intros saved -> Hs. simpl. unfold found in Hs. unfold mock_DelPool. rewrite Hs. simpl. by rewrite Hr.
Qed.

Lemma good_body_Ret e log w ret w' a :
  handleGoodLog e w log = Ret (w', (a, None)) →
  good_body e log (w, ret) = Ret (inl (w', append_artifact ret (log_BlockHash log) (AnyPool a))).
Proof. unfold good_body. by intros ->. Qed.

Lemma reorg_body_Ret e arts log w ret w' a :
  handleReorgedLog e w log arts = Ret (w', (a, None)) →
  reorg_body e arts log (w, ret) = Ret (inl (w', append_artifact ret (log_BlockHash log) (AnyPool a))).
Proof. unfold reorg_body. by intros ->. Qed.

(** Logs of other pools change nothing but the artifact. *)
Lemma reorg_others e arts ref pool logs ps : Forall2 (created e) logs ps → pool ∉ ps →
  find_poolArtifact arts = Ret (Some ref) → ∀ w ret m,
  dw_poolMaps w !! ref = Some m → (∀ q, m !! q = Some PoolFactoryStateCreated → q = pool) →
  ∃ w' ret' m', for_each logs (reorg_body e arts) (w, ret) = Ret (inl (w', ret')) ∧
    dw_pools w' = dw_pools w ∧ names_part w' = names_part w ∧
    dw_poolMaps w' !! ref = Some m' ∧ m' !! pool = m !! pool.
Proof.
  intros Hall Hp Hf. induction Hall as [|log q logs ps Hl _ IH]; intros w ret m Hr Hq.
  { by exists w, ret, m. }
  apply not_elem_of_cons in Hp as [Hne Hp].
  destruct (handleReorgedLog_created e w log q arts ref m Hl Hf Hr) as [Hlog _].
  cbn [for_each]. erewrite reorg_body_Ret by (apply Hlog; intros Hc; by rewrite (Hq q Hc) in Hne).
  cbn [mbind outcome_bind].
  destruct (IH Hp (mkDemoWorld (<[ref := <[q := PoolFactoryStateNull]> m]> (dw_poolMaps w)) (dw_pools w)
      (dw_eventMaps w) (dw_names w)) (append_artifact ret (log_BlockHash log) (AnyPool (Some ref)))
      (<[q := PoolFactoryStateNull]> m)) as (w' & ret' & m' & Hrun & Hpools & Hnames & Hr' & Hm').
  - simpl. rewrite list_lookup_insert_eq; [done|]. by apply lookup_lt_Some in Hr.
  - intros q'. destruct (decide (q = q')) as [->|?]; [by rewrite lookup_insert_eq|].
    rewrite lookup_insert_ne by done. apply Hq.
  - exists w', ret', m'. split; [exact Hrun|]. split; [exact Hpools|]. split; [exact Hnames|]. split; [done|].
    rewrite Hm'. by rewrite lookup_insert_ne.
Qed.

Lemma good_logs_run e logs ps : Forall2 (created e) logs ps → ∀ w m,
  for_each logs (good_body e) (w, m) =
  Ret (inl (good_world w ps,
    group_artifacts m (zip (log_BlockHash <$> logs) (new_refs (length (dw_poolMaps w)) ps)))).
Proof.
  induction 1 as [|log pool logs ps Hl _ IH]; intros w m.
  { unfold good_world. simpl. rewrite app_nil_r. by destruct w. }
  cbn [for_each]. rewrite (good_body_Ret _ _ _ _ _ _ (handleGoodLog_created _ _ _ _ Hl)).
  cbn [mbind outcome_bind]. rewrite IH.
  unfold good_world, new_refs. simpl. rewrite <-app_assoc, length_app, Nat.add_1_r. done.
Qed.

(** Good blocks as a whole. *)
Lemma pool_good_run e w blocks artifacts ps :
  Forall2 (created e) (blocks ≫= Logs) ps →
  pool_HandleGoodBlocks e w blocks artifacts = Ret (good_world w ps,
    (Some (group_artifacts ∅ (zip (log_BlockHash <$> (blocks ≫= Logs))
      (new_refs (length (dw_poolMaps w)) ps))), None)).
Proof. intros Hc. unfold pool_HandleGoodBlocks. by rewrite (good_logs_run e _ ps Hc). Qed.

(** Reorged blocks as a whole: of all pools, that of the last artifact is deleted. *)
Lemma pool_reorg_run e w blocks artifacts ps p ref :
  Forall2 (created e) (blocks ≫= Logs) (ps ++ [p]) → NoDup (pool_Address <$> (ps ++ [p])) →
  find_poolArtifact artifacts = Ret (Some ref) → dw_poolMaps w !! ref = Some {[p := PoolFactoryStateCreated]} →
  (∀ q, q ∈ ps ++ [p] → found (dw_pools w) (pool_Address q) = Some (Some q)) →
  ∃ w' m, pool_HandleReorgedBlocks e w blocks artifacts = Ret (w', (Some m, None)) ∧
    names_part w' = names_part w ∧
    (∀ q, q ∈ ps → GetPool (dw_pools w') (pool_Address q) = Ret (dw_pools w', (Some q, None))) ∧
    GetPool (dw_pools w') (pool_Address p) = Ret (dw_pools w', (None, None)).
Proof.
  intros Hc Hnd Hf Href Hfound.
  apply Forall2_app_inv_r in Hc as (logs & logs' & Hc & Hc' & Hlogs).
  apply Forall2_cons_inv_r in Hc' as (log & ? & Hlog & ->%Forall2_nil_inv_r & ->).
  assert (∀ q, q ∈ ps → pool_Address p ≠ pool_Address q) as Hne.
  { rewrite fmap_app in Hnd. apply NoDup_app in Hnd as (_ & Hd & _). intros q Hq Heq.
    apply (Hd (pool_Address q)); [apply list_elem_of_fmap; by exists q|]. rewrite <-Heq. by left. }
  unfold pool_HandleReorgedBlocks. rewrite Hlogs. rewrite for_each_app.
  destruct (reorg_others e artifacts ref p logs ps Hc) with (w := w)
    (ret := ∅ : gmap Z (list any)) (m := {[p := PoolFactoryStateCreated]} : gmap Pool Z)
    as (w' & ret & m' & -> & Hpools & Hnames & Hr & Hm); [by intros Hq%Hne|done|done| |].
  { intros q [-> _]%lookup_singleton_Some. done. }
  assert (found (dw_pools w') (pool_Address p) = Some (Some p)) as Hp.
  { rewrite Hpools. apply Hfound, elem_of_app. right. by left. }
  destruct (handleReorgedLog_created e w' log p artifacts ref m' Hlog Hf Hr) as [_ Hlast].
  cbn [mbind outcome_bind for_each].
  erewrite reorg_body_Ret by (apply Hlast; [|exact Hp]; by rewrite Hm, lookup_singleton_eq).
  simpl. eexists _, _. split; [done|]. split; [exact Hnames|]. simpl. split.
  - intros q Hq. rewrite mock_GetPool_found. unfold mock_del at 1. rewrite found_insert.
    rewrite decide_False by by apply Hne. fold (found (dw_pools w') (pool_Address q)).
    rewrite Hpools, Hfound; [done|]. apply elem_of_app. by left.
  - rewrite mock_GetPool_found. unfold mock_del at 1. by rewrite found_insert, decide_True.
Qed.

End mock.

(** * Properties *)

Section properties.
Context `{EthText} `{MapOrder} `{AbiUnpack ABI} {GE : Type}.
Implicit Types (e : uniswapv3PoolFactoryEngine ABI) (w : demoWorld MockPools GE).

(** Good blocks with PoolCreated logs: the engine saves every pool, in order, and returns for
    every block hash one artifact per log, a new map in which only the log's pool is marked as
    created; it never fails or panics on them. *)
Lemma pool_good_blocks e w blocks artifacts ps :
  Forall2 (created e) (blocks ≫= Logs) ps →
  ∃ w' m, pool_HandleGoodBlocks e w blocks artifacts = Ret (w', (Some m, None)) ∧
    dw_pools w' = foldl mock_set (dw_pools w) ps ∧
    dw_poolMaps w' = dw_poolMaps w ++ ((λ p, {[p := PoolFactoryStateCreated]}) <$> ps) ∧
    dw_eventMaps w' = dw_eventMaps w ∧ dw_names w' = dw_names w ∧
    ∀ h, default [] (m !! h) = (filter (λ x, x.1 = h) (zip (log_BlockHash <$> (blocks ≫= Logs))
      (new_refs (length (dw_poolMaps w)) ps))).*2.
Proof.
  intros Hc. rewrite (pool_good_run e w blocks artifacts ps Hc).
  eexists _, _. split; [done|]. do 4 (split; [done|]). intros h. by rewrite lookup_group.
Qed.

(** C34: Of several reorged pools only the last one is reverted: when good blocks created pools
    with different addresses and the same blocks come back as reorged, with the artifacts that
    the engine kept for them, handleReorgedLog looks every log's pool up in the last artifact
    only.  The last pool is deleted, and all others stay in the repository. *)
Theorem only_last_pool_reverted e w blocks artifacts ps p w1 m :
  Forall2 (created e) (blocks ≫= Logs) (ps ++ [p]) → NoDup (pool_Address <$> (ps ++ [p])) →
  blocks_hashed blocks →
  pool_HandleGoodBlocks e w blocks artifacts = Ret (w1, (Some m, None)) →
  ∃ w2 m2, pool_HandleReorgedBlocks e w1 blocks (artifacts_of m blocks) = Ret (w2, (Some m2, None)) ∧
    (∀ q, q ∈ ps → GetPool (dw_pools w2) (pool_Address q) = Ret (dw_pools w2, (Some q, None))) ∧
    GetPool (dw_pools w2) (pool_Address p) = Ret (dw_pools w2, (None, None)).
Proof.
  intros Hc Hnd Hb Hgood. rewrite (pool_good_run _ _ _ _ _ Hc) in Hgood. injection Hgood as <- <-.
  set (ref := length (dw_poolMaps w) + length ps).
  destruct (pool_reorg_run e (good_world w (ps ++ [p])) blocks
    (artifacts_of (group_artifacts ∅ (zip (log_BlockHash <$> (blocks ≫= Logs))
      (new_refs (length (dw_poolMaps w)) (ps ++ [p])))) blocks) ps p ref)
    as (w' & m & Hrun & _ & Hkept); [done..| | | |by exists w', m].
  - unfold new_refs. rewrite artifacts_found; [|done|].
    + rewrite length_app, seq_app, fmap_app. simpl. by rewrite last_snoc.
    + rewrite !length_fmap, length_seq. by apply Forall2_length in Hc.
  - simpl. rewrite fmap_app, app_assoc. apply list_lookup_middle. by rewrite length_app, length_fmap.
  - intros q Hq. by apply found_sets.
Qed.
End properties.
