(* ===== verification/Router.v ===== *)
(** examples/demoservice/internal/routerengine: the service engine that passes the logs of its
    blocks on to sub-engines, by address and first topic. *)

From S2P Require Import Prelude GoErrors Types Externals DataGateway Engine DemoData PoolGateway.

(** * Definitions *)

Record routerEngine (E : Type) : Type := mkRouter {
  Routes : gmap Z (gmap Z (list Hash));
  Services : gmap Z E;
}.
Arguments mkRouter {E}.
Arguments Routes {E}.
Arguments Services {E}.

(** The world of the services, with the number of loops over maps so far, which decides their
    order. *)
Record routed (W : Type) : Type := mkRouted { rt_loops : nat; rt_world : W }.
Arguments mkRouted {W}.
Arguments rt_loops {W}.
Arguments rt_world {W}.

(** ** Artifacts (artifact.go) *)

Definition artifactIsFor (subEngine : Z) (artifact : any) : outcome bool :=
  match ForSubEngine artifact with
  | Some s => Ret (s =? subEngine)%Z
  | None => Panic "not routerArtifact"
  end.

Definition filterArtifacts (subEngine : Z) (artifacts : list any) : outcome (list any) :=
  foldM (λ seArtifacts subEngineArtifacts,
    match seArtifacts with
    | AnySlice l =>
        foldM (λ seArtifact subEngineArtifacts,
          isFor ← artifactIsFor subEngine seArtifact;
          Ret (if isFor : bool then subEngineArtifacts ++ [seArtifact] else subEngineArtifacts))
          l subEngineArtifacts
    | _ => Panic "interface conversion: not []superwatcher.Artifact"
    end) artifacts [].

Section router.
Context `{Gsl} `{MapOrder} `{DemoEngine E W}.
Implicit Types (e : routerEngine E) (n : nat) (log : Log).

(** ** Routing (utils.go) *)

(** logToSubEngine; no sub-engine is [None]. *)
Definition logToSubEngine e n log : outcome (nat * option Z) :=
  res ← for_each (map_order n (Routes e)) (λ '(subEngine, addrTopics) n,
    found ← for_each (map_order n addrTopics) (λ '(address, topics) (_ : unit),
      if (address =? log_Address log)%Z then
        topic ← index_at (log_Topics log) 0;
        Ret (if gsl_Contains topics topic then inr () else inl ())
      else Ret (inl ())) ();
    match found with
    | inr _ => Ret (inr (S n, subEngine))
    | inl _ => Ret (inl (S n))
    end) (S n);
  match res with
  | inr (n, subEngine) => Ret (n, Some subEngine)
  | inl n => Ret (n, None)
  end.

(** m[k] = append(m[k], l...). *)
Definition append_at {V} (m : gmap Z (list V)) (k : Z) (l : list V) : gmap Z (list V) :=
  <[k := default [] (m !! k) ++ l]> m.

Definition mapLogsToSubEngine e n (logs : list Log) : outcome (nat * gmap Z (list Log)) :=
  foldM (λ log '(n, logsMap),
    '(n, subEngine) ← logToSubEngine e n log;
    match subEngine with
    | None => Ret (n, logsMap)
    | Some subEngine => Ret (n, append_at logsMap subEngine [log])
    end) logs (n, ∅).

Definition mapBlocksToSubEngine e n (blocks : list Block) : outcome (nat * gmap Z (list Block)) :=
  foldM (λ block '(n, blocksMap),
    '(n, logsMap) ← mapLogsToSubEngine e n (Logs block);
    Ret (S n, foldl (λ blocksMap '(subEngine, logs),
      append_at blocksMap subEngine [mkBlock false (Number block) (BHash block) (Header block) logs])
      blocksMap (map_order n logsMap))) blocks (n, ∅).

Definition mergeArtifacts n (routerArtifacts subEngineArtifacts : gmap Z (list any)) :
    gmap Z (list any) :=
  foldl (λ routerArtifacts '(blockHash, l), append_at routerArtifacts blockHash l)
    routerArtifacts (map_order n subEngineArtifacts).

(** ** Handlers (engine_impl.go) *)

(** What the loops of both handlers do with what a service returned; [skips] is whether
    ErrNoNeedHandle is passed over. *)
Definition take_result (skips : bool) (subEngine : Z) (what : string) n (w : W)
    (retArtifacts : gmap Z (list any)) (r : option (gmap Z (list any)) * option error) :
    outcome ((nat * W * gmap Z (list any)) + (nat * W * error)) :=
  match r with
  | (_, Some err) =>
      name ← SubEngine_String subEngine;
      if skips && error_is err ErrNoNeedHandle then Ret (inl (n, w, retArtifacts))
      else Ret (inr (n, w, EWrap err ("subengine " +:+ name +:+ what)))
  | (Some resultArtifacts, None) =>
      Ret (inl (S n, w, mergeArtifacts n retArtifacts resultArtifacts))
  | (None, None) => Ret (inl (n, w, retArtifacts))
  end.

Definition no_service (subEngine : Z) n (w : W) :
    outcome ((nat * W * gmap Z (list any)) + (nat * W * error)) :=
  name ← SubEngine_String subEngine;
  Ret (inr (n, w, EWrap (ESentinel errNoService) ("subengine: " +:+ name))).

Definition router_results (res : (nat * W * gmap Z (list any)) + (nat * W * error)) :
    outcome (routed W * (option (gmap Z (list any)) * option error)) :=
  match res with
  | inl (n, w, retArtifacts) => Ret (mkRouted n w, (Some retArtifacts, None))
  | inr (n, w, err) => Ret (mkRouted n w, (None, Some err))
  end.

Definition router_HandleGoodBlocks e (s : routed W) (blocks : list Block) (artifacts : list any) :
    outcome (routed W * (option (gmap Z (list any)) * option error)) :=
  '(n, blocksMap) ← mapBlocksToSubEngine e (rt_loops s) blocks;
  res ← for_each (map_order n blocksMap) (λ '(subEngine, subEngineBlocks) '(n, w, retArtifacts),
    match Services e !! subEngine with
    | None => no_service subEngine n w
    | Some serviceEngine =>
        arts ← filterArtifacts subEngine artifacts;
        '(w, r) ← demo_HandleGoodBlocks serviceEngine w subEngineBlocks arts;
        take_result true subEngine " HandleGoodBlock failed" n w retArtifacts r
    end) (S n, rt_world s, ∅);
  router_results res.

Definition router_HandleReorgedBlocks e (s : routed W) (blocks : list Block) (artifacts : list any) :
    outcome (routed W * (option (gmap Z (list any)) * option error)) :=
  '(n, blocksMap) ← mapBlocksToSubEngine e (rt_loops s) blocks;
  res ← for_each (map_order n blocksMap) (λ '(subEngine, subEngineBlocks) '(n, w, retArtifacts),
    match Services e !! subEngine with
    | None => no_service subEngine n w
    | Some serviceEngine =>
        arts ← filterArtifacts subEngine artifacts;
        '(w, r) ← demo_HandleReorgedBlocks serviceEngine w subEngineBlocks arts;
        take_result false subEngine " HandleReorgedBlock failed" n w retArtifacts r
    end) (S n, rt_world s, ∅);
  router_results res.

Definition router_HandleEmitterError e (s : routed W) (err : error) : outcome (routed W * option error) :=
  Ret (s, Some err).

#[export] Instance router_DemoEngine : DemoEngine (routerEngine E) (routed W) := {|
  demo_HandleGoodBlocks := router_HandleGoodBlocks;
  demo_HandleReorgedBlocks := router_HandleReorgedBlocks;
  demo_HandleEmitterError := router_HandleEmitterError;
|}.
End router.

(** A service engine of superwatcher: the artifacts that the engine passes are slices, and a
    nil map reads as an empty one. *)
Definition engine_artifacts (arts : goslice (goslice any)) : list any :=
  (λ l, AnySlice (slice_elems l)) <$> slice_elems arts.
Definition service_results {E W} (e : E)
    (r : outcome (W * (option (gmap Z (list any)) * option error))) :
    outcome ((E * W) * (gmap Z (goslice any) * option error)) :=
  '(w, (m, err)) ← r; Ret ((e, w), (Some <$> (default ∅ m : gmap Z (list any)), err)).

#[export] Instance demo_ServiceEngine_of {E W} `{DemoEngine E W} : ServiceEngine (E * W) any := {|
  HandleGoodBlocks s blocks arts :=
    service_results s.1 (demo_HandleGoodBlocks s.1 s.2 blocks (engine_artifacts arts));
  HandleReorgedBlocks s blocks arts :=
    service_results s.1 (demo_HandleReorgedBlocks s.1 s.2 blocks (engine_artifacts arts));
  HandleEmitterError s err :=
    '(w, err) ← demo_HandleEmitterError s.1 s.2 err; Ret ((s.1, w), err);
|}.

(** * Lemmas *)

Lemma map_order_map `{MapOrder} {V} i (m : gmap Z V) : (list_to_map (map_order i m) : gmap Z V) = m.
Proof.
  trans (list_to_map (map_to_list m) : gmap Z V); [|apply list_to_map_to_list].
  apply list_to_map_proper; [|apply map_order_perm].
  rewrite map_order_perm. apply NoDup_fst_map_to_list.
Qed.

Lemma map_order_NoDup `{MapOrder} {V} i (m : gmap Z V) : NoDup (map_order i m).*1.
Proof. rewrite map_order_perm. apply NoDup_fst_map_to_list. Qed.

Lemma elem_of_map_order `{MapOrder} {V} i (m : gmap Z V) k v :
  (k, v) ∈ map_order i m ↔ m !! k = Some v.
Proof. rewrite map_order_perm. apply elem_of_map_to_list. Qed.

(** Appending to each key of a map in any order. *)
Lemma lookup_fold_append {V U} (f : V → list U) l : ∀ (m : gmap Z (list U)) k, NoDup l.*1 →
  foldl (λ m '(k, v), append_at m k (f v)) m l !! k =
    match (list_to_map l : gmap Z V) !! k with
    | Some v => Some (default [] (m !! k) ++ f v)
    | None => m !! k
    end.
Proof.
  induction l as [|[k' v] l IH]; intros m k Hnd; [done|]. simpl in *.
  apply NoDup_cons in Hnd as [Hk' Hnd]. rewrite IH by done. unfold append_at.
  destruct (decide (k' = k)) as [->|Hne].
  - rewrite !lookup_insert_eq, not_elem_of_list_to_map_1 by done. done.
  - by rewrite !lookup_insert_ne by done.
Qed.

Section routing.
Context `{Gsl} `{MapOrder} {E : Type}.
Implicit Types (e : routerEngine E) (n : nat) (log : Log) (routes : gmap Z (gmap Z (list Hash))).

(** ** Reference *)

(** Whether a sub-engine's routes have a log. *)
Definition takes (addrTopics : gmap Z (list Hash)) log : bool :=
  match log_Topics log, addrTopics !! log_Address log with
  | topic :: _, Some topics => bool_decide (topic ∈ topics)
  | _, _ => false
  end.
Definition routes_log routes (se : Z) log : bool :=
  match routes !! se with Some addrTopics => takes addrTopics log | None => false end.

(** At most one sub-engine has a log. *)
Definition routes_disjoint routes : Prop :=
  ∀ log se se', routes_log routes se log = true → routes_log routes se' log = true → se = se'.

(** What a sub-engine gets to see of the blocks. *)
Definition routed_logs routes (se : Z) (logs : list Log) : list Log :=
  filter (λ log, routes_log routes se log = true) logs.
Definition routed_block routes (se : Z) (b : Block) : Block :=
  mkBlock false (Number b) (BHash b) (Header b) (routed_logs routes se (Logs b)).
Definition routed_blocks routes (se : Z) (blocks : list Block) : list Block :=
  filter (λ b, Logs b ≠ []) (routed_block routes se <$> blocks).

(** A list as a map holds it: no entry for the empty one. *)
Definition entry {A} (l : list A) : option (list A) := match l with [] => None | _ => Some l end.

Lemma entry_default {A} (l : list A) : default [] (entry l) = l.
Proof. by destruct l. Qed.
Lemma entry_app {A} (l l' : list A) : l' ≠ [] → Some (default [] (entry l) ++ l') = entry (l ++ l').
Proof. intros Hl. rewrite entry_default. destruct l, l'; done. Qed.

(** The inner loop finds the address and looks at its topics. *)
Lemma find_topic l log topic :
  log_Topics log !! 0%nat = Some topic → NoDup l.*1 →
  for_each l (λ '(address, topics) (_ : unit),
    if (address =? log_Address log)%Z then
      topic ← index_at (log_Topics log) 0;
      Ret (if gsl_Contains topics topic then inr () else inl ())
    else Ret (inl ())) () =
  Ret (if takes (list_to_map l) log then inr () else inl ()).
Proof.
  intros Ht. assert (∃ ts, log_Topics log = topic :: ts) as [ts Hts] by (destruct (log_Topics log); naive_solver).
  unfold takes. rewrite Hts. induction l as [|[a ts'] l IH]; intros Hnd; [done|]. simpl in *.
  apply NoDup_cons in Hnd as [Ha Hnd]. destruct (Z.eqb_spec a (log_Address log)) as [->|Hne].
  - rewrite lookup_insert_eq. simpl. case_bool_decide as Hin.
    + apply gsl_Contains_spec in Hin as ->. done.
    + apply gsl_Contains_false in Hin as ->. simpl. rewrite IH by done.
      by rewrite not_elem_of_list_to_map_1.
  - simpl. rewrite lookup_insert_ne by done. by apply IH.
Qed.

(** The outer loop finds a sub-engine that takes the log. *)
Lemma logToSubEngine_run e n log topic :
  log_Topics log !! 0%nat = Some topic →
  ∃ n' o, logToSubEngine e n log = Ret (n', o) ∧
    match o with
    | Some se => routes_log (Routes e) se log = true
    | None => ∀ se, routes_log (Routes e) se log = false
    end.
Proof.
  intros Ht. unfold logToSubEngine. set (l := map_order n (Routes e)).
  assert (∀ se addrTopics, (se, addrTopics) ∈ l ↔ Routes e !! se = Some addrTopics) as Hin
    by (intros; apply elem_of_map_order).
  match goal with |- context [for_each l ?f _] => set (body := f) end.
  assert (∀ l' n, (∀ x, x ∈ l' → x ∈ l) → ∃ n' o, for_each l' body n = Ret o ∧ match o with
    | inr (_, se) => routes_log (Routes e) se log = true
    | inl n'' => n'' = n' ∧ ∀ se addrTopics, (se, addrTopics) ∈ l' → takes addrTopics log = false
    end) as Hloop.
  { induction l' as [|[se addrTopics] l' IH]; intros n0 Hl.
    { exists n0, (inl n0). split; [done|]. split; [done|]. by intros ? ? ?%not_elem_of_nil. }
    simpl.
    unfold body at 1. rewrite (find_topic _ _ _ Ht) by apply map_order_NoDup. simpl.
    rewrite map_order_map. destruct (takes addrTopics log) eqn:Et; simpl.
    - eexists 0, (inr (_, se)). split; [reflexivity|]. unfold routes_log.
      rewrite (proj1 (Hin se addrTopics)) by (apply Hl; by left). done.
    - destruct (IH (S n0)) as (n' & o & Hr & Ho); [intros; apply Hl; by right|].
      exists n', o. split; [done|]. destruct o as [n''|[? ?]]; [|done]. destruct Ho as [? Ho].
      split; [done|]. intros ? ? [[= -> ->]|?]%elem_of_cons; [done|]. by eapply Ho. }
  destruct (Hloop l (S n)) as (n' & o & -> & Ho); [done|]. simpl.
  destruct o as [n''|[n'' se]]; [|by exists n'', (Some se)]. exists n'', None. split; [done|].
  intros se. unfold routes_log. destruct (Routes e !! se) as [addrTopics|] eqn:Es; [|done].
  apply Hin in Es. by eapply Ho.
Qed.
End routing.
