(* ===== verification/RouterProps.v ===== *)
(** The router partitions: every sub-engine gets exactly its logs, block by block, whatever
    order the maps are ranged over, and each handler calls each sub-engine once. *)

From S2P Require Import Prelude GoErrors Types Externals DataGateway Engine DemoData PoolGateway Router.

(** * Definitions *)

(** The artifacts of a sub-engine among those of all, in order. *)
Definition artifacts_for (se : Z) (artifacts : list any) : list any :=
  artifacts ≫= λ a, match a with
    | AnySlice l => filter (λ x, ForSubEngine x = Some se) l
    | _ => []
    end.

(** Slices of artifacts that all say for whom they are. *)
Definition artifacts_ok (artifacts : list any) : Prop :=
  Forall (λ a, ∃ l, a = AnySlice l ∧ Forall (λ x, is_Some (ForSubEngine x)) l) artifacts.

(** Both maps' artifacts, hash by hash. *)
Definition merged (m m' : gmap Z (list any)) : gmap Z (list any) :=
  union_with (λ l l', Some (l ++ l')) m m'.

(** The reference: the sub-engines [ks] one after the other, each with its own blocks and
    artifacts, until one fails. *)
Section serve.
Context {E W : Type} (handle : E → W → list Block → list any →
  outcome (W * (option (gmap Z (list any)) * option error))).
Context (skips : bool) (what : string) (e : routerEngine E) (blocks : list Block) (artifacts : list any).

Fixpoint serve (ks : list Z) (w : W) (ret : gmap Z (list any)) : outcome (W * (gmap Z (list any) + error)) :=
  match ks with
  | [] => Ret (w, inl ret)
  | se :: ks =>
      match Services e !! se with
      | None => name ← SubEngine_String se;
          Ret (w, inr (EWrap (ESentinel errNoService) ("subengine: " +:+ name)))
      | Some service =>
          '(w, (m, err)) ← handle service w (routed_blocks (Routes e) se blocks) (artifacts_for se artifacts);
          match err with
          | None => serve ks w (merged ret (default ∅ m))
          | Some err =>
              name ← SubEngine_String se;
              if skips && error_is err ErrNoNeedHandle then serve ks w ret
              else Ret (w, inr (EWrap err ("subengine " +:+ name +:+ what)))
          end
      end
  end.

(** The order of the sub-engines that have blocks to handle. *)
Definition serve_order (ks : list Z) : Prop :=
  NoDup ks ∧ ∀ se, se ∈ ks ↔ routed_blocks (Routes e) se blocks ≠ [].
End serve.

(** A run of the router that does what the reference does, up to the number of loops. *)
Definition serves_as {W} (run : outcome (routed W * (option (gmap Z (list any)) * option error)))
    (ref : outcome (W * (gmap Z (list any) + error))) : Prop :=
  match ref with
  | Ret (w, inl m) => ∃ n, run = Ret (mkRouted n w, (Some m, None))
  | Ret (w, inr err) => ∃ n, run = Ret (mkRouted n w, (None, Some err))
  | Panic s => run = Panic s
  | Diverge => run = Diverge
  end.

(** * Lemmas *)

Section partition.
Context `{Gsl} `{MapOrder} {E : Type} (e : routerEngine E).
Context (Hdis : routes_disjoint (Routes e)).
Implicit Types (n : nat) (log : Log).
Abbreviation R := (Routes e).

Definition has_topic (log : Log) : Prop := log_Topics log ≠ [].

Lemma logToSubEngine_spec n log :
  has_topic log → ∃ n' o, logToSubEngine e n log = Ret (n', o) ∧
    ∀ se, routes_log R se log = true ↔ o = Some se.
Proof.
  intros Ht. unfold has_topic in Ht. destruct (log_Topics log) as [|t ts] eqn:Et; [done|].
  destruct (logToSubEngine_run e n log t) as (n' & o & Hr & Ho); [by rewrite Et|].
  exists n', o. split; [done|]. intros se. destruct o as [se'|]; [|by rewrite (Ho se)].
  split; [|by intros [= <-]]. intros Hse. f_equal. by eapply Hdis.
Qed.

Lemma mapLogs_run n logs :
  Forall has_topic logs → ∃ n' m, mapLogsToSubEngine e n logs = Ret (n', m) ∧
    ∀ se, m !! se = entry (routed_logs R se logs).
Proof.
  intros Ht. unfold mapLogsToSubEngine. rewrite Forall_forall in Ht.
  destruct (foldM_ind (λ pre '(_, m), ∀ se, m !! se = entry (routed_logs R se pre))
    (λ log '(n, logsMap), '(n, subEngine) ← logToSubEngine e n log;
      match subEngine with
      | None => Ret (n, logsMap)
      | Some subEngine => Ret (n, append_at logsMap subEngine [log])
      end) logs (n, ∅)) as ([n' m] & -> & Hm); [done| |by exists n', m].
  intros pre log post [n0 m0] -> Hm0.
  destruct (logToSubEngine_spec n0 log) as (n' & o & -> & Ho).
  { apply Ht, elem_of_app. right. by left. }
  simpl. destruct o as [se'|]; (eexists; split; [reflexivity|]); intros se; unfold routed_logs;
    rewrite filter_app, filter_cons; simpl.
  - unfold append_at. rewrite !Hm0. destruct (decide (se' = se)) as [->|Hne].
    + rewrite lookup_insert_eq, decide_True by by apply Ho. by apply entry_app.
    + rewrite lookup_insert_ne, decide_False by (done || by intros [= ?]%Ho). by rewrite app_nil_r.
  - rewrite decide_False by by intros ?%Ho. by rewrite app_nil_r.
Qed.

Lemma routed_blocks_snoc se pre b :
  routed_blocks R se (pre ++ [b]) = routed_blocks R se pre ++
    match routed_logs R se (Logs b) with [] => [] | l => [mkBlock false (Number b) (BHash b) (Header b) l] end.
Proof.
  unfold routed_blocks. rewrite fmap_app, filter_app. f_equal. simpl. unfold routed_block.
  destruct (routed_logs R se (Logs b)) as [|l ls]; [by rewrite filter_cons_False by auto|].
  by rewrite filter_cons_True.
Qed.

Lemma mapBlocks_run n blocks :
  Forall (λ b, Forall has_topic (Logs b)) blocks →
  ∃ n' m, mapBlocksToSubEngine e n blocks = Ret (n', m) ∧
    ∀ se, m !! se = entry (routed_blocks R se blocks).
Proof.
  intros Ht. unfold mapBlocksToSubEngine. rewrite Forall_forall in Ht.
  match goal with |- context [foldM ?f _ _] => set (body := f) end.
  destruct (foldM_ind (λ pre '(_, m), ∀ se, m !! se = entry (routed_blocks R se pre)) body blocks (n, ∅))
    as ([n' m] & -> & Hm); [done| |by exists n', m].
  intros pre b post [n0 m0] -> Hm0. unfold body.
  destruct (mapLogs_run n0 (Logs b)) as (n' & lm & -> & Hlm).
  { apply Ht, elem_of_app. right. by left. }
  simpl. eexists. split; [reflexivity|]. intros se.
  rewrite (lookup_fold_append (λ logs, [mkBlock false (Number b) (BHash b) (Header b) logs]))
    by apply map_order_NoDup.
  rewrite map_order_map, Hlm, !Hm0, routed_blocks_snoc.
  destruct (routed_logs R se (Logs b)) as [|l ls]; simpl; [by rewrite app_nil_r|]. by apply entry_app.
Qed.
End partition.

Lemma filterArtifacts_run se artifacts :
  artifacts_ok artifacts → filterArtifacts se artifacts = Ret (artifacts_for se artifacts).
Proof.
  intros Hok. unfold filterArtifacts, artifacts_for.
  match goal with |- foldM ?f _ _ = _ => set (body := f) end.
  enough (∀ acc, foldM body artifacts acc = Ret (acc ++ artifacts_for se artifacts)) as Hgen by apply Hgen.
  unfold artifacts_for. induction Hok as [|a artifacts (l & -> & Hl) _ IH]; intros acc; simpl.
  { by rewrite app_nil_r. }
  assert (∀ acc, foldM (λ seArtifact subEngineArtifacts,
      isFor ← artifactIsFor se seArtifact;
      Ret (if isFor : bool then subEngineArtifacts ++ [seArtifact] else subEngineArtifacts)) l acc =
    Ret (acc ++ filter (λ x, ForSubEngine x = Some se) l)) as ->.
  { clear IH. induction Hl as [|x l [s Hs] _ IHl]; intros acc'; simpl; [by rewrite app_nil_r|].
    assert (artifactIsFor se x = Ret (s =? se)%Z) as -> by (unfold artifactIsFor; by rewrite Hs).
    simpl. rewrite IHl. destruct (Z.eqb_spec s se) as [->|Hne].
    - by rewrite filter_cons_True, <-app_assoc by done.
    - rewrite filter_cons_False; [done|]. rewrite Hs. by intros [= ?]. }
  simpl. by rewrite IH, app_assoc.
Qed.

Lemma mergeArtifacts_merged `{MapOrder} n m m' : mergeArtifacts n m m' = merged m m'.
Proof.
  apply map_eq. intros k. unfold mergeArtifacts, merged.
  rewrite (lookup_fold_append (λ l, l)) by apply map_order_NoDup.
  rewrite map_order_map, lookup_union_with. by destruct (m !! k), (m' !! k).
Qed.

Lemma merged_empty m : merged m ∅ = m.
Proof.
  apply map_eq. intros k. unfold merged. rewrite lookup_union_with, lookup_empty. destruct (m !! k); reflexivity.
Qed.

Section handlers.
Context `{Gsl} `{MapOrder} `{DemoEngine E W} (e : routerEngine E).
Context (handle : E → W → list Block → list any →
  outcome (W * (option (gmap Z (list any)) * option error))).
Context (skips : bool) (what : string) (blocks : list Block) (artifacts : list any).
Context (Harts : artifacts_ok artifacts).
Abbreviation R := (Routes e).

(** The loop of both handlers. *)
Definition serve_body : Z * list Block → nat * W * gmap Z (list any) →
    outcome (nat * W * gmap Z (list any) + nat * W * error) :=
  λ '(subEngine, subEngineBlocks) '(n, w, retArtifacts),
    match Services e !! subEngine with
    | None => no_service subEngine n w
    | Some serviceEngine =>
        arts ← filterArtifacts subEngine artifacts;
        '(w, r) ← handle serviceEngine w subEngineBlocks arts;
        take_result skips subEngine what n w retArtifacts r
    end.

Lemma serve_body_eq se bs n w ret :
  serve_body (se, bs) (n, w, ret) =
    match Services e !! se with
    | None => no_service se n w
    | Some serviceEngine =>
        arts ← filterArtifacts se artifacts;
        '(w, r) ← handle serviceEngine w bs arts;
        take_result skips se what n w ret r
    end.
Proof. done. Qed.

Lemma serve_loop l : (∀ se bs, (se, bs) ∈ l → bs = routed_blocks R se blocks) → ∀ n w ret,
  serves_as (res ← for_each l serve_body (n, w, ret); router_results res)
    (serve handle skips what e blocks artifacts l.*1 w ret).
Proof.
  induction l as [|[se bs] l IH]; intros Hl n w ret; [by exists n|].
  assert (bs = routed_blocks R se blocks) as -> by (apply Hl; by left).
  specialize (IH (λ se bs Hin, Hl se bs (list_elem_of_further _ _ _ Hin))).
  cbn [for_each fmap list_fmap fst serve]. rewrite serve_body_eq.
  destruct (Services e !! se) as [service|].
  2: { unfold no_service. destruct (SubEngine_String se); simpl; [by exists n|done..]. }
  rewrite (filterArtifacts_run _ _ Harts). cbn [mbind outcome_bind].
  destruct (handle service w _ _) as [[w' [m err]]| |]; [|done..]. cbn [mbind outcome_bind].
  destruct err as [err|].
  - assert (∀ o, take_result skips se what n w' ret (o, Some err) =
      name ← SubEngine_String se;
      if skips && error_is err ErrNoNeedHandle then Ret (inl (n, w', ret))
      else Ret (inr (n, w', EWrap err ("subengine " +:+ name +:+ what)))) as -> by by intros [].
    destruct (SubEngine_String se) as [name| |]; [|done..]. cbn [mbind outcome_bind].
    destruct (skips && _); [apply IH|]. by exists n.
  - destruct m as [m|]; simpl.
    + rewrite mergeArtifacts_merged. apply IH.
    + specialize (IH n w' ret). by rewrite merged_empty.
Qed.
End handlers.

Section serving.
Context `{Gsl} `{MapOrder} `{DemoEngine E W} (e : routerEngine E).

(** The order in which a map of the sub-engines' blocks is ranged over. *)
Lemma mapped_order blocks n m :
  (∀ se, m !! se = entry (routed_blocks (Routes e) se blocks)) →
  serve_order e blocks (map_order n m).*1 ∧
  ∀ se bs, (se, bs) ∈ map_order n m → bs = routed_blocks (Routes e) se blocks.
Proof.
  intros Hspec. split; [split; [apply map_order_NoDup|]|].
  - intros se. rewrite list_elem_of_fmap. split.
    + intros ([? bs] & -> & Hin%elem_of_map_order). rewrite Hspec in Hin. simpl in *.
      by destruct (routed_blocks (Routes e) _ blocks).
    + intros Hne. exists (se, routed_blocks (Routes e) se blocks). split; [done|]. apply elem_of_map_order.
      rewrite Hspec. by destruct (routed_blocks (Routes e) se blocks).
  - intros se bs Hin%elem_of_map_order. rewrite Hspec in Hin.
    by destruct (routed_blocks (Routes e) se blocks); simplify_eq/=.
Qed.

Lemma router_good_serves (s : routed W) blocks artifacts :
  routes_disjoint (Routes e) → Forall (λ b, Forall has_topic (Logs b)) blocks → artifacts_ok artifacts →
  ∃ ks, serve_order e blocks ks ∧ serves_as (router_HandleGoodBlocks e s blocks artifacts)
    (serve demo_HandleGoodBlocks true " HandleGoodBlock failed" e blocks artifacts ks (rt_world s) ∅).
Proof.
  intros Hdis Ht Harts. destruct (mapBlocks_run e Hdis (rt_loops s) blocks Ht) as (n & m & Hm & Hspec).
  unfold router_HandleGoodBlocks. rewrite Hm. cbn [mbind outcome_bind].
  destruct (mapped_order blocks n m Hspec) as [Hord Hl]. exists (map_order n m).*1. split; [done|].
  by apply serve_loop.
Qed.

Lemma router_reorged_serves (s : routed W) blocks artifacts :
  routes_disjoint (Routes e) → Forall (λ b, Forall has_topic (Logs b)) blocks → artifacts_ok artifacts →
  ∃ ks, serve_order e blocks ks ∧ serves_as (router_HandleReorgedBlocks e s blocks artifacts)
    (serve demo_HandleReorgedBlocks false " HandleReorgedBlock failed" e blocks artifacts ks (rt_world s) ∅).
Proof.
  intros Hdis Ht Harts. destruct (mapBlocks_run e Hdis (rt_loops s) blocks Ht) as (n & m & Hm & Hspec).
  unfold router_HandleReorgedBlocks. rewrite Hm. cbn [mbind outcome_bind].
  destruct (mapped_order blocks n m Hspec) as [Hord Hl]. exists (map_order n m).*1. split; [done|].
  by apply serve_loop.
Qed.
End serving.

(** * Properties *)

Section properties.
Context `{Gsl} `{MapOrder} `{DemoEngine E W} (e : routerEngine E).
Abbreviation R := (Routes e).

(** C19: The router partitions the blocks: when no address and first topic belong to two
    sub-engines, then in whatever orders the route maps are ranged over, every sub-engine gets,
    in order, the blocks that have logs of its own, with exactly these logs, and a log reaches
    one sub-engine at most. *)
Theorem router_partitions n blocks :
  routes_disjoint R → Forall (λ b, Forall has_topic (Logs b)) blocks →
  (∃ n' m, mapBlocksToSubEngine e n blocks = Ret (n', m) ∧
     ∀ se, m !! se = entry (routed_blocks R se blocks)) ∧
  ∀ b log se, b ∈ blocks → log ∈ Logs b → routes_log R se log = true →
    (∃ b', b' ∈ routed_blocks R se blocks ∧ BHash b' = BHash b ∧ Number b' = Number b ∧ log ∈ Logs b') ∧
    ∀ se' b', b' ∈ routed_blocks R se' blocks → log ∈ Logs b' → se' = se.
Proof.
  intros Hdis Ht. split; [by apply mapBlocks_run|]. intros b log se Hb Hlog Hse.
  assert (log ∈ routed_logs R se (Logs b)) as Hin by by apply list_elem_of_filter. split.
  - exists (routed_block R se b). split; [|done]. apply list_elem_of_filter. split.
    + simpl. intros Hnil. rewrite Hnil in Hin. by apply not_elem_of_nil in Hin.
    + apply list_elem_of_fmap. by exists b.
  - intros se' b' [_ (b0 & -> & _)%list_elem_of_fmap]%list_elem_of_filter [Hse' _]%list_elem_of_filter.
    by eapply Hdis.
Qed.

End properties.
