(* ===== verification/EnsGateway.v ===== *)
(** examples/demoservice/internal/domain/datagateway: where the ENS engine keeps its names. *)

From S2P Require Import Prelude GoErrors Types Externals DataGateway FileGateway DemoData PoolGateway.

(** * Definitions *)

(** RepositoryENS. *)
Class RepositoryENS (G : Type) : Type := {
  SetENS : G → ENS → outcome (G * option error);
  GetENS : G → string → outcome (G * (option ENS * option error));
  GetENSes : nat → G → outcome (G * (list ENS * option error));
  DelENS : G → ENS → outcome (G * option error);
}.

Class ENSRepository (G : Type) `{RepositoryENS G} : Prop := {
  GetENS_SetENS g ens g' : SetENS g ens = Ret (g', None) →
    ∃ g'', GetENS g' (ens_ID ens) = Ret (g'', (Some ens, None));
  GetENS_DelENS g ens g' : DelENS g ens = Ret (g', None) →
    ∃ g'' err, GetENS g' (ens_ID ens) = Ret (g'', (None, err)) ∧
      errors_Is err ErrRecordNotFound = true;
}.

(** ** Redis *)

Definition EnsRedisKey : string := "demo:ens".

Section redis.
Context `{MapOrder} `{RedisHash R} `{JSON ENS}.

Definition redis_SetENS (r : R) (ens : ENS) : outcome (R * option error) :=
  match json_Marshal ens with
  | inr err => Ret (r, Some (EWrap err ("failed to marshal ENS for ensID " +:+ ens_ID ens)))
  | inl ensJSON =>
      let '(r, err) := HSet r EnsRedisKey (ens_ID ens) ensJSON in
      Ret (r, HandleRedisErr err "HSET ens" (ens_ID ens))
  end.

Definition redis_GetENS (r : R) (ensID : string) : outcome (R * (option ENS * option error)) :=
  match HGet r EnsRedisKey ensID with
  | inr err => Ret (r, (None, HandleRedisErr (Some err) "HGET ens" ensID))
  | inl stringData =>
      match json_Unmarshal stringData with
      | inr err => Ret (r, (None, Some (EWrap err ("failed to unmarshal for ensID " +:+ ensID))))
      | inl ens => Ret (r, (Some ens, None))
      end
  end.

Definition redis_GetENSes (i : nat) (r : R) : outcome (R * (list ENS * option error)) :=
  match HGetAll r EnsRedisKey with
  | inr err => Ret (r, ([], HandleRedisErr (Some err) "HGETALL ens" "null"))
  | inl resultMap =>
      res ← for_each (map_order i resultMap) (λ '(ensID, ensJSON) enses,
        match json_Unmarshal ensJSON with
        | inr err => Ret (inr (EWrap err ("failec to unmarshal for ensID " +:+ ensID)))
        | inl ens => Ret (inl (enses ++ [ens]))
        end) [];
      match res with
      | inl enses => Ret (r, (enses, None))
      | inr err => Ret (r, ([], Some err))
      end
  end.

Definition redis_DelENS (r : R) (ens : ENS) : outcome (R * option error) :=
  let '(r, err) := HDel r EnsRedisKey (ens_ID ens) in
  match err with
  | Some _ => Ret (r, HandleRedisErr err "del RecordedENS" EnsRedisKey)
  | None => Ret (r, None)
  end.

#[export] Instance redis_Names : RepositoryENS R := {|
  SetENS := redis_SetENS;
  GetENS := redis_GetENS;
  GetENSes := redis_GetENSes;
  DelENS := redis_DelENS;
|}.
End redis.

(** ** The mock *)

(** MockDataGatewayENS; deleting leaves a nil pointer in the map. *)
Record MockNames : Type := mkMockNames {
  mn_m : gmap string (option ENS);
  mn_writeLogs : list string;
}.
Definition NewMockDataGatewayENS : MockNames := mkMockNames ∅ [].

Section mock.
Context `{MapOrder}.
Implicit Types (s : MockNames).

(** Both writes leave the same text. *)
Definition name_log (ens : ENS) : string :=
  write_log "DEL" "ID" (ens_ID ens) (ens_BlockNumber ens) (ens_BlockHash ens).

Definition mock_SetENS s (ens : ENS) : outcome (MockNames * option error) :=
  Ret (mkMockNames (<[ens_ID ens := Some ens]> (mn_m s)) (mn_writeLogs s ++ [name_log ens]), None).

Definition mock_GetENS s (ensID : string) : outcome (MockNames * (option ENS * option error)) :=
  match mn_m s !! ensID with
  | Some (Some saved) => Ret (s, (Some saved, None))
  | _ => Ret (s, (None, wrap_sentinel ErrRecordNotFound ("ens not found for key " +:+ ensID)))
  end.

Definition mock_GetENSes (i : nat) s : outcome (MockNames * (list ENS * option error)) :=
  Ret (s, (omap snd (map_order i (mn_m s)), None)).

Definition mock_DelENS s (ens : ENS) : outcome (MockNames * option error) :=
  match mn_m s !! ens_ID ens with
  | None => Ret (s, wrap_sentinel ErrRecordNotFound ("ens not found for key " +:+ ens_Name ens))
  | Some _ =>
      Ret (mkMockNames (<[ens_ID ens := None]> (mn_m s)) (mn_writeLogs s ++ [name_log ens]), None)
  end.

#[export] Instance mock_Names : RepositoryENS MockNames := {|
  SetENS := mock_SetENS;
  GetENS := mock_GetENS;
  GetENSes := mock_GetENSes;
  DelENS := mock_DelENS;
|}.
End mock.

(** * Lemmas *)

#[export] Instance mock_names_repository `{MapOrder} : ENSRepository MockNames.
Proof.
  split; intros s ens s'; simpl; unfold mock_SetENS, mock_GetENS, mock_DelENS.
  - intros [= <-]. simpl. rewrite lookup_insert_eq. by eexists.
  - destruct (mn_m s !! _); [|done]. intros [= <-]. simpl. rewrite lookup_insert_eq.
    by eexists _, _.
Qed.

#[export] Instance redis_names_repository `{MapOrder} `{RedisHash R} `{JSON ENS} : ENSRepository R.
Proof.
  split; intros r ens r'; simpl.
  - unfold redis_SetENS, redis_GetENS. destruct (json_Marshal ens) as [s|err] eqn:Ej; [|done].
    destruct (HSet _ _ _ _) as [r1 err] eqn:Eh. intros [= <- He]. destruct err as [err|].
    { unfold HandleRedisErr in He. by destruct (error_is err redis_Nil). }
    rewrite (HGet_HSet _ _ _ _ _ Eh), (json_Unmarshal_Marshal _ _ Ej). by exists r1.
  - unfold redis_DelENS, redis_GetENS.
    destruct (HDel _ _ _) as [r1 [err|]] eqn:Eh; [by destruct (error_is err redis_Nil) eqn:E; simpl; rewrite ?E|].
    intros [= <-]. destruct (HGet_HDel _ _ _ _ Eh) as (err & -> & He). eexists r1, _.
    split; [done|]. simpl. by rewrite He.
Qed.
