(* ===== verification/EnsEngine.v ===== *)
(** examples/demoservice/internal/subengines/ensengine: the sub-engine that keeps the names that
    two ENS contracts register. *)

From S2P Require Import Prelude GoErrors Types Externals DataGateway FileGateway DemoData PoolGateway.
From S2P Require Import EnsGateway PoolFactory.

(** * Definitions *)

Definition eventNameRegistered : string := "NameRegistered".

Record ensEngine (ABI : Type) : Type := mkEnsEngine {
  ensRegistrar : Contract ABI;
  ensController : Contract ABI;
}.
Arguments mkEnsEngine {ABI}.
Arguments ensRegistrar {ABI}.
Arguments ensController {ABI}.

(** big.Int's Int64, the low 64 bits read as signed; time.Unix of it is that number. *)
Definition big_Int64 (z : Z) : Z := to_int64 (wrap64 z).

(** ** Artifacts (artifacts.go) *)

Definition collectArtifactsENS (artifacts : list any) : outcome (list ENSArtifact) :=
  foldM (λ artifact ensArtifacts,
    match artifact with
    | AnyNil => Panic "nil artifact at index"
    | AnyENS a => Ret (ensArtifacts ++ [a])
    | AnySlice l => Ret (ensArtifacts ++
        omap (λ seArtifact, match seArtifact with AnyENS a => Some a | _ => None end) l)
    | AnyPool _ => Panic "interface conversion: not []superwatcher.Artifact"
    end) artifacts [].

(** The maps of a world and the fields of records, changed. *)
Definition set_eventMaps {GP GE} (w : demoWorld GP GE) maps : demoWorld GP GE :=
  mkDemoWorld (dw_poolMaps w) (dw_pools w) maps (dw_names w).
Definition set_names {GP GE} (w : demoWorld GP GE) g : demoWorld GP GE :=
  mkDemoWorld (dw_poolMaps w) (dw_pools w) (dw_eventMaps w) g.

(** events[event] = blockNumber, for a map that may be nil. *)
Definition write_event {GP GE} (w : demoWorld GP GE) (events : option nat) (event : string)
    (blockNumber : Z) : outcome (demoWorld GP GE) :=
  match events with
  | None => Panic "assignment to entry in nil map"
  | Some ref =>
      match dw_eventMaps w !! ref with
      | Some m => Ret (set_eventMaps w (<[ref := <[event := blockNumber]> m]> (dw_eventMaps w)))
      | None => Panic "unreachable: dangling map"
      end
  end.

(** &ENSArtifact with a new map, and the same object with other fields. *)
Definition new_events {GP GE} (w : demoWorld GP GE) (m : gmap string Z) : nat * demoWorld GP GE :=
  (length (dw_eventMaps w), set_eventMaps w (dw_eventMaps w ++ [m])).

Section engine.
Context `{EthText} `{AbiUnpack ABI} `{RepositoryENS GE} {GP : Type}.
Abbreviation world := (demoWorld GP GE).
Implicit Types (e : ensEngine ABI) (w : world) (log : Log).

Definition filterRegistrarArtifact log (artifacts : list ENSArtifact) : outcome ENSArtifact :=
  match artifacts with
  | [] => Panic "nil artifacts"
  | _ =>
      res ← for_each artifacts (λ artifact (_ : unit),
        topic ← index_at (log_Topics log) 1;
        if String.eqb (ens_ID (ea_ENS artifact)) (StringerToLowerString topic) then Ret (inr artifact)
        else if String.eqb (ens_TxHash (ea_ENS artifact)) (StringerToLowerString (log_TxHash log))
          then Ret (inr artifact)
        else Ret (inl ())) ();
      match res with
      | inr artifact => Ret artifact
      | inl _ => Panic "no such artifact for txHash"
      end
  end.

Definition prevRegistrarArtifact log (artifacts : list any) : outcome (option ENSArtifact) :=
  ensArtifacts ← collectArtifactsENS artifacts;
  artifact ← filterRegistrarArtifact log ensArtifacts;
  Ret (if String.eqb (ea_LastEvent artifact) NullEvent &&
          (HexToHash (ens_TxHash (ea_ENS artifact)) =? 0)%Z then None else Some artifact).

(** ** Reading logs (map_log_to_item.go) *)

(** The owner's address as text, from a topic. *)
Definition topic_owner (topic : Hash) : string := AddressLower (topic_address topic).

(** unmarshalLogToENS; it writes to its argument only when it succeeds. *)
Definition unmarshalLogToENS e (logEvent : string) log (ens : ENS) : outcome (ENS + error) :=
  let failed (err : error) := Ret (inr (EWrap err (sentinel_text ErrMapENS))) in
  if (log_Address log =? contract_Address (ensRegistrar e))%Z then
    if String.eqb logEvent eventNameRegistered then
      if decide (length (log_Topics log) < 3)%nat
      then Ret (inr (EWrap (ESentinel ErrLogLen) "log topics len < 3"))
      else
        match UnpackLogDataIntoMap (ContractABI (ensRegistrar e)) logEvent (log_Data log) with
        | inr err => failed err
        | inl unpacked =>
            match ExtractFieldFromUnpacked as_big unpacked "expires" with
            | inr err => failed err
            | inl expire =>
                t1 ← index_at (log_Topics log) 1;
                t2 ← index_at (log_Topics log) 2;
                Ret (inl (mkENS (gsl_ToLower (HashString t1)) (ens_Name ens) (ens_TLD ens)
                  (topic_owner t2) (Some (big_Int64 expire)) (ens_TxHash ens) (ens_BlockHash ens)
                  (ens_BlockNumber ens)))
            end
        end
    else Ret (inl ens)
  else if (log_Address log =? contract_Address (ensController e))%Z then
    if String.eqb logEvent eventNameRegistered then
      match UnpackLogDataIntoMap (ContractABI (ensController e)) logEvent (log_Data log) with
      | inr err => failed err
      | inl unpacked =>
          match ExtractFieldFromUnpacked as_string unpacked "name" with
          | inr err => failed err
          | inl name =>
              match ExtractFieldFromUnpacked as_big unpacked "expires" with
              | inr err => failed err
              | inl expire =>
                  t2 ← index_at (log_Topics log) 2;
                  Ret (inl (mkENS (ens_ID ens) (gsl_ToLower name) (ens_TLD ens) (topic_owner t2)
                    (Some (big_Int64 expire)) (ens_TxHash ens) (ens_BlockHash ens)
                    (ens_BlockNumber ens)))
              end
          end
      end
    else Ret (inl ens)
  else Ret (inl ens).

(** ** Forward (process_forward.go) *)

Definition handleNameRegisteredRegistrar e w log (logEvent : string) :
    outcome (world * (ENSArtifact + error)) :=
  if decide (length (log_Topics log) < 2)%nat then Panic "bad log with < 2 topics"
  else
    let name := mkENS EmptyString EmptyString EmptyString EmptyString None
      (StringerToLowerString (log_TxHash log)) (StringerToLowerString (log_BlockHash log))
      (log_BlockNumber log) in
    named ← (if String.eqb logEvent eventNameRegistered then unmarshalLogToENS e logEvent log name
             else Ret (inl name));
    match named with
    | inr err => Ret (w, inr (EWrap err "failed to unmarshal ENS registrar log to entity.ENS"))
    | inl name =>
        let '(ref, w) := new_events w {[RegisteredRegistrar := log_BlockNumber log]} in
        Ret (w, inl (mkENSArtifact (ens_ID name) (log_BlockNumber log) RegisteredRegistrar
          (Some ref) name))
    end.

(** prevArtifact is not nil; it is a copy whose map is shared. *)
Definition handleNameRegisteredController e w log (logEvent : string) (prevArtifact : ENSArtifact) :
    outcome (world * (ENSArtifact + error)) :=
  let '(events, w) := match ea_BlockEvents prevArtifact with
    | Some ref => (ref, w)
    | None => new_events w ∅
    end in
  if negb (HexToHash (ens_BlockHash (ea_ENS prevArtifact)) =? log_BlockHash log)%Z
  then Panic "controller prevArtifact from registrar has different blockHash"
  else if negb (HexToHash (ens_TxHash (ea_ENS prevArtifact)) =? log_TxHash log)%Z
  then Panic "controller prevArtifact from registrar has different txHash"
  else if String.eqb logEvent eventNameRegistered then
    if decide (length (log_Topics log) < 3)%nat then Panic "bad log with < 3 topics - should not happen"
    else
      named ← unmarshalLogToENS e logEvent log (ea_ENS prevArtifact);
      match named with
      | inr err => Ret (w, inr (EWrap err "failed to unmarshal ENS Controller log to entity.ENS"))
      | inl name =>
          w ← write_event w (Some events) RegisteredController (log_BlockNumber log);
          Ret (w, inl (mkENSArtifact (ea_ID prevArtifact) (log_BlockNumber log) RegisteredController
            (Some events) name))
      end
  else Ret (w, inl (mkENSArtifact (ea_ID prevArtifact) (ea_RegisterBlockNumber prevArtifact)
    (ea_LastEvent prevArtifact) (Some events) (ea_ENS prevArtifact))).

(** ** Good logs (engine_impl.go) *)

(** How HandleGoodLog handles a log: the handler that the last matching event chose. *)
Inductive ensHandler : Type :=
  | OfRegistrar
  | OfController (prevArtifact : ENSArtifact).

Definition chooseHandler e log (artifacts : list any) : outcome (option ensHandler) :=
  logEventKey ← index_at (log_Topics log) 0;
  if (log_Address log =? contract_Address (ensRegistrar e))%Z then
    Ret (if existsb (λ event, (logEventKey =? event_ID event)%Z &&
           String.eqb (event_Name event) eventNameRegistered) (ContractEvents (ensRegistrar e))
         then Some OfRegistrar else None)
  else if (log_Address log =? contract_Address (ensController e))%Z then
    foldM (λ event handler,
      if (logEventKey =? event_ID event)%Z && String.eqb (event_Name event) eventNameRegistered then
        prevArtifact ← prevRegistrarArtifact log artifacts;
        match prevArtifact with
        | None => Panic "nil prevArtifact"
        | Some a => Ret (Some (OfController a))
        end
      else Ret handler) (ContractEvents (ensController e)) None
  else Panic "ensEngine.handleGoodLog: found unexpected contract address".

Definition HandleGoodLog e w log (artifacts : list any) : outcome (world * (ENSArtifact + error)) :=
  handler ← chooseHandler e log artifacts;
  match handler with
  | None => Ret (w, inr (ESentinel ErrNoNeedHandle))
  | Some handler =>
      '(w, resultArtifact) ← match handler with
        | OfRegistrar => handleNameRegisteredRegistrar e w log eventNameRegistered
        | OfController a => handleNameRegisteredController e w log eventNameRegistered a
        end;
      match resultArtifact with
      | inr err => Ret (w, inr (EWrap err
          ("failed to create new name from log (event " +:+ eventNameRegistered +:+ ")")))
      | inl artifact =>
          '(g, err) ← SetENS (dw_names w) (ea_ENS artifact);
          Ret (set_names w g, match err with
            | Some err => inr (EWrap err "Save ENS failed on log txHash")
            | None => inl artifact
            end)
      end
  end.

(** The body of the loop over the logs of all blocks; each artifact is also one of those that
    the next logs see. *)
Definition ens_good_body e (log : Log) (st : world * list any * gmap Z (list any)) :
    outcome (world * list any * gmap Z (list any) + world * error) :=
  let '(w, artifacts, outArtifacts) := st in
  '(w, logArtifact) ← HandleGoodLog e w log artifacts;
  match logArtifact with
  | inr err =>
      if error_is err ErrNoNeedHandle then Ret (inl (w, artifacts, outArtifacts))
      else Ret (inr (w, EWrap err "HandleGoodLog failed on log txHash"))
  | inl a => Ret (inl (w, artifacts ++ [AnyENS a],
      append_artifact outArtifacts (log_BlockHash log) (AnyENS a)))
  end.

Definition ens_HandleGoodBlocks e w (blocks : list Block) (artifacts : list any) :
    outcome (world * (option (gmap Z (list any)) * option error)) :=
  res ← for_each (blocks ≫= Logs) (ens_good_body e) (w, artifacts, ∅);
  match res with
  | inl (w, _, outArtifacts) => Ret (w, (Some outArtifacts, None))
  | inr (w, err) => Ret (w, (None, Some err))
  end.

(** ** Backward (process_backward.go, engine_impl.go) *)

Definition revertNameRegisteredRegistrar w log (logEvent : string) (prevArtifact : ENSArtifact) :
    outcome (world * (ENSArtifact + error)) :=
  if decide (length (log_Topics log) < 2)%nat then Panic "bad log with < 2 topics"
  else
    name ← (if String.eqb logEvent eventNameRegistered then
        id ← index_at (log_Topics log) 1;
        if negb (String.eqb (HashString id) (ens_ID (ea_ENS prevArtifact)))
        then Panic "prevArtifact ENS ID != log ENS ID"
        else
          t2 ← index_at (log_Topics log) 2;
          let name := ea_ENS prevArtifact in
          Ret (mkENS (ens_ID name) (ens_Name name) (ens_TLD name) (gsl_ToLower (HashString t2))
            (ens_Expires name) (ens_TxHash name) (ens_BlockHash name) (ens_BlockNumber name))
      else Ret (ea_ENS prevArtifact));
    w ← write_event w (ea_BlockEvents prevArtifact) RevertRegisterController (log_BlockNumber log);
    Ret (w, inl (mkENSArtifact (ea_ID prevArtifact) (ea_RegisterBlockNumber prevArtifact)
      RevertRegisterRegistrar (ea_BlockEvents prevArtifact) name)).

Definition revertNameRegisteredController e w log (logEvent : string) (prevArtifact : ENSArtifact) :
    outcome (world * (ENSArtifact + error)) :=
  if String.eqb logEvent eventNameRegistered then
    if decide (length (log_Topics log) < 3)%nat then Panic "bad log with < 3 topics - should not happen"
    else
      match UnpackLogDataIntoMap (ContractABI (ensController e)) logEvent (log_Data log) with
      | inr err => Ret (w, inr err)
      | inl unpacked =>
          match ExtractFieldFromUnpacked as_string unpacked "name" with
          | inr err => Ret (w, inr err)
          | inl domainName =>
              match ExtractFieldFromUnpacked as_big unpacked "expires" with
              | inr err => Ret (w, inr err)
              | inl expire =>
                  let name := ea_ENS prevArtifact in
                  w ← write_event w (ea_BlockEvents prevArtifact) RegisteredController (log_BlockNumber log);
                  Ret (w, inl (mkENSArtifact (ea_ID prevArtifact) (log_BlockNumber log)
                    RegisteredController (ea_BlockEvents prevArtifact)
                    (mkENS (ens_ID name) domainName (ens_TLD name) (ens_Owner name)
                      (Some (big_Int64 expire)) (ens_TxHash name) (ens_BlockHash name)
                      (ens_BlockNumber name))))
              end
          end
      end
  else Ret (w, inl prevArtifact).

(** The first event of the contract that the log is: its handler's result. *)
Definition revert_first (events : list ContractEvent) (logEventKey : Hash) w
    (revert : string → outcome (world * (ENSArtifact + error))) :
    outcome (world * (ENSArtifact + error)) :=
  match filter (λ event, event_ID event = logEventKey ∧ event_Name event = eventNameRegistered) events with
  | event :: _ =>
      '(w, reorgArtifact) ← revert (event_Name event);
      Ret (w, match reorgArtifact with
        | inr err => inr (EWrap err "failed to create new name from log")
        | inl a => inl a
        end)
  | [] => Ret (w, inr (ENew "event topic not found"))
  end.

Definition ens_handleReorgedLog e w log (artifacts : list any) : outcome (world * (ENSArtifact + error)) :=
  prevArtifact ← prevRegistrarArtifact log artifacts;
  match prevArtifact with
  | None => Panic "nil prevArtifact"
  | Some prevArtifact =>
      logEventKey ← index_at (log_Topics log) 0;
      if (log_Address log =? contract_Address (ensRegistrar e))%Z then
        revert_first (ContractEvents (ensRegistrar e)) logEventKey w
          (λ name, revertNameRegisteredRegistrar w log name prevArtifact)
      else if (log_Address log =? contract_Address (ensController e))%Z then
        revert_first (ContractEvents (ensController e)) logEventKey w
          (λ name, revertNameRegisteredController e w log name prevArtifact)
      else Ret (w, inr (ENew "event topic not found"))
  end.

Definition ens_reorg_body e (artifacts : list any) (log : Log) (st : world * gmap Z (list any)) :
    outcome (world * gmap Z (list any) + world * error) :=
  let '(w, outputArtifacts) := st in
  '(w, ens) ← ens_handleReorgedLog e w log artifacts;
  match ens with
  | inr err => Ret (inr (w, EWrap err "ensEngine.handleReorgedLog failed"))
  | inl ens =>
      let outputArtifacts := append_artifact outputArtifacts (log_BlockHash log) (AnyENS ens) in
      '(g, err) ← DelENS (dw_names w) (ea_ENS ens);
      match err with
      | Some err => Ret (inr (set_names w g, EWrap err "Remove ENS failed on log txHash"))
      | None => Ret (inl (set_names w g, outputArtifacts))
      end
  end.

Definition ens_HandleReorgedBlocks e w (blocks : list Block) (artifacts : list any) :
    outcome (world * (option (gmap Z (list any)) * option error)) :=
  res ← for_each (blocks ≫= Logs) (ens_reorg_body e artifacts) (w, ∅);
  match res with
  | inl (w, outputArtifacts) => Ret (w, (Some outputArtifacts, None))
  | inr (w, err) => Ret (w, (None, Some err))
  end.

Definition ens_HandleEmitterError e w (err : error) : outcome (world * option error) :=
  Ret (w, Some err).

#[export] Instance ens_DemoEngine : DemoEngine (ensEngine ABI) world := {|
  demo_HandleGoodBlocks := ens_HandleGoodBlocks;
  demo_HandleReorgedBlocks := ens_HandleReorgedBlocks;
  demo_HandleEmitterError := ens_HandleEmitterError;
|}.
End engine.
