(* ===== verification/EnsProps.v ===== *)
(** What the ENS engine does to its repository: names registered by a pair of logs are saved
    with the data of both, and removed again when their blocks are reorged. *)

From S2P Require Import Prelude GoErrors Types Externals DataGateway FileGateway DemoData PoolGateway.
From S2P Require Import PoolFactory DemoArtifacts EnsGateway EnsEngine.

#[local] Arguments index_at : simpl never.

(** * Definitions *)

(** The registration of a name: a log of the registrar and one of the controller, in one
    transaction. *)
Record registration : Type := mkReg {
  r_registrar : Log;
  r_controller : Log;
  r_id : Hash;
  r_owner : Hash;
  r_expires : Z;
  r_name : string;
}.

Definition reg_logs (r : registration) : list Log := [r_registrar r; r_controller r].

Section registrations.
Context `{EthText} `{AbiUnpack ABI}.
Implicit Types (e : ensEngine ABI) (r : registration).

(** What unpacking gives for the fields that the engine reads. *)
Definition unpacks (abi : ABI) (log : Log) (fields : gmap string abiValue) : Prop :=
  ∃ unpacked, UnpackIntoMap abi eventNameRegistered (log_Data log) = inl unpacked ∧ fields ⊆ unpacked.

Record registers e r : Prop := {
  reg_addresses : contract_Address (ensRegistrar e) ≠ contract_Address (ensController e);
  reg_registrar : ∃ key owner expires,
    mkContractEvent key eventNameRegistered ∈ ContractEvents (ensRegistrar e) ∧
    log_Address (r_registrar r) = contract_Address (ensRegistrar e) ∧
    log_Topics (r_registrar r) = [key; r_id r; owner] ∧
    unpacks (ContractABI (ensRegistrar e)) (r_registrar r) {["expires" := AbiBig expires]};
  reg_controller : ∃ key,
    ContractEvents (ensController e) = [mkContractEvent key eventNameRegistered] ∧
    log_Address (r_controller r) = contract_Address (ensController e) ∧
    log_Topics (r_controller r) = [key; r_id r; r_owner r] ∧
    unpacks (ContractABI (ensController e)) (r_controller r)
      {["name" := AbiString (r_name r); "expires" := AbiBig (r_expires r)]};
  reg_tx : log_TxHash (r_controller r) = log_TxHash (r_registrar r);
  reg_hash : log_BlockHash (r_controller r) = log_BlockHash (r_registrar r);
}.

(** The text of a name's ID, and the name as it is saved in the end. *)
Definition reg_ID r : string := StringerToLowerString (r_id r).
Definition registered_name r : ENS :=
  mkENS (reg_ID r) (gsl_ToLower (r_name r)) EmptyString (topic_owner (r_owner r))
    (Some (big_Int64 (r_expires r))) (StringerToLowerString (log_TxHash (r_registrar r)))
    (StringerToLowerString (log_BlockHash (r_registrar r))) (log_BlockNumber (r_registrar r)).

(** Names of one call differ, and so do their transactions. *)
Definition regs_differ (regs : list registration) : Prop :=
  NoDup (r_id <$> regs) ∧ NoDup ((λ r, log_TxHash (r_registrar r)) <$> regs).
End registrations.

(** * Lemmas *)

Section lemmas.
Context `{EthText} `{AbiUnpack ABI} `{MapOrder} {GP : Type}.
Abbreviation world := (demoWorld GP MockNames).
Implicit Types (e : ensEngine ABI) (w : world) (r : registration) (a : ENSArtifact).

Lemma HashString_lower h : gsl_ToLower (HashString h) = StringerToLowerString h.
Proof. by rewrite StringerToLowerString_Hash. Qed.
Lemma HashString_text h : HashString h = StringerToLowerString h.
Proof. by rewrite <-HashString_lower, gsl_ToLower_Hash. Qed.

(** The artifacts of a registration, which share a map. *)
Definition first_name r (owner : Hash) (expires : Z) : ENS :=
  mkENS (reg_ID r) EmptyString EmptyString (topic_owner owner) (Some (big_Int64 expires))
    (StringerToLowerString (log_TxHash (r_registrar r)))
    (StringerToLowerString (log_BlockHash (r_registrar r))) (log_BlockNumber (r_registrar r)).

(** An artifact of the registration, of whichever of its logs. *)
Definition artifact_of r (ref : nat) a : Prop :=
  ens_ID (ea_ENS a) = reg_ID r ∧ ens_TxHash (ea_ENS a) = StringerToLowerString (log_TxHash (r_registrar r)) ∧
  ens_BlockHash (ea_ENS a) = StringerToLowerString (log_BlockHash (r_registrar r)) ∧
  ea_BlockEvents a = Some ref ∧ ea_LastEvent a ≠ NullEvent.

Lemma unpacks_field {T} (as_type : abiValue → option T) abi log fields field v x :
  unpacks (ABI := ABI) abi log fields → fields !! field = Some v → as_type v = Some x →
  ∃ unpacked, UnpackLogDataIntoMap abi eventNameRegistered (log_Data log) = inl unpacked ∧
    ExtractFieldFromUnpacked as_type unpacked field = inl x.
Proof.
  intros (unpacked & Hu & Hsub) Hv Hx. exists unpacked. unfold UnpackLogDataIntoMap. rewrite Hu.
  split; [done|]. unfold ExtractFieldFromUnpacked.
  by rewrite (lookup_weaken _ _ _ _ Hv Hsub), Hx.
Qed.

Lemma controller_fields abi log r :
  unpacks (ABI := ABI) abi log {["name" := AbiString (r_name r); "expires" := AbiBig (r_expires r)]} →
  ∃ unpacked, UnpackLogDataIntoMap abi eventNameRegistered (log_Data log) = inl unpacked ∧
    ExtractFieldFromUnpacked as_string unpacked "name" = inl (r_name r) ∧
    ExtractFieldFromUnpacked as_big unpacked "expires" = inl (r_expires r).
Proof.
  intros Hu.
  destruct (unpacks_field as_string _ _ _ "name" (AbiString (r_name r)) (r_name r) Hu) as (un & Hun & Hn); [|done|].
  { by rewrite lookup_insert_eq. }
  destruct (unpacks_field as_big _ _ _ "expires" (AbiBig (r_expires r)) (r_expires r) Hu) as (un' & Hun' & Hx); [|done|].
  { by rewrite lookup_insert_ne, lookup_singleton_eq. }
  rewrite Hun in Hun'. injection Hun' as <-.
  by exists un.
Qed.

(** The search finds the first artifact of a name. *)
Definition other_name r a : Prop :=
  ens_ID (ea_ENS a) ≠ reg_ID r ∧
  ens_TxHash (ea_ENS a) ≠ StringerToLowerString (log_TxHash (r_registrar r)).

Lemma collect_ens l : collectArtifactsENS (AnyENS <$> l) = Ret l.
Proof.
  unfold collectArtifactsENS. enough (∀ acc, foldM _ (AnyENS <$> l) acc = Ret (acc ++ l)) as Hg by apply Hg.
  induction l as [|a l IH]; intros acc; simpl; [by rewrite app_nil_r|]. by rewrite IH, <-app_assoc.
Qed.

Lemma prevRegistrarArtifact_first log r ref artifacts pre a post :
  collectArtifactsENS artifacts = Ret (pre ++ a :: post) →
  log_Topics log !! 1%nat = Some (r_id r) → log_TxHash log = log_TxHash (r_registrar r) →
  Forall (other_name r) pre → artifact_of r ref a →
  prevRegistrarArtifact log artifacts = Ret (Some a).
Proof.
  intros Hc Ht Htx Hpre (Hid & _ & _ & _ & Hlast). unfold prevRegistrarArtifact. rewrite Hc. simpl.
  assert (filterRegistrarArtifact log (pre ++ a :: post) = Ret a) as ->.
  { unfold filterRegistrarArtifact. destruct (pre ++ a :: post) as [|x l] eqn:El;
      [by destruct pre|]. rewrite <-El. clear El Hc x l.
    rewrite (index_at_nat _ 1 _ Ht : index_at (log_Topics log) 1 = _). cbn [mbind outcome_bind].
    induction Hpre as [|x pre [Hx Hx'] _ IH]; simpl.
    - by rewrite Hid, (proj2 (String.eqb_eq _ _)).
    - rewrite Htx. fold (reg_ID r).
      rewrite (proj2 (String.eqb_neq _ _) Hx), (proj2 (String.eqb_neq _ _) Hx').
      rewrite Htx in IH. apply IH. }
  simpl. by rewrite (proj2 (String.eqb_neq _ _) Hlast).
Qed.

(** *** Good logs *)

Definition set_name (s : MockNames) (ens : ENS) : MockNames :=
  mkMockNames (<[ens_ID ens := Some ens]> (mn_m s)) (mn_writeLogs s ++ [name_log ens]).

Lemma registrar_log_run e r w artifacts :
  registers e r → ∃ a name, HandleGoodLog e w (r_registrar r) artifacts =
      Ret (mkDemoWorld (dw_poolMaps w) (dw_pools w)
        (dw_eventMaps w ++ [{[RegisteredRegistrar := log_BlockNumber (r_registrar r)]}])
        (set_name (dw_names w) name), inl a) ∧
    ea_ENS a = name ∧ artifact_of r (length (dw_eventMaps w)) a ∧ ens_TLD name = EmptyString ∧
    ens_BlockNumber name = log_BlockNumber (r_registrar r).
Proof.
  intros [_ (key & owner & expires & He & Ha & Ht & Hu) _ _ _].
  destruct (unpacks_field as_big _ _ _ "expires" _ _ Hu (lookup_singleton_eq _ _) eq_refl) as (un & Hun & Hx).
  exists (mkENSArtifact (reg_ID r) (log_BlockNumber (r_registrar r)) RegisteredRegistrar
    (Some (length (dw_eventMaps w))) (first_name r owner expires)), (first_name r owner expires).
  split; [|by unfold artifact_of].
  assert (unmarshalLogToENS e eventNameRegistered (r_registrar r)
    (mkENS EmptyString EmptyString EmptyString EmptyString None
      (StringerToLowerString (log_TxHash (r_registrar r))) (StringerToLowerString (log_BlockHash (r_registrar r)))
      (log_BlockNumber (r_registrar r))) = Ret (inl (first_name r owner expires))) as Hname.
  { unfold unmarshalLogToENS. rewrite Ha, Z.eqb_refl, Ht. simpl. rewrite Hun, Hx.
    unfold first_name, reg_ID. by rewrite <-(HashString_lower (r_id r)). }
  unfold HandleGoodLog, chooseHandler. rewrite Ht, Ha, Z.eqb_refl.
  change (index_at (key :: _) 0) with (Ret key). cbn [mbind outcome_bind].
  rewrite (proj2 (existsb_exists _ _)).
  2: { exists (mkContractEvent key eventNameRegistered). split; [by apply list_elem_of_In|].
       simpl. by rewrite Z.eqb_refl. }
  cbn [mbind outcome_bind]. unfold handleNameRegisteredRegistrar. rewrite Ht. simpl. by rewrite Hname.
Qed.

Lemma controller_log_run e r w artifacts pre a post ref m :
  registers e r → collectArtifactsENS artifacts = Ret (pre ++ a :: post) → Forall (other_name r) pre →
  artifact_of r ref a → ens_TLD (ea_ENS a) = EmptyString →
  ens_BlockNumber (ea_ENS a) = log_BlockNumber (r_registrar r) →
  dw_eventMaps w !! ref = Some m →
  ∃ a', HandleGoodLog e w (r_controller r) artifacts =
      Ret (mkDemoWorld (dw_poolMaps w) (dw_pools w)
        (<[ref := <[RegisteredController := log_BlockNumber (r_controller r)]> m]> (dw_eventMaps w))
        (set_name (dw_names w) (registered_name r)), inl a') ∧
    ea_ENS a' = registered_name r ∧ artifact_of r ref a'.
Proof.
  intros [Hne _ (key & He & Ha & Ht & Hu) Htx Hh] Hc Hpre Hart Htld Hnum Hm.
  destruct (controller_fields _ _ _ Hu) as (un & Hun & Hn & Hx).
  pose proof Hart as (Hid & Hatx & Hah & Hev & _).
  exists (mkENSArtifact (ea_ID a) (log_BlockNumber (r_controller r)) RegisteredController (Some ref)
    (registered_name r)). split; [|by repeat split; done || by vm_compute].
  assert (unmarshalLogToENS e eventNameRegistered (r_controller r) (ea_ENS a) =
    Ret (inl (registered_name r))) as Hname.
  { unfold unmarshalLogToENS. rewrite Ha, (proj2 (Z.eqb_neq _ _)), Z.eqb_refl by done. simpl.
    rewrite Hun, Hn, Hx, Ht. change (index_at (key :: _) 2) with (Ret (r_owner r)). simpl.
    by rewrite Hid, Htld, Hatx, Hah, Hnum. }
  assert (prevRegistrarArtifact (r_controller r) artifacts = Ret (Some a)) as Hprev.
  { eapply prevRegistrarArtifact_first; try done. by rewrite Ht. }
  unfold HandleGoodLog, chooseHandler. rewrite Ht, Ha, (proj2 (Z.eqb_neq _ _)), Z.eqb_refl, He by done.
  change (index_at (key :: _) 0) with (Ret key). simpl. rewrite Z.eqb_refl. simpl. rewrite Hprev. simpl.
  unfold handleNameRegisteredController. rewrite Hev, Hah, Hatx, !HexToHash_String, Hh, Htx, !Z.eqb_refl, Ht.
  simpl. rewrite Hname. simpl. by rewrite Hm.
Qed.

(** One turn of the loop over good logs. *)
Lemma ens_good_body_Ret e log w w' arts out a :
  HandleGoodLog e w log (AnyENS <$> arts) = Ret (w', inl a) →
  ens_good_body e log (w, AnyENS <$> arts, out) =
    Ret (inl (w', AnyENS <$> (arts ++ [a]), append_artifact out (log_BlockHash log) (AnyENS a))).
Proof. unfold ens_good_body. intros ->. simpl. by rewrite fmap_app. Qed.

(** The artifacts of a registration's two logs share a map of the world. *)
Definition artifacts_pair (maps : list (gmap string Z)) r (arts : list ENSArtifact) : Prop :=
  ∃ ref a1 a2, arts = [a1; a2] ∧ artifact_of r ref a1 ∧ artifact_of r ref a2 ∧ is_Some (maps !! ref).

Definition good_turn w r w' : Prop :=
  mn_m (dw_names w') = <[reg_ID r := Some (registered_name r)]> (mn_m (dw_names w)) ∧ pool_part w' = pool_part w ∧
  ∃ m, dw_eventMaps w' = dw_eventMaps w ++ [m].

(** A registration's logs and artifacts, keyed as the results of the engine are. *)
Definition keyed (logs : list Log) (arts : list ENSArtifact) : list (Hash * any) :=
  zip (log_BlockHash <$> logs) (AnyENS <$> arts).

Lemma registration_run e r w arts out :
  registers e r → Forall (other_name r) arts → ∃ w' pair,
    for_each (reg_logs r) (ens_good_body e) (w, AnyENS <$> arts, out) =
      Ret (inl (w', AnyENS <$> (arts ++ pair), group_artifacts out (keyed (reg_logs r) pair))) ∧
    artifacts_pair (dw_eventMaps w') r pair ∧ good_turn w r w'.
Proof.
  intros Hr Hother.
  destruct (registrar_log_run e r w (AnyENS <$> arts) Hr) as (a1 & name & Hrun & Ha1 & Hart1 & Htld & Hnum).
  set (w1 := mkDemoWorld _ _ _ _) in Hrun.
  assert (dw_eventMaps w1 !! length (dw_eventMaps w) = Some {[RegisteredRegistrar := log_BlockNumber (r_registrar r)]})
    as Hm by by apply list_lookup_middle.
  destruct (controller_log_run e r w1 (AnyENS <$> (arts ++ [a1])) arts a1 [] _ _ Hr (collect_ens _) Hother Hart1
    ltac:(by rewrite Ha1) ltac:(by rewrite Ha1) Hm) as (a2 & Hrun2 & Ha2 & Hart2).
  cbn [reg_logs for_each]. rewrite (ens_good_body_Ret _ _ _ _ _ _ _ Hrun). cbn [mbind outcome_bind].
  rewrite (ens_good_body_Ret _ _ _ _ _ _ _ Hrun2). cbn [mbind outcome_bind].
  eexists _, [a1; a2]. split; [by rewrite <-app_assoc|]. split; [|split; [|split]].
  - exists (length (dw_eventMaps w)), a1, a2. do 3 (split; [done|]). simpl.
    rewrite list_lookup_insert_eq; [by eexists|]. rewrite length_app. simpl. lia.
  - destruct Hart1 as (Hid & _). rewrite Ha1 in Hid. simpl. by rewrite Hid, insert_insert_eq.
  - done.
  - eexists. simpl. rewrite insert_app_r_alt, Nat.sub_diag by done. done.
Qed.

(** Different registrations do not find each other's artifacts. *)
Lemma regs_differ_cons r regs :
  regs_differ (r :: regs) → regs_differ regs ∧ (reg_ID r ∉ (reg_ID <$> regs)) ∧
  ∀ r' ref a, r' ∈ regs → artifact_of r' ref a → other_name r a.
Proof.
  unfold regs_differ. rewrite !fmap_cons, !NoDup_cons. intros [[Hid Hnd] [Htx Hnd']].
  split; [done|]. split.
  - intros (r' & Heq%(inj StringerToLowerString) & Hr')%list_elem_of_fmap. apply Hid.
    rewrite Heq. apply list_elem_of_fmap. by exists r'.
  - intros r' ref a Hr' (Hida & Htxa & _). split; [rewrite Hida|rewrite Htxa]; intros Heq%(inj StringerToLowerString).
    + apply Hid. rewrite <-Heq. apply list_elem_of_fmap. by exists r'.
    + apply Htx. rewrite <-Heq. apply list_elem_of_fmap. by exists r'.
Qed.

Lemma other_name_sym r r' ref ref' a a' :
  artifact_of r ref a → artifact_of r' ref' a' → other_name r a' → other_name r' a.
Proof.
  intros (Hid & Htx & _) (Hid' & Htx' & _) [Ho Ho']. split; congruence.
Qed.

Lemma other_names_after r regs ref arts a1 a2 :
  regs_differ (r :: regs) → Forall (λ r, Forall (other_name r) arts) regs →
  artifact_of r ref a1 → artifact_of r ref a2 →
  Forall (λ r, Forall (other_name r) (arts ++ [a1; a2])) regs.
Proof.
  intros (_ & _ & Hne)%regs_differ_cons Hos Ha1 Ha2. apply Forall_forall. intros r' Hr'.
  rewrite Forall_forall in Hos. apply Forall_app. split; [by apply Hos|].
  assert (∀ a, artifact_of r ref a → other_name r' a) as Hr'a; [|by repeat constructor; apply Hr'a].
  intros a Ha. set (b := mkENSArtifact (reg_ID r') 0 RegisteredRegistrar (Some ref) (first_name r' 0 0)).
  assert (artifact_of r' ref b) as Hb by done.
  by apply (other_name_sym r r' ref ref a b), (Hne r' ref).
Qed.

Lemma artifacts_pair_length maps maps' r arts :
  artifacts_pair maps r arts → (length maps ≤ length maps')%nat → artifacts_pair maps' r arts.
Proof.
  intros (ref & a1 & a2 & -> & Ha1 & Ha2 & Href) Hl. exists ref, a1, a2. do 3 (split; [done|]).
  apply lookup_lt_is_Some. apply lookup_lt_is_Some in Href. lia.
Qed.

Lemma keyed_app logs1 logs2 arts1 arts2 : length logs1 = length arts1 →
  keyed (logs1 ++ logs2) (arts1 ++ arts2) = keyed logs1 arts1 ++ keyed logs2 arts2.
Proof. intros Hl. unfold keyed. rewrite !fmap_app, zip_with_app; [done|]. by rewrite !length_fmap. Qed.

(** The loop over the logs of registrations: the names are saved, others are left alone. *)
Lemma registrations_run e regs : Forall (registers e) regs → regs_differ regs → ∀ w arts out,
  Forall (λ r, Forall (other_name r) arts) regs → ∃ w' pairs,
    for_each (regs ≫= reg_logs) (ens_good_body e) (w, AnyENS <$> arts, out) =
      Ret (inl (w', AnyENS <$> (arts ++ mjoin pairs),
        group_artifacts out (keyed (regs ≫= reg_logs) (mjoin pairs)))) ∧
    Forall2 (artifacts_pair (dw_eventMaps w')) regs pairs ∧
    mn_m (dw_names w') = foldl (λ m r, <[reg_ID r := Some (registered_name r)]> m) (mn_m (dw_names w)) regs ∧
    pool_part w' = pool_part w ∧ ∃ maps, dw_eventMaps w' = dw_eventMaps w ++ maps.
Proof.
  induction 1 as [|r regs Hr _ IH]; intros Hd w arts out Hother.
  { exists w, []. simpl. rewrite app_nil_r. do 4 (split; [done|]). exists []. by rewrite app_nil_r. }
  apply Forall_cons in Hother as [Ho Hos]. pose proof (regs_differ_cons r regs Hd) as (Hd' & _ & Hne).
  destruct (registration_run e r w arts out Hr Ho) as (w1 & pair & Hrun & Hpair & Hturn & Hp1 & m & Hm).
  destruct (IH Hd' w1 (arts ++ pair) (group_artifacts out (keyed (reg_logs r) pair)))
    as (w2 & pairs & Hruns & Hpairs & Hnames & Hp2 & maps & Hmaps).
  { destruct Hpair as (ref & a1 & a2 & -> & Ha1 & Ha2 & _). by apply (other_names_after r regs ref). }
  exists w2, (pair :: pairs). cbn [mbind list_bind]. rewrite for_each_app, Hrun. cbn [mbind outcome_bind].
  split; [|split; [|split; [|split]]].
  - cbn [mjoin list_join]. rewrite keyed_app by by destruct Hpair as (? & ? & ? & -> & _).
    rewrite group_artifacts_app, app_assoc. exact Hruns.
  - constructor; [|done]. eapply artifacts_pair_length; [done|]. rewrite Hmaps, length_app. lia.
  - rewrite Hnames, Hturn. done.
  - by rewrite Hp2, Hp1.
  - exists (m :: maps). by rewrite Hmaps, Hm, <-app_assoc.
Qed.

(** *** Reorged logs *)

Lemma revert_first_in events key w (revert : string → outcome (world * (ENSArtifact + error))) :
  mkContractEvent key eventNameRegistered ∈ events →
  revert_first events key w revert =
    '(w, reorgArtifact) ← revert eventNameRegistered;
    Ret (w, match reorgArtifact with
      | inr err => inr (EWrap err "failed to create new name from log")
      | inl a => inl a
      end).
Proof.
  intros Hin. unfold revert_first.
  assert (mkContractEvent key eventNameRegistered ∈
    filter (λ event, event_ID event = key ∧ event_Name event = eventNameRegistered) events) as Hf
    by by apply list_elem_of_filter.
  destruct (filter _ events) as [|event l] eqn:Ef; [by apply not_elem_of_nil in Hf|].
  assert (event ∈ event :: l) as Hev by by left. rewrite <-Ef in Hev.
  by apply list_elem_of_filter in Hev as [[_ ->] _].
Qed.

Lemma reverted_log e r w log artifacts pre a post ref :
  registers e r → log ∈ reg_logs r → collectArtifactsENS artifacts = Ret (pre ++ a :: post) →
  Forall (other_name r) pre → artifact_of r ref a → is_Some (dw_eventMaps w !! ref) →
  ∃ w' a', ens_handleReorgedLog e w log artifacts = Ret (w', inl a') ∧ ens_ID (ea_ENS a') = reg_ID r ∧
    dw_names w' = dw_names w ∧ length (dw_eventMaps w') = length (dw_eventMaps w) ∧ pool_part w' = pool_part w.
Proof.
  intros [Hne (key & owner & expires & He & Ha & Ht & _) (key' & He' & Ha' & Ht' & Hu) Htx _] Hlog Hc Hpre Hart [m Hm].
  assert (prevRegistrarArtifact log artifacts = Ret (Some a)) as Hprev.
  { by apply list_elem_of_In in Hlog as [<-|[<-|[]]]; eapply prevRegistrarArtifact_first; try done;
      rewrite ?Ht, ?Ht'. }
  destruct Hart as (Hid & _ & _ & Hev & _). unfold ens_handleReorgedLog. rewrite Hprev. simpl.
  apply list_elem_of_In in Hlog as [<-|[<-|[]]].
  - rewrite Ht, Ha, Z.eqb_refl. change (index_at (key :: _) 0) with (Ret key). cbn [mbind outcome_bind].
    rewrite (revert_first_in _ key w (λ name, revertNameRegisteredRegistrar w (r_registrar r) name a) He).
    unfold revertNameRegisteredRegistrar. rewrite Ht. simpl.
    change (index_at (key :: _) 1) with (Ret (r_id r)). change (index_at (key :: _) 2) with (Ret owner). simpl.
    rewrite HashString_text, Hid. fold (reg_ID r). rewrite String.eqb_refl. simpl.
    unfold write_event. rewrite Hev, Hm. simpl. eexists _, _. split; [reflexivity|]. simpl.
    by rewrite length_insert.
  - destruct (controller_fields _ _ _ Hu) as (un & Hun & Hn & Hx).
    rewrite Ht', Ha', (proj2 (Z.eqb_neq _ _)), Z.eqb_refl, He' by done.
    change (index_at (key' :: _) 0) with (Ret key'). cbn [mbind outcome_bind].
    rewrite (revert_first_in [mkContractEvent key' eventNameRegistered] key' w
      (λ name, revertNameRegisteredController e w (r_controller r) name a)) by by left.
    unfold revertNameRegisteredController. rewrite Ht'. simpl.
    rewrite Hun, Hn, Hx. unfold write_event. rewrite Hev, Hm. simpl. eexists _, _. split; [reflexivity|]. simpl.
    by rewrite length_insert.
Qed.

(** One turn of the loop over reorged logs, with a name that the repository has. *)
Lemma ens_reorg_body_Ret e r w w' log artifacts out a :
  ens_handleReorgedLog e w log artifacts = Ret (w', inl a) → ens_ID (ea_ENS a) = reg_ID r →
  is_Some (mn_m (dw_names w') !! reg_ID r) →
  ∃ names, ens_reorg_body e artifacts log (w, out) =
      Ret (inl (set_names w' names, append_artifact out (log_BlockHash log) (AnyENS a))) ∧
    mn_m names = <[reg_ID r := None]> (mn_m (dw_names w')).
Proof.
  unfold ens_reorg_body. intros -> Hid [x Hx]. simpl. unfold mock_DelENS. rewrite Hid, Hx. simpl. by eexists.
Qed.

Lemma reverted_run e r w artifacts pre a post ref out :
  registers e r → collectArtifactsENS artifacts = Ret (pre ++ a :: post) →
  Forall (other_name r) pre → artifact_of r ref a → is_Some (dw_eventMaps w !! ref) →
  is_Some (mn_m (dw_names w) !! reg_ID r) →
  ∃ w' out', for_each (reg_logs r) (ens_reorg_body e artifacts) (w, out) = Ret (inl (w', out')) ∧
    mn_m (dw_names w') = <[reg_ID r := None]> (mn_m (dw_names w)) ∧
    length (dw_eventMaps w') = length (dw_eventMaps w) ∧ pool_part w' = pool_part w.
Proof.
  intros Hr Hc Hpre Ha Href Hin.
  destruct (reverted_log e r w (r_registrar r) artifacts pre a post ref)
    as (w1 & a1 & Hrun1 & Hid1 & Hn1 & Hl1 & Hp1); [done|by left|done..|]. rewrite <-Hn1 in Hin.
  destruct (ens_reorg_body_Ret e r w w1 _ artifacts out a1 Hrun1 Hid1 Hin) as (n1 & Hb1 & Hm1).
  destruct (reverted_log e r (set_names w1 n1) (r_controller r) artifacts pre a post ref)
    as (w2 & a2 & Hrun2 & Hid2 & Hn2 & Hl2 & Hp2); [done|by right; left|done..| |].
  { apply lookup_lt_is_Some. simpl. rewrite Hl1. by apply lookup_lt_is_Some. }
  destruct (ens_reorg_body_Ret e r (set_names w1 n1) w2 _ artifacts
    (append_artifact out (log_BlockHash (r_registrar r)) (AnyENS a1)) a2 Hrun2 Hid2) as (n2 & Hb2 & Hm2).
  { rewrite Hn2. simpl. rewrite Hm1, lookup_insert_eq. by eexists. }
  cbn [reg_logs for_each]. rewrite Hb1. cbn [mbind outcome_bind]. rewrite Hb2. cbn [mbind outcome_bind].
  eexists _, _. split; [reflexivity|]. simpl. split; [|split; [by rewrite Hl2|by rewrite <-Hp1; exact Hp2]].
  by rewrite Hm2, Hn2; simpl; rewrite Hm1, insert_insert_eq, Hn1.
Qed.

Lemma reverts_run e artifacts regs : Forall (registers e) regs → regs_differ regs → ∀ w pre pairs out,
  collectArtifactsENS artifacts = Ret (pre ++ mjoin pairs) → Forall (λ r, Forall (other_name r) pre) regs →
  Forall2 (artifacts_pair (dw_eventMaps w)) regs pairs →
  Forall (λ r, is_Some (mn_m (dw_names w) !! reg_ID r)) regs →
  ∃ w' out', for_each (regs ≫= reg_logs) (ens_reorg_body e artifacts) (w, out) = Ret (inl (w', out')) ∧
    mn_m (dw_names w') = foldl (λ m r, <[reg_ID r := None]> m) (mn_m (dw_names w)) regs ∧
    pool_part w' = pool_part w.
Proof.
  induction 1 as [|r regs Hr Hregs IH]; intros Hd w pre pairs out Hc Hother Hpairs Hin.
  { by exists w, out. }
  apply Forall2_cons_inv_l in Hpairs as (pair & pairs' & Hpair & Hpairs & ->).
  apply Forall_cons in Hother as [Ho Hos]. apply Forall_cons in Hin as [Hin Hins].
  pose proof (regs_differ_cons r regs Hd) as (Hd' & _ & Hne).
  destruct Hpair as (ref & a1 & a2 & -> & Ha1 & Ha2 & Href).
  destruct (reverted_run e r w artifacts pre a1 (a2 :: mjoin pairs') ref out) as (w1 & out1 & Hrun & Hm & Hl & Hp1);
    [done..|].
  destruct (IH Hd' w1 (pre ++ [a1; a2]) pairs' out1) as (w2 & out2 & Hruns & Hnames & Hp2).
  - by rewrite <-app_assoc.
  - by apply (other_names_after r regs ref).
  - eapply Forall2_impl; [exact Hpairs|]. intros r' arts Ha. eapply artifacts_pair_length; [done|]. by rewrite Hl.
  - eapply Forall_impl; [exact Hins|]. intros r'. simpl. rewrite Hm, lookup_insert_is_Some'. by right.
  - exists w2, out2. cbn [mbind list_bind]. rewrite for_each_app, Hrun. cbn [mbind outcome_bind].
    split; [exact Hruns|]. by rewrite Hnames, Hm, Hp2, Hp1.
Qed.

(** What is in the repository after all. *)
Lemma names_after {A} (f : registration → A) regs r : ∀ m : gmap string A,
  regs_differ regs → r ∈ regs → foldl (λ m r, <[reg_ID r := f r]> m) m regs !! reg_ID r = Some (f r).
Proof.
  induction regs as [|r' regs IH] using rev_ind; intros m Hd Hr; [by apply not_elem_of_nil in Hr|].
  rewrite foldl_app. simpl. apply elem_of_app in Hr as [Hr|Hr%list_elem_of_singleton]; [|subst; by rewrite lookup_insert_eq].
  destruct Hd as [Hid Htx]. rewrite !fmap_app in Hid, Htx.
  apply NoDup_app in Hid as (Hid & Hdis & _). apply NoDup_app in Htx as (Htx & _).
  rewrite lookup_insert_ne; [by apply IH|]. intros Heq%(inj StringerToLowerString).
  apply (Hdis (r_id r)); [apply list_elem_of_fmap; by exists r|]. rewrite <-Heq. by left.
Qed.

Lemma collect_slices (ls : list (list ENSArtifact)) :
  collectArtifactsENS ((λ l, AnySlice (AnyENS <$> l)) <$> ls) = Ret (mjoin ls).
Proof.
  unfold collectArtifactsENS.
  enough (∀ acc, foldM _ ((λ l, AnySlice (AnyENS <$> l)) <$> ls) acc = Ret (acc ++ mjoin ls)) as Hg by apply Hg.
  induction ls as [|l ls IH]; intros acc; simpl; [by rewrite app_nil_r|].
  assert (omap (λ a : any, match a with AnyENS a => Some a | _ => None end) (AnyENS <$> l) = l) as ->.
  { clear. induction l as [|a l IH]; [done|]. simpl. by f_equal. }
  by rewrite IH, <-app_assoc.
Qed.

Lemma collect_artifacts_of blocks (arts : list ENSArtifact) :
  blocks_hashed blocks → length (blocks ≫= Logs) = length arts →
  collectArtifactsENS (artifacts_of (group_artifacts ∅ (keyed (blocks ≫= Logs) arts)) blocks) = Ret arts.
Proof.
  intros Hb Hlen. destruct (artifacts_of_group AnyENS blocks arts) as (ls & Heq & Hls);
    [done|by rewrite length_fmap|].
  unfold keyed. rewrite Heq, collect_slices. by rewrite Hls.
Qed.

Lemma pairs_length maps regs pairs :
  Forall2 (artifacts_pair maps) regs pairs → length (regs ≫= reg_logs) = length (mjoin pairs).
Proof.
  induction 1 as [|r pair regs pairs (ref & a1 & a2 & -> & _) _ IH]; [done|].
  cbn [mbind list_bind mjoin list_join]. rewrite !length_app. by f_equal.
Qed.

Lemma ens_good_run e w blocks regs :
  Forall (registers e) regs → regs_differ regs → blocks ≫= Logs = regs ≫= reg_logs →
  ∃ w' pairs, ens_HandleGoodBlocks e w blocks [] =
      Ret (w', (Some (group_artifacts ∅ (keyed (regs ≫= reg_logs) (mjoin pairs))), None)) ∧
    Forall2 (artifacts_pair (dw_eventMaps w')) regs pairs ∧ pool_part w' = pool_part w ∧
    mn_m (dw_names w') = foldl (λ m r, <[reg_ID r := Some (registered_name r)]> m) (mn_m (dw_names w)) regs ∧
    ∀ r, r ∈ regs → mn_m (dw_names w') !! reg_ID r = Some (Some (registered_name r)).
Proof.
  intros Hregs Hd Hlogs. destruct (registrations_run e regs Hregs Hd w [] ∅)
    as (w' & pairs & Hrun & Hpairs & Hnames & Hp & _); [by apply Forall_forall|].
  exists w', pairs. unfold ens_HandleGoodBlocks. change (AnyENS <$> []) with (@nil any) in Hrun.
  rewrite Hlogs, Hrun. do 4 (split; [done|]).
  intros r Hr. by rewrite Hnames, (names_after (λ r, Some (registered_name r))).
Qed.

(** Reorged blocks as a whole. *)
Lemma ens_reorg_run e w blocks artifacts regs pairs :
  Forall (registers e) regs → regs_differ regs → blocks ≫= Logs = regs ≫= reg_logs →
  collectArtifactsENS artifacts = Ret (mjoin pairs) →
  Forall2 (artifacts_pair (dw_eventMaps w)) regs pairs →
  (∀ r, r ∈ regs → mn_m (dw_names w) !! reg_ID r = Some (Some (registered_name r))) →
  ∃ w' m, ens_HandleReorgedBlocks e w blocks artifacts = Ret (w', (Some m, None)) ∧
    pool_part w' = pool_part w ∧
    ∀ r, r ∈ regs → ∃ err, mock_GetENS (dw_names w') (reg_ID r) = Ret (dw_names w', (None, err)) ∧
      errors_Is err ErrRecordNotFound = true.
Proof.
  intros Hregs Hd Hlogs Hc Hpairs Hsaved.
  destruct (reverts_run e artifacts regs Hregs Hd w [] pairs ∅ Hc) as (w' & m & Hrev & Hgone & Hp).
  - by apply Forall_forall.
  - done.
  - apply Forall_forall. intros r Hr. rewrite Hsaved by done. by eexists.
  - exists w', m. unfold ens_HandleReorgedBlocks. rewrite Hlogs, Hrev. do 2 (split; [done|]). intros r Hr.
    unfold mock_GetENS. rewrite Hgone, (names_after (λ _, None)) by done. by eexists.
Qed.
End lemmas.

(** * Properties *)

Section properties.
Context `{EthText} `{AbiUnpack ABI} `{MapOrder} {GP : Type}.
Implicit Types (e : ensEngine ABI) (w : demoWorld GP MockNames).

(** Good blocks whose logs register names, each by a log of the registrar and one of the
    controller: the engine returns and the repository has every name with the data of both
    logs (ID from the first; name, owner and expiry from the second).  When the same blocks are
    reorged and the engine gets back the artifacts that it made for them, it returns without
    error again and none of the names is in the repository any more. *)
Lemma ens_names_come_and_go e w blocks regs :
  Forall (registers e) regs → regs_differ regs → blocks ≫= Logs = regs ≫= reg_logs →
  blocks_hashed blocks →
  ∃ w1 m, ens_HandleGoodBlocks e w blocks [] = Ret (w1, (Some m, None)) ∧
    (∀ r, r ∈ regs → GetENS (dw_names w1) (reg_ID r) = Ret (dw_names w1, (Some (registered_name r), None))) ∧
    ∃ w2 m2, ens_HandleReorgedBlocks e w1 blocks (artifacts_of m blocks) = Ret (w2, (Some m2, None)) ∧
      ∀ r, r ∈ regs → ∃ err, GetENS (dw_names w2) (reg_ID r) = Ret (dw_names w2, (None, err)) ∧
        errors_Is err ErrRecordNotFound = true.
Proof.
  intros Hregs Hd Hlogs Hb.
  destruct (ens_good_run e w blocks regs) as (w1 & pairs & Hrun & Hpairs & _ & Hnames & Hsaved); [done..|].
  eexists w1, _. split; [exact Hrun|]. split.
  { intros r Hr. simpl. unfold mock_GetENS. by rewrite Hsaved. }
  rewrite <-Hlogs. pose proof (pairs_length _ _ _ Hpairs) as Hl. rewrite <-Hlogs in Hl.
  destruct (ens_reorg_run e w1 blocks
    (artifacts_of (group_artifacts ∅ (keyed (blocks ≫= Logs) (mjoin pairs))) blocks) regs pairs)
    as (w2 & m2 & Hrev & _ & Hgone); [done..|by apply collect_artifacts_of|done|done|].
  exists w2, m2. split; [exact Hrev|exact Hgone].
Qed.
End properties.
