(* ===== verification/DemoMain.v ===== *)
(** examples/demoservice: the contracts, the router of both sub-engines, and the watchers that
    the demo's commands and tests make of them. *)

From S2P Require Import Prelude GoErrors Types Externals SortedSet PollUtils Poller MetadataTracker Components.
From S2P Require Import DemoData PoolGateway RedisGateway PoolFactory Router EnsGateway EnsEngine.

(** * Definitions *)

(** ** Contracts (hardcode/addresses_and_topics.go) *)

(** w3utils.NewContract, on the name, the text of the ABI, the text of the address and the
    names of events, and the zero value of abi.ABI. *)
Class W3Utils (ABI : Type) : Type := {
  NewContract : string → string → string → list string → Contract ABI;
  zero_ABI : ABI;
}.

(** The ABI texts that abigen wrote. *)
Class ABITexts : Type := {
  Uniswapv3PoolABI : string;
  Uniswapv3FactoryABI : string;
  OneInchLimitOrderABI : string;
  EnsRegistrarABI : string;
  EnsControllerABI : string;
}.

Definition Uniswapv3Pool : string := "uniswapv3pool".
Definition Uniswapv3PoolAddr : string := "0x5777d92f208679DB4b9778590Fa3CAB3aC9e2168".
Definition Uniswapv3Factory : string := "uniswapv3factory".
Definition Uniswapv3FactoryAddr : string := "0x1f98431c8ad98523631ae4a59f267346ea31f984".
Definition OneInchLimitOrder : string := "oneInchLimitOrder".
Definition OneInchLimitOrderAddr : string := "0x119c71d3bbac22029622cbaec24854d3d32d2828".
Definition ENSRegistrar : string := "ens".
Definition ENSRegistrarAddr : string := "0x57f1887a8bf19b14fc0df6fd9b2acc9af147ea85".
Definition ENSController : string := "enscontroller".
Definition ENSControllerAddr : string := "0x283Af0B28c62C092C9727F1Ee09c02CA627EB7F5".

Definition contractABIsMap `{ABITexts} : gmap string string := {[
  Uniswapv3Pool := Uniswapv3PoolABI;
  Uniswapv3Factory := Uniswapv3FactoryABI;
  OneInchLimitOrder := OneInchLimitOrderABI;
  ENSRegistrar := EnsRegistrarABI;
  ENSController := EnsControllerABI
]}.

Definition contractAddressesMap : gmap string string := {[
  Uniswapv3Pool := Uniswapv3FactoryAddr;
  Uniswapv3Factory := Uniswapv3FactoryAddr;
  OneInchLimitOrder := OneInchLimitOrderAddr;
  ENSRegistrar := ENSRegistrarAddr;
  ENSController := ENSControllerAddr
]}.

Definition contractTopicsMap : gmap string (list string) := {[
  Uniswapv3Pool := ["Swap"];
  Uniswapv3Factory := ["PoolCreated"];
  OneInchLimitOrder := ["OrderCreated"; "OrderCanceled"; "OrderFilled"];
  ENSRegistrar := ["NameRegistered"; "Transfer"; "NewOwner"; "NewTTL"];
  ENSController := ["NameRegistered"]
]}.

Definition DemoContracts `{ABITexts} `{W3Utils ABI} (contractNames : list string) :
    gmap string (Contract ABI) :=
  foldl (λ basicContracts contractName,
    match contractABIsMap !! contractName with
    | None => basicContracts
    | Some contractABI =>
        <[contractName := NewContract contractName contractABI
            (default EmptyString (contractAddressesMap !! contractName))
            (default [] (contractTopicsMap !! contractName))]> basicContracts
    end) ∅ contractNames.

(** ** Sub-engines as values of superwatcher.ServiceEngine *)

Inductive demoSub (ABI : Type) : Type :=
  | SubPool (e : uniswapv3PoolFactoryEngine ABI)
  | SubENS (e : ensEngine ABI).
Arguments SubPool {ABI}.
Arguments SubENS {ABI}.

#[export] Instance demoSub_DemoEngine `{EthText} `{MapOrder} `{AbiUnpack ABI}
    `{RepositoryPoolFactory GP} `{RepositoryENS GE} : DemoEngine (demoSub ABI) (demoWorld GP GE) := {|
  demo_HandleGoodBlocks e w blocks arts := match e with
    | SubPool e => demo_HandleGoodBlocks e w blocks arts
    | SubENS e => demo_HandleGoodBlocks e w blocks arts
    end;
  demo_HandleReorgedBlocks e w blocks arts := match e with
    | SubPool e => demo_HandleReorgedBlocks e w blocks arts
    | SubENS e => demo_HandleReorgedBlocks e w blocks arts
    end;
  demo_HandleEmitterError e w err := match e with
    | SubPool e => demo_HandleEmitterError e w err
    | SubENS e => demo_HandleEmitterError e w err
    end;
|}.

Abbreviation demoRoutes := (gmap Z (gmap Z (list Hash))).

(** A TestSuite: its routes and its engine. *)
Definition suite (ABI : Type) : Type := demoRoutes * demoSub ABI.

Section services.
Context `{MapOrder} `{ABITexts} `{W3Utils ABI}.

(** The two contracts have the addresses and the events that the text of engine.go gives. *)
Definition NewTestSuiteENS : suite ABI :=
  let registrarContract := NewContract "ENSRegistrar" EnsRegistrarABI
    "0x57f1887a8bf19b14fc0df6fd9b2acc9af147ea85" [eventNameRegistered] in
  let controllerContract := NewContract "ENSController" EnsControllerABI
    "0x283af0b28c62c092c9727f1ee09c02ca627eb7f5" [eventNameRegistered] in
  ({[SubEngineENS := <[contract_Address controllerContract := CollectEventHashes (ContractEvents controllerContract)]>
      {[contract_Address registrarContract := CollectEventHashes (ContractEvents registrarContract)]}]},
   SubENS (mkEnsEngine registrarContract controllerContract)).

Definition zero_Contract : Contract ABI := mkContract 0 zero_ABI [].

Definition NewTestSuitePoolFactory : suite ABI :=
  let poolFactoryContract := default zero_Contract (DemoContracts [Uniswapv3Factory] !! Uniswapv3Factory) in
  ({[SubEngineUniswapv3Factory :=
      {[contract_Address poolFactoryContract := CollectEventHashes (ContractEvents poolFactoryContract)]}]},
   SubPool (mkPoolEngine poolFactoryContract)).

Definition NewMockRouter : routerEngine (demoSub ABI) :=
  let '(routesENS, engineENS) := NewTestSuiteENS in
  let '(routesPool, enginePool) := NewTestSuitePoolFactory in
  mkRouter
    (<[SubEngineUniswapv3Factory := default ∅ (routesPool !! SubEngineUniswapv3Factory)]>
      {[SubEngineENS := default ∅ (routesENS !! SubEngineENS)]})
    (<[SubEngineUniswapv3Factory := enginePool]> {[SubEngineENS := engineENS]}).

(** ** The service of the demo (cmd/main.go) *)

(** The variables of the loop over the contracts. *)
Record servicesLoop : Type := mkServicesLoop {
  sl_routes : demoRoutes;
  sl_services : gmap Z (demoSub ABI);
  sl_ensRegistrar : Contract ABI;
  sl_ensController : Contract ABI;
  sl_emitterAddresses : list Address;
}.

Definition add_contract (st : servicesLoop) (contractName : string) (demoContract : Contract ABI) :
    servicesLoop :=
  let '(mkServicesLoop routes services ensRegistrar ensController emitterAddresses) := st in
  let '(subEngine, services, ensRegistrar, ensController) :=
    if String.eqb contractName Uniswapv3Factory then
      (SubEngineUniswapv3Factory,
       <[SubEngineUniswapv3Factory := SubPool (mkPoolEngine demoContract)]> services,
       ensRegistrar, ensController)
    else if String.eqb contractName ENSRegistrar then (SubEngineENS, services, demoContract, ensController)
    else if String.eqb contractName ENSController then (SubEngineENS, services, ensRegistrar, demoContract)
    else (SubEngineInvalid, services, ensRegistrar, ensController) in
  let contractTopics := event_ID <$> ContractEvents demoContract in
  mkServicesLoop
    (<[subEngine := <[contract_Address demoContract := contractTopics]> (default ∅ (routes !! subEngine))]> routes)
    services ensRegistrar ensController (emitterAddresses ++ [contract_Address demoContract]).

(** contractsToServices; nothing is ever appended to the topics. *)
Definition contractsToServices (i : nat) (demoContracts : gmap string (Contract ABI)) :
    list Address * list Hash * demoRoutes * gmap Z (demoSub ABI) :=
  let st := foldl (λ st '(contractName, demoContract), add_contract st contractName demoContract)
    (mkServicesLoop ∅ ∅ zero_Contract zero_Contract []) (map_order i demoContracts) in
  (sl_emitterAddresses st, [], sl_routes st,
   <[SubEngineENS := SubENS (mkEnsEngine (sl_ensRegistrar st) (sl_ensController st))]> (sl_services st)).
End services.

Section commands.
Context `{SortedSet SS} `{Gsl} `{MapOrder} `{ABITexts} `{W3Utils ABI} {R C A : Type}.
Abbreviation gateway := (watcherStateRedisCli R).
Abbreviation service := (routerEngine (demoSub ABI)).

(** main, up to watcher.Run; [rdb] is what redis.NewClient gave, [ethClient] what NewEthClient
    gave. *)
Definition demo_main (i : nat) (conf : Config) (chain : string) (rdb : option R) (ethClient : C) :
    outcome (superWatcher SS C gateway gateway service A) :=
  if String.eqb chain EmptyString then Panic "empty chain"
  else match rdb with
  | None => Panic "nil redis"
  | Some _ =>
      match NewRedisStateDataGateway ("demoservice:" +:+ chain) rdb with
      | inr err => Panic "new stateDataGateway failed"
      | inl stateDataGateway =>
          let demoContracts := DemoContracts [Uniswapv3Factory; ENSRegistrar; ENSController] in
          let '(emitterAddresses, emitterTopics, demoRoutes, demoServices) :=
            contractsToServices i demoContracts in
          let demoEngine := mkRouter demoRoutes demoServices in
          let syncChan := Some 0 in
          let pollResultChan := Some 1 in
          let errChan := Some 2 in
          NewSuperWatcherOptions [
            WithConfig conf;
            WithEthClient ethClient;
            WithGetStateDataGateway stateDataGateway;
            WithSetStateDataGateway stateDataGateway;
            WithServiceEngine demoEngine;
            WithSyncChan syncChan;
            WithFilterResultChan pollResultChan;
            WithErrChan errChan;
            WithAddresses emitterAddresses;
            WithTopics [emitterTopics]
          ]
      end
  end.

(** ** Ways to make the parts (cmd/demofunc.go) *)

Context {Gg E : Type}.
Abbreviation emitterO := (emitterObj SS C Gg).
Abbreviation engineO := (engineObj SS Gg E A).

(** The two functional gateways call the gateway's methods, and stand for it. *)
Definition newSuperWatcherPreferred (next : chanRef) (conf : Config) (ethClient : option C)
    (addresses : goslice Address) (topics : list Hash) (stateDataGateway : option Gg)
    (serviceEngine : option E) : chanRef * (emitterO * engineO) :=
  NewDefault next conf ethClient stateDataGateway stateDataGateway serviceEngine addresses
    (Some [topics]).

Definition newSuperwatcherFromArgs (next : chanRef) (conf : Config) (ethClient : option C)
    (addresses : goslice Address) (topics : list Hash) (stateDataGateway : option Gg)
    (serviceEngine : option E) : chanRef * (emitterO * engineO) :=
  let syncChan := Some next in
  let resultChan := Some (S next) in
  let errChan := Some (S (S next)) in
  let emitter poller := NewEmitter conf ethClient stateDataGateway poller syncChan resultChan errChan in
  let emitterClient := NewEmitterClient conf syncChan resultChan errChan in
  let engine := NewEngine emitterClient serviceEngine stateDataGateway in
  let poller := NewPoller None None (cfg_DoReorg conf) (cfg_DoHeader conf) (FilterRange conf)
    ethClient (cfg_Policy conf) in
  let poller := mkPollerObj (SetTopics (SetAddresses (po_poller poller) addresses) (Some [topics]))
    (po_client poller) in
  (S (S (S next)), (emitter poller, engine)).

(** The client is not among the options. *)
Definition newSuperWatcherOptions (next : chanRef) (conf : Config) (ethClient : option C)
    (addresses : list Address) (topics : list Hash) (stateDataGateway : Gg) (serviceEngine : E) :
    chanRef * outcome (superWatcher SS C Gg Gg E A) :=
  (S (S (S next)), NewSuperWatcherOptions [
    WithDoReorg (cfg_DoReorg conf);
    WithDoHeader (cfg_DoHeader conf);
    WithConfig conf;
    WithAddresses addresses;
    WithTopics [topics];
    WithGetStateDataGateway stateDataGateway;
    WithSetStateDataGateway stateDataGateway;
    WithServiceEngine serviceEngine;
    WithSyncChan (Some next);
    WithFilterResultChan (Some (S next));
    WithErrChan (Some (S (S next)))
  ]).
End commands.
