(* ===== verification/DemoMainProps.v ===== *)
(** What the demo's commands make: the routes of its router do not overlap, every log of the
    contracts' events reaches the engine made for it, and the watcher of main looks back over
    no blocks. *)

From S2P Require Import Prelude GoErrors Types Externals DataGateway SortedSet PollUtils Poller.
From S2P Require Import MetadataTracker Components ComponentsProps.
From S2P Require Import DemoData PoolGateway RedisGateway PoolFactory Router EnsGateway EnsEngine DemoMain.

(** * Definitions *)

Section routes.
Context {ABI : Type}.
Implicit Types (factory registrar controller : Contract ABI).

(** The event IDs of a contract, and whether a log is an event of it. *)
Definition event_hashes (contract : Contract ABI) : list Hash := event_ID <$> ContractEvents contract.
Definition is_event (contract : Contract ABI) (log : Log) : Prop :=
  log_Address log = contract_Address contract ∧
  ∃ topic topics, log_Topics log = topic :: topics ∧ topic ∈ event_hashes contract.

Definition demo_contracts factory registrar controller : gmap string (Contract ABI) :=
  {[Uniswapv3Factory := factory; ENSRegistrar := registrar; ENSController := controller]}.
Definition demo_routes factory registrar controller : demoRoutes :=
  {[SubEngineUniswapv3Factory := {[contract_Address factory := event_hashes factory]};
    SubEngineENS := {[contract_Address registrar := event_hashes registrar;
      contract_Address controller := event_hashes controller]}]}.
Definition demo_services factory registrar controller : gmap Z (demoSub ABI) :=
  {[SubEngineUniswapv3Factory := SubPool (mkPoolEngine factory);
    SubEngineENS := SubENS (mkEnsEngine registrar controller)]}.
End routes.

(** * Lemmas *)

Section lemmas.
Context `{MapOrder} `{W3Utils ABI}.
Implicit Types (factory registrar controller : Contract ABI).

Lemma map_order_demo i factory registrar controller :
  map_order i (demo_contracts factory registrar controller) ∈
    permutations [(Uniswapv3Factory, factory); (ENSRegistrar, registrar); (ENSController, controller)].
Proof.
  apply permutations_Permutation. symmetry. etrans; [apply map_order_perm|]. unfold demo_contracts.
  rewrite map_to_list_insert, map_to_list_insert, map_to_list_singleton; [done| |]; by vm_compute.
Qed.

(** Whatever the order of the contracts, the services are these. *)
Lemma contractsToServices_demo i factory registrar controller :
  contract_Address registrar ≠ contract_Address controller →
  ∃ addresses, contractsToServices i (demo_contracts factory registrar controller) =
      (addresses, [], demo_routes factory registrar controller, demo_services factory registrar controller) ∧
    addresses ≡ₚ contract_Address <$> [factory; registrar; controller].
Proof.
  intros Hne. unfold contractsToServices.
  pose proof (map_order_demo i factory registrar controller) as Hin. revert Hin.
  generalize (map_order i (demo_contracts factory registrar controller)). intros l Hin.
  assert (∀ addresses routes, addresses ≡ₚ contract_Address <$> [factory; registrar; controller] →
    routes = demo_routes factory registrar controller → ∃ addresses', (addresses, @nil Hash, routes,
      demo_services factory registrar controller) =
      (addresses', [], demo_routes factory registrar controller, demo_services factory registrar controller) ∧
    addresses' ≡ₚ contract_Address <$> [factory; registrar; controller]) as Hgoal.
  { intros addresses routes Hp ->. by exists addresses. }
  pose proof (proj1 (permutations_Permutation _ _) Hin) as Hp. symmetry in Hp.
  apply (fmap_Permutation (λ x, contract_Address x.2)) in Hp.
  simpl in Hin. repeat (apply elem_of_cons in Hin as [->|Hin]; [|]); [..|by apply not_elem_of_nil in Hin].
  all: simpl; unfold demo_services; rewrite ?(insert_insert_ne _ SubEngineENS SubEngineUniswapv3Factory) by done.
  all: apply Hgoal; [exact Hp|].
  all: unfold demo_routes, event_hashes.
  all: repeat first [rewrite lookup_empty | rewrite lookup_insert_eq | rewrite lookup_insert_ne by done]; simpl.
  all: rewrite ?(insert_insert_ne _ SubEngineENS SubEngineUniswapv3Factory) by done.
  all: rewrite ?insert_insert_eq, ?insert_empty; try done.
  all: rewrite <-(insert_empty (contract_Address registrar)), <-(insert_empty (contract_Address controller)).
  all: by rewrite (insert_insert_ne _ (contract_Address controller)) by done.
Qed.

End lemmas.

(** Which routes have a log. *)
Lemma demo_routes_log {ABI : Type} (factory registrar controller : Contract ABI) log se :
  NoDup (contract_Address <$> [factory; registrar; controller]) →
  routes_log (demo_routes factory registrar controller) se log = true ↔
  (se = SubEngineUniswapv3Factory ∧ is_event factory log) ∨
  (se = SubEngineENS ∧ (is_event registrar log ∨ is_event controller log)).
Proof.
  intros Hnd. apply NoDup_cons in Hnd as [Hf [Hr _]%NoDup_cons].
  assert (contract_Address registrar ≠ contract_Address controller) as Hne by (intros Heq; apply Hr; rewrite Heq; by left).
  assert (∀ contract : Contract ABI, is_event contract log ↔ takes {[contract_Address contract := event_hashes contract]} log = true)
    as Hev.
  { intros contract. unfold is_event, takes. destruct (log_Topics log) as [|t ts]; [naive_solver|].
    destruct (decide (contract_Address contract = log_Address log)) as [->|].
    - rewrite lookup_singleton_eq, bool_decide_eq_true. naive_solver.
    - rewrite lookup_singleton_ne by done. naive_solver. }
  assert ((is_event registrar log ∨ is_event controller log) ↔
    takes {[contract_Address registrar := event_hashes registrar;
      contract_Address controller := event_hashes controller]} log = true) as Hev'.
  { rewrite !Hev. unfold takes. destruct (log_Topics log) as [|t ts]; [naive_solver|].
    destruct (decide (contract_Address registrar = log_Address log)) as [<-|].
    - rewrite lookup_insert_eq, lookup_singleton_eq, lookup_singleton_ne by done. naive_solver.
    - rewrite lookup_insert_ne, (lookup_singleton_ne (contract_Address registrar)) by done. naive_solver. }
  rewrite Hev', Hev. unfold routes_log, demo_routes.
  destruct (decide (se = SubEngineUniswapv3Factory)) as [->|Hs]; [rewrite lookup_insert_eq; naive_solver|].
  rewrite lookup_insert_ne by done.
  destruct (decide (se = SubEngineENS)) as [->|]; [rewrite lookup_singleton_eq; naive_solver|].
  rewrite lookup_singleton_ne by done. naive_solver.
Qed.

(** The three contracts that main asks for. *)
Definition main_factory `{ABITexts} `{W3Utils ABI} : Contract ABI :=
  NewContract Uniswapv3Factory Uniswapv3FactoryABI Uniswapv3FactoryAddr ["PoolCreated"].
Definition main_registrar `{ABITexts} `{W3Utils ABI} : Contract ABI :=
  NewContract ENSRegistrar EnsRegistrarABI ENSRegistrarAddr ["NameRegistered"; "Transfer"; "NewOwner"; "NewTTL"].
Definition main_controller `{ABITexts} `{W3Utils ABI} : Contract ABI :=
  NewContract ENSController EnsControllerABI ENSControllerAddr ["NameRegistered"].

Lemma DemoContracts_main `{ABITexts} `{W3Utils ABI} :
  DemoContracts [Uniswapv3Factory; ENSRegistrar; ENSController] =
    demo_contracts main_factory main_registrar main_controller.
Proof. reflexivity. Qed.

Lemma demo_routes_disjoint {ABI : Type} (factory registrar controller : Contract ABI) :
  NoDup (contract_Address <$> [factory; registrar; controller]) →
  routes_disjoint (demo_routes factory registrar controller).
Proof.
  intros Hnd log se se'. rewrite !demo_routes_log by done.
  assert (∀ c, is_event factory log → c ∈ [registrar; controller] → ¬ is_event c log) as Hno.
  { intros c [Ha _] Hc [Ha' _]. apply NoDup_cons in Hnd as [Hf _]. apply Hf.
    apply (list_elem_of_fmap contract_Address [registrar; controller]). exists c. split; [by rewrite <-Ha, <-Ha'|done]. }
  assert (is_event factory log → ¬ (is_event registrar log ∨ is_event controller log)) as Hno'.
  { intros Hf [Hr|Hc]; [apply (Hno registrar Hf); [by left|done]|].
    apply (Hno controller Hf); [by right; left|done]. }
  naive_solver.
Qed.

(** * Properties *)

Section properties.
Context `{Gsl} `{MapOrder} `{ABITexts} `{W3Utils ABI}.

(** C20: The routes and services that contractsToServices makes, in whatever order the contracts
    are ranged over: a log belongs to the pool engine when it is an event of the factory, to
    the ENS engine when it is one of the registrar or the controller, and to nobody else; no
    log belongs to two; and each engine is the one made from these contracts. *)
Theorem demo_services_routed i :
  NoDup (contract_Address <$> [main_factory; main_registrar; main_controller]) →
  ∃ addresses routes services,
    contractsToServices i (DemoContracts [Uniswapv3Factory; ENSRegistrar; ENSController]) =
      (addresses, [], routes, services) ∧
    addresses ≡ₚ contract_Address <$> [main_factory; main_registrar; main_controller] ∧
    routes_disjoint routes ∧
    (∀ log se, routes_log routes se log = true ↔
      (se = SubEngineUniswapv3Factory ∧ is_event main_factory log) ∨
      (se = SubEngineENS ∧ (is_event main_registrar log ∨ is_event main_controller log))) ∧
    services !! SubEngineUniswapv3Factory = Some (SubPool (mkPoolEngine main_factory)) ∧
    services !! SubEngineENS = Some (SubENS (mkEnsEngine main_registrar main_controller)).
Proof.
  intros Hnd. assert (contract_Address main_registrar ≠ contract_Address main_controller) as Hne.
  { intros Heq. simpl in Hnd. apply NoDup_cons in Hnd as [_ [Hr _]%NoDup_cons]. apply Hr. rewrite Heq. by left. }
  destruct (contractsToServices_demo i main_factory main_registrar main_controller Hne) as (addresses & Hrun & Hp).
  rewrite DemoContracts_main. eexists addresses, _, _. split; [exact Hrun|]. split; [exact Hp|].
  split; [by apply demo_routes_disjoint|]. split; [intros; by apply demo_routes_log|].
  split; reflexivity.
Qed.

(** C35: The watcher that main makes looks back over no blocks, whatever filter range the
    configuration has, since main does not pass it on: with reorg detection on, its poller is
    one that never reports a reorged block; and its topics are one empty list, since the topics
    that contractsToServices declares for the emitter are never filled. *)
Theorem demo_main_blind `{SortedSet SS} {R C A : Type} i conf chain (r : R) (client : C) :
  chain ≠ EmptyString → cfg_DoReorg conf = true →
  ∃ sw : superWatcher SS C (watcherStateRedisCli R) (watcherStateRedisCli R) (routerEngine (demoSub ABI)) A,
    demo_main i conf chain (Some r) client = Ret sw ∧
    eo_conf (sw_emitter sw) = conf ∧ blind (sw_poller sw) ∧ sw_Topics sw = Some [[]].
Proof.
  intros Hc Hdr. unfold demo_main. rewrite (proj2 (String.eqb_neq _ _) Hc). simpl.
  unfold contractsToServices. simpl. unfold NewSuperWatcherOptions. simpl. rewrite Hdr. simpl.
  eexists. split; [reflexivity|]. simpl. split; [done|]. split; [apply New_blind|]. done.
Qed.

(** Of the three ways that demofunc.go shows, two make the same parts, by NewDefault and one
    by one; the third, by options, makes an emitter without a client, since the client is not
    among its options, and a poller that looks back over no blocks. *)
Lemma demo_ways `{SortedSet SS} {C Gg E A : Type} next conf (client : C) addresses topics
    (gateway : Gg) (service : E) :
  newSuperwatcherFromArgs (SS := SS) (A := A) next conf (Some client) (Some addresses) topics
      (Some gateway) (Some service) =
    newSuperWatcherPreferred next conf (Some client) (Some addresses) topics (Some gateway) (Some service) ∧
  (∃ sw, (newSuperWatcherOptions (SS := SS) (A := A) next conf (Some client) addresses topics gateway service).2 =
      Ret sw ∧ eo_client (sw_emitter sw) = None ∧ po_client (eo_poller (sw_emitter sw)) = None ∧
    (cfg_DoReorg conf = true → blind (sw_poller sw))) ∧
  ∃ e, (newSuperWatcherPreferred (SS := SS) (A := A) next conf (Some client) (Some addresses) topics
      (Some gateway) (Some service)).2.1 = e ∧
    eo_client e = Some client ∧ filterRange (po_poller (eo_poller e)) = FilterRange conf.
Proof.
  split; [done|]. split; [|by eexists].
  unfold newSuperWatcherOptions. simpl. unfold NewSuperWatcherOptions. simpl.
  eexists. split; [reflexivity|]. do 2 (split; [done|]). intros Hdr. simpl. rewrite Hdr. apply New_blind.
Qed.
End properties.
