(* ===== verification/DemoService.v ===== *)
(** The demo service as a whole: the router with both sub-engines, on blocks with logs of both,
    and on the same blocks when they are reorged. *)

From S2P Require Import Prelude GoErrors Types Externals DataGateway FileGateway Engine DemoData PoolGateway.
From S2P Require Import PoolFactory DemoArtifacts PoolFactoryProps Router RouterProps.
From S2P Require Import EnsGateway EnsEngine EnsProps DemoMain DemoMainProps.

#[local] Arguments artifacts_for : simpl never.
#[local] Arguments routed_blocks : simpl never.

(** * Definitions *)

(** The artifacts of a sub-engine in a list, and maps that have no others. *)
Definition own (se : Z) (l : list any) : list any := filter (λ x, ForSubEngine x = Some se) l.
Definition all_own (se : Z) (m : gmap Z (list any)) : Prop :=
  ∀ h, Forall (λ x, ForSubEngine x = Some se) (default [] (m !! h)).

(** The artifacts of both sub-engines, in one order or the other. *)
Definition both (mp me m : gmap Z (list any)) : Prop := m = merged mp me ∨ m = merged me mp.

Section blocks.
Context `{EthText} `{MapOrder} `{AbiUnpack ABI}.
Context (factory registrar controller : Contract ABI).
Abbreviation R := (demo_routes factory registrar controller).

Definition demo_engine : routerEngine (demoSub ABI) :=
  mkRouter R (demo_services factory registrar controller).

(** Blocks in which every log of the factory creates a pool and the logs of the ENS contracts
    register names. *)
Record demo_blocks (blocks : list Block) (ps : list Pool) (regs : list registration) : Prop := {
  db_topics : Forall (λ b, Forall has_topic (Logs b)) blocks;
  db_hashed : blocks_hashed blocks;
  db_pools : Forall2 (created (mkPoolEngine factory))
    (routed_logs R SubEngineUniswapv3Factory (blocks ≫= Logs)) ps;
  db_distinct : NoDup (pool_Address <$> ps);
  db_names : routed_logs R SubEngineENS (blocks ≫= Logs) = regs ≫= reg_logs;
  db_regs : Forall (registers (mkEnsEngine registrar controller)) regs;
  db_differ : regs_differ regs;
}.
End blocks.

(** * Lemmas *)

(** ** Logs and artifacts of one sub-engine *)

Section routed.
Context (R : gmap Z (gmap Z (list Hash))).

Lemma routed_logs_bind se blocks :
  (routed_block R se <$> blocks) ≫= Logs = routed_logs R se (blocks ≫= Logs).
Proof.
  induction blocks as [|b blocks IH]; [done|]. unfold routed_logs in *. cbn [fmap list_fmap mbind list_bind].
  rewrite filter_app. f_equal. exact IH.
Qed.

Lemma routed_blocks_logs se blocks : routed_blocks R se blocks ≫= Logs = routed_logs R se (blocks ≫= Logs).
Proof.
  rewrite <-routed_logs_bind. unfold routed_blocks. induction (routed_block R se <$> blocks) as [|b l IH]; [done|].
  rewrite filter_cons. case_decide as Hb; cbn [mbind list_bind]; rewrite <-IH; [done|].
  by rewrite Hb.
Qed.

Lemma routed_blocks_nil se blocks :
  routed_blocks R se blocks = [] ↔ routed_logs R se (blocks ≫= Logs) = [].
Proof.
  rewrite <-routed_blocks_logs. split; [by intros ->|]. intros Hn.
  destruct (routed_blocks R se blocks) as [|b l] eqn:Eb; [done|].
  assert (b ∈ routed_blocks R se blocks) as [Hb _]%list_elem_of_filter by (rewrite Eb; by left).
  by apply app_eq_nil in Hn as [? _].
Qed.

Lemma routed_hashed se blocks : blocks_hashed blocks → blocks_hashed (routed_block R se <$> blocks).
Proof.
  intros [Hnd Hh]. split.
  - by rewrite <-list_fmap_compose.
  - intros b l (b0 & -> & Hb)%list_elem_of_fmap [_ Hl]%list_elem_of_filter. exact (Hh b0 l Hb Hl).
Qed.

(** What a sub-engine kept for its logs is what it gets back for the whole blocks. *)
Lemma routed_group {A} (f : A → any) se blocks (l : list A) :
  let hashes := log_BlockHash <$> routed_logs R se (blocks ≫= Logs) in
  blocks_hashed blocks → length hashes = length l →
  blocks ≫= (λ b, default [] (group_artifacts ∅ (zip hashes (f <$> l)) !! BHash b)) = f <$> l.
Proof.
  intros hashes Hb Hlen. trans ((routed_block R se <$> blocks) ≫=
    (λ b, (filter (λ x, x.1 = BHash b) (zip hashes (f <$> l))).*2)).
  - rewrite list_fmap_bind. apply bind_ext_in. intros b _. simpl. by rewrite lookup_group, lookup_empty.
  - rewrite grouped_in_order.
    + by rewrite snd_zip by by rewrite length_fmap, Hlen.
    + by apply routed_hashed.
    + rewrite routed_logs_bind. fold hashes. by rewrite fst_zip by by rewrite length_fmap, Hlen.
Qed.
End routed.

Lemma group_own {A} (f : A → any) se hashes (l : list A) :
  (∀ a, ForSubEngine (f a) = Some se) → all_own se (group_artifacts ∅ (zip hashes (f <$> l))).
Proof.
  intros Hf h. rewrite lookup_group, lookup_empty, filter_keys. simpl. apply Forall_fmap, Forall_true. exact Hf.
Qed.

Lemma own_app se l l' : own se (l ++ l') = own se l ++ own se l'.
Proof. apply filter_app. Qed.
Lemma own_all se l : Forall (λ x, ForSubEngine x = Some se) l → own se l = l.
Proof. apply filter_all. Qed.
Lemma own_none se se' l : se ≠ se' → Forall (λ x, ForSubEngine x = Some se) l → own se' l = [].
Proof.
  intros Hne Hl. apply filter_none. eapply Forall_impl; [exact Hl|]. intros x. simpl. congruence.
Qed.

Lemma lookup_merged m m' h : default [] (merged m m' !! h) = default [] (m !! h) ++ default [] (m' !! h).
Proof.
  unfold merged. rewrite lookup_union_with. destruct (m !! h), (m' !! h); simpl; by rewrite ?app_nil_r.
Qed.

Section both.
Context (mp me m : gmap Z (list any)) (Hm : both mp me m).
Context (Hp : all_own SubEngineUniswapv3Factory mp) (He : all_own SubEngineENS me).

Lemma own_pools h : own SubEngineUniswapv3Factory (default [] (m !! h)) = default [] (mp !! h).
Proof.
  destruct Hm as [->| ->]; rewrite lookup_merged, own_app, (own_all _ (default [] (mp !! h))),
    (own_none SubEngineENS _ (default [] (me !! h))) by (done || apply Hp || apply He); by rewrite ?app_nil_r.
Qed.

Lemma own_names h : own SubEngineENS (default [] (m !! h)) = default [] (me !! h).
Proof.
  destruct Hm as [->| ->]; rewrite lookup_merged, own_app, (own_all _ (default [] (me !! h))),
    (own_none SubEngineUniswapv3Factory _ (default [] (mp !! h))) by (done || apply Hp || apply He); by rewrite ?app_nil_r.
Qed.

Lemma both_ok blocks : artifacts_ok (artifacts_of m blocks).
Proof.
  unfold artifacts_ok, artifacts_of. apply Forall_fmap, Forall_true. intros b. eexists. split; [done|].
  assert (∀ h, Forall (λ x, is_Some (ForSubEngine x)) (default [] (mp !! h)) ∧
    Forall (λ x, is_Some (ForSubEngine x)) (default [] (me !! h))) as Hh.
  { intros h. split; [eapply Forall_impl; [exact (Hp h)|]|eapply Forall_impl; [exact (He h)|]];
      intros x Hx; simpl in Hx; rewrite Hx; by eexists. }
  destruct Hm as [->| ->]; rewrite lookup_merged; apply Forall_app; split; apply Hh.
Qed.
End both.

Lemma artifacts_for_of se m blocks :
  artifacts_for se (artifacts_of m blocks) = blocks ≫= λ b, own se (default [] (m !! BHash b)).
Proof. unfold artifacts_for, artifacts_of. by rewrite list_fmap_bind. Qed.

(** The search of the pool engine in the list that the router makes. *)
Lemma find_flat_last (l : list (option nat)) : find_poolArtifact (AnyPool <$> l) = Ret (default None (last l)).
Proof.
  unfold find_poolArtifact. generalize (@None nat) as pa. induction l as [|x l IH]; intros pa; [done|].
  rewrite fmap_cons. cbn [foldM mbind outcome_bind]. rewrite IH, last_cons. by destruct (last l).
Qed.

(** ** One call of the router *)

Section serving.
Context `{EthText} `{MapOrder} `{AbiUnpack ABI}.
Context (factory registrar controller : Contract ABI).
Abbreviation R := (demo_routes factory registrar controller).
Abbreviation engine := (demo_engine factory registrar controller).
Abbreviation world := (demoWorld MockPools MockNames).
Implicit Types (w : world) (blocks : list Block) (ks : list Z).

Lemma served_subs se blocks :
  routed_blocks R se blocks ≠ [] → se = SubEngineUniswapv3Factory ∨ se = SubEngineENS.
Proof.
  intros Hne. destruct (decide (se = SubEngineUniswapv3Factory)) as [|Hp]; [by left|].
  destruct (decide (se = SubEngineENS)) as [|He]; [by right|]. exfalso. apply Hne, routed_blocks_nil.
  apply filter_none, Forall_forall. intros log _. unfold routes_log, demo_routes.
  by rewrite lookup_insert_ne, lookup_singleton_ne by done.
Qed.

(** Both are called, in one order or the other, or one of them, or none. *)
Lemma serve_order_demo blocks ks :
  serve_order engine blocks ks →
  ks ∈ [[]; [SubEngineUniswapv3Factory]; [SubEngineENS];
    [SubEngineUniswapv3Factory; SubEngineENS]; [SubEngineENS; SubEngineUniswapv3Factory]].
Proof.
  intros [Hnd Hks]. assert (∀ se, se ∈ ks → se = SubEngineUniswapv3Factory ∨ se = SubEngineENS) as Hin.
  { intros se Hse%Hks. by eapply served_subs. }
  clear Hks. apply list_elem_of_In. simpl. destruct ks as [|k1 [|k2 [|k3 ks]]]; [by left|..].
  - destruct (Hin k1) as [->| ->]; [by left|auto..].
  - apply NoDup_cons in Hnd as [Hne _]. rewrite list_elem_of_singleton in Hne.
    destruct (Hin k1) as [->| ->]; [by left| |]; (destruct (Hin k2) as [->| ->]; [by right; left|..]); auto 6; done.
  - apply NoDup_cons in Hnd as [Hn1 [Hn2 _]%NoDup_cons].
    rewrite !not_elem_of_cons in Hn1. rewrite !not_elem_of_cons in Hn2.
    destruct (Hin k1), (Hin k2), (Hin k3); subst; naive_solver (repeat constructor).
Qed.

(** A sub-engine does [P] to its part of the world and to its artifacts, whatever the rest of
    the world is, and leaves the rest. *)
Definition does {A B} (mine : world → A) (rest : world → B) (w0 : world)
    (run : world → outcome (world * (option (gmap Z (list any)) * option error)))
    (P : A → gmap Z (list any) → Prop) : Prop :=
  ∀ w, mine w = mine w0 → ∃ w' m, run w = Ret (w', (Some m, None)) ∧ rest w' = rest w ∧ P (mine w') m.

Lemma serve_step handle skips what blocks arts se ks w ret service w' m :
  Services engine !! se = Some service →
  handle service w (routed_blocks R se blocks) (artifacts_for se arts) = Ret (w', (Some m, None)) →
  serve handle skips what engine blocks arts (se :: ks) w ret =
    serve handle skips what engine blocks arts ks w' (merged ret m).
Proof. intros Hs Hh. cbn [serve]. rewrite Hs. change (Routes engine) with R. by rewrite Hh. Qed.

Lemma engine_services :
  Services engine !! SubEngineUniswapv3Factory = Some (SubPool (mkPoolEngine factory)) ∧
  Services engine !! SubEngineENS = Some (SubENS (mkEnsEngine registrar controller)).
Proof. done. Qed.

Lemma merged_from_empty m : merged ∅ m = m.
Proof.
  apply map_eq. intros h. unfold merged. rewrite lookup_union_with, lookup_empty. by destruct (m !! h).
Qed.

(** A number is not in a list of others. *)
Ltac notin := apply (bool_decide_unpack _); vm_compute; exact I.

Lemma serve_both handle skips what blocks arts ks w0 Pp Pe :
  serve_order engine blocks ks →
  (routed_blocks R SubEngineUniswapv3Factory blocks ≠ [] → does pool_part names_part w0
    (λ w, handle (SubPool (mkPoolEngine factory)) w (routed_blocks R SubEngineUniswapv3Factory blocks)
      (artifacts_for SubEngineUniswapv3Factory arts)) Pp) →
  (routed_blocks R SubEngineENS blocks ≠ [] → does names_part pool_part w0
    (λ w, handle (SubENS (mkEnsEngine registrar controller)) w (routed_blocks R SubEngineENS blocks)
      (artifacts_for SubEngineENS arts)) Pe) →
  (routed_blocks R SubEngineUniswapv3Factory blocks = [] → Pp (pool_part w0) ∅) →
  (routed_blocks R SubEngineENS blocks = [] → Pe (names_part w0) ∅) →
  ∃ w' m mp me, serve handle skips what engine blocks arts ks w0 ∅ = Ret (w', inl m) ∧
    Pp (pool_part w') mp ∧ Pe (names_part w') me ∧ both mp me m.
Proof.
  intros Hks Hp He Hp0 He0.
  assert (∀ se, routed_blocks R se blocks ≠ [] ↔ se ∈ ks) as Hin by by intros; symmetry; apply Hks.
  assert (∀ se, se ∉ ks → routed_blocks R se blocks = []) as Hout.
  { intros se Hse. destruct (routed_blocks R se blocks) eqn:Eb; [done|].
    destruct Hse. apply Hin. by rewrite Eb. }
  apply serve_order_demo in Hks. rewrite Hin in Hp, He. clear Hin.
  destruct engine_services as [Hsp Hse]. unfold does in Hp, He.
  apply list_elem_of_In in Hks as [<-|[<-|[<-|[<-|[<-|[]]]]]].
  - eexists w0, ∅, ∅, ∅. split; [done|]. split; [apply Hp0, Hout; notin|]. split; [apply He0, Hout; notin|]. by left.
  - destruct (Hp ltac:(by left) w0) as (w1 & m1 & Hr1 & Hn1 & HP1); [done|].
    exists w1, m1, m1, ∅. rewrite (serve_step _ _ _ _ _ _ _ _ _ _ _ _ Hsp Hr1), merged_from_empty.
    split; [done|]. split; [done|]. rewrite Hn1. split; [apply He0, Hout; notin|]. left. by rewrite merged_empty.
  - destruct (He ltac:(by left) w0) as (w1 & m1 & Hr1 & Hn1 & HP1); [done|].
    exists w1, m1, ∅, m1. rewrite (serve_step _ _ _ _ _ _ _ _ _ _ _ _ Hse Hr1), merged_from_empty.
    split; [done|]. rewrite Hn1. split; [apply Hp0, Hout; notin|]. split; [done|]. right. by rewrite merged_empty.
  - destruct (Hp ltac:(by left) w0) as (w1 & m1 & Hr1 & Hn1 & HP1); [done|].
    destruct (He ltac:(by right; left) w1) as (w2 & m2 & Hr2 & Hn2 & HP2); [done|].
    exists w2, (merged m1 m2), m1, m2. rewrite (serve_step _ _ _ _ _ _ _ _ _ _ _ _ Hsp Hr1),
      merged_from_empty, (serve_step _ _ _ _ _ _ _ _ _ _ _ _ Hse Hr2).
    split; [done|]. rewrite Hn2. split; [done|]. split; [done|]. by left.
  - destruct (He ltac:(by left) w0) as (w1 & m1 & Hr1 & Hn1 & HP1); [done|].
    destruct (Hp ltac:(by right; left) w1) as (w2 & m2 & Hr2 & Hn2 & HP2); [done|].
    exists w2, (merged m1 m2), m2, m1. rewrite (serve_step _ _ _ _ _ _ _ _ _ _ _ _ Hse Hr1),
      merged_from_empty, (serve_step _ _ _ _ _ _ _ _ _ _ _ _ Hsp Hr2).
    split; [done|]. split; [done|]. rewrite Hn2. split; [done|]. by right.
Qed.

(** What good blocks do to the pool engine's part, and to the ENS engine's. *)
Definition pools_saved w ps blocks (part : list PoolFactoryArtifact * MockPools) (m : gmap Z (list any)) : Prop :=
  part = (dw_poolMaps w ++ ((λ p, {[p := PoolFactoryStateCreated]}) <$> ps), foldl mock_set (dw_pools w) ps) ∧
  m = group_artifacts ∅ (zip (log_BlockHash <$> routed_logs R SubEngineUniswapv3Factory (blocks ≫= Logs))
    (new_refs (length (dw_poolMaps w)) ps)).
Definition names_saved w regs (part : list (gmap string Z) * MockNames) (m : gmap Z (list any)) : Prop :=
  ∃ pairs, m = group_artifacts ∅ (keyed (regs ≫= reg_logs) (mjoin pairs)) ∧
    Forall2 (artifacts_pair part.1) regs pairs ∧
    (∀ r, r ∈ regs → mn_m part.2 !! reg_ID r = Some (Some (registered_name r))) ∧
    ∀ id, id ∉ (reg_ID <$> regs) → mn_m part.2 !! id = mn_m (dw_names w) !! id.

Lemma names_other {B} (f : registration → B) regs id : ∀ m : gmap string B,
  id ∉ (reg_ID <$> regs) → foldl (λ m r, <[reg_ID r := f r]> m) m regs !! id = m !! id.
Proof.
  induction regs as [|r regs IH]; intros m Hid; [done|]. rewrite fmap_cons in Hid.
  apply not_elem_of_cons in Hid as [Hne Hid]. simpl. by rewrite IH, lookup_insert_ne.
Qed.

Lemma reg_logs_nil regs : regs ≫= reg_logs = [] → regs = [].
Proof. by destruct regs. Qed.

Lemma router_saves (s : routed world) blocks ps regs :
  routes_disjoint R → demo_blocks factory registrar controller blocks ps regs →
  ∃ s' m mp me, router_HandleGoodBlocks engine s blocks [] = Ret (s', (Some m, None)) ∧
    pools_saved (rt_world s) ps blocks (pool_part (rt_world s')) mp ∧
    names_saved (rt_world s) regs (names_part (rt_world s')) me ∧ both mp me m.
Proof.
  intros Hdis [Ht Hh Hps Hnd Hregs Hreg Hdiff].
  destruct (router_good_serves engine s blocks [] Hdis Ht) as (ks & Hks & Hserves); [by constructor|].
  destruct (serve_both demo_HandleGoodBlocks true " HandleGoodBlock failed" blocks [] ks (rt_world s)
    (pools_saved (rt_world s) ps blocks) (names_saved (rt_world s) regs) Hks) as (w' & m & mp & me & Hrun & Hp & He & Hm).
  - intros _ w [= Hmaps Hpools]. eexists _, _. split; [apply pool_good_run; by rewrite routed_blocks_logs|].
    split; [done|]. rewrite routed_blocks_logs, Hmaps. split; [|done]. unfold pool_part. simpl. by rewrite Hmaps, Hpools.
  - intros _ w [= _ Hw]. destruct (ens_good_run (mkEnsEngine registrar controller) w
      (routed_blocks R SubEngineENS blocks) regs) as (w' & pairs & Hrun & Hpairs & Hpool & Hnames & Hsaved);
      [done|done|by rewrite routed_blocks_logs|].
    eexists w', _. split; [exact Hrun|]. split; [done|]. exists pairs. do 3 (split; [done|]).
    intros id Hid. simpl. by rewrite Hnames, Hw, names_other.
  - intros Hnil%routed_blocks_nil. rewrite Hnil in Hps. apply Forall2_nil_inv_l in Hps as ->.
    unfold pools_saved. rewrite Hnil. simpl. by rewrite app_nil_r.
  - intros Hnil%routed_blocks_nil. rewrite Hnil in Hregs. symmetry in Hregs. apply reg_logs_nil in Hregs as ->.
    exists []. split; [done|]. split; [constructor|]. split; [|done]. by intros r ?%not_elem_of_nil.
  - rewrite Hrun in Hserves. destruct Hserves as [n Hgood]. by exists (mkRouted n w'), m, mp, me.
Qed.

(** What the sub-engines get back of the artifacts of these blocks. *)
Lemma pools_back w part ps blocks mp me m :
  blocks_hashed blocks → pools_saved w ps blocks part mp → all_own SubEngineENS me → both mp me m →
  length ps = length (routed_logs R SubEngineUniswapv3Factory (blocks ≫= Logs)) →
  artifacts_for SubEngineUniswapv3Factory (artifacts_of m blocks) = new_refs (length (dw_poolMaps w)) ps.
Proof.
  intros Hb [_ Hmp] He Hm Hlen. rewrite artifacts_for_of, (bind_ext_in _ (λ b, default [] (mp !! BHash b))).
  2: { intros b _. apply (own_pools _ _ _ Hm); [by rewrite Hmp; apply group_own|done]. }
  rewrite Hmp. unfold new_refs. apply routed_group; [done|]. by rewrite !length_fmap, length_seq, Hlen.
Qed.

Lemma names_back part regs blocks mp me m pairs :
  blocks_hashed blocks → routed_logs R SubEngineENS (blocks ≫= Logs) = regs ≫= reg_logs →
  me = group_artifacts ∅ (keyed (regs ≫= reg_logs) (mjoin pairs)) → Forall2 (artifacts_pair part) regs pairs →
  all_own SubEngineUniswapv3Factory mp → both mp me m →
  artifacts_for SubEngineENS (artifacts_of m blocks) = AnyENS <$> mjoin pairs.
Proof.
  intros Hb Hlogs Hme Hpairs Hp Hm. rewrite artifacts_for_of, (bind_ext_in _ (λ b, default [] (me !! BHash b))).
  2: { intros b _. apply (own_names _ _ _ Hm); [done|by rewrite Hme; apply group_own]. }
  rewrite Hme. unfold keyed. rewrite <-Hlogs. apply routed_group; [done|].
  by rewrite length_fmap, Hlogs, (pairs_length _ _ _ Hpairs).
Qed.

(** What reorged blocks do: the last pool is deleted, and every name. *)
Definition last_pool_deleted (ps : list Pool) (part : list PoolFactoryArtifact * MockPools) (_ : gmap Z (list any)) : Prop :=
  ∀ qs p, ps = qs ++ [p] →
    (∀ q, q ∈ qs → GetPool part.2 (pool_Address q) = Ret (part.2, (Some q, None))) ∧
    GetPool part.2 (pool_Address p) = Ret (part.2, (None, None)).
Definition names_deleted (regs : list registration) (part : list (gmap string Z) * MockNames)
    (_ : gmap Z (list any)) : Prop :=
  ∀ r, r ∈ regs → ∃ err, mock_GetENS part.2 (reg_ID r) = Ret (part.2, (None, err)) ∧
    errors_Is err ErrRecordNotFound = true.

Lemma router_reverts w0 (s : routed world) blocks ps regs m mp me :
  routes_disjoint R → demo_blocks factory registrar controller blocks ps regs →
  pools_saved w0 ps blocks (pool_part (rt_world s)) mp → names_saved w0 regs (names_part (rt_world s)) me →
  both mp me m →
  ∃ s' m', router_HandleReorgedBlocks engine s blocks (artifacts_of m blocks) = Ret (s', (Some m', None)) ∧
    last_pool_deleted ps (pool_part (rt_world s')) ∅ ∧ names_deleted regs (names_part (rt_world s')) ∅.
Proof.
  intros Hdis [Ht Hh Hps Hnd Hlogs Hreg Hdiff] Hpools (pairs & Hme & Hpairs & Hsaved & _) Hm.
  assert (all_own SubEngineUniswapv3Factory mp) as Hmp by (destruct Hpools as [_ ->]; by apply group_own).
  assert (all_own SubEngineENS me) as Hme' by (rewrite Hme; by apply group_own).
  destruct (router_reorged_serves engine s blocks (artifacts_of m blocks) Hdis Ht) as (ks & Hks & Hserves);
    [by eapply both_ok|].
  destruct (serve_both demo_HandleReorgedBlocks false " HandleReorgedBlock failed" blocks (artifacts_of m blocks) ks
    (rt_world s) (last_pool_deleted ps) (names_deleted regs) Hks) as (w' & m' & mp' & me' & Hrun & Hp & He & _).
  - intros Hne w [= Hmaps Hdw]. destruct (exists_last (l := ps)) as (qs & p & ->).
    { intros ->. apply Hne, routed_blocks_nil. by apply Forall2_nil_inv_r in Hps. }
    rewrite (pools_back w0 _ _ _ _ _ _ Hh Hpools Hme' Hm) by (symmetry; by eapply Forall2_length).
    destruct Hpools as [[= Hmaps' Hdw'] _].
    destruct (pool_reorg_run (mkPoolEngine factory) w (routed_blocks R SubEngineUniswapv3Factory blocks)
      (new_refs (length (dw_poolMaps w0)) (qs ++ [p])) qs p (length (dw_poolMaps w0) + length qs))
      as (w' & m' & Hrun & Hnames & Hkept & Hgone).
    + by rewrite routed_blocks_logs.
    + done.
    + unfold new_refs. rewrite find_flat_last, length_app, seq_app, fmap_app. simpl. by rewrite last_snoc.
    + rewrite Hmaps, Hmaps', fmap_app, app_assoc. apply list_lookup_middle. by rewrite length_app, length_fmap.
    + intros q Hq. rewrite Hdw, Hdw'. by apply found_sets.
    + exists w', m'. split; [exact Hrun|]. split; [exact Hnames|]. by intros qs' p' [-> ->]%app_inj_tail.
  - intros _ w [= Hmaps Hdw].
    rewrite (names_back _ _ _ _ _ _ _ Hh Hlogs Hme Hpairs Hmp Hm).
    destruct (ens_reorg_run (mkEnsEngine registrar controller) w (routed_blocks R SubEngineENS blocks)
      (AnyENS <$> mjoin pairs) regs pairs) as (w' & m' & Hrun & Hpool & Hgone);
      [done|done|by rewrite routed_blocks_logs|apply collect_ens|by rewrite Hmaps|by rewrite Hdw|].
    exists w', m'. split; [exact Hrun|]. split; [exact Hpool|exact Hgone].
  - intros Hnil%routed_blocks_nil qs p ->. rewrite Hnil in Hps. apply Forall2_nil_inv_l in Hps. by destruct qs.
  - intros Hnil%routed_blocks_nil r. rewrite Hnil in Hlogs. symmetry in Hlogs.
    apply reg_logs_nil in Hlogs as ->. by intros ?%not_elem_of_nil.
  - rewrite Hrun in Hserves. destruct Hserves as [n Hrev]. by exists (mkRouted n w'), m'.
Qed.
End serving.

(** * Properties *)

Section properties.
Context `{EthText} `{MapOrder} `{AbiUnpack ABI}.
Context (factory registrar controller : Contract ABI).
Implicit Types (s : routed (demoWorld MockPools MockNames)).

(** The whole demo service, on blocks with logs of both sub-engines and whatever order maps are
    ranged over.  The router's call on good blocks returns without error, and every pool that a
    log created and every name that a pair of logs registered is in its repository.  When the
    same blocks are reorged and the router gets back the artifacts that it made, each
    sub-engine finds its own in them: the call returns without error, and every name is gone;
    of the pools only the last one is (see only_last_pool_reverted). *)
Lemma demo_router_round_trip s blocks ps regs :
  NoDup (contract_Address <$> [factory; registrar; controller]) →
  demo_blocks factory registrar controller blocks ps regs →
  ∃ s1 m, router_HandleGoodBlocks (demo_engine factory registrar controller) s blocks [] =
      Ret (s1, (Some m, None)) ∧
    (let w := rt_world s1 in
     (∀ p, p ∈ ps → GetPool (dw_pools w) (pool_Address p) = Ret (dw_pools w, (Some p, None))) ∧
     ∀ r, r ∈ regs → GetENS (dw_names w) (reg_ID r) = Ret (dw_names w, (Some (registered_name r), None))) ∧
    ∃ s2 m2, router_HandleReorgedBlocks (demo_engine factory registrar controller) s1 blocks
        (artifacts_of m blocks) = Ret (s2, (Some m2, None)) ∧
      let w := rt_world s2 in
      (∀ r, r ∈ regs → ∃ err, GetENS (dw_names w) (reg_ID r) = Ret (dw_names w, (None, err)) ∧
        errors_Is err ErrRecordNotFound = true) ∧
      ∀ qs p, ps = qs ++ [p] →
        (∀ q, q ∈ qs → GetPool (dw_pools w) (pool_Address q) = Ret (dw_pools w, (Some q, None))) ∧
        GetPool (dw_pools w) (pool_Address p) = Ret (dw_pools w, (None, None)).
Proof.
  intros Haddr Hblocks. pose proof (demo_routes_disjoint _ _ _ Haddr) as Hdis.
  destruct (router_saves factory registrar controller s blocks ps regs Hdis Hblocks)
    as (s1 & m & mp & me & Hgood & Hpools & Hnames & Hm).
  destruct (router_reverts factory registrar controller (rt_world s) s1 blocks ps regs m mp me)
    as (s2 & m2 & Hrev & Hdel & Hgone); [done..|].
  exists s1, m. split; [exact Hgood|]. split; [split|].
  - intros p Hp. destruct Hpools as [[= _ Hdw] _]. simpl. rewrite Hdw, mock_GetPool_found, found_sets; [done| |done].
    by apply Hblocks.
  - intros r Hr. destruct Hnames as (pairs & _ & _ & Hsaved & _). specialize (Hsaved r Hr). simpl in *.
    unfold mock_GetENS. by rewrite Hsaved.
  - exists s2, m2. split; [exact Hrev|]. split; [exact Hgone|exact Hdel].
Qed.
End properties.
