(* ===== verification/DemoWatcher.v ===== *)
(** superwatcher's engine with the demo service behind it: a chain is handled and then replaced,
    and the repositories follow it. *)

From S2P Require Import Prelude GoErrors Types Externals SortedSet BlockTracker DataGateway EngineStates MetadataTracker.
From S2P Require Import Engine EngineSpec EngineProps EngineRuns EngineArtifacts System.
From S2P Require Import FileGateway DemoData PoolGateway PoolFactory DemoArtifacts PoolFactoryProps Router RouterProps.
From S2P Require Import EnsGateway EnsEngine EnsProps DemoMain DemoMainProps DemoService.

(** * Lemmas *)

(** ** A new engine and the turn that undoes its first *)

Section engine.
Context `{SortedSet SS} `{HashText} {W A : Type} `{!ServiceEngine W A} `{!SetStateDataGateway W}.
Implicit Types (t : metadataTracker SS A) (r : PollerResult).

Lemma new_knows_nothing h : meta_of (newMetadataTracker (SS := SS) (A := A)) h = None.
Proof. unfold meta_of, ref_of. simpl. by rewrite ss_New_spec. Qed.

Lemma result_ok_new r :
  ReorgedBlocks r = [] → distinct (GoodBlocks r) → result_ok (newMetadataTracker (SS := SS) (A := A)) r.
Proof.
  intros Hr Hd. unfold result_ok. rewrite Hr. split; [constructor|]. split; [done|].
  by intros b ?%not_elem_of_nil.
Qed.

Lemma new_does_all r :
  ReorgedBlocks r = [] → to_undo (newMetadataTracker (SS := SS) (A := A)) r = [] ∧
  to_do (newMetadataTracker (SS := SS) (A := A)) r = GoodBlocks r.
Proof.
  intros Hr. unfold to_undo, to_do. rewrite Hr. split; [done|]. apply filter_all, Forall_forall. intros b _.
  unfold state_undone, state_of. by rewrite Hr, new_knows_nothing.
Qed.

(** Blocks that are all handled are all undone, with what is kept for them, and blocks that are
    not known are all done. *)
Lemma replaces_all t r (m : gmap Z (goslice A)) :
  (∀ b, b ∈ ReorgedBlocks r → handled_with t (Block_String b) (Number b) (default None (m !! BHash b))) →
  (∀ b, b ∈ GoodBlocks r → meta_of t (Block_String b) = None) →
  to_undo t r = ReorgedBlocks r ∧
  EngineProps.artifacts_of t <$> to_undo t r = (λ b, default None (m !! BHash b)) <$> ReorgedBlocks r ∧
  to_do t r = GoodBlocks r.
Proof.
  intros Hr Hg. assert (to_undo t r = ReorgedBlocks r) as Hu.
  { apply filter_all, Forall_forall. intros b Hb. destruct (Hr b Hb) as (mb & Hm & _ & Hst & _).
    unfold state_of. by rewrite Hm. }
  split; [done|]. split.
  - rewrite Hu. apply list_fmap_ext. intros i b Hb%list_elem_of_lookup_2. destruct (Hr b Hb) as (mb & Hm & _ & _ & Ha).
    unfold EngineProps.artifacts_of. by rewrite Hm.
  - apply filter_all, Forall_forall. intros b Hb. unfold state_undone, state_of. rewrite (Hg b Hb).
    rewrite decide_False; [done|]. intros (b' & Hb' & Heq)%elem_of_keys. destruct (Hr b' Hb') as (mb & Hm & _).
    rewrite Heq, (Hg b Hb) in Hm. done.
Qed.

Lemma blocks_hashed_distinct blocks : blocks_hashed blocks → distinct blocks.
Proof.
  intros [Hnd _]. unfold distinct.
  change (NoDup (StringerToLowerString ∘ BHash <$> blocks)). rewrite list_fmap_compose. by apply NoDup_fmap_2; [apply _|].
Qed.
End engine.

(** ** Pools that good blocks do not touch *)

Section pools.
Context `{EthText}.

Lemma found_others ps : ∀ s a, a ∉ (pool_Address <$> ps) → found (foldl mock_set s ps) a = found s a.
Proof.
  induction ps as [|p ps IH] using rev_ind; intros s a Ha; [done|]. rewrite fmap_app in Ha.
  apply not_elem_of_app in Ha as [Ha Hp]. rewrite foldl_app. simpl. unfold mock_set at 1. rewrite found_insert.
  rewrite decide_False; [by apply IH|]. intros <-. apply Hp. by left.
Qed.

Lemma mock_GetPool_kept s s' a x :
  found s' a = found s a → mock_GetPool s a = Ret (s, x) → mock_GetPool s' a = Ret (s', x).
Proof. rewrite !mock_GetPool_found. intros ->. destruct (found s a); by intros [= <-]. Qed.
End pools.

(** ** The router as a service *)

Lemma engine_artifacts_of (m : gmap Z (list any)) blocks :
  engine_artifacts (Some ((λ b, default None ((Some <$> m : gmap Z (goslice any)) !! BHash b)) <$> blocks)) =
    DemoArtifacts.artifacts_of m blocks.
Proof.
  unfold engine_artifacts, DemoArtifacts.artifacts_of. simpl. rewrite <-list_fmap_compose.
  apply list_fmap_ext. intros i b _. simpl. rewrite lookup_fmap. by destruct (m !! BHash b).
Qed.

Section watched.
Context `{SortedSet SS} `{EthText} `{MapOrder} `{AbiUnpack ABI} `{!SetStateDataGateway G}.
Context (factory registrar controller : Contract ABI).
Context (Haddr : NoDup (contract_Address <$> [factory; registrar; controller])).
Abbreviation engine := (demo_engine factory registrar controller).
Abbreviation world := (demoWorld MockPools MockNames).
Implicit Types (s : routed world) (t : metadataTracker SS any) (g : G).

Lemma paired_set {S} (x : S) g n g' :
  SetLastRecordedBlock g n = Ret (g', None) → SetLastRecordedBlock (x, g) n = Ret ((x, g'), None).
Proof. intros Hg. simpl. by rewrite Hg. Qed.

(** The router's answers as those of a service of superwatcher. *)
Lemma service_saves s g blocks ps regs :
  demo_blocks factory registrar controller blocks ps regs →
  ∃ s' m mp me,
    HandleGoodBlocks (engine, s, g) blocks (None : goslice (goslice any)) =
      Ret (engine, s', g, ((Some <$> m : gmap Z (goslice any)), None)) ∧
    pools_saved factory registrar controller (rt_world s) ps blocks (pool_part (rt_world s')) mp ∧
    names_saved (rt_world s) regs (names_part (rt_world s')) me ∧ both mp me m.
Proof.
  intros Hb. destruct (router_saves factory registrar controller s blocks ps regs)
    as (s' & m & mp & me & Hrun & Hsaved); [by apply demo_routes_disjoint|done|].
  exists s', m, mp, me. split; [|done]. simpl. change (engine_artifacts None) with (@nil any).
  by rewrite Hrun.
Qed.

Lemma service_reverts w0 s g blocks ps regs m mp me :
  demo_blocks factory registrar controller blocks ps regs →
  pools_saved factory registrar controller w0 ps blocks (pool_part (rt_world s)) mp →
  names_saved w0 regs (names_part (rt_world s)) me → both mp me m →
  ∃ s' m',
    HandleReorgedBlocks (engine, s, g) blocks
        (Some ((λ b, default None ((Some <$> m : gmap Z (goslice any)) !! BHash b)) <$> blocks)) =
      Ret (engine, s', g, (m', None)) ∧
    last_pool_deleted ps (pool_part (rt_world s')) ∅ ∧ names_deleted regs (names_part (rt_world s')) ∅.
Proof.
  intros Hb Hp He Hm. destruct (router_reverts factory registrar controller w0 s blocks ps regs m mp me)
    as (s' & m' & Hrun & Hdel); [by apply demo_routes_disjoint|done..|].
  exists s', (Some <$> m'). split; [|done]. unfold HandleReorgedBlocks, paired_service, demo_ServiceEngine_of. simpl.
  by rewrite engine_artifacts_of, Hrun.
Qed.

(** What was saved is found. *)
Lemma pools_there blocks ps regs (w w' : world) mp :
  demo_blocks factory registrar controller blocks ps regs →
  pools_saved factory registrar controller w ps blocks (pool_part w') mp →
  ∀ p, p ∈ ps → GetPool (dw_pools w') (pool_Address p) = Ret (dw_pools w', (Some p, None)).
Proof.
  intros Hb [[= _ Hdw] _] p Hp. simpl. rewrite Hdw, mock_GetPool_found, found_sets; [done|by apply Hb|done].
Qed.

Lemma names_there (w w' : world) regs me :
  names_saved w regs (names_part w') me →
  ∀ r, r ∈ regs → GetENS (dw_names w') (reg_ID r) = Ret (dw_names w', (Some (registered_name r), None)).
Proof.
  intros (pairs & _ & _ & Hsaved & _) r Hr. specialize (Hsaved r Hr). simpl in *. unfold mock_GetENS.
  by rewrite Hsaved.
Qed.

Lemma mock_GetENS_same (n n' : MockNames) id x :
  mn_m n' !! id = mn_m n !! id → mock_GetENS n id = Ret (n, x) → mock_GetENS n' id = Ret (n', x).
Proof. unfold mock_GetENS. intros ->. by destruct (mn_m n !! id) as [[saved|]|]; intros [= <-]. Qed.

(** The engine's turns: the first on a new tracker, and one that replaces all of its blocks. *)
Lemma first_turn c s g r ps regs :
  (∀ g n, ∃ g', SetLastRecordedBlock g n = Ret (g', None)) →
  ReorgedBlocks r = [] → GoodBlocks r ≠ [] → demo_blocks factory registrar controller (GoodBlocks r) ps regs →
  (∀ b, b ∈ GoodBlocks r → ¬ forgotten c r (Number b)) →
  ∃ t' s' g' evs m mp me,
    handle_result c newMetadataTracker (engine, s, g) r = Ret (t', (engine, s', g'), (evs, None)) ∧
    pools_saved factory registrar controller (rt_world s) ps (GoodBlocks r) (pool_part (rt_world s')) mp ∧
    names_saved (rt_world s) regs (names_part (rt_world s')) me ∧ both mp me m ∧ mt_wf t' ∧
    (∀ b, b ∈ GoodBlocks r → handled_with t' (Block_String b) (Number b)
      (default None ((Some <$> m : gmap Z (goslice any)) !! BHash b))) ∧
    ∀ h, h ∉ keys (GoodBlocks r) → meta_of t' h = None.
Proof.
  intros Hset Hr Hne Hb Hf. destruct (service_saves s g (GoodBlocks r) ps regs Hb) as (s' & m & mp & me & Hrun & Hp & He & Hm).
  destruct (Hset g (LastGood r)) as [g' Hg'].
  assert (distinct (GoodBlocks r)) as Hd by by apply blocks_hashed_distinct, Hb.
  pose proof (result_ok_new (SS := SS) (A := any) r Hr Hd) as Hok.
  destruct (new_does_all (SS := SS) (A := any) r Hr) as [Hundo Hdo].
  assert (turn_answers newMetadataTracker r (engine, s, g) (engine, s', g) ∅ (Some <$> m : gmap Z (goslice any)))
    as Hans.
  { exists (engine, s, g). unfold served. rewrite Hundo, Hdo. split; [done|]. by rewrite decide_False. }
  destruct (handle_result_served c newMetadataTracker (engine, s, g) r (engine, s', g) (engine, s', g') ∅
    (Some <$> m : gmap Z (goslice any))) as (t' & Hturn & Hwf & Hk & _);
    [apply newMetadataTracker_wf|exact Hok|exact Hans|exact (paired_set _ _ _ _ Hg')|].
  eexists t', s', g', _, m, mp, me. split; [exact Hturn|]. do 4 (split; [done|]). split.
  - intros b Hbin. exact (proj2 (turn_handles _ _ _ _ _ _ _ b _ _ _ newMetadataTracker_wf Hok Hans Hturn Hbin
      (new_knows_nothing _) (Hf b Hbin))).
  - intros h Hh. specialize (Hk h). unfold known_done, number_known in Hk. rewrite new_knows_nothing in Hk.
    rewrite filter_none in Hk; [by destruct (meta_of t' h)|]. apply Forall_forall. intros b Hbin <-.
    apply Hh, elem_of_keys. by exists b.
Qed.

Lemma replacing_turn c w0 t s g r ps regs ps' regs' m mp me :
  (∀ g n, ∃ g', SetLastRecordedBlock g n = Ret (g', None)) → mt_wf t →
  ReorgedBlocks r ≠ [] → GoodBlocks r ≠ [] →
  demo_blocks factory registrar controller (ReorgedBlocks r) ps regs →
  demo_blocks factory registrar controller (GoodBlocks r) ps' regs' →
  pools_saved factory registrar controller w0 ps (ReorgedBlocks r) (pool_part (rt_world s)) mp →
  names_saved w0 regs (names_part (rt_world s)) me → both mp me m →
  (∀ b, b ∈ ReorgedBlocks r → handled_with t (Block_String b) (Number b)
    (default None ((Some <$> m : gmap Z (goslice any)) !! BHash b))) →
  (∀ b, b ∈ GoodBlocks r → meta_of t (Block_String b) = None) →
  ∃ t' s' g' evs w1 mp' me',
    handle_result c t (engine, s, g) r = Ret (t', (engine, s', g'), (evs, None)) ∧
    last_pool_deleted ps (pool_part w1) ∅ ∧ names_deleted regs (names_part w1) ∅ ∧
    pools_saved factory registrar controller w1 ps' (GoodBlocks r) (pool_part (rt_world s')) mp' ∧
    names_saved w1 regs' (names_part (rt_world s')) me'.
Proof.
  intros Hset Hwf Hner Hneg Hbr Hbg Hp He Hm Hhandled Hnew.
  destruct (replaces_all t r _ Hhandled Hnew) as (Hundo & Harts & Hdo).
  destruct (service_reverts w0 s g (ReorgedBlocks r) ps regs m mp me) as (s1 & m1 & Hrev & Hdel & Hgone); [done..|].
  destruct (service_saves s1 g (GoodBlocks r) ps' regs' Hbg) as (s' & m2 & mp' & me' & Hgood & Hp' & He' & _).
  destruct (Hset g (LastGood r)) as [g' Hg'].
  assert (result_ok t r) as Hok.
  { split; [by apply blocks_hashed_distinct, Hbr|]. split; [by apply blocks_hashed_distinct, Hbg|].
    intros b Hb. destruct (Hhandled b Hb) as (mb & ? & _). by exists mb. }
  assert (turn_answers t r (engine, s, g) (engine, s', g) m1 (Some <$> m2 : gmap Z (goslice any))) as Hans.
  { exists (engine, s1, g). unfold served. rewrite Harts, Hundo, Hdo, !decide_False by done. by split. }
  destruct (handle_result_served c t (engine, s, g) r (engine, s', g) (engine, s', g') m1
    (Some <$> m2 : gmap Z (goslice any))) as (t' & Hturn & _); [done|exact Hok|exact Hans|exact (paired_set _ _ _ _ Hg')|].
  eexists t', s', g', _, (rt_world s1), mp', me'. split; [exact Hturn|]. done.
Qed.

(** * Properties *)

(** C17: The demo service behind superwatcher's engine.  A new engine handles a chain's blocks,
    and the next result reports all of them as reorged and brings the blocks that replace them.
    Both turns return without error.  After the first every pool and every name of the chain
    is in the repositories.  After the second, with the artifacts that the engine kept and the
    router sorted, every name of the new chain is there and every name of the old chain that
    the new one does not register again is gone; every pool of the new chain is there, but of
    the old chain's pools that it does not create again only the last one is gone: the others
    stay (see only_last_pool_reverted). *)
Theorem demo_service_follows_reorg c s g r1 r2 ps regs ps' regs' :
  (∀ g n, ∃ g', SetLastRecordedBlock g n = Ret (g', None)) →
  ReorgedBlocks r1 = [] → GoodBlocks r1 ≠ [] → demo_blocks factory registrar controller (GoodBlocks r1) ps regs →
  ReorgedBlocks r2 = GoodBlocks r1 → GoodBlocks r2 ≠ [] →
  demo_blocks factory registrar controller (GoodBlocks r2) ps' regs' →
  (∀ b b', b ∈ GoodBlocks r1 → b' ∈ GoodBlocks r2 → BHash b ≠ BHash b') →
  (∀ b, b ∈ GoodBlocks r1 → ¬ forgotten c r1 (Number b)) →
  ∃ t1 s1 g1 evs1, handle_result c newMetadataTracker (engine, s, g) r1 = Ret (t1, (engine, s1, g1), (evs1, None)) ∧
    (let w := rt_world s1 in
     (∀ p, p ∈ ps → GetPool (dw_pools w) (pool_Address p) = Ret (dw_pools w, (Some p, None))) ∧
     ∀ r, r ∈ regs → GetENS (dw_names w) (reg_ID r) = Ret (dw_names w, (Some (registered_name r), None))) ∧
    ∃ t2 s2 g2 evs2, handle_result c t1 (engine, s1, g1) r2 = Ret (t2, (engine, s2, g2), (evs2, None)) ∧
      let w := rt_world s2 in
      (∀ r, r ∈ regs' → GetENS (dw_names w) (reg_ID r) = Ret (dw_names w, (Some (registered_name r), None))) ∧
      (∀ r, r ∈ regs → reg_ID r ∉ reg_ID <$> regs' → ∃ err,
        GetENS (dw_names w) (reg_ID r) = Ret (dw_names w, (None, err)) ∧ errors_Is err ErrRecordNotFound = true) ∧
      (∀ p, p ∈ ps' → GetPool (dw_pools w) (pool_Address p) = Ret (dw_pools w, (Some p, None))) ∧
      ∀ qs p, ps = qs ++ [p] →
        (pool_Address p ∉ pool_Address <$> ps' →
           GetPool (dw_pools w) (pool_Address p) = Ret (dw_pools w, (None, None))) ∧
        ∀ q, q ∈ qs → pool_Address q ∉ pool_Address <$> ps' →
          GetPool (dw_pools w) (pool_Address q) = Ret (dw_pools w, (Some q, None)).
Proof.
  intros Hset Hr1 Hne1 Hb1 Hr2 Hne2 Hb2 Hdiff Hf.
  destruct (first_turn c s g r1 ps regs Hset Hr1 Hne1 Hb1 Hf)
    as (t1 & s1 & g1 & evs1 & m & mp & me & Hrun1 & Hp1 & He1 & Hm & Hwf & Hhandled & Hnew).
  exists t1, s1, g1, evs1. split; [exact Hrun1|]. split.
  { split; [exact (pools_there _ _ _ _ _ _ Hb1 Hp1)|exact (names_there _ _ _ _ He1)]. }
  assert (∀ b, b ∈ GoodBlocks r2 → meta_of t1 (Block_String b) = None) as Hunknown.
  { intros b Hb. apply Hnew. intros (b' & Hb' & Heq%(inj StringerToLowerString))%elem_of_keys. by apply (Hdiff b' b). }
  rewrite <-Hr2 in Hne1, Hb1, Hp1, Hhandled.
  destruct (replacing_turn c (rt_world s) t1 s1 g1 r2 ps regs ps' regs' m mp me Hset Hwf Hne1 Hne2
    Hb1 Hb2 Hp1 He1 Hm Hhandled Hunknown) as (t2 & s2 & g2 & evs2 & w & mp' & me' & Hrun2 & Hdel & Hgone & Hp2 & He2).
  exists t2, s2, g2, evs2. split; [exact Hrun2|]. split; [exact (names_there _ _ _ _ He2)|]. split; [|split].
  - intros r Hr Hid. destruct He2 as (_ & _ & _ & _ & Hother). specialize (Hother _ Hid).
    destruct (Hgone r Hr) as (err & Hget & Herr). exists err. split; [|done]. exact (mock_GetENS_same _ _ _ _ Hother Hget).
  - exact (pools_there _ _ _ _ _ _ Hb2 Hp2).
  - intros qs p Hps. destruct (Hdel qs p Hps) as [Hkept Hlast]. destruct Hp2 as [[= _ Hpools] _].
    split; [intros Hp|intros q Hq Hp]; (eapply mock_GetPool_kept; [rewrite Hpools; by apply found_others|]);
      [exact Hlast|by apply Hkept].
Qed.
End watched.
