(* ===== verification/DemoExamples.v ===== *)
(** The demo service at concrete inputs: instances of what it uses from outside, contracts with
    logs, and the witnesses of the theorems about it. *)

From Stdlib Require Import Ascii.
From S2P Require Import Prelude GoErrors Types SortedSet Externals BlockTracker Poller DataGateway FileGateway.
From S2P Require Import EngineStates MetadataTracker Engine EngineSpec EngineProps System Components ComponentsProps DemoData.
From S2P Require Import PoolGateway RedisGateway PoolFactory DemoArtifacts PoolFactoryProps Router RouterProps EnsGateway EnsEngine.
From S2P Require Import EnsProps DemoMain DemoMainProps DemoService DemoWatcher.

(** * Definitions *)

(** Every second loop over a map goes backwards. *)
#[export, refine] Instance demo_MapOrder : MapOrder := {|
  map_order K V _ _ i m := if Nat.even i then map_to_list m else reverse (map_to_list m);
|}.
Proof. intros K V ? ? i m. destruct (Nat.even i); [done|]. apply reverse_Permutation. Defined.

Lemma pos_text_no_space p : no_space (pos_text p) = true.
Proof. by induction p. Qed.
Lemma Z_text_no_space z : no_space (Z_text z) = true.
Proof. destruct z; [done|..]; apply pos_text_no_space. Qed.

#[export, refine] Instance demo_EthText : EthText := {|
  HashString := Z_text;
  AddressString := Z_text;
  HexToAddress := text_Z;
  gsl_ToLower s := s;
|}.
Proof.
  - done.
  - done.
  - intros a a' Heq. by rewrite <-(text_Z_text a), Heq, text_Z_text.
  - apply Z_text_no_space.
  - apply Z_text_no_space.
Defined.

(** A configuration with a filter range. *)
Definition demo_config : Config := mkConfig EmptyString 1 10 true false 3 1 0 PolicyNormal.

(** A Redis server: the values of keys, and the fields of keys. *)
Record demoRedis : Type := mkRedis {
  rd_values : gmap string string;
  rd_fields : gmap (string * string) string;
}.

Definition found_text (v : option string) : string + error :=
  match v with Some s => inl s | None => inr (ESentinel redis_Nil) end.

#[export, refine] Instance demo_RedisClient : RedisClient demoRedis := {|
  Redis_Set r key value _ := (mkRedis (<[key := value]> (rd_values r)) (rd_fields r), None);
  Redis_Get r key := found_text (rd_values r !! key);
  Redis_Close r := (r, None);
|}.
Proof. intros r key value r' [= <-]. simpl. by rewrite lookup_insert_eq. Defined.

(** Contracts: the pool factory's data are the pool's address; the names' data are a name and
    its expiry. *)
#[export] Instance demo_Abi : AbiUnpack unit := {|
  UnpackIntoMap _ event data :=
    match data with
    | [pool] => inl {["pool" := AbiAddress pool]}
    | [name; expires] => inl {["name" := AbiString (Z_text name); "expires" := AbiBig expires]}
    | _ => inr (ENew "abi: attempting to unmarshall an empty string while arguments are expected")
    end;
|}.
Definition text_number (s : string) : Z := text_Z (String "+"%char s).
#[export] Instance demo_W3Utils : W3Utils unit := {|
  NewContract name _ address events :=
    mkContract (text_number address) () ((λ event, mkContractEvent (text_number event) event) <$> events);
  zero_ABI := ();
|}.
#[export] Instance demo_ABITexts : ABITexts :=
  Build_ABITexts EmptyString EmptyString EmptyString EmptyString EmptyString.

(** ** Logs *)

Definition address_of (c : Contract unit) : Address := contract_Address c.
Definition pool_topic : Hash := text_number "PoolCreated".
Definition name_topic : Hash := text_number "NameRegistered".

Definition pool_log (pool n tx : Z) : Log :=
  mkLog (address_of main_factory) [pool_topic; 21%Z; 22%Z; 3000%Z] [pool] n tx (100 + n).
Definition pool_of (pool n tx : Z) : Pool := mkPool pool 21 22 3000 n (100 + n) tx.
Definition registrar_log (id n tx : Z) : Log :=
  mkLog (address_of main_registrar) [name_topic; id; 31%Z] [7%Z; 1700000000%Z] n tx (100 + n).
Definition controller_log (id n tx : Z) : Log :=
  mkLog (address_of main_controller) [name_topic; id; 32%Z] [id; 1800000000%Z] n tx (100 + n).
Definition demo_block (n : Z) (logs : list Log) : Block := mkBlock false n (100 + n) None logs.

Definition pool_engine : uniswapv3PoolFactoryEngine unit := mkPoolEngine main_factory.
Definition ens_engine : ensEngine unit := mkEnsEngine main_registrar main_controller.
Definition world0 : demoWorld MockPools MockNames :=
  mkDemoWorld [] NewMockDataGatewayPoolFactory [] NewMockDataGatewayENS.

Definition pool_blocks : list Block :=
  [demo_block 5 [pool_log 41 5 51]; demo_block 6 [pool_log 42 6 61; pool_log 43 6 62]].
Definition pools : list Pool := [pool_of 41 5 51; pool_of 42 6 61; pool_of 43 6 62].

Definition reg (id n tx : Z) : registration :=
  mkReg (registrar_log id n tx) (controller_log id n tx) id 32 1800000000 (Z_text id).
Definition regs : list registration := [reg 71 5 52; reg 72 6 63].
Definition ens_blocks : list Block :=
  [demo_block 5 (reg_logs (reg 71 5 52)); demo_block 6 (reg_logs (reg 72 6 63))].

(** Blocks with the logs of both, and others. *)
Definition mixed_blocks : list Block := [
  demo_block 5 (pool_log 41 5 51 :: reg_logs (reg 71 5 52));
  demo_block 6 (mkLog 9 [name_topic] [] 6 60 106 :: reg_logs (reg 72 6 63) ++ [pool_log 42 6 61]);
  demo_block 7 []].
Definition demo_router : routerEngine (demoSub unit) :=
  let '(_, _, routes, services) := contractsToServices 0
    (DemoContracts [Uniswapv3Factory; ENSRegistrar; ENSController]) in mkRouter routes services.

(** * Lemmas *)

Lemma demo_distinct : NoDup (contract_Address <$> [main_factory; main_registrar; main_controller]).
Proof. apply (bool_decide_unpack _). vm_compute. done. Qed.

Lemma demo_router_disjoint : routes_disjoint (Routes demo_router).
Proof.
  destruct (contractsToServices_demo (ABI := unit) 0 main_factory main_registrar main_controller)
    as (addresses & Hrun & _).
  { apply (bool_decide_unpack _). vm_compute. done. }
  unfold demo_router. rewrite DemoContracts_main, Hrun. apply demo_routes_disjoint, demo_distinct.
Qed.

Lemma pools_created : Forall2 (created pool_engine) (pool_blocks ≫= Logs) pools.
Proof.
  repeat (constructor; [by exists (mkContractEvent pool_topic "PoolCreated"), pool_topic|]). constructor.
Qed.

Lemma blocks_hashed_ok blocks :
  bool_decide (NoDup (BHash <$> blocks)) &&
    forallb (λ b, forallb (λ l, log_BlockHash l =? BHash b)%Z (Logs b)) blocks = true → blocks_hashed blocks.
Proof.
  intros [Hnd%bool_decide_eq_true Hh]%andb_true_iff. split; [done|]. intros b l Hb%list_elem_of_In Hl%list_elem_of_In.
  rewrite forallb_forall in Hh. apply Hh in Hb. rewrite forallb_forall in Hb. by apply Z.eqb_eq, Hb.
Qed.

Lemma reg_registers id n tx : registers ens_engine (reg id n tx).
Proof.
  split; [|exists name_topic, 31%Z, 1700000000%Z|exists name_topic|done|done].
  - apply (bool_decide_unpack _). vm_compute. done.
  - split; [by left|]. do 2 (split; [done|]).
    exists {["name" := AbiString (Z_text 7); "expires" := AbiBig 1700000000]}. split; [done|].
    apply map_singleton_subseteq_l. by rewrite lookup_insert_ne, lookup_singleton_eq.
  - do 3 (split; [done|]). by eexists.
Qed.

(** * Witnesses *)

Lemma redis_gateway_refines_witness :
  StateDataGateway (watcherStateRedisCli demoRedis) ∧
  let s := NewRedisWatcherStateDataGateway "demoservice:bsc" (mkRedis ∅ ∅) in
  (∃ err, GetLastRecordedBlock s = Ret (s, (0%Z, err)) ∧ errors_Is err ErrRecordNotFound = true) ∧
  ∃ s', SetLastRecordedBlock s 16054000 = Ret (s', None) ∧
    GetLastRecordedBlock s' = Ret (s', (16054000%Z, None)).
Proof.
  destruct (redis_gateway_refines (R := demoRedis)) as [Hgw Herr]. split; [exact Hgw|]. intros s. split.
  - destruct (Herr s (ESentinel redis_Nil) eq_refl) as (err & Hg & He). exists err. split; [exact Hg|].
    by apply He.
  - eexists. split; [reflexivity|]. by vm_compute.
Defined.

Lemma pool_good_blocks_witness : ∃ w' m,
  pool_HandleGoodBlocks pool_engine world0 pool_blocks [] = Ret (w', (Some m, None)) ∧
  dw_pools w' = foldl mock_set NewMockDataGatewayPoolFactory pools.
Proof.
  destruct (pool_good_blocks pool_engine world0 pool_blocks [] pools pools_created) as (w' & m & Hrun & Hp & _).
  by exists w', m.
Defined.

Lemma only_last_pool_reverted_witness : ∃ w1 m w2 m2,
  pool_HandleGoodBlocks pool_engine world0 pool_blocks [] = Ret (w1, (Some m, None)) ∧
  pool_HandleReorgedBlocks pool_engine w1 pool_blocks (artifacts_of m pool_blocks) = Ret (w2, (Some m2, None)) ∧
  GetPool (dw_pools w2) 41%Z = Ret (dw_pools w2, (Some (pool_of 41 5 51), None)) ∧
  GetPool (dw_pools w2) 42%Z = Ret (dw_pools w2, (Some (pool_of 42 6 61), None)) ∧
  GetPool (dw_pools w2) 43%Z = Ret (dw_pools w2, (None, None)).
Proof.
  destruct (pool_HandleGoodBlocks pool_engine world0 pool_blocks []) as [[w1 [[m|] [err|]]]| |] eqn:Hrun;
    try by (vm_compute in Hrun; discriminate Hrun).
  destruct (only_last_pool_reverted pool_engine world0 pool_blocks [] [pool_of 41 5 51; pool_of 42 6 61]
    (pool_of 43 6 62) w1 m) as (w2 & m2 & Hrev & Hkept & Hgone).
  - exact pools_created.
  - apply (bool_decide_unpack _). vm_compute. done.
  - by apply blocks_hashed_ok.
  - exact Hrun.
  - exists w1, m, w2, m2. split; [done|]. split; [exact Hrev|]. split; [|split].
    + apply (Hkept (pool_of 41 5 51)). by left.
    + apply (Hkept (pool_of 42 6 61)). by right; left.
    + exact Hgone.
Defined.

Lemma router_partitions_witness : ∃ n m, mapBlocksToSubEngine demo_router 0 mixed_blocks = Ret (n, m) ∧
  m !! SubEngineUniswapv3Factory =
    Some [demo_block 5 [pool_log 41 5 51]; demo_block 6 [pool_log 42 6 61]] ∧
  m !! SubEngineENS = Some ens_blocks ∧ m !! SubEngineInvalid = None.
Proof.
  destruct (router_partitions demo_router 0 mixed_blocks demo_router_disjoint) as [(n & m & Hrun & Hm) _].
  { repeat constructor; done. }
  exists n, m. split; [exact Hrun|]. rewrite !Hm. repeat split; vm_compute; reflexivity.
Defined.


Lemma demo_services_routed_witness : ∃ addresses routes services,
  contractsToServices 1 (DemoContracts [Uniswapv3Factory; ENSRegistrar; ENSController]) =
    (addresses, [], routes, services) ∧ routes_disjoint routes ∧
  services !! SubEngineENS = Some (SubENS ens_engine).
Proof.
  destruct (demo_services_routed (ABI := unit) 1 demo_distinct)
    as (addresses & routes & services & Hrun & _ & Hd & _ & _ & Hs).
  exists addresses, routes, services. split; [exact Hrun|]. split; [exact Hd|exact Hs].
Defined.

Lemma demo_main_blind_witness : ∃ sw : superWatcher MapSet nat (watcherStateRedisCli demoRedis)
    (watcherStateRedisCli demoRedis) (routerEngine (demoSub unit)) any,
  demo_main 0 demo_config "bsc" (Some (mkRedis ∅ ∅)) 0 = Ret sw ∧ FilterRange (eo_conf (sw_emitter sw)) = 10%Z ∧
  blind (sw_poller sw) ∧ sw_Topics sw = Some [[]].
Proof.
  destruct (demo_main_blind (ABI := unit) (SS := MapSet) (C := nat) (A := any) 0 demo_config "bsc"
    (mkRedis ∅ ∅) 0) as (sw & Hrun & Hconf & Hrest); [done..|].
  exists sw. split; [exact Hrun|]. split; [by rewrite Hconf|exact Hrest].
Defined.

Lemma ens_names_come_and_go_witness : ∃ w1 m w2 m2,
  ens_HandleGoodBlocks ens_engine world0 ens_blocks [] = Ret (w1, (Some m, None)) ∧
  GetENS (dw_names w1) (Z_text 72) = Ret (dw_names w1, (Some (registered_name (reg 72 6 63)), None)) ∧
  ens_HandleReorgedBlocks ens_engine w1 ens_blocks (artifacts_of m ens_blocks) = Ret (w2, (Some m2, None)) ∧
  ∃ err, GetENS (dw_names w2) (Z_text 72) = Ret (dw_names w2, (None, err)) ∧
    errors_Is err ErrRecordNotFound = true.
Proof.
  assert (reg 72 6 63 ∈ regs) as Hin by by right; left.
  destruct (ens_names_come_and_go ens_engine world0 ens_blocks regs)
    as (w1 & m & Hgood & Hsaved & w2 & m2 & Hrev & Hgone).
  - repeat (constructor; [apply reg_registers|]). constructor.
  - split; apply (bool_decide_unpack _); vm_compute; done.
  - done.
  - by apply blocks_hashed_ok.
  - exists w1, m, w2, m2. split; [exact Hgood|]. split; [exact (Hsaved _ Hin)|].
    split; [exact Hrev|exact (Hgone _ Hin)].
Defined.

Lemma mixed_blocks_ok : demo_blocks main_factory main_registrar main_controller mixed_blocks
  [pool_of 41 5 51; pool_of 42 6 61] regs.
Proof.
  split.
  - repeat constructor; done.
  - by apply blocks_hashed_ok.
  - change (routed_logs _ _ _) with [pool_log 41 5 51; pool_log 42 6 61].
    repeat (constructor; [by exists (mkContractEvent pool_topic "PoolCreated"), pool_topic|]). constructor.
  - apply (bool_decide_unpack _). vm_compute. done.
  - vm_compute. reflexivity.
  - repeat (constructor; [apply reg_registers|]). constructor.
  - split; apply (bool_decide_unpack _); vm_compute; done.
Qed.

Lemma demo_router_round_trip_witness :
  let e := demo_engine main_factory main_registrar main_controller in
  ∃ s1 m s2 m2, router_HandleGoodBlocks e (mkRouted 0 world0) mixed_blocks [] = Ret (s1, (Some m, None)) ∧
    GetPool (dw_pools (rt_world s1)) 42%Z = Ret (dw_pools (rt_world s1), (Some (pool_of 42 6 61), None)) ∧
    GetENS (dw_names (rt_world s1)) (Z_text 71) =
      Ret (dw_names (rt_world s1), (Some (registered_name (reg 71 5 52)), None)) ∧
    router_HandleReorgedBlocks e s1 mixed_blocks (artifacts_of m mixed_blocks) = Ret (s2, (Some m2, None)) ∧
    (∃ err, GetENS (dw_names (rt_world s2)) (Z_text 71) = Ret (dw_names (rt_world s2), (None, err)) ∧
      errors_Is err ErrRecordNotFound = true) ∧
    GetPool (dw_pools (rt_world s2)) 41%Z = Ret (dw_pools (rt_world s2), (Some (pool_of 41 5 51), None)) ∧
    GetPool (dw_pools (rt_world s2)) 42%Z = Ret (dw_pools (rt_world s2), (None, None)).
Proof.
  destruct (demo_router_round_trip main_factory main_registrar main_controller (mkRouted 0 world0) mixed_blocks
    [pool_of 41 5 51; pool_of 42 6 61] regs demo_distinct mixed_blocks_ok)
    as (s1 & m & Hgood & [Hpools Hnames] & s2 & m2 & Hrev & Hgone & Hdel).
  assert (reg 71 5 52 ∈ regs) as Hin by by left.
  destruct (Hdel [pool_of 41 5 51] (pool_of 42 6 61) eq_refl) as [Hkept Hlast].
  exists s1, m, s2, m2. split; [exact Hgood|]. split; [apply (Hpools (pool_of 42 6 61)); by right; left|].
  split; [exact (Hnames _ Hin)|]. split; [exact Hrev|]. split; [exact (Hgone _ Hin)|].
  split; [apply (Hkept (pool_of 41 5 51)); by left|exact Hlast].
Defined.

(** * The engine with the demo service: two blocks with pools and names are replaced by two others *)

(** The same log in a block of the fork. *)
Definition fork_log (l : Log) : Log :=
  mkLog (log_Address l) (log_Topics l) (log_Data l) (log_BlockNumber l) (log_TxHash l) (log_BlockHash l + 100).
Definition fork_pool (p : Pool) : Pool :=
  mkPool (pool_Address p) (pool_Token0 p) (pool_Token1 p) (pool_Fee p)
    (pool_BlockCreated p) (pool_BlockHash p + 100) (pool_TxHash p).
Definition fork_reg (r : registration) : registration :=
  mkReg (fork_log (r_registrar r)) (fork_log (r_controller r)) (r_id r) (r_owner r) (r_expires r) (r_name r).
Definition fork_block (n : Z) (logs : list Log) : Block := mkBlock false n (200 + n) None (fork_log <$> logs).

(** In the fork the pool 42 and the name 72 are created again, a block earlier, and a new name. *)
Definition fork_blocks : list Block := [
  fork_block 5 (pool_log 42 5 61 :: reg_logs (reg 72 5 63));
  fork_block 6 (reg_logs (reg 73 6 64))].
Definition fork_pools : list Pool := [fork_pool (pool_of 42 5 61)].
Definition fork_regs : list registration := [fork_reg (reg 72 5 63); fork_reg (reg 73 6 64)].

Definition chain_result : PollerResult := mkResult 1 7 7 mixed_blocks [].
Definition fork_result : PollerResult := mkResult 1 7 6 fork_blocks mixed_blocks.

(** * Lemmas *)

Lemma fork_registers id n tx : registers ens_engine (fork_reg (reg id n tx)).
Proof.
  destruct (reg_registers id n tx) as [Hne (key & owner & expires & Hr) (key' & Hc) Htx _].
  split; [exact Hne|exists key, owner, expires; exact Hr|exists key'; exact Hc|exact Htx|done].
Qed.

Lemma fork_blocks_ok : demo_blocks main_factory main_registrar main_controller fork_blocks fork_pools fork_regs.
Proof.
  split.
  - repeat constructor; done.
  - by apply blocks_hashed_ok.
  - change (routed_logs _ _ _) with [fork_log (pool_log 42 5 61)].
    repeat (constructor; [by exists (mkContractEvent pool_topic "PoolCreated"), pool_topic|]). constructor.
  - apply (bool_decide_unpack _). vm_compute. done.
  - vm_compute. reflexivity.
  - repeat (constructor; [apply fork_registers|]). constructor.
  - split; apply (bool_decide_unpack _); vm_compute; done.
Qed.

(** * Witnesses *)

Lemma demo_service_follows_reorg_witness :
  let e := demo_engine main_factory main_registrar main_controller in
  ∃ (t1 t2 : metadataTracker MapSet any) s1 g1 evs1 s2 g2 evs2,
    handle_result demo_config newMetadataTracker (e, mkRouted 0 world0, mkMem 0 false) chain_result =
      Ret (t1, (e, s1, g1), (evs1, None)) ∧
    handle_result demo_config t1 (e, s1, g1) fork_result = Ret (t2, (e, s2, g2), (evs2, None)) ∧
    GetENS (dw_names (rt_world s1)) (Z_text 71) =
      Ret (dw_names (rt_world s1), (Some (registered_name (reg 71 5 52)), None)) ∧
    (∃ err, GetENS (dw_names (rt_world s2)) (Z_text 71) = Ret (dw_names (rt_world s2), (None, err)) ∧
      errors_Is err ErrRecordNotFound = true) ∧
    GetENS (dw_names (rt_world s2)) (Z_text 72) =
      Ret (dw_names (rt_world s2), (Some (registered_name (fork_reg (reg 72 5 63))), None)) ∧
    GetPool (dw_pools (rt_world s2)) 42%Z =
      Ret (dw_pools (rt_world s2), (Some (fork_pool (pool_of 42 5 61)), None)) ∧
    GetPool (dw_pools (rt_world s2)) 41%Z = Ret (dw_pools (rt_world s2), (Some (pool_of 41 5 51), None)).
Proof.
  destruct (demo_service_follows_reorg (SS := MapSet) main_factory main_registrar main_controller demo_distinct
    demo_config (mkRouted 0 world0) (mkMem 0 false) chain_result fork_result [pool_of 41 5 51; pool_of 42 6 61] regs
    fork_pools fork_regs) as (t1 & s1 & g1 & evs1 & Hrun1 & [_ Hnames1] & t2 & s2 & g2 & evs2 & Hrun2 & Hsaved & Hgone &
      Hpools & Hkept).
  - intros g n. by eexists.
  - reflexivity.
  - discriminate.
  - exact mixed_blocks_ok.
  - reflexivity.
  - discriminate.
  - exact fork_blocks_ok.
  - intros b b' Hb Hb'. apply list_elem_of_In in Hb, Hb'. simpl in Hb, Hb'.
    destruct Hb as [<-|[<-|[<-|[]]]], Hb' as [<-|[<-|[]]]; discriminate.
  - intros b Hb. apply list_elem_of_In in Hb. unfold forgotten.
    destruct Hb as [<-|[<-|[<-|[]]]]; apply (bool_decide_unpack _); vm_compute; exact I.
  - exists t1, t2, s1, g1, evs1, s2, g2, evs2. split; [exact Hrun1|]. split; [exact Hrun2|].
    split; [apply (Hnames1 (reg 71 5 52)); by left|].
    split; [apply (Hgone (reg 71 5 52)); [by left|apply (bool_decide_unpack _); vm_compute; exact I]|].
    split; [apply (Hsaved (fork_reg (reg 72 5 63))); by left|].
    split; [apply (Hpools (fork_pool (pool_of 42 5 61))); by left|].
    apply (proj2 (Hkept [pool_of 41 5 51] (pool_of 42 6 61) eq_refl) (pool_of 41 5 51)); [by left|].
    apply (bool_decide_unpack _). vm_compute. exact I.
Defined.
