(* ===== verification/EasyWatcher.v ===== *)
(** internal/thinengine as the engine of a watcher, and examples/easywatcher, the command that
    runs one: its service only records the last good block of each result. *)

From S2P Require Import Prelude GoErrors Types SortedSet Externals EthClient Batch BlockTracker PollUtils.
From S2P Require Import PollPolicy Poller PollerSpec PollRun PollHonest DemoChain PollerProps PollerExamples DataGateway.
From S2P Require Import EmitterBlocks Emitter EmitterProps EmitterClient Watcher EmitterExamples EngineLoop Components.
From S2P Require Import DemoData.

(** * Definitions *)

(** ** The thin engine (internal/thinengine) *)

(** thinEngine has no state of its own.  Its handleResults does not look at nil: on a closed
    channel it calls the service with a nil result, and goes on to the sync. *)
#[export] Instance thin_side {W} `{ThinServiceEngine W} : EngineSide unit W := {|
  side_result _ t w res :=
    '(w, err) ← HandleFilterResult w (Some res);
    Ret (t, w, errors_Wrap err "serviceEngine returned error");
  side_closed t w :=
    '(w, err) ← HandleFilterResult w None;
    Ret (t, w, after_result (errors_Wrap err "serviceEngine returned error"));
  side_error w err := thin_HandleEmitterError w err;
|}.

(** ** The service (examples/easywatcher/cmd/main.go) *)

Section service.
Context {SS : Type → Type} {C : Type} `{SetStateDataGateway G}.
Implicit Types (w : watcherWorld SS C G).

Definition easy_HandleFilterResult w (result : option PollerResult) :
    outcome (watcherWorld SS C G * option error) :=
  match result with
  | None => Panic "nil pointer dereference: result.FromBlock"
  | Some result =>
      '(g, err) ← SetLastRecordedBlock (ww_gateway w) (LastGood result);
      Ret (mkWorld (ww_poller w) (ww_client w) g, errors_Wrap err "failed to set lastRecordedBlock")
  end.

Definition easy_HandleEmitterError w (err : error) : outcome (watcherWorld SS C G * option error) :=
  Ret (w, Some err).

#[export] Instance easy_Service : ThinServiceEngine (watcherWorld SS C G) := {|
  HandleFilterResult := easy_HandleFilterResult;
  thin_HandleEmitterError := easy_HandleEmitterError;
|}.
End service.

(** ** The command *)

Definition easy_conf (nodeURL : string) : Config :=
  mkConfig nodeURL 16720532 10 true true 2 2 2 PolicyExpensive.

Section main.
Context `{SortedSet SS} `{Gsl} `{EthText} {C : Type}.

(** The emitter and the thin engine of main, and the gateway, which both have; [connect] is
    NewEthClient. *)
Definition easy_main (args : list string) (connect : string → C) :
    outcome (emitterObj SS C fakeRedisMem * thinEngineObj fakeRedisMem fakeRedisMem * fakeRedisMem) :=
  nodeURL ← index_at args 1;
  if String.eqb nodeURL EmptyString then Panic "empty eth node URL"
  else
    let conf := easy_conf nodeURL in
    let dataGateway := NewDataGatewayMem (StartBlock conf) true in
    let uniswapV3Addr := [HexToAddress "0x5777d92f208679DB4b9778590Fa3CAB3aC9e2168"] in
    let '(_, (emitter, engine)) := NewThinEngineWithEmitter 0 conf (Some dataGateway) (Some dataGateway)
      (Some uniswapV3Addr) None (Some (connect nodeURL)) (cfg_Policy conf) (Some dataGateway) in
    Ret (emitter, engine, dataGateway).
End main.

(** * Lemmas *)

Section loops.
Context `{HashText} `{EthUtil} `{Gsl} `{EmitterEnv W} `{!EngineSide T W}.
Implicit Types (s : loops T W).

(** An emitter that was shut down does nothing any more. *)
Definition shut_down s : Prop := (∃ err, lp_emitter s = Stopped err) ∧ lp_pending s = [] ∧ lp_open s = false.

Lemma shut_down_step e ctxErr s s' :
  shut_down s → loop_step e ctxErr s s' → shut_down s' ∧
    (lp_results s = ResReceives ∨ lp_results s' = lp_results s).
Proof.
  intros [[err He] [Hp Ho]] Hstep. inversion Hstep; subst; simpl in *; subst; try done.
  - match goal with Hs : emitter_step _ _ (Stopped _) _ _ _ _ |- _ => inversion Hs end.
  - split; [|by left]. split; [by exists err|done].
  - split; [|by right]. split; [by exists err|done].
Qed.

Lemma shut_down_steps e ctxErr s s' :
  loop_steps e ctxErr s s' → shut_down s → lp_results s ≠ ResReceives →
  shut_down s' ∧ lp_results s' = lp_results s.
Proof.
  induction 1 as [|s1 s2 s3 _ IH Hstep]; [done|]. intros Hs Hr.
  destruct (IH Hs Hr) as [Hs2 Hr2]. destruct (shut_down_step e ctxErr s2 s3 Hs2 Hstep) as [Hs3 [Hr3|Hr3]].
  - congruence.
  - split; [done|congruence].
Qed.
End loops.

(** * Properties *)

Section thin.
Context `{HashText} `{EthUtil} `{Gsl} `{EmitterEnv W} `{ThinServiceEngine W}.

(** C37: The thin engine outlives its emitter: when the emitter has shut down and closed its
    channels, handleResults calls the service once more, with a nil result; if the service
    takes it, the goroutine then waits for ever to sync with an emitter that is gone, and never
    shuts the client down. *)
Theorem thin_engine_outlives_emitter e ctxErr (s : loops unit W) w' :
  shut_down s → lp_results s = ResReceives → HandleFilterResult (lp_world s) None = Ret (w', None) →
  ∃ s1, loop_step e ctxErr s s1 ∧ lp_world s1 = w' ∧
    ∀ s2, loop_steps e ctxErr s1 s2 → lp_results s2 = ResSyncs.
Proof.
  intros Hs Hr Hh. pose proof Hs as [[err He] [Hp Ho]].
  destruct s as [st evs o r h t w]. simpl in *. subst.
  assert (loop_step e ctxErr (mkLoops (Stopped err) [] false ResReceives h t w)
    (mkLoops (Stopped err) [] false ResSyncs h t w')) as Hstep.
  { apply loop_results_closed. simpl. by rewrite Hh. }
  exists (mkLoops (Stopped err) [] false ResSyncs h t w'). split; [exact Hstep|]. split; [done|].
  intros s2 Hsteps. destruct (shut_down_step e ctxErr _ _ Hs Hstep) as [Hs1 _].
  by destruct (shut_down_steps e ctxErr _ _ Hsteps Hs1) as [_ ->].
Qed.
End thin.

Section easywatcher.
Context `{SortedSet SS} `{HashText} `{EthUtil} `{Gsl} `{EthClient C}.
Implicit Types (w : watcherWorld SS C fakeRedisMem) (s : statusVar) (e : emitter).


(** The easy watcher ends with the first error: whatever turn fails, engine.Loop returns the
    emitter's error, with the gateway as the turn left it. *)
Lemma easywatcher_ends lf ctxErr e s w w' evs s' err :
  @loop_turn _ _ (watcher_env lf) e s w = Ret (w', (evs, inr (s', err))) →
  ∃ x err', @loop_steps _ _ (watcher_env lf) unit _ e ctxErr
      (at_boundary (InLoopEmit s) ResReceives ErrReceives () w) x ∧
    lp_errors x = ErrReturned (Some err') ∧ lp_world x = w' ∧ lp_results x = ResReceives.
Proof.
  intros Hturn. pose proof (@loop_turn_error _ _ (watcher_env lf) _ _ _ _ _ _ Hturn) as Hevs.
  eexists _, _. split.
  - eapply loop_steps_trans; [apply loop_steps_one, loop_emitter; by apply step_return|].
    eapply loop_steps_trans; [by apply internal_steps|]. by apply loop_steps_one, loop_error.
  - done.
Qed.
End easywatcher.

(** * At concrete inputs *)

(** A service that counts the results that it gets, nil ones too. *)
#[export] Instance count_Env : EmitterEnv nat := {|
  env_GetLastRecordedBlock w := Ret (w, (0%Z, None));
  env_BlockNumber w := Ret (w, (0%Z, None));
  env_Poll w from to := Ret (w, (None, None));
  env_DoReorg w := true;
|}.
#[export] Instance count_Service : ThinServiceEngine nat := {|
  HandleFilterResult w r := Ret (S w, None);
  thin_HandleEmitterError w err := Ret (w, Some err);
|}.

Definition stopped_loops : loops unit nat :=
  mkLoops (Stopped (ENew "context canceled")) [] false ResReceives ErrReceives () 7.

(** * Witnesses *)

Lemma thin_engine_outlives_emitter_witness : ∃ s1,
  loop_step demo_emitter (ENew "context canceled") stopped_loops s1 ∧ lp_world s1 = 8 ∧
  ¬ ∃ s2, loop_steps demo_emitter (ENew "context canceled") s1 s2 ∧ lp_results s2 ≠ ResSyncs.
Proof.
  destruct (thin_engine_outlives_emitter demo_emitter (ENew "context canceled") stopped_loops 8)
    as (s1 & Hs & Hw & Hstuck); [|reflexivity|reflexivity|].
  - split; [by eexists|done].
  - exists s1. split; [exact Hs|]. split; [exact Hw|]. intros (s2 & Hs2 & Hn). by apply Hn, Hstuck.
Defined.

